(* ===== verification/_CoqProject ===== *)
-Q . S2P
Prelude.v
JsString.v
BigNumber.v
Decimal.v
DecimalText.v
LiquityMath.v
DecimalArith.v
Constants.v
Trove.v
TroveTheory.v
Fees.v
StabilityDeposit.v
LQTYStake.v
ReadableLiquity.v
LiquityStore.v
LiquityStoreTheory.v
EthersReadable.v
PolledStore.v
PolledStoreTheory.v
Hints.v
Population.v
Receipts.v
Transactions.v
Batching.v
GraphStore.v
GraphEntities.v
GraphMappings.v
GraphLogic.v
GraphTokens.v
GraphChanges.v
GraphTroves.v
GraphDeposits.v
Validation.v
Managers.v
Views.v
TransactionMonitor.v
JsNumber.v
BondMath.v
BondInfo.v
BondApi.v
BondView.v
AugmentedProvider.v
AugmentedReads.v
ReactBindings.v
Connecting.v
Observation.v
SubgraphClient.v
Liquidation.v
TroveForms.v
RiskyTroves.v
MidlActions.v
BondPanes.v
BorrowerOperations.v
BorrowingAgreement.v
Offers.v
GasHistogram.v
FuzzerChecks.v
Fixture.v
Liqbot.v
