(* ===== verification/Prelude.v ===== *)
(** * Liquity SDK: verification library

    A model of the TypeScript packages of the Liquity repository, with the theorems that make
    them correct.  Paths below are relative to [src/packages].

    ** The program

    [lib-base] is the core: fixed-point decimals, the data of the protocol (Troves, Stability
    deposits, LQTY stakes, fees), the interface through which the protocol is read, and a store
    that keeps the latest state and tells its listeners what changed.  [lib-ethers] implements
    reading, populating and sending over the contracts of the ethers library, with a store that
    polls the chain; [providers] batches the calls it makes.  [subgraph] indexes the events of
    the contracts into entities.  [dev-frontend] validates and edits changes and decides which
    panels are shown.  [fuzzer] drives the system at random, [examples] holds a bot.  The contracts in [contracts] are Solidity; the parts of their arithmetic
    that the SDK recomputes serve as a specification.

    ** The library

    Each file of the library stands for a few source files, with a definition per operation
    under the name it has in the source; classes are Modules.

    - [Prelude] (this file): failures, their monad, automation, lists.  [JsString]: strings.
      [BigNumber]: the interface of the BigNumber package with its documented laws, and an
      instance on the integers that witnesses compute with.
    - [Decimal] ([lib-base/src/Decimal.ts]); theorems in [DecimalText] (what the parser accepts
      and gives, printing and reading back) and [DecimalArith] (rounding, powers: equal to the
      contracts', and how far from the exact power).
    - [LiquityMath]: the contracts' arithmetic on [uint256] with its reverts.  [Constants].
    - [Trove] ([lib-base/src/Trove.ts]); theorems in [TroveTheory]: [apply] undoes [whatChanged],
      [recreate] leads back to the Trove, redistributions compose, ratios agree with the
      contracts, parameters are normalised as documented.  [Fees], [StabilityDeposit],
      [LQTYStake]: the classes with their theorems.
    - [ReadableLiquity]: the reading interface as a record of functions with a class of laws, and
      the cache in front of a reader.
    - [LiquityStore] ([lib-base/src/LiquityStore.ts]), a state monad that keeps what happened
      before a failure, with object identities; theorems in [LiquityStoreTheory]: what an update
      changes and reports, whom a notification calls, the discipline of the update timer.
    - [EthersReadable] ([lib-ethers/src/ReadableEthersLiquity.ts]): the getters over a record of
      contract calls; an instance of the laws of the reading interface.
    - [PolledStore] ([BlockPolledLiquityStore.ts] and the reader in front of the store): blocks,
      timers and reads as events in any order; theorems in [PolledStoreTheory]: the store shows
      the last state taken over, reads through it agree with reads of the contracts, no block is
      forgotten, and what stopping leaves behind.
    - [Hints], [Population] ([PopulatableEthersLiquity.ts]): the search for hints, and the
      requests of all operations with their gas limits.  [Receipts] ([parseLogs.ts] and the
      details of receipts), [Transactions] ([SendableEthersLiquity.ts], [EthersLiquity.ts]): what
      is made of a receipt, and how a call ends.
    - [Batching] ([providers/src/BatchedProvider.ts]): every batched call gets the answer to its
      own call, though not from the sender it names.
      [AugmentedProvider], [AugmentedReads] ([WebSocketAugmentedProvider.ts]): the subscription
      to blocks that moves between a provider and a socket, the listeners that the last block
      heard reaches, the reconnection of the socket, and the requests that wait out lagging nodes.
    - [Connecting] ([lib-ethers/src/EthersLiquityConnection.ts]): from a signer or provider to a
      connection, with every error.  [Observation] ([ObservableEthersLiquity.ts]): watches that
      listen to events and read once they have settled.
    - [ReactBindings] ([lib-react/src]): shallow equality is an equivalence, and what the hooks
      show follows the store up to it.
    - [GraphStore] ([subgraph/schema.graphql]), [GraphEntities] ([subgraph/src/entities]),
      [GraphMappings] ([subgraph/src/mappings]): entities as finite maps, handlers as programs
      that may trap.  [GraphLogic] is a small program logic for them; [GraphTokens],
      [GraphChanges], [GraphTroves] and [GraphDeposits] prove the invariants of balances, of the
      chain of changes and of the counters, and that paired events commute.  [SubgraphClient]
      ([lib-subgraph/src]) reads that store, and agrees with the reader of the contracts.
    - [Validation], [Managers], [Views] ([dev-frontend/src/components]): what the forms accept,
      the reducers that follow the store, the state machines of the panels.  [TroveForms]
      ([Trove/Adjusting.tsx], [Trove/Opening.tsx]): renderings and effects of the forms; the
      change they offer asks for what was typed, and edits survive changes of the Trove.
    - [Liquidation] ([contracts/contracts/TroveManager.sol]): the liquidation of one Trove, the
      reference for [RiskyTroves] ([RiskyTroves.tsx]), whose list allows what the contracts
      liquidate and shows the page requested last.
    - [BorrowerOperations] ([contracts/contracts/BorrowerOperations.sol]): what the contracts accept
      from a borrower, and where it leads.  [BorrowingAgreement]: the form offers what they
      accept, given the reserve that the SDK assumes.  [Offers]: what an offered change does to the
      user and the totals, and that the reason of a refusal is true.
    - [MidlActions] ([Trove/hooks], [Trove/TroveAction.tsx]): an operation as the list of its
      effects; each ends with one transaction sent and waited for, or with a failure shown.
    - [TransactionMonitor] ([dev-frontend/src/components/Transaction.tsx]): the transaction that is
      followed, with the waits and timers of its monitor as events, each together with the
      renders and effects it causes; what is shown is what is waited for, and what starting
      another transaction loses.
    - [JsNumber]: numbers as IEEE 754 doubles, with their reading and printing.  [BondMath],
      [BondInfo], [BondApi], [BondView] ([dev-frontend/src/components/Bonds]): the arithmetic of
      accrual (a bond that breaks even gives its deposit back), what is read of the contracts,
      the transactions (each one attempt, attested by its receipt), and the provider of the page
      as turns of the event loop: its views, its lists, and its synchronization.  [BondPanes]
      ([Bonds/views]): quotes that follow an input, and what is confirmed with them.
    - [GasHistogram], [FuzzerChecks], [Fixture] ([fuzzer/src]): the statistics of a run, the checks
      after every operation (what they accept, exactly), and the random operations themselves over
      a chain that answers transactions: the funder always borrows what it has to hand out.
      [Liqbot] ([examples/src/liqbot.js]): what the bot sends pays for itself, by the gas
      compensation of [Liquidation].

    Components meet at interfaces: [BigNumber] with [BigNumberLaws], [ReadableLiquityF] with
    [ReadableLaws], [SortedTrovesLaws] and [AggregateLaws] state what one part relies on;
    [ethers_readable_laws] discharges the laws that the cache of [ReadableLiquity] is proved
    against, and [PolledStore] reuses [LiquityStore] with the extra state of the subclass.

    ** Conventions

    A function that can throw returns a [result]; a promise is modelled by its outcome, and where
    interleaving matters (store, polling, batching, transactions, listeners, hooks) the turns of the
    event loop are explicit events, so that theorems range over every order.  Loops that wait for
    an answer ([AugmentedReads]) are functions of the list of answers, without a result while they go on.  Objects whose identity the code compares
    carry an address.  JavaScript numbers are integers where the code uses them as such, and
    doubles in the bonds; a number read from user input is its text.  Subgraph counters are 32-bit with wrap-around.

    Fuel: [Decimal.fromString_fuel] has two units because the recursion passes a coefficient
    without exponent ([fromString_error] shows that [OutOfFuel] is never returned); the loops of
    [pow] and [_decPow] get one unit per bit of an exponent that is capped
    ([pow_refines_decPow] shows that both return); [trialsLoop] gets one unit per trial and uses
    fewer ([trialsLoop_spec]); [TransactionMonitor.settle] gets three rounds of effects, after
    which nothing is set any more ([settle_rests]); [RiskyTroves.settle] is two rounds, after
    which the effects change nothing ([pages_settle]), and a form renders once more after its
    effect has set an amount ([followTrove_idle]).  [Fixture.orderLoop] needs as many rounds as
    there are Troves ([orderLoop_ends]).

    ** Parameters

    Code outside the repository is a parameter: BigNumber, the calls of contracts
    ([Contracts], [HintContracts], those of the bonds), gas estimates, decoding of logs, the signer
    and [wait], the chain of the fuzzer with [Math.random], the hooks of the Bitcoin wallet, the Multicall contract, the connections of a provider, the listing of Troves by the
    Graph node, and of graph-ts the division of BigDecimals.  What is assumed of them is
    in classes, each of them inhabited in the library.  The locale-dependent formatting
    of dates is a function.

    ** Not modelled

    Rendering and React wiring of the frontend, except for the reducers, forms and state machines
    above and of [lib-react]; the watches of [lib-subgraph]; the contracts beyond the arithmetic
    mentioned; tests, deployment and gas scripts; the command line of the fuzzer; generated and vendored bindings.  Interface
    declarations have no behaviour of their own. *)

From stdpp Require Export base tactics option list strings gmap.
From Stdlib Require Export ZArith Lia.

Set Default Proof Using "Type".
#[global] Open Scope Z_scope.

(** ** Failures

    Code that can throw returns a [result].  The constructors of [error] are
    the ways the modelled code stops: an explicit [throw new Error(...)], a
    failed [assert], a failure raised by the BigNumber library, an AssemblyScript
    trap (a null or unset value used as if it were set), and exhausted fuel, which
    each fuelled definition is proved never to return. *)

Inductive error :=
| JsError (message : string)
| AssertionError
| BigNumberError
| Trap
| Revert
| OutOfFuel.

#[global] Instance error_eq_dec : EqDecision error.
Proof. solve_decision. Defined.

Inductive result (A : Type) :=
| Ok (a : A)
| Err (e : error).
Arguments Ok {A} a.
Arguments Err {A} e.

#[global] Instance result_eq_dec {A} `{EqDecision A} : EqDecision (result A).
Proof. solve_decision. Defined.

Definition bind {A B} (m : result A) (k : A -> result B) : result B :=
  match m with Ok a => k a | Err e => Err e end.

Definition rmap {A B} (f : A -> B) (m : result A) : result B :=
  bind m (fun a => Ok (f a)).

Declare Scope result_scope.
Delimit Scope result_scope with result.
Notation "'let*' x ':=' m 'in' k" := (bind m (fun x => k))
  (at level 10, x name, m at level 200, k at level 200) : result_scope.
Notation "'let*' ' p ':=' m 'in' k" := (bind m (fun x => match x with p => k end))
  (at level 10, p strict pattern, m at level 200, k at level 200) : result_scope.
Notation "'guard' b 'else' e 'in' k" := (if b then k else Err e)
  (at level 10, b at level 200, e at level 200, k at level 200) : result_scope.
#[global] Open Scope result_scope.

(** [traverse f l] runs [f] on the elements in order and stops at the first
    failure, as a JavaScript [map] whose callback throws does. *)
Fixpoint traverse {A B} (f : A -> result B) (l : list A) : result (list B) :=
  match l with
  | [] => Ok []
  | a :: l => let* b := f a in let* bs := traverse f l in Ok (b :: bs)
  end.

Lemma bind_Ok {A B} (m : result A) (k : A -> result B) b :
  bind m k = Ok b <-> exists a, m = Ok a /\ k a = Ok b.
Proof. destruct m; naive_solver. Qed.

Lemma bind_ret {A} (m : result A) : bind m Ok = m.
Proof. by destruct m. Qed.

Lemma bind_assoc {A B C} (m : result A) (f : A -> result B) (g : B -> result C) :
  bind (bind m f) g = bind m (fun a => bind (f a) g).
Proof. by destruct m. Qed.

Lemma traverse_Ok {A B} (f : A -> result B) l bs :
  traverse f l = Ok bs <-> Forall2 (fun a b => f a = Ok b) l bs.
Proof.
  revert bs; induction l as [|a l IH]; intros bs; simpl; split.
  - intros [= <-]. constructor.
  - by inversion 1.
  - intros (b & Hb & (bs' & Hl & [= <-])%bind_Ok)%bind_Ok.
    constructor; [done | by apply IH].
  - inversion 1 as [|? b ? bs' Hb Hl]; subst. apply IH in Hl. by rewrite Hb, Hl.
Qed.

(** ** Automation *)

Create HintDb liquity discriminated.

(** Inverts every [... = Ok _] hypothesis about a [bind], a test or an [Ok]. *)
Ltac inv_ok :=
  repeat match goal with
  | H : Ok _ = Ok _ |- _ => progress simplify_eq
  | H : Err _ = Ok _ |- _ => discriminate H
  | H : Ok _ = Err _ |- _ => discriminate H
  | H : bind ?m _ = Ok _ |- _ =>
      let a := fresh "v" in let Ha := fresh "Hv" in
      apply bind_Ok in H as (a & Ha & H)
  | H : (if ?b then _ else _) = Ok _ |- _ => destruct b eqn:?
  | H : match ?o with Some _ => _ | None => _ end = Ok _ |- _ => destruct o eqn:?
  end.

(** Case analysis on the boolean integer tests of the goal. *)
Ltac zcase :=
  repeat match goal with
  | |- context [Z.ltb ?a ?b] => destruct (Z.ltb_spec a b)
  | |- context [Z.leb ?a ?b] => destruct (Z.leb_spec a b)
  | |- context [Z.eqb ?a ?b] => destruct (Z.eqb_spec a b)
  | |- context [N.ltb ?a ?b] => destruct (N.ltb_spec a b)
  | |- context [N.leb ?a ?b] => destruct (N.leb_spec a b)
  | |- context [N.eqb ?a ?b] => destruct (N.eqb_spec a b)
  end; simpl; try lia; try (exfalso; lia); try done.
