(* ===== verification/JsString.v ===== *)
(** * JavaScript strings

    The string operations the SDK uses, on UTF-8 encoded [string]s: searching,
    splitting, padding, and positional numerals in base 10 and 16.  All strings
    of the modelled code are ASCII except the infinity sign, for which [js_length]
    counts UTF-16 code units rather than bytes. *)

From S2P Require Import Prelude.
From Stdlib Require Import Ascii String.

Local Open Scope string_scope.
Local Open Scope Z_scope.

#[global] Arguments String.append : simpl nomatch.

(** ** Characters and numerals *)

Definition digit_val (c : ascii) : Z :=
  let n := Z.of_nat (nat_of_ascii c) in
  if (48 <=? n) && (n <=? 57) then n - 48
  else if (97 <=? n) && (n <=? 102) then n - 87
  else -1.

Definition digit_ok (b : Z) (c : ascii) : bool :=
  (0 <=? digit_val c) && (digit_val c <? b).

Definition digit_char (d : Z) : ascii :=
  ascii_of_nat (Z.to_nat (if d <? 10 then d + 48 else d + 87)).

Fixpoint numeral_ok (b : Z) (s : string) : bool :=
  match s with
  | EmptyString => true
  | String c s => digit_ok b c && numeral_ok b s
  end.

Fixpoint numeral_acc (b acc : Z) (s : string) : Z :=
  match s with
  | EmptyString => acc
  | String c s => numeral_acc b (acc * b + digit_val c) s
  end.

Definition numeral_val (b : Z) (s : string) : Z := numeral_acc b 0 s.

Fixpoint numeral_show_go (b : Z) (fuel : nat) (n : Z) (acc : string) : string :=
  match fuel with
  | O => acc
  | S fuel =>
      let acc := String (digit_char (n mod b)) acc in
      if n <? b then acc else numeral_show_go b fuel (n / b) acc
  end.

Definition numeral_show (b n : Z) : string :=
  numeral_show_go b (S (Z.to_nat (Z.log2_up (n + 1)))) n "".

(** ** Searching and slicing *)

Definition is_digit : ascii -> bool := digit_ok 10.

(** The longest prefix of decimal digits, and what follows it. *)
Fixpoint span_digits (s : string) : string * string :=
  match s with
  | EmptyString => ("", "")
  | String c s' =>
      if is_digit c then let '(p, r) := span_digits s' in (String c p, r) else ("", s)
  end.

Fixpoint includes (c : ascii) (s : string) : bool :=
  match s with
  | EmptyString => false
  | String c' s => Ascii.eqb c c' || includes c s
  end.

(** [s.includes(t)] *)
Fixpoint includesString (t s : string) : bool :=
  String.prefix t s || match s with String _ s => includesString t s | "" => false end.

(** [s.split(c)], for a separator of one character. *)
Fixpoint split (c : ascii) (s : string) : list string :=
  match s with
  | EmptyString => [""]
  | String c' s =>
      if Ascii.eqb c c' then "" :: split c s
      else match split c s with
           | [] => [String c' ""]
           | p :: ps => String c' p :: ps
           end
  end.

Fixpoint repeat_char (c : ascii) (n : nat) : string :=
  match n with O => "" | S n => String c (repeat_char c n) end.

(** [s.padStart(n, c)] *)
Definition padStart (n : nat) (c : ascii) (s : string) : string :=
  repeat_char c (n - String.length s) +:+ s.

(** [s.substr(0, n)] *)
Fixpoint take_str (n : nat) (s : string) : string :=
  match n, s with
  | S n, String c s => String c (take_str n s)
  | _, _ => ""
  end.

(** [s.replace(/0*$/, "")] *)
Fixpoint trim_zeros (s : string) : string :=
  match s with
  | EmptyString => ""
  | String c s' =>
      match trim_zeros s' with
      | EmptyString => if Ascii.eqb c "0" then "" else String c ""
      | t => String c t
      end
  end.

(** [xs.join(", ")] *)
Fixpoint join (sep : string) (xs : list string) : string :=
  match xs with
  | [] => ""
  | [x] => x
  | x :: xs => x +:+ sep +:+ join sep xs
  end.

(** [s.length]: the bytes of the UTF-8 encoding that do not continue a character.
    Exact for characters of the basic multilingual plane. *)
Fixpoint js_length (s : string) : Z :=
  match s with
  | EmptyString => 0
  | String c s =>
      (if Z.land (Z.of_nat (nat_of_ascii c)) 192 =? 128 then 0 else 1) + js_length s
  end.

(** ** Lemmas *)

Lemma append_nil_r s : s +:+ "" = s.
Proof. induction s as [|c s IH]; simpl; congruence. Qed.

Lemma append_assoc s t u : (s +:+ t) +:+ u = s +:+ t +:+ u.
Proof. induction s as [|c s IH]; simpl; congruence. Qed.

Lemma length_append s t :
  String.length (s +:+ t) = (String.length s + String.length t)%nat.
Proof. induction s as [|c s IH]; simpl; congruence. Qed.

Lemma length_repeat_char c n : String.length (repeat_char c n) = n.
Proof. induction n; simpl; congruence. Qed.

Lemma digit_char_val d : 0 <= d < 16 -> digit_val (digit_char d) = d.
Proof.
  intros Hd.
  assert (In d (List.map Z.of_nat (List.seq 0 16))) as Hin.
  { apply in_map_iff. exists (Z.to_nat d). rewrite in_seq. lia. }
  simpl in Hin. by repeat destruct Hin as [<-|Hin].
Qed.

Lemma digit_char_ok b d : 0 <= d < b -> b <= 16 -> digit_ok b (digit_char d) = true.
Proof.
  intros ??. unfold digit_ok. rewrite digit_char_val by lia.
  apply andb_true_intro; split; [apply Z.leb_le | apply Z.ltb_lt]; lia.
Qed.

Lemma digit_ok_bounds b c : digit_ok b c = true -> 0 <= digit_val c < b.
Proof. unfold digit_ok. intros [?%Z.leb_le ?%Z.ltb_lt]%andb_prop. lia. Qed.

Lemma numeral_ok_app b s t :
  numeral_ok b (s +:+ t) = numeral_ok b s && numeral_ok b t.
Proof. induction s as [|c s IH]; simpl; [done|]. by rewrite IH, andb_assoc. Qed.

Lemma numeral_acc_spec b acc s :
  numeral_acc b acc s = acc * b ^ Z.of_nat (String.length s) + numeral_val b s.
Proof.
  unfold numeral_val. revert acc; induction s as [|c s IH]; intros acc.
  - cbn. lia.
  - cbn [numeral_acc String.length]. rewrite IH, (IH (0 * b + _)).
    rewrite Nat2Z.inj_succ, Z.pow_succ_r by lia. ring.
Qed.

Lemma numeral_val_app b s t :
  numeral_val b (s +:+ t)
  = numeral_val b s * b ^ Z.of_nat (String.length t) + numeral_val b t.
Proof.
  unfold numeral_val at 1 2. generalize 0 as acc.
  induction s as [|c s IH]; intros acc; simpl; [apply numeral_acc_spec | apply IH].
Qed.

Lemma numeral_val_cons b c s :
  numeral_val b (String c s)
  = digit_val c * b ^ Z.of_nat (String.length s) + numeral_val b s.
Proof. exact (numeral_acc_spec b (digit_val c) s). Qed.

Lemma numeral_val_bounds b s :
  0 < b -> numeral_ok b s = true ->
  0 <= numeral_val b s < b ^ Z.of_nat (String.length s).
Proof.
  intros Hb. induction s as [|c s IH]; [by cbn; lia|].
  cbn [numeral_ok]. intros [Hc%digit_ok_bounds Hs]%andb_prop. specialize (IH Hs).
  rewrite numeral_val_cons. cbn [String.length].
  rewrite Nat2Z.inj_succ, Z.pow_succ_r by lia. nia.
Qed.

Lemma numeral_zeros b n : numeral_val b (repeat_char "0" n) = 0.
Proof. induction n as [|n IH]; [done|]. simpl repeat_char. by rewrite numeral_val_cons, IH. Qed.

Lemma numeral_ok_zeros b n : 0 < b -> numeral_ok b (repeat_char "0" n) = true.
Proof.
  intros Hb. induction n as [|n IH]; [done|]. simpl. rewrite IH, andb_true_r.
  unfold digit_ok. change (digit_val "0") with 0.
  apply andb_true_intro; split; [done|]. by apply Z.ltb_lt.
Qed.

(** *** Printing a numeral *)

Section numeral_show.
Context (b : Z) (Hb : 2 <= b <= 16).

Lemma numeral_show_go_spec fuel n acc :
  0 <= n < b ^ Z.of_nat fuel -> numeral_ok b acc = true ->
  let s := numeral_show_go b fuel n acc in
  numeral_ok b s = true /\
  numeral_val b s = n * b ^ Z.of_nat (String.length acc) + numeral_val b acc /\
  (String.length acc <= String.length s)%nat.
Proof.
  revert n acc; induction fuel as [|fuel IH]; intros n acc Hn Hacc; cbn [numeral_show_go]; cbv zeta.
  { cbn in Hn. assert (n = 0) as -> by lia. by rewrite Z.mul_0_l. }
  pose proof (Z.mod_pos_bound n b ltac:(lia)).
  assert (numeral_ok b (String (digit_char (n mod b)) acc) = true) as Hacc'.
  { cbn. by rewrite digit_char_ok by lia. }
  assert (numeral_val b (String (digit_char (n mod b)) acc)
          = (n mod b) * b ^ Z.of_nat (String.length acc) + numeral_val b acc) as Hval.
  { by rewrite numeral_val_cons, digit_char_val by lia. }
  destruct (Z.ltb_spec n b).
  - split_and!; [done | | cbn; lia]. by rewrite Hval, Z.mod_small by lia.
  - rewrite Nat2Z.inj_succ, Z.pow_succ_r in Hn by lia.
    destruct (IH (n / b) (String (digit_char (n mod b)) acc)) as (? & -> & Hlen); [|done|].
    { split; [apply Z.div_pos; lia | apply Z.div_lt_upper_bound; lia]. }
    split_and!; [done | | cbn [String.length] in Hlen; lia].
    rewrite Hval. cbn [String.length]. rewrite Nat2Z.inj_succ, Z.pow_succ_r by lia.
    rewrite (Z.div_mod n b) at 3 by lia. ring.
Qed.

Lemma numeral_show_fuel n : 0 <= n -> n < b ^ Z.of_nat (S (Z.to_nat (Z.log2_up (n + 1)))).
Proof.
  intros Hn. rewrite Nat2Z.inj_succ, Z2Nat.id by apply Z.log2_up_nonneg.
  apply Z.lt_le_trans with (2 ^ Z.succ (Z.log2_up (n + 1))).
  - rewrite Z.pow_succ_r by apply Z.log2_up_nonneg.
    destruct (Z.eq_dec n 0) as [->|]; [done|].
    pose proof (Z.log2_up_spec (n + 1) ltac:(lia)). lia.
  - apply Z.pow_le_mono_l. lia.
Qed.

Lemma numeral_show_ok n : 0 <= n -> numeral_ok b (numeral_show b n) = true.
Proof.
  intros Hn. pose proof (numeral_show_fuel n Hn).
  by destruct (numeral_show_go_spec _ n "" ltac:(split; eassumption) eq_refl).
Qed.

Lemma numeral_show_val n : 0 <= n -> numeral_val b (numeral_show b n) = n.
Proof.
  intros Hn. pose proof (numeral_show_fuel n Hn).
  destruct (numeral_show_go_spec _ n "" ltac:(split; eassumption) eq_refl) as (_ & Hv & _).
  unfold numeral_show. rewrite Hv. cbn. lia.
Qed.

Lemma numeral_show_go_length fuel n acc k :
  0 <= n < b ^ Z.of_nat k -> (0 < k)%nat ->
  (String.length (numeral_show_go b fuel n acc) <= k + String.length acc)%nat.
Proof.
  revert n acc k; induction fuel as [|fuel IH]; intros n acc k Hn Hk; cbn; [lia|].
  destruct (Z.ltb_spec n b); [cbn; lia|].
  destruct k as [|[|k]]; [lia | cbn in Hn; lia |].
  rewrite Nat2Z.inj_succ, Z.pow_succ_r in Hn by lia.
  etrans; [apply (IH _ _ (S k)); [|lia]|cbn; lia].
  split; [apply Z.div_pos; lia | apply Z.div_lt_upper_bound; lia].
Qed.

(** No leading zeros: a number below [b ^ k] takes at most [k] digits. *)
Lemma numeral_show_length n k :
  0 <= n < b ^ Z.of_nat k -> (0 < k)%nat ->
  (String.length (numeral_show b n) <= k)%nat.
Proof.
  intros. unfold numeral_show. etrans; [by apply numeral_show_go_length|]. cbn. lia.
Qed.

Lemma numeral_show_go_grows fuel n acc :
  (String.length acc <= String.length (numeral_show_go b fuel n acc))%nat.
Proof.
  revert n acc; induction fuel as [|fuel IH]; intros n acc; cbn [numeral_show_go]; [done|].
  destruct (n <? b); [cbn; lia|]. etrans; [|apply IH]. cbn. lia.
Qed.

Lemma numeral_show_nonempty n : numeral_show b n <> "".
Proof.
  unfold numeral_show. cbn [numeral_show_go]. destruct (n <? b); [done|].
  intros Heq.
  pose proof (numeral_show_go_grows (Z.to_nat (Z.log2_up (n + 1))) (n / b)
                (String (digit_char (n mod b)) "")) as Hlen.
  rewrite Heq in Hlen. cbn in Hlen. lia.
Qed.
End numeral_show.

(** ** Quotes and thousands separators *)

Definition dquote : string := String (ascii_of_nat 34) "".

(** [s.startsWith(c)] *)
Definition startsWith (c : ascii) (s : string) : bool :=
  match s with String c' _ => Ascii.eqb c c' | EmptyString => false end.

(** [s.substr(1)] *)
Definition drop1 (s : string) : string :=
  match s with String _ s => s | EmptyString => "" end.

(** [s.replace(/(\d)(?=(\d{3})+(?!\d))/g, "$1,")]: a comma after every digit that is
    followed by a run of digits whose length is a positive multiple of three. *)
Fixpoint groupThousands (s : string) : string :=
  match s with
  | EmptyString => ""
  | String c s' =>
      let run := String.length (fst (span_digits s')) in
      if is_digit c && (0 <? Z.of_nat run) && (Z.of_nat run mod 3 =? 0)
      then String c (String "," (groupThousands s'))
      else String c (groupThousands s')
  end.

(** *** Numerals inside other strings *)

Lemma digit_ok_neq b c c' : digit_ok b c = true -> digit_ok b c' = false -> Ascii.eqb c' c = false.
Proof. intros Hc Hc'. apply Ascii.eqb_neq. intros ->. congruence. Qed.

Lemma includes_app c s t : includes c (s +:+ t) = includes c s || includes c t.
Proof. induction s as [|c' s IH]; simpl; [done|]. by rewrite IH, orb_assoc. Qed.

Lemma includes_numeral c s :
  numeral_ok 10 s = true -> is_digit c = false -> includes c s = false.
Proof.
  intros Hs Hc. induction s as [|c' s IH]; [done|].
  simpl in *. apply andb_prop in Hs as [Hc' Hs].
  rewrite (digit_ok_neq 10 c' c) by done. by apply IH.
Qed.

Lemma split_none c s : includes c s = false -> split c s = [s].
Proof.
  induction s as [|c' s IH]; simpl; [done|].
  intros [-> Hs]%orb_false_elim. by rewrite IH.
Qed.

Lemma split_app c s t : includes c s = false -> split c (s +:+ String c t) = s :: split c t.
Proof.
  induction s as [|c' s IH]; simpl.
  - by rewrite Ascii.eqb_refl.
  - intros [-> Hs]%orb_false_elim. by rewrite IH.
Qed.

Lemma span_digits_numeral s : numeral_ok 10 s = true -> span_digits s = (s, "").
Proof.
  induction s as [|c s IH]; simpl; [done|].
  unfold is_digit. intros [-> Hs]%andb_prop. by rewrite IH.
Qed.

Lemma span_digits_app s c t :
  numeral_ok 10 s = true -> is_digit c = false ->
  span_digits (s +:+ String c t) = (s, String c t).
Proof.
  intros Hs Hc. induction s as [|c' s IH]; simpl in *.
  - by rewrite Hc.
  - unfold is_digit at 1. apply andb_prop in Hs as [-> Hs]. by rewrite IH.
Qed.

(** [span_digits] splits off a numeral and stops at a non-digit. *)
Lemma span_digits_spec s p r :
  span_digits s = (p, r) ->
  s = p +:+ r /\ numeral_ok 10 p = true /\
  match r with String c _ => is_digit c = false | EmptyString => True end.
Proof.
  revert p r; induction s as [|c s IH]; simpl; intros p r Hs; [by simplify_eq|].
  destruct (is_digit c) eqn:Hc; [|by simplify_eq].
  destruct (span_digits s) as [p' r'] eqn:Hp. injection Hs as <- <-.
  destruct (IH _ _ eq_refl) as (-> & Hok & Hr). cbn.
  unfold is_digit in Hc. by rewrite Hc, Hok.
Qed.

Lemma js_length_numeral s :
  numeral_ok 10 s = true -> js_length s = Z.of_nat (String.length s).
Proof.
  induction s as [|c s IH]; [done|]. cbn [numeral_ok js_length String.length].
  intros [Hc Hs]%andb_prop. rewrite IH, Nat2Z.inj_succ by done.
  assert ((Z.land (Z.of_nat (nat_of_ascii c)) 192 =? 128) = false) as ->; [|lia].
  by destruct c as [[] [] [] [] [] [] [] []]; try discriminate Hc.
Qed.

Lemma trim_zeros_spec s :
  exists k, s = trim_zeros s +:+ repeat_char "0" k.
Proof.
  induction s as [|c s [k IH]]; [by exists 0%nat|].
  simpl. destruct (trim_zeros s) as [|c' t].
  - destruct (Ascii.eqb_spec c "0") as [->|].
    + exists (S k). simpl in *. congruence.
    + exists k. simpl in *. congruence.
  - exists k. simpl in *. congruence.
Qed.

Lemma take_str_spec n s :
  exists r, s = take_str n s +:+ r /\
  String.length (take_str n s) = Nat.min n (String.length s).
Proof.
  revert s; induction n as [|n IH]; intros [|c s]; simpl; eauto.
  destruct (IH s) as (r & Hr & Hlen). exists r. rewrite <- Hr, Hlen. done.
Qed.
