(* ===== verification/BigNumber.v ===== *)
(** * The BigNumber interface

    [Decimal] is built on [BigNumber] of the [@ethersproject/bignumber] package,
    which is not part of the repository.  This file states what the SDK relies on:
    [BigNumber] lists the operations used, on the integers the objects denote, and
    [BigNumberLaws] their documented behaviour (exact integer arithmetic, division
    that truncates and throws on zero, parsing of decimal and hexadecimal
    numerals, printing without leading zeros).  Everything above this file is
    defined for any [BigNumber] and proved for any [BigNumberLaws];
    [ZBigNumber] shows that the laws can be met and lets examples compute. *)

From S2P Require Import Prelude JsString.
From Stdlib Require Import Ascii String.

Local Open Scope string_scope.
Local Open Scope Z_scope.

Class BigNumber := {
  bn_from : string -> result Z;
  bn_toString : Z -> string;
  bn_toHexString : Z -> string;
  bn_add : Z -> Z -> Z;
  bn_sub : Z -> Z -> Z;
  bn_mul : Z -> Z -> Z;
  bn_div : Z -> Z -> result Z;
  bn_mod : Z -> Z -> result Z;
  bn_pow : Z -> Z -> result Z;
  bn_isNegative : Z -> bool;
  bn_isZero : Z -> bool;
  bn_lt : Z -> Z -> bool;
  bn_eq : Z -> Z -> bool;
  bn_gt : Z -> Z -> bool;
  bn_gte : Z -> Z -> bool;
  bn_lte : Z -> Z -> bool;
  bn_toNumber : Z -> result Z
}.

Class BigNumberLaws (BN : BigNumber) : Prop := {
  bn_from_decimal s :
    numeral_ok 10 s = true -> s <> "" -> bn_from s = Ok (numeral_val 10 s);
  bn_from_hex s :
    numeral_ok 16 s = true -> s <> "" -> bn_from ("0x" +:+ s) = Ok (numeral_val 16 s);
  bn_from_toHexString z : 0 <= z -> bn_from (bn_toHexString z) = Ok z;
  bn_toString_ok z : 0 <= z -> numeral_ok 10 (bn_toString z) = true;
  bn_toString_val z : 0 <= z -> numeral_val 10 (bn_toString z) = z;
  bn_toString_nonempty z : 0 <= z -> bn_toString z <> "";
  bn_toString_length z k :
    0 <= z < 10 ^ Z.of_nat k -> (0 < k)%nat -> (String.length (bn_toString z) <= k)%nat;
  bn_addE x y : bn_add x y = x + y;
  bn_subE x y : bn_sub x y = x - y;
  bn_mulE x y : bn_mul x y = x * y;
  bn_divE x y : y <> 0 -> bn_div x y = Ok (Z.quot x y);
  bn_div_0 x : bn_div x 0 = Err BigNumberError;
  bn_modE x y : 0 <= x -> 0 < y -> bn_mod x y = Ok (x mod y);
  bn_powE x y : 0 <= y -> bn_pow x y = Ok (x ^ y);
  bn_isNegativeE x : bn_isNegative x = (x <? 0);
  bn_isZeroE x : bn_isZero x = (x =? 0);
  bn_ltE x y : bn_lt x y = (x <? y);
  bn_eqE x y : bn_eq x y = (x =? y);
  bn_gtE x y : bn_gt x y = (y <? x);
  bn_gteE x y : bn_gte x y = (y <=? x);
  bn_lteE x y : bn_lte x y = (x <=? y);
  bn_toNumberE z : bn_toNumber z = if Z.abs z <? 2 ^ 53 then Ok z else Err BigNumberError
}.

Create Rewrite HintDb bn.
#[export] Hint Rewrite @bn_addE @bn_subE @bn_mulE @bn_isNegativeE @bn_isZeroE @bn_ltE @bn_eqE
  @bn_gtE @bn_gteE @bn_lteE using typeclasses eauto : bn.

(** On non-negative operands truncating division is floor division. *)
Lemma bn_div_floor `{BNL : BigNumberLaws} x y :
  0 <= x -> 0 < y -> bn_div x y = Ok (x / y).
Proof. intros. rewrite bn_divE by lia. by rewrite Z.quot_div_nonneg. Qed.

(** ** An implementation of the interface *)

Module ZBigNumber.

Definition from (s : string) : result Z :=
  match s with
  | String "0" (String "x" h) =>
      if numeral_ok 16 h && negb (String.eqb h "") then Ok (numeral_val 16 h)
      else Err BigNumberError
  | String "-" d =>
      if numeral_ok 10 d && negb (String.eqb d "") then Ok (- numeral_val 10 d)
      else Err BigNumberError
  | _ =>
      if numeral_ok 10 s && negb (String.eqb s "") then Ok (numeral_val 10 s)
      else Err BigNumberError
  end.

Definition toString (z : Z) : string :=
  if z <? 0 then String "-" (numeral_show 10 (- z)) else numeral_show 10 z.

Definition div (x y : Z) : result Z :=
  if y =? 0 then Err BigNumberError else Ok (Z.quot x y).

Definition modulo (x y : Z) : result Z :=
  if y =? 0 then Err BigNumberError else Ok (x mod Z.abs y).

Definition pow (x y : Z) : result Z :=
  if y <? 0 then Err BigNumberError else Ok (x ^ y).

(** A [number] holds integers of at most 53 bits exactly. *)
Definition toNumber (z : Z) : result Z :=
  if Z.abs z <? 2 ^ 53 then Ok z else Err BigNumberError.

End ZBigNumber.

#[export] Instance ZBN : BigNumber := {|
  bn_from := ZBigNumber.from;
  bn_toString := ZBigNumber.toString;
  bn_toHexString z := "0x" +:+ numeral_show 16 z;
  bn_add := Z.add; bn_sub := Z.sub; bn_mul := Z.mul;
  bn_div := ZBigNumber.div; bn_mod := ZBigNumber.modulo; bn_pow := ZBigNumber.pow;
  bn_isNegative x := x <? 0; bn_isZero x := x =? 0;
  bn_lt := Z.ltb; bn_eq := Z.eqb; bn_gt x y := y <? x; bn_gte x y := y <=? x; bn_lte := Z.leb;
  bn_toNumber := ZBigNumber.toNumber
|}.

Lemma ZBN_from_decimal s :
  numeral_ok 10 s = true -> s <> "" -> ZBigNumber.from s = Ok (numeral_val 10 s).
Proof.
  intros Hok Hne. assert (String.eqb s "" = false) as Hs by by apply String.eqb_neq.
  destruct s as [|c s']; [done|]. pose proof Hok as [Hc Hs']%andb_prop.
  unfold ZBigNumber.from. rewrite Hok, Hs. cbn [andb negb].
  destruct c as [[] [] [] [] [] [] [] []]; try done; try discriminate Hc.
  destruct s' as [|c' s'']; [done|]. cbn in Hs'.
  destruct c' as [[] [] [] [] [] [] [] []]; try done; discriminate Hs'.
Qed.

#[export] Instance ZBN_laws : BigNumberLaws ZBN.
Proof.
  split; simpl; intros.
  - by apply ZBN_from_decimal.
  - unfold ZBigNumber.from. rewrite H. by apply String.eqb_neq in H0 as ->.
  - unfold ZBigNumber.from. rewrite numeral_show_ok by lia.
    rewrite (proj2 (String.eqb_neq _ _) (numeral_show_nonempty 16 z)).
    cbn [andb negb]. by rewrite numeral_show_val by lia.
  - unfold ZBigNumber.toString. zcase. by apply numeral_show_ok.
  - unfold ZBigNumber.toString. zcase. by apply numeral_show_val.
  - unfold ZBigNumber.toString. zcase. by apply numeral_show_nonempty.
  - unfold ZBigNumber.toString. zcase. by apply numeral_show_length.
  - done.
  - done.
  - done.
  - unfold ZBigNumber.div. zcase.
  - done.
  - unfold ZBigNumber.modulo. zcase. by rewrite Z.abs_eq by lia.
  - unfold ZBigNumber.pow. zcase.
  - done.
  - done.
  - done.
  - done.
  - done.
  - done.
  - done.
  - done.
Qed.
