(* ===== verification/Decimal.v ===== *)
(** * Fixed-point decimals

    [packages/lib-base/src/Decimal.ts]: the [Decimal] class (18 fractional digits on
    top of BigNumber), [Difference] and [Percent].  A [Decimal] only exists once its
    private constructor has accepted a non-negative BigNumber, so its field is a
    natural number; [big] reads it back as the BigNumber the operations compute with.

    A [number] argument is represented by the string its [toString()] gives, which is
    all the code uses of it. *)

From S2P Require Import Prelude JsString BigNumber.
From Stdlib Require Import Ascii String.

Local Open Scope string_scope.
Local Open Scope Z_scope.

Record Decimal := mkDecimal { dec_bn : N }.

#[export] Instance Decimal_eq_dec : EqDecision Decimal.
Proof. solve_decision. Defined.

(** The integer of a [Decimal]'s [_bigNumber]. *)
Definition big (d : Decimal) : Z := Z.of_N (dec_bn d).

(** The [Decimal] with a given non-negative integer, in specifications. *)
Definition dec (z : Z) : Decimal := mkDecimal (Z.to_N z).

(** The values [Decimal.from] can be given: the cases of its [switch]. *)
Inductive Decimalish :=
| FromDecimal (d : Decimal)
| FromBigNumber (b : Z)
| FromString (s : string)
| FromNumber (repr : string)
| FromOther.

Coercion FromDecimal : Decimal >-> Decimalish.

(** The format accepted by [_fromString]: decimal digits, an optional point followed by
    decimal digits, and an optional ["e"], sign and non-empty exponent. *)
Definition stringRepresentationFormat (s : string) : bool :=
  let '(_, r) := span_digits s in
  let r := match r with
           | String "." r' => snd (span_digits r')
           | _ => r
           end in
  match r with
  | EmptyString => true
  | String "e" x =>
      let x := match x with
               | String "-" x' => x'
               | String "+" x' => x'
               | _ => x
               end in
      negb (String.eqb x "") && numeral_ok 10 x
  | _ => false
  end.

Definition magnitudes : list string := [""; "K"; "M"; "B"; "T"].

(** The infinity sign, in UTF-8. *)
Definition infinitySign : string :=
  String (ascii_of_nat 226) (String (ascii_of_nat 136) (String (ascii_of_nat 158) "")).

Module Decimal.
Section Decimal.
Context `{BN : BigNumber}.

Definition PRECISION : Z := 18.
Definition ONE_BN : Z := 1.
Definition TEN : Z := 10.

Definition getDigits (numDigits : Z) : result Z := bn_pow TEN numDigits.

(** [DIGITS = getDigits(PRECISION)]: see [DIGITS_init]. *)
Definition DIGITS : Z := 1000000000000000000.

(** The static members: see [statics_init]. *)
Definition INFINITY : Decimal := dec (2 ^ 256 - 1).
Definition ZERO : Decimal := dec 0.
Definition HALF : Decimal := dec 500000000000000000.
Definition ONE : Decimal := dec 1000000000000000000.

Definition MAX_UINT_256 : string :=
  "0xffffffffffffffffffffffffffffffffffffffffffffffffffffffffffffffff".

Definition hex (this : Decimal) : string := bn_toHexString (big this).

Definition roundedMul (x y : Z) : result Z :=
  let* half := bn_from (hex HALF) in
  bn_div (bn_add (bn_mul x y) half) DIGITS.

(** The private constructor. *)
Definition new (bigNumber : Z) : result Decimal :=
  if bn_isNegative bigNumber
  then Err (JsError "negatives not supported by Decimal")
  else Ok (mkDecimal (Z.to_N bigNumber)).

Definition fromBigNumberString (bigNumberString : string) : result Decimal :=
  let* b := bn_from bigNumberString in new b.

Definition badFormat (representation : string) : error :=
  JsError ("bad decimal format: " +:+ dquote +:+ representation +:+ dquote).

(** [_fromString] calls itself on the coefficient, which has no exponent: two units
    of fuel are enough ([fromString_fuel_enough]). *)
Fixpoint fromString_fuel (fuel : nat) (representation : string) : result Decimal :=
  match fuel with
  | O => Err OutOfFuel
  | S fuel =>
      if String.eqb representation "" || negb (stringRepresentationFormat representation)
      then Err (badFormat representation)
      else if includes "e" representation then
        match split "e" representation with
        | coefficient :: exponent :: _ =>
            if startsWith "-" exponent then
              let* c := fromString_fuel fuel coefficient in
              let* e := bn_from (drop1 exponent) in
              let* p := bn_pow TEN e in
              let* q := bn_div (big c) p in
              new q
            else
              let exponent := if startsWith "+" exponent then drop1 exponent else exponent in
              let* c := fromString_fuel fuel coefficient in
              let* e := bn_from exponent in
              let* p := bn_pow TEN e in
              new (bn_mul (big c) p)
        | _ => Err Trap
        end
      else if negb (includes "." representation) then
        let* b := bn_from representation in
        new (bn_mul b DIGITS)
      else
        match split "." representation with
        | characteristic :: mantissa :: _ =>
            let mantissa :=
              if js_length mantissa <? PRECISION
              then mantissa +:+ repeat_char "0" (Z.to_nat (PRECISION - js_length mantissa))
              else take_str (Z.to_nat PRECISION) mantissa in
            let* c := if String.eqb characteristic "" then Ok 0 else bn_from characteristic in
            let* m := bn_from mantissa in
            new (bn_add (bn_mul c DIGITS) m)
        | _ => Err Trap
        end
  end.

Definition _fromString (representation : string) : result Decimal :=
  fromString_fuel 2 representation.

Definition from (decimalish : Decimalish) : result Decimal :=
  match decimalish with
  | FromBigNumber b => _fromString (bn_toString b)
  | FromDecimal d => Ok d
  | FromString s => _fromString s
  | FromNumber repr => _fromString repr
  | FromOther => Err (JsError "invalid Decimalish value")
  end.

(** *** Comparisons: on two [Decimal]s, and with a [Decimalish] converted first *)

Definition isZero (this : Decimal) : bool := bn_isZero (big this).

Definition ltD (this that : Decimal) : bool := bn_lt (big this) (big that).
Definition eqD (this that : Decimal) : bool := bn_eq (big this) (big that).
Definition gtD (this that : Decimal) : bool := bn_gt (big this) (big that).
Definition gteD (this that : Decimal) : bool := bn_gte (big this) (big that).
Definition lteD (this that : Decimal) : bool := bn_lte (big this) (big that).

Definition lt (this : Decimal) (that : Decimalish) : result bool := rmap (ltD this) (from that).
Definition eq (this : Decimal) (that : Decimalish) : result bool := rmap (eqD this) (from that).
Definition gt (this : Decimal) (that : Decimalish) : result bool := rmap (gtD this) (from that).
Definition gte (this : Decimal) (that : Decimalish) : result bool := rmap (gteD this) (from that).
Definition lte (this : Decimal) (that : Decimalish) : result bool := rmap (lteD this) (from that).

Definition zero (this : Decimal) : option Decimal := if isZero this then Some this else None.
Definition nonZero (this : Decimal) : option Decimal :=
  if negb (isZero this) then Some this else None.
Definition infinite (this : Decimal) : option Decimal :=
  if eqD this INFINITY then Some this else None.
Definition finite (this : Decimal) : option Decimal :=
  if negb (eqD this INFINITY) then Some this else None.
Definition absoluteValue (this : Decimal) : Decimal := this.

(** *** Arithmetic *)

Definition add (this : Decimal) (addend : Decimalish) : result Decimal :=
  let* a := from addend in new (bn_add (big this) (big a)).

Definition sub (this : Decimal) (subtrahend : Decimalish) : result Decimal :=
  let* s := from subtrahend in new (bn_sub (big this) (big s)).

Definition mul (this : Decimal) (multiplier : Decimalish) : result Decimal :=
  let* m := from multiplier in
  let* q := bn_div (bn_mul (big this) (big m)) DIGITS in
  new q.

Definition div (this : Decimal) (divider : Decimalish) : result Decimal :=
  let* d := from divider in
  if isZero d then Ok INFINITY
  else let* q := bn_div (bn_mul (big this) DIGITS) (big d) in new q.

Definition _divCeil (this : Decimal) (divider : Decimalish) : result Decimal :=
  let* d := from divider in
  if isZero d then Ok INFINITY
  else
    let* q := bn_div (bn_add (bn_mul (big this) DIGITS) (bn_sub (big d) ONE_BN)) (big d) in
    new q.

Definition mulDiv (this : Decimal) (multiplier divider : Decimalish) : result Decimal :=
  let* m := from multiplier in
  let* d := from divider in
  if isZero d then Ok INFINITY
  else let* q := bn_div (bn_mul (big this) (big m)) (big d) in new q.

(** The loop of [pow]; 32 iterations cover every exponent the asserts let through
    ([powLoop_total]). *)
Fixpoint powLoop (fuel : nat) (x y exponent : Z) : result (Z * Z) :=
  if 1 <? exponent then
    match fuel with
    | O => Err OutOfFuel
    | S fuel =>
        let* y := if Z.land exponent 1 =? 1 then roundedMul x y else Ok y in
        let* x := roundedMul x x in
        powLoop fuel x y (Z.shiftr exponent 1)
    end
  else Ok (x, y).

Definition pow (this : Decimal) (exponent : Z) : result Decimal :=
  guard (0 <=? exponent) && (exponent <=? 4294967295) else AssertionError in
  if exponent =? 0 then Ok ONE
  else if exponent =? 1 then Ok this
  else
    let* '(x, y) := powLoop 32 (big this) DIGITS exponent in
    let* r := roundedMul x y in
    new r.

Definition min (a b : Decimalish) : result Decimal :=
  let* a := from a in let* b := from b in Ok (if ltD a b then a else b).

Definition max (a b : Decimalish) : result Decimal :=
  let* a := from a in let* b := from b in Ok (if gtD a b then a else b).

(** *** Printing *)

Definition _toStringWithAutomaticPrecision (this : Decimal) : result string :=
  let* characteristic := bn_div (big this) DIGITS in
  let* mantissa := bn_mod (big this) DIGITS in
  if bn_isZero mantissa then Ok (bn_toString characteristic)
  else
    let paddedMantissa := padStart (Z.to_nat PRECISION) "0" (bn_toString mantissa) in
    let trimmedMantissa := trim_zeros paddedMantissa in
    Ok (bn_toString characteristic +:+ "." +:+ trimmedMantissa).

Definition _roundUp (this : Decimal) (precision : Z) : result Z :=
  let* d := getDigits (PRECISION - 1 - precision) in
  let halfDigit := bn_mul d 5 in
  Ok (bn_add (big this) halfDigit).

Definition _toStringWithPrecision (this : Decimal) (precision : Z) : result string :=
  guard negb (precision <? 0) else JsError "precision must not be negative" in
  let* value := if precision <? PRECISION then _roundUp this precision else Ok (big this) in
  let* characteristic := bn_div value DIGITS in
  let* mantissa := bn_mod value DIGITS in
  if precision =? 0 then Ok (bn_toString characteristic)
  else
    let paddedMantissa := padStart (Z.to_nat PRECISION) "0" (bn_toString mantissa) in
    let trimmedMantissa := take_str (Z.to_nat precision) paddedMantissa in
    Ok (bn_toString characteristic +:+ "." +:+ trimmedMantissa).

Definition toString (this : Decimal) (precision : option Z) : result string :=
  match infinite this, precision with
  | Some _, _ => Ok infinitySign
  | None, Some precision => _toStringWithPrecision this precision
  | None, None => _toStringWithAutomaticPrecision this
  end.

(** [precision] defaults to 2 in the source. *)
Definition prettify (this : Decimal) (precision : Z) : result string :=
  let* s := toString this (Some precision) in
  match split "." s with
  | characteristic :: mantissa :: _ => Ok (groupThousands characteristic +:+ "." +:+ mantissa)
  | [characteristic] => Ok (groupThousands characteristic)
  | [] => Err Trap
  end.

Definition shorten (this : Decimal) : result string :=
  let* s := toString this (Some 0) in
  let characteristicLength := js_length s in
  let magnitude := Z.min ((characteristicLength - 1) / 3) (Z.of_nat (List.length magnitudes) - 1) in
  let precision := Z.max (3 * (magnitude + 1) - characteristicLength) 0 in
  let* unit := getDigits (PRECISION + 3 * magnitude) in
  let* unit := new unit in
  let* normalized := div this unit in
  let* p := prettify normalized precision in
  Ok (p +:+ nth (Z.to_nat magnitude) magnitudes "").

End Decimal.
End Decimal.

(** ** Differences *)

Inductive Sign := SNone | SPlus | SMinus.

Record DifferenceRepresentation := mkDiff { sign : Sign; absValue : Decimal }.

(** [_number?: DifferenceRepresentation] *)
Definition Difference : Type := option DifferenceRepresentation.

Module Difference.
Section Difference.
Context `{BN : BigNumber}.

Definition between (d1 d2 : option Decimalish) : result Difference :=
  match d1, d2 with
  | Some d1, Some d2 =>
      let* d1 := Decimal.from d1 in
      let* d2 := Decimal.from d2 in
      match Decimal.infinite d1, Decimal.infinite d2 with
      | Some _, Some _ => Ok None
      | Some _, None => Ok (Some (mkDiff SPlus d1))
      | None, Some _ => Ok (Some (mkDiff SMinus d2))
      | None, None =>
          if Decimal.gtD d1 d2 then
            let* a := Decimal.sub d1 d2 in Ok (Some (mkDiff SPlus a))
          else if Decimal.gtD d2 d1 then
            let* a := Decimal.sub d2 d1 in Ok (Some (mkDiff SMinus a))
          else Ok (Some (mkDiff SNone Decimal.ZERO))
      end
  | _, _ => Ok None
  end.

Definition showSign (s : Sign) : string :=
  match s with SNone => "" | SPlus => "+" | SMinus => "-" end.

Definition toString (this : Difference) (precision : option Z) : result string :=
  match this with
  | None => Ok "N/A"
  | Some n => rmap (String.append (showSign (sign n))) (Decimal.toString (absValue n) precision)
  end.

Definition prettify (this : Difference) (precision : option Z) : result string :=
  match this with
  | None => toString this None
  | Some n =>
      rmap (String.append (showSign (sign n)))
        (Decimal.prettify (absValue n) (default 2 precision))
  end.

Definition mul (this : Difference) (multiplier : Decimalish) : result Difference :=
  match this with
  | None => Ok None
  | Some n => let* a := Decimal.mul (absValue n) multiplier in Ok (Some (mkDiff (sign n) a))
  end.

Definition nonZero (this : Difference) : option Difference :=
  n ← this; _ ← Decimal.nonZero (absValue n); Some this.

Definition positive (this : Difference) : option Difference :=
  n ← this; match sign n with SPlus => Some this | _ => None end.

Definition negative (this : Difference) : option Difference :=
  n ← this; match sign n with SMinus => Some this | _ => None end.

Definition absoluteValue (this : Difference) : option Decimal := absValue <$> this.

Definition infinite (this : Difference) : option Difference :=
  n ← this; _ ← Decimal.infinite (absValue n); Some this.

Definition finite (this : Difference) : option Difference :=
  n ← this; _ ← Decimal.finite (absValue n); Some this.

End Difference.
End Difference.

(** ** Percentages *)

(** What [Percent] asks of the ratio it wraps: the members of its type bound. *)
Class PercentBound `{BN : BigNumber} (T : Type) := {
  pb_infinite : T -> option T;
  pb_absoluteValue : T -> option Decimal;
  pb_mul : option (T -> Decimalish -> result T);
  pb_toString : T -> option Z -> result string
}.

#[export] Instance Decimal_PercentBound `{BN : BigNumber} : PercentBound Decimal := {|
  pb_infinite := Decimal.infinite;
  pb_absoluteValue d := Some (Decimal.absoluteValue d);
  pb_mul := Some Decimal.mul;
  pb_toString := Decimal.toString
|}.

#[export] Instance Difference_PercentBound `{BN : BigNumber} : PercentBound Difference := {|
  pb_infinite := Difference.infinite;
  pb_absoluteValue := Difference.absoluteValue;
  pb_mul := Some Difference.mul;
  pb_toString := Difference.toString
|}.

Module Percent.
Section Percent.
Context `{BN : BigNumber} {T : Type} `{!PercentBound T}.

(** The constructor: [ratio.infinite || (ratio.mul && ratio.mul(100)) || ratio]. *)
Definition new (ratio : T) : result T :=
  match pb_infinite ratio, pb_mul with
  | Some r, _ => Ok r
  | None, Some mul => mul ratio (FromNumber "100")
  | None, None => Ok ratio
  end.

(** [x?.gte(n)] as a condition: an absent value is falsy. *)
Definition absGte (this : T) (n : string) : result bool :=
  match pb_absoluteValue this with
  | Some a => Decimal.gte a (FromString n)
  | None => Ok false
  end.

Definition nonZeroish (this : T) (precision : Z) : result (option T) :=
  let zeroish := "0." +:+ repeat_char "0" (Z.to_nat precision) +:+ "5" in
  let* b := absGte this zeroish in
  Ok (if b then Some this else None).

Definition toString (this : T) (precision : Z) : result string :=
  let* s := pb_toString this (Some precision) in
  Ok (s +:+ match pb_absoluteValue this, pb_infinite this with
            | Some _, None => "%"
            | _, _ => ""
            end).

Definition prettify (this : T) : result string :=
  let* big := absGte this "1000" in
  if big then toString this 0
  else
    let* medium := absGte this "10" in
    if medium then toString this 1 else toString this 2.

End Percent.
End Percent.

(** ** Arithmetic facts

    Under the BigNumber laws every operation on [Decimal]s is an integer operation on
    their [big] values.  The equations below are collected in the rewrite database
    [decimal]; the client files reason with them and [lia]. *)

Lemma big_nonneg d : 0 <= big d.
Proof. unfold big. lia. Qed.

Lemma big_inj d1 d2 : big d1 = big d2 -> d1 = d2.
Proof. destruct d1, d2; unfold big; simpl; intros. f_equal. lia. Qed.

Lemma big_dec z : 0 <= z -> big (dec z) = z.
Proof. unfold big, dec; simpl. lia. Qed.

Lemma dec_big d : dec (big d) = d.
Proof. apply big_inj, big_dec, big_nonneg. Qed.

Lemma dec_eq d z : big d = z -> dec z = d.
Proof. intros <-. apply dec_big. Qed.

Lemma dec_inj z1 z2 : 0 <= z1 -> 0 <= z2 -> dec z1 = dec z2 -> z1 = z2.
Proof. intros ?? H%(f_equal big). by rewrite !big_dec in H by done. Qed.

#[export] Hint Resolve big_nonneg : liquity.

(** Adds the sign of every [big] value in sight, then calls [lia]. *)
Ltac big_pos :=
  repeat match goal with
  | |- context [big ?d] => lazymatch goal with H : 0 <= big d |- _ => fail | _ => pose proof (big_nonneg d) end
  | _ : context [big ?d] |- _ => lazymatch goal with H : 0 <= big d |- _ => fail | _ => pose proof (big_nonneg d) end
  end.
Ltac blia := big_pos; unfold Decimal.DIGITS in *; lia.
Ltac bnia := big_pos; unfold Decimal.DIGITS in *; nia.

Section facts.
Context `{BNL : BigNumberLaws}.
Implicit Types d x y : Decimal.

Lemma getDigitsE n : 0 <= n -> Decimal.getDigits n = Ok (10 ^ n).
Proof. apply bn_powE. Qed.

Lemma DIGITS_init : Decimal.getDigits Decimal.PRECISION = Ok Decimal.DIGITS.
Proof. by rewrite getDigitsE. Qed.

Lemma newE z : 0 <= z -> Decimal.new z = Ok (dec z).
Proof. intros. unfold Decimal.new. autorewrite with bn. zcase. Qed.

Lemma new_negative z :
  z < 0 -> Decimal.new z = Err (JsError "negatives not supported by Decimal").
Proof. intros. unfold Decimal.new. autorewrite with bn. zcase. Qed.

Lemma new_Ok z d : Decimal.new z = Ok d <-> 0 <= z /\ d = dec z.
Proof.
  unfold Decimal.new. autorewrite with bn. zcase; split; try naive_solver lia.
Qed.

Lemma fromE d : Decimal.from d = Ok d.
Proof. done. Qed.

Lemma ltDE x y : Decimal.ltD x y = (big x <? big y).
Proof. apply bn_ltE. Qed.
Lemma eqDE x y : Decimal.eqD x y = (big x =? big y).
Proof. apply bn_eqE. Qed.
Lemma gtDE x y : Decimal.gtD x y = (big y <? big x).
Proof. apply bn_gtE. Qed.
Lemma gteDE x y : Decimal.gteD x y = (big y <=? big x).
Proof. apply bn_gteE. Qed.
Lemma lteDE x y : Decimal.lteD x y = (big x <=? big y).
Proof. apply bn_lteE. Qed.
Lemma isZeroE x : Decimal.isZero x = (big x =? 0).
Proof. apply bn_isZeroE. Qed.

Lemma eqD_true x y : Decimal.eqD x y = true <-> x = y.
Proof. rewrite eqDE, Z.eqb_eq. split; [apply big_inj | by intros ->]. Qed.

Lemma addE x y : Decimal.add x y = Ok (dec (big x + big y)).
Proof. unfold Decimal.add; simpl. autorewrite with bn. apply newE. blia. Qed.

Lemma subE x y : big y <= big x -> Decimal.sub x y = Ok (dec (big x - big y)).
Proof. intros. unfold Decimal.sub; simpl. autorewrite with bn. apply newE. blia. Qed.

Lemma sub_negative x y :
  big x < big y -> Decimal.sub x y = Err (JsError "negatives not supported by Decimal").
Proof. intros. unfold Decimal.sub; simpl. autorewrite with bn. apply new_negative. lia. Qed.

Lemma mulE x y : Decimal.mul x y = Ok (dec (big x * big y / Decimal.DIGITS)).
Proof.
  unfold Decimal.mul; simpl. autorewrite with bn. rewrite bn_div_floor by bnia.
  apply newE, Z.div_pos; bnia.
Qed.

Lemma divE x y : 0 < big y -> Decimal.div x y = Ok (dec (big x * Decimal.DIGITS / big y)).
Proof.
  intros. unfold Decimal.div; simpl. rewrite isZeroE. zcase. autorewrite with bn.
  rewrite bn_div_floor by (unfold Decimal.DIGITS; blia). apply newE, Z.div_pos; unfold Decimal.DIGITS; blia.
Qed.

Lemma divCeilE x y :
  0 < big y ->
  Decimal._divCeil x y = Ok (dec ((big x * Decimal.DIGITS + (big y - 1)) / big y)).
Proof.
  intros. unfold Decimal._divCeil; simpl. rewrite isZeroE. zcase. autorewrite with bn.
  unfold Decimal.ONE_BN, Decimal.DIGITS.
  rewrite bn_div_floor by blia. apply newE, Z.div_pos; blia.
Qed.

Lemma mulDivE x y z :
  0 < big z -> Decimal.mulDiv x y z = Ok (dec (big x * big y / big z)).
Proof.
  intros. unfold Decimal.mulDiv; simpl. rewrite isZeroE. zcase. autorewrite with bn.
  rewrite bn_div_floor by bnia. apply newE, Z.div_pos; bnia.
Qed.

Lemma mulDiv_0 x y z : big z = 0 -> Decimal.mulDiv x y z = Ok Decimal.INFINITY.
Proof. intros Hz. unfold Decimal.mulDiv; simpl. by rewrite isZeroE, Hz. Qed.

Lemma minE x y : Decimal.min x y = Ok (dec (Z.min (big x) (big y))).
Proof.
  unfold Decimal.min; simpl. rewrite ltDE. zcase; do 2 f_equal; apply big_inj;
    rewrite big_dec by blia; lia.
Qed.

Lemma maxE x y : Decimal.max x y = Ok (dec (Z.max (big x) (big y))).
Proof.
  unfold Decimal.max; simpl. rewrite gtDE. zcase; do 2 f_equal; apply big_inj;
    rewrite big_dec by blia; lia.
Qed.

Lemma zeroE x : Decimal.zero x = if big x =? 0 then Some x else None.
Proof. unfold Decimal.zero. by rewrite isZeroE. Qed.
Lemma nonZeroE x : Decimal.nonZero x = if big x =? 0 then None else Some x.
Proof. unfold Decimal.nonZero. rewrite isZeroE. by destruct (_ =? _). Qed.
Lemma infiniteE x :
  Decimal.infinite x = if big x =? 2 ^ 256 - 1 then Some x else None.
Proof. unfold Decimal.infinite. by rewrite eqDE. Qed.

Lemma hexE d : bn_from (Decimal.hex d) = Ok (big d).
Proof. apply bn_from_toHexString. blia. Qed.

Lemma roundedMulE (x y : Z) :
  0 <= x -> 0 <= y ->
  Decimal.roundedMul x y = Ok ((x * y + 500000000000000000) / Decimal.DIGITS).
Proof.
  intros. unfold Decimal.roundedMul. rewrite hexE; simpl. autorewrite with bn.
  change (big Decimal.HALF) with 500000000000000000.
  by rewrite bn_div_floor by (unfold Decimal.DIGITS; nia).
Qed.
End facts.

Create Rewrite HintDb decimal.
#[export] Hint Rewrite @ltDE @eqDE @gtDE @gteDE @lteDE @isZeroE @addE @mulE @minE @maxE
  @zeroE @nonZeroE @infiniteE using typeclasses eauto : decimal.
#[export] Hint Rewrite @subE @divE @divCeilE @mulDivE @mulDiv_0 big_dec using (done || blia) : decimal.
