(* ===== verification/DecimalText.v ===== *)
(** * Reading and printing decimals

    What [Decimal._fromString] accepts and the value it gives ([fromString_spec]: the
    parser against the grammar of decimal literals), that printing and reading back is
    the identity, and that printing with a precision rounds half up. *)

From S2P Require Import Prelude JsString BigNumber Decimal.
From Stdlib Require Import Ascii String.

Local Open Scope string_scope.
Local Open Scope Z_scope.

(** ** The grammar of decimal literals *)

Inductive ExpSign := ESNone | ESPlus | ESMinus.

Record literal := Literal {
  l_int : string;
  l_frac : option string;
  l_exp : option (ExpSign * string)
}.

Definition print_mantissa (l : literal) : string :=
  l_int l +:+ match l_frac l with Some f => String "." f | None => "" end.

Definition print_exponent (e : ExpSign * string) : string :=
  match e.1 with ESNone => "" | ESPlus => "+" | ESMinus => "-" end +:+ e.2.

Definition print_literal (l : literal) : string :=
  print_mantissa l +:+ match l_exp l with Some e => String "e" (print_exponent e) | None => "" end.

Definition literal_ok (l : literal) : bool :=
  numeral_ok 10 (l_int l) && numeral_ok 10 (default "" (l_frac l)) &&
  match l_exp l with Some e => negb (String.eqb e.2 "") && numeral_ok 10 e.2 | None => true end.

(** The literal has a coefficient: at least a digit or a point. *)
Definition has_coefficient (l : literal) : bool :=
  negb (String.eqb (print_mantissa l) "").

(** The mantissa in units of [10 ^ -18], fractional digits beyond the 18th dropped. *)
Definition mantissa_value (l : literal) : Z :=
  numeral_val 10 (l_int l) * Decimal.DIGITS +
  match l_frac l with
  | Some f => numeral_val 10 f * Decimal.DIGITS / 10 ^ Z.of_nat (String.length f)
  | None => 0
  end.

Definition literal_value (l : literal) : Z :=
  match l_exp l with
  | Some (ESMinus, e) => mantissa_value l / 10 ^ numeral_val 10 e
  | Some (_, e) => mantissa_value l * 10 ^ numeral_val 10 e
  | None => mantissa_value l
  end.

(** ** The format test accepts exactly the literals *)

Lemma literal_ok_inv l :
  literal_ok l = true ->
  numeral_ok 10 (l_int l) = true /\ numeral_ok 10 (default "" (l_frac l)) = true /\
  match l_exp l with Some e => e.2 <> "" /\ numeral_ok 10 e.2 = true | None => True end.
Proof.
  unfold literal_ok. intros [[? ?]%andb_prop He]%andb_prop. split_and!; try done.
  destruct (l_exp l); [|done].
  apply andb_prop in He as [?%negb_true_iff%String.eqb_neq ?]. done.
Qed.

Lemma print_exponent_sign sg e :
  numeral_ok 10 e = true -> e <> "" ->
  (let x := print_exponent (sg, e) in
   let x := match x with String "-" x' => x' | String "+" x' => x' | _ => x end in
   negb (String.eqb x "") && numeral_ok 10 x) = true.
Proof.
  intros He Hne%String.eqb_neq.
  assert (negb (String.eqb e "") && numeral_ok 10 e = true) as Hok by by rewrite He, Hne.
  destruct sg; [|exact Hok|exact Hok].
  destruct e as [|c e]; [done|]. pose proof He as [Hc _]%andb_prop.
  destruct c as [[] [] [] [] [] [] [] []]; try discriminate Hc; exact Hok.
Qed.

Lemma format_print l : literal_ok l = true -> stringRepresentationFormat (print_literal l) = true.
Proof.
  intros (Hi & Hf & He)%literal_ok_inv. destruct l as [i [f|] [[sg e]|]]; simpl in *;
    unfold stringRepresentationFormat, print_literal, print_mantissa; cbn [l_int l_frac l_exp].
  - rewrite append_assoc. cbn [String.append]. rewrite span_digits_app by done.
    rewrite span_digits_app by done. cbn [snd].
    apply print_exponent_sign; apply He.
  - rewrite append_assoc. cbn [String.append]. rewrite append_nil_r, span_digits_app by done.
    by rewrite span_digits_numeral.
  - rewrite append_nil_r, span_digits_app by done.
    apply print_exponent_sign; apply He.
  - rewrite !append_nil_r. by rewrite span_digits_numeral.
Qed.

(** The exponent part of an accepted string. *)
Lemma exponent_inv x :
  (let x := match x with String "-" x' => x' | String "+" x' => x' | _ => x end in
   negb (String.eqb x "") && numeral_ok 10 x) = true ->
  exists sg e, x = print_exponent (sg, e) /\ numeral_ok 10 e = true /\ e <> "".
Proof.
  intros H.
  assert (forall y, negb (String.eqb y "") && numeral_ok 10 y = true ->
                    numeral_ok 10 y = true /\ y <> "") as Hinv.
  { intros y [?%negb_true_iff%String.eqb_neq ?]%andb_prop. done. }
  destruct x as [|c x]; [done|].
  destruct c as [[] [] [] [] [] [] [] []];
    try (exists ESNone; eexists; split; [reflexivity|]; by apply Hinv in H).
  - exists ESPlus, x. by apply Hinv in H.
  - exists ESMinus, x. by apply Hinv in H.
Qed.

(** What may follow the digits and the point. *)
Lemma format_tail r :
  match r with
  | EmptyString => true
  | String "e" x =>
      let x := match x with String "-" x' => x' | String "+" x' => x' | _ => x end in
      negb (String.eqb x "") && numeral_ok 10 x
  | _ => false
  end = true ->
  exists ex, r = match ex with Some e => String "e" (print_exponent e) | None => "" end /\
  match ex with Some e => negb (String.eqb e.2 "") && numeral_ok 10 e.2 | None => true end = true.
Proof.
  destruct r as [|c x]; [by exists None|].
  destruct c as [[] [] [] [] [] [] [] []]; try done.
  intros (sg & e & -> & Hok & Hne)%exponent_inv. exists (Some (sg, e)). split; [done|].
  cbn. apply String.eqb_neq in Hne as ->. done.
Qed.

Lemma format_inv s :
  stringRepresentationFormat s = true -> exists l, literal_ok l = true /\ s = print_literal l.
Proof.
  unfold stringRepresentationFormat.
  destruct (span_digits s) as [i r] eqn:Hs. apply span_digits_spec in Hs as (-> & Hi & Hr).
  assert ((exists f r', r = String "." f /\ span_digits f = r') \/ 
          match r with String "." r' => snd (span_digits r') | _ => r end = r) as [(f & r' & -> & Hf)|Hn].
  { destruct r as [|c r]; [by right|].
    destruct c as [[] [] [] [] [] [] [] []]; try by right. left. eauto. }
  - rewrite Hf. destruct r' as [f' t]. apply span_digits_spec in Hf as (-> & Hf & _). cbn [snd].
    intros (ex & -> & Hex)%format_tail. exists (Literal i (Some f') ex).
    unfold literal_ok, print_literal, print_mantissa; cbn [l_int l_frac l_exp default].
    simpl. rewrite Hi, Hf, Hex. split; [done|]. by rewrite append_assoc.
  - rewrite Hn. intros (ex & -> & Hex)%format_tail. exists (Literal i None ex).
    unfold literal_ok, print_literal, print_mantissa; cbn [l_int l_frac l_exp].
    simpl. rewrite Hi, Hex. split; [done|]. by rewrite append_nil_r.
Qed.

(** ** The value of a literal *)

(** The mantissa as [_fromString] pads or cuts it to 18 digits. *)
Definition scale_mantissa (f : string) : string :=
  if js_length f <? Decimal.PRECISION
  then f +:+ repeat_char "0" (Z.to_nat (Decimal.PRECISION - js_length f))
  else take_str (Z.to_nat Decimal.PRECISION) f.

Lemma scale_mantissa_spec f :
  numeral_ok 10 f = true ->
  numeral_ok 10 (scale_mantissa f) = true /\ scale_mantissa f <> "" /\
  numeral_val 10 (scale_mantissa f)
  = numeral_val 10 f * Decimal.DIGITS / 10 ^ Z.of_nat (String.length f).
Proof.
  intros Hf. unfold scale_mantissa. rewrite js_length_numeral by done.
  change (Decimal.DIGITS) with (10 ^ 18). unfold Decimal.PRECISION.
  destruct (Z.ltb_spec (Z.of_nat (String.length f)) 18) as [Hlt|Hge].
  - rewrite numeral_ok_app, Hf, numeral_ok_zeros, numeral_val_app, numeral_zeros,
      length_repeat_char, Z2Nat.id by lia.
    split_and!; [done | |].
    + intros Hn%(f_equal String.length). rewrite length_append, length_repeat_char in Hn.
      simpl in Hn. lia.
    + replace 18 with (18 - Z.of_nat (String.length f) + Z.of_nat (String.length f)) at 2 by lia.
      rewrite Z.pow_add_r, Z.mul_assoc, Z.div_mul by lia. lia.
  - destruct (take_str_spec (Z.to_nat 18) f) as (r & Hr & Hlen).
    rewrite Nat.min_l in Hlen by lia. set (t := take_str (Z.to_nat 18) f) in *.
    rewrite Hr, numeral_ok_app in Hf. apply andb_prop in Hf as [Ht Hokr].
    split_and!; [done | by destruct t |].
    rewrite Hr, numeral_val_app, length_append, Hlen, Nat2Z.inj_add.
    pose proof (numeral_val_bounds 10 r ltac:(lia) Hokr).
    set (p := 10 ^ Z.of_nat (String.length r)) in *.
    rewrite Z.pow_add_r by lia. change (10 ^ Z.of_nat (Z.to_nat 18)) with (10 ^ 18). fold p.
    rewrite (Z.mul_comm (10 ^ 18) p), Z.div_mul_cancel_r, Z.div_add_l, Z.div_small by lia. lia.
Qed.

Section parsing.
Context `{BNL : BigNumberLaws}.

Lemma bn_from_numeral s :
  numeral_ok 10 s = true ->
  (if String.eqb s "" then Ok 0 else bn_from s) = Ok (numeral_val 10 s).
Proof.
  intros Hs. destruct (String.eqb_spec s "") as [->|]; [done|]. by apply bn_from_decimal.
Qed.

Lemma mantissa_value_nonneg l : literal_ok l = true -> 0 <= mantissa_value l.
Proof.
  intros (Hi & Hf & _)%literal_ok_inv. unfold mantissa_value.
  pose proof (numeral_val_bounds 10 _ ltac:(lia) Hi). unfold Decimal.DIGITS.
  destruct (l_frac l) as [f|]; [|lia]. simpl in Hf.
  pose proof (numeral_val_bounds 10 _ ltac:(lia) Hf).
  pose proof (Z.div_pos (numeral_val 10 f * 1000000000000000000)
                (10 ^ Z.of_nat (String.length f)) ltac:(lia) ltac:(lia)).
  lia.
Qed.

Lemma includes_mantissa c l :
  literal_ok l = true -> is_digit c = false ->
  includes c (print_mantissa l) = Ascii.eqb c "." && bool_decide (is_Some (l_frac l)).
Proof.
  intros (Hi & Hf & _)%literal_ok_inv Hc. unfold print_mantissa.
  rewrite includes_app, includes_numeral by done.
  destruct (l_frac l) as [f|]; simpl in *; [|by rewrite andb_false_r].
  by rewrite includes_numeral, orb_false_r, andb_true_r by done.
Qed.

Lemma parse_mantissa n l :
  literal_ok l = true -> has_coefficient l = true ->
  Decimal.fromString_fuel (S n) (print_mantissa l) = Ok (dec (mantissa_value l)).
Proof.
  intros Hl Hc. cbn [Decimal.fromString_fuel].
  assert (stringRepresentationFormat (print_mantissa l) = true) as ->.
  { rewrite <- (append_nil_r (print_mantissa l)).
    apply (format_print (Literal (l_int l) (l_frac l) None)).
    apply literal_ok_inv in Hl as (Hi & Hf & _). unfold literal_ok; simpl. by rewrite Hi, Hf. }
  unfold has_coefficient in Hc. apply negb_true_iff in Hc. rewrite Hc. cbn [orb negb].
  rewrite !includes_mantissa by done. cbn [Ascii.eqb andb].
  pose proof (mantissa_value_nonneg l Hl). apply literal_ok_inv in Hl as (Hi & Hf & _).
  unfold print_mantissa, mantissa_value in *. destruct (l_frac l) as [f|]; simpl.
  - rewrite split_app by by apply includes_numeral.
    rewrite split_none by by apply includes_numeral.
    match goal with |- context [bn_from (if ?b then ?x else ?y)] =>
      change (if b then x else y) with (scale_mantissa f) end.
    destruct (scale_mantissa_spec f Hf) as (Hok & Hne & Hv).
    rewrite bn_from_numeral by done. cbn [bind].
    rewrite bn_from_decimal, Hv by done. cbn [bind]. autorewrite with bn. by apply newE.
  - rewrite append_nil_r in *. rewrite Z.add_0_r in *.
    rewrite bn_from_decimal by (done || by apply String.eqb_neq). cbn [bind].
    autorewrite with bn. by apply newE.
Qed.

Lemma literal_value_nonneg l : literal_ok l = true -> 0 <= literal_value l.
Proof.
  intros Hl. pose proof (mantissa_value_nonneg l Hl). unfold literal_value.
  apply literal_ok_inv in Hl as (_ & _ & He).
  destruct (l_exp l) as [[sg e]|]; [|done]. destruct He as [_ He]; simpl in He.
  pose proof (numeral_val_bounds 10 e ltac:(lia) He).
  destruct sg; [nia | nia | apply Z.div_pos; lia].
Qed.

Lemma parse_literal n l :
  literal_ok l = true -> has_coefficient l = true ->
  Decimal.fromString_fuel (S (S n)) (print_literal l) = Ok (dec (literal_value l)).
Proof.
  intros Hl Hc. pose proof (literal_value_nonneg l Hl) as Hpos.
  pose proof (parse_mantissa n l Hl Hc) as Hm. pose proof (mantissa_value_nonneg l Hl) as Hmpos.
  unfold literal_value in *. destruct (l_exp l) as [[sg e]|] eqn:Hexp; last first.
  { unfold print_literal. rewrite Hexp, append_nil_r. by apply parse_mantissa. }
  change (Decimal.fromString_fuel (S (S n))) with
    (fun s => Decimal.fromString_fuel (S (S n)) s). cbv beta.
  remember (S n) as fuel. cbn [Decimal.fromString_fuel]. rewrite format_print by done.
  pose proof (literal_ok_inv l Hl) as (_ & _ & He). rewrite Hexp in He.
  destruct He as [Hne He]; simpl in He, Hne.
  unfold print_literal. rewrite Hexp.
  assert (String.eqb (print_mantissa l +:+ String "e" (print_exponent (sg, e))) "" = false) as ->.
  { by destruct (print_mantissa l). }
  assert (includes "e" (print_mantissa l +:+ String "e" (print_exponent (sg, e))) = true) as ->.
  { rewrite includes_app. apply orb_true_r. }
  cbn [orb negb].
  rewrite split_app by by rewrite includes_mantissa by done.
  pose proof (numeral_val_bounds 10 e ltac:(lia) He) as [He0 _].
  assert (includes "e" e = false) as Hie by by apply includes_numeral.
  destruct sg; unfold print_exponent; cbn [fst snd String.append].
  - rewrite split_none by done.
    assert (startsWith "-" e = false /\ startsWith "+" e = false) as [-> ->].
    { destruct e as [|c e]; [done|]. apply andb_prop in He as [Hc' _].
      by destruct c as [[] [] [] [] [] [] [] []]. }
    rewrite Hm, bn_from_decimal by done. cbn [bind]. rewrite bn_powE by done. cbn [bind].
    autorewrite with bn. rewrite big_dec by done. by apply newE.
  - rewrite split_none by done. cbn [startsWith Ascii.eqb Bool.eqb drop1].
    rewrite Hm, bn_from_decimal by done. cbn [bind]. rewrite bn_powE by done. cbn [bind].
    autorewrite with bn. rewrite big_dec by done. by apply newE.
  - rewrite split_none by done. cbn [startsWith Ascii.eqb Bool.eqb drop1].
    rewrite Hm, bn_from_decimal by done. cbn [bind]. rewrite bn_powE by done. cbn [bind].
    rewrite bn_div_floor by (rewrite ?big_dec by done; unfold Decimal.TEN; lia).
    rewrite big_dec by done. by apply newE.
Qed.
End parsing.

(** ** Reading: the accepted strings and their values *)

Section reading.
Context `{BNL : BigNumberLaws}.

(** A string in the format but without coefficient ("e5"): reading it reads "". *)
Lemma parse_no_coefficient l :
  literal_ok l = true -> has_coefficient l = false ->
  Decimal._fromString (print_literal l) = Err (Decimal.badFormat "").
Proof.
  intros Hl Hc. pose proof Hc as Hm%negb_false_iff%String.eqb_eq.
  pose proof (format_print l Hl) as Hfmt. pose proof (literal_ok_inv l Hl) as (_ & _ & He).
  unfold Decimal._fromString, print_literal in *. rewrite Hm in *.
  destruct (l_exp l) as [[sg e]|]; [|done]. destruct He as [_ He]; simpl in He.
  cbn [String.append] in *. remember 1%nat as fuel eqn:Hfuel.
  cbn [Decimal.fromString_fuel]. rewrite Hfmt. cbn [orb negb].
  change (includes "e" (String "e" (print_exponent (sg, e)))) with true. cbn iota.
  change (split "e" (String "e" (print_exponent (sg, e))))
    with ("" :: split "e" (print_exponent (sg, e))).
  assert (includes "e" (print_exponent (sg, e)) = false) as Hs.
  { unfold print_exponent; cbn [fst snd]. rewrite includes_app.
    rewrite (includes_numeral _ e) by done. by destruct sg. }
  rewrite split_none by done. rewrite Hfuel. by destruct (startsWith _ _).
Qed.

Lemma parse_bad_format s :
  stringRepresentationFormat s = false -> Decimal._fromString s = Err (Decimal.badFormat s).
Proof.
  intros Hs. unfold Decimal._fromString. remember 1%nat as fuel.
  cbn [Decimal.fromString_fuel]. by rewrite Hs, orb_true_r.
Qed.

(** C12. [Decimal._fromString] reads exactly the decimal literals that have a
    coefficient, and gives the value of the literal with the digits beyond the
    eighteenth fractional one dropped (before the exponent is applied). *)
Theorem fromString_spec s d :
  Decimal._fromString s = Ok d <->
  exists l, literal_ok l = true /\ has_coefficient l = true /\
            s = print_literal l /\ d = dec (literal_value l).
Proof.
  split.
  - intros Hs. destruct (stringRepresentationFormat s) eqn:Hfmt.
    + apply format_inv in Hfmt as (l & Hl & ->). destruct (has_coefficient l) eqn:Hc.
      * exists l. unfold Decimal._fromString in Hs. rewrite parse_literal in Hs by done.
        by injection Hs as <-.
      * by rewrite parse_no_coefficient in Hs.
    + by rewrite parse_bad_format in Hs.
  - intros (l & Hl & Hc & -> & ->). by apply parse_literal.
Qed.

(** A string [Decimal._fromString] does not read makes it throw the "bad decimal
    format" error, never anything else: the parser is total and its fuel is enough. *)
Theorem fromString_error s :
  (exists d, Decimal._fromString s = Ok d) \/
  Decimal._fromString s
  = Err (Decimal.badFormat (if stringRepresentationFormat s then "" else s)).
Proof.
  destruct (stringRepresentationFormat s) eqn:Hfmt; [|right; by apply parse_bad_format].
  apply format_inv in Hfmt as (l & Hl & ->). destruct (has_coefficient l) eqn:Hc.
  - left. eexists. by apply parse_literal.
  - right. by apply parse_no_coefficient.
Qed.

Lemma parse_value l :
  literal_ok l = true -> has_coefficient l = true -> l_exp l = None ->
  Decimal._fromString (print_literal l) = Ok (dec (mantissa_value l)).
Proof.
  intros Hl Hc He. unfold Decimal._fromString. rewrite parse_literal by done.
  unfold literal_value. by rewrite He.
Qed.
End reading.

(** Reading a constant: name the literal and let the value compute. *)
Lemma read_constant `{BNL : BigNumberLaws} l s :
  literal_ok l = true -> has_coefficient l = true -> s = print_literal l ->
  Decimal._fromString s = Ok (dec (literal_value l)).
Proof. intros ?? ->. by apply parse_literal. Qed.

(** ** Printing *)

(** A fraction below one as its 18 digits. *)
Lemma padded_fraction `{BNL : BigNumberLaws} m :
  0 <= m < Decimal.DIGITS ->
  let s := padStart (Z.to_nat Decimal.PRECISION) "0" (bn_toString m) in
  numeral_ok 10 s = true /\ String.length s = 18%nat /\ numeral_val 10 s = m.
Proof.
  intros Hm s. pose proof (bn_toString_length m 18 ltac:(done) ltac:(lia)) as Hlen.
  unfold s, padStart. rewrite length_append, length_repeat_char, numeral_ok_app,
    numeral_ok_zeros, bn_toString_ok, numeral_val_app, numeral_zeros, bn_toString_val by lia.
  change (Z.to_nat Decimal.PRECISION) with 18%nat. split_and!; [done | lia | lia].
Qed.

(** The literal [c.f] and its value, for the characteristic the printers give. *)
Lemma parse_fraction `{BNL : BigNumberLaws} c f :
  0 <= c -> numeral_ok 10 f = true ->
  Decimal._fromString (bn_toString c +:+ "." +:+ f)
  = Ok (dec (c * Decimal.DIGITS
             + numeral_val 10 f * Decimal.DIGITS / 10 ^ Z.of_nat (String.length f))).
Proof.
  intros Hc Hf. pose proof (parse_value (Literal (bn_toString c) (Some f) None)) as Hp.
  unfold print_literal, print_mantissa, literal_ok, has_coefficient, mantissa_value in Hp.
  simpl in Hp. rewrite bn_toString_ok, Hf, append_nil_r, bn_toString_val in Hp by done.
  simpl in *. apply Hp; [done | | done]. by destruct (bn_toString c).
Qed.

Lemma parse_integer `{BNL : BigNumberLaws} c :
  0 <= c -> Decimal._fromString (bn_toString c) = Ok (dec (c * Decimal.DIGITS)).
Proof.
  intros Hc. pose proof (parse_value (Literal (bn_toString c) None None)) as Hp.
  unfold print_literal, print_mantissa, literal_ok, has_coefficient, mantissa_value in Hp.
  simpl in Hp. rewrite bn_toString_ok, !append_nil_r, bn_toString_val, Z.add_0_r in Hp by done.
  apply Hp; [done | | done]. unfold print_mantissa; simpl. rewrite append_nil_r.
  apply negb_true_iff, String.eqb_neq. by apply bn_toString_nonempty.
Qed.

(** Cutting the 18 digits of [m] after the [p]-th, with [p + k = 18]. *)
Lemma cut_fraction s f r p k :
  s = f +:+ r -> String.length f = p -> String.length r = k -> (p + k = 18)%nat ->
  numeral_ok 10 r = true ->
  numeral_val 10 f * Decimal.DIGITS / 10 ^ Z.of_nat p
  = numeral_val 10 s / 10 ^ Z.of_nat k * 10 ^ Z.of_nat k.
Proof.
  intros -> Hf Hr Hpk Hok. pose proof (numeral_val_bounds 10 r ltac:(lia) Hok) as Hb.
  rewrite numeral_val_app, Hr in *. rewrite Z.div_add_l, (Z.div_small (numeral_val 10 r)) by lia.
  replace Decimal.DIGITS with (10 ^ Z.of_nat k * 10 ^ Z.of_nat p).
  2: { rewrite <- Z.pow_add_r by lia. by replace (Z.of_nat k + Z.of_nat p) with 18 by lia. }
  rewrite Z.mul_assoc, Z.div_mul by lia. lia.
Qed.

Section printing.
Context `{BNL : BigNumberLaws}.

Lemma divmod_DIGITS z :
  0 <= z ->
  bn_div z Decimal.DIGITS = Ok (z / Decimal.DIGITS) /\
  bn_mod z Decimal.DIGITS = Ok (z mod Decimal.DIGITS) /\
  0 <= z / Decimal.DIGITS /\ 0 <= z mod Decimal.DIGITS < Decimal.DIGITS.
Proof.
  intros Hz. assert (0 < Decimal.DIGITS) by done.
  rewrite bn_div_floor, bn_modE by done. pose proof (Z.mod_pos_bound z Decimal.DIGITS).
  pose proof (Z.div_pos z Decimal.DIGITS). split_and!; auto with lia.
Qed.

Lemma automatic_roundtrip d s :
  Decimal._toStringWithAutomaticPrecision d = Ok s -> Decimal._fromString s = Ok d.
Proof.
  unfold Decimal._toStringWithAutomaticPrecision.
  destruct (divmod_DIGITS (big d) (big_nonneg d)) as (-> & -> & Hc & Hm). cbn [bind].
  pose proof (Z.div_mod (big d) Decimal.DIGITS ltac:(done)) as Hdm.
  rewrite bn_isZeroE. destruct (Z.eqb_spec (big d mod Decimal.DIGITS) 0) as [Hz|Hnz]; intros [= <-].
  - rewrite parse_integer by done. f_equal. apply dec_eq. lia.
  - destruct (padded_fraction _ Hm) as (Hok & Hlen & Hval).
    set (padded := padStart _ _ _) in *.
    destruct (trim_zeros_spec padded) as [k Hk]. set (f := trim_zeros padded) in *.
    assert (numeral_ok 10 f = true) as Hf.
    { rewrite Hk, numeral_ok_app in Hok. by apply andb_prop in Hok as [? _]. }
    etrans; [by apply parse_fraction|]. f_equal. apply dec_eq.
    pose proof (f_equal String.length Hk) as Hl.
    rewrite length_append, length_repeat_char, Hlen in Hl.
    rewrite (cut_fraction padded f (repeat_char "0" k) _ k Hk) by
      (rewrite ?length_repeat_char; done || lia || by apply numeral_ok_zeros).
    rewrite Hk, numeral_val_app, numeral_zeros, length_repeat_char in Hval.
    rewrite Hk, numeral_val_app, numeral_zeros, length_repeat_char.
    rewrite Z.add_0_r, Z.div_mul by lia. lia.
Qed.

Lemma automatic_total d : exists s, Decimal._toStringWithAutomaticPrecision d = Ok s.
Proof.
  unfold Decimal._toStringWithAutomaticPrecision.
  destruct (divmod_DIGITS (big d) (big_nonneg d)) as (-> & -> & _). cbn [bind].
  destruct (bn_isZero _); eauto.
Qed.

Lemma toString_total d : exists s, Decimal.toString d None = Ok s.
Proof. unfold Decimal.toString. destruct (Decimal.infinite d); eauto using automatic_total. Qed.

Lemma printed_and_read d :
  d <> Decimal.INFINITY ->
  exists s, Decimal.toString d None = Ok s /\ Decimal.from (FromString s) = Ok d.
Proof.
  intros Hd. unfold Decimal.toString. rewrite infiniteE.
  destruct (Z.eqb_spec (big d) (2 ^ 256 - 1)) as [He|_].
  { contradict Hd. by apply big_inj. }
  destruct (automatic_total d) as [s Hs]. exists s. split; [done|]. by apply automatic_roundtrip.
Qed.

(** C25. Printing a finite [Decimal] with all its digits and reading the result gives
    the same [Decimal] back; the printer does not fail. *)
Theorem toString_fromString d :
  d <> Decimal.INFINITY ->
  exists s, Decimal.toString d None = Ok s /\ Decimal.from (FromString s) = Ok d.
Proof. apply printed_and_read. Qed.

(** Half a unit of the last printed digit is what [_roundUp] adds. *)
Definition print_unit (precision : Z) : Z := 10 ^ (18 - precision).

Lemma rounded_value d precision :
  0 <= precision <= 18 ->
  (if precision <? Decimal.PRECISION then Decimal._roundUp d precision else Ok (big d))
  = Ok (big d + print_unit precision / 2).
Proof.
  intros Hp. unfold Decimal._roundUp, Decimal.PRECISION, print_unit.
  destruct (Z.ltb_spec precision 18).
  - rewrite getDigitsE by lia. cbn [bind]. autorewrite with bn. do 2 f_equal.
    replace (18 - precision) with (Z.succ (18 - 1 - precision)) by lia.
    rewrite Z.pow_succ_r by lia.
    replace (10 * 10 ^ (18 - 1 - precision)) with (10 ^ (18 - 1 - precision) * 5 * 2) by lia.
    by rewrite Z.div_mul.
  - replace precision with 18 by lia. change (10 ^ (18 - 18) / 2) with 0. by rewrite Z.add_0_r.
Qed.

Lemma parse_precision c m p :
  0 <= c -> 0 <= m < Decimal.DIGITS -> 0 < p <= 18 ->
  Decimal._fromString
    (bn_toString c +:+ "." +:+
     take_str (Z.to_nat p) (padStart (Z.to_nat Decimal.PRECISION) "0" (bn_toString m)))
  = Ok (dec (c * Decimal.DIGITS + m / print_unit p * print_unit p)).
Proof.
  intros Hc Hm Hp. destruct (padded_fraction m Hm) as (Hok & Hlen & Hval).
  set (padded := padStart _ _ _) in *.
  destruct (take_str_spec (Z.to_nat p) padded) as (r & Hr & Hl).
  set (f := take_str (Z.to_nat p) padded) in *.
  pose proof Hok as Hok'. rewrite Hr, numeral_ok_app in Hok'. apply andb_prop in Hok' as [Hf Hokr].
  pose proof (f_equal String.length Hr) as Hlr. rewrite length_append in Hlr.
  etrans; [by apply parse_fraction|]. do 3 f_equal.
  rewrite (cut_fraction padded f r _ (Z.to_nat (18 - p)) Hr eq_refl) by (done || lia).
  unfold print_unit. by rewrite Hval, Z2Nat.id by lia.
Qed.

(** Rounding the whole number is rounding its fraction. *)
Lemma round_split v p :
  0 <= v -> 0 <= p <= 18 ->
  v / Decimal.DIGITS * Decimal.DIGITS + v mod Decimal.DIGITS / print_unit p * print_unit p
  = v / print_unit p * print_unit p.
Proof.
  intros Hv Hp. unfold print_unit. pose proof (Z.div_mod v Decimal.DIGITS ltac:(done)) as Hdm.
  assert (Decimal.DIGITS = 10 ^ p * 10 ^ (18 - p)) as HD.
  { rewrite <- Z.pow_add_r by lia. by replace (p + (18 - p)) with 18 by lia. }
  set (u := 10 ^ (18 - p)) in *. assert (0 < u) by (unfold u; lia).
  set (c := v / Decimal.DIGITS) in *. set (m := v mod Decimal.DIGITS) in *.
  replace v with (c * 10 ^ p * u + m) by (rewrite Hdm, HD; ring).
  rewrite (Z.div_add_l (c * 10 ^ p)), HD by lia. ring.
Qed.

(** Printing a finite [Decimal] with [precision] digits (at most 18) succeeds, and
    the printed number is the original rounded half up to a multiple of
    [10 ^ - precision]. *)
Theorem toStringWithPrecision_rounds d precision :
  d <> Decimal.INFINITY -> 0 <= precision <= 18 ->
  exists s d',
    Decimal.toString d (Some precision) = Ok s /\
    Decimal.from (FromString s) = Ok d' /\
    big d' = (big d + print_unit precision / 2) / print_unit precision * print_unit precision.
Proof.
  intros Hd Hp. unfold Decimal.toString. rewrite infiniteE.
  destruct (Z.eqb_spec (big d) (2 ^ 256 - 1)) as [He|_].
  { contradict Hd. by apply big_inj. }
  unfold Decimal._toStringWithPrecision. rewrite rounded_value by done.
  destruct (Z.ltb_spec precision 0); [lia|]. cbn [negb bind].
  assert (0 <= print_unit precision / 2) by (apply Z.div_pos; unfold print_unit; lia).
  set (v := big d + _) in *. assert (0 <= v) by (unfold v; blia).
  destruct (divmod_DIGITS v) as (-> & -> & Hc & Hm); [done|]. cbn [bind].
  assert (0 <= v / print_unit precision * print_unit precision) as Hpos.
  { pose proof (Z.div_pos v (print_unit precision)). unfold print_unit in *. nia. }
  destruct (Z.eqb_spec precision 0) as [->|].
  - eexists _, _. split; [done|]. cbn [Decimal.from]. rewrite parse_integer by done.
    split; [done|]. by rewrite big_dec by (unfold Decimal.DIGITS in *; lia).
  - eexists _, _. split; [done|]. cbn [Decimal.from]. split; [by apply parse_precision; lia|].
    by rewrite round_split, big_dec by lia.
Qed.
End printing.

(** A number with a fraction and an exponent. *)
Lemma fromString_spec_witness :
  exists l, literal_ok l = true /\ has_coefficient l = true /\
            "1.5e3" = print_literal l /\ dec 1500000000000000000000 = dec (literal_value l).
Proof. apply (fromString_spec "1.5e3" (dec 1500000000000000000000)). vm_compute. reflexivity. Defined.

Lemma fromString_error_witness : Decimal._fromString "1.5x" = Err (Decimal.badFormat "1.5x").
Proof.
  destruct (fromString_error "1.5x") as [[d H]|H]; [discriminate H | exact H].
Defined.

(** The smallest positive decimal. *)
Lemma toString_fromString_witness :
  exists s, Decimal.toString (dec 1) None = Ok s /\ Decimal.from (FromString s) = Ok (dec 1).
Proof. apply (toString_fromString (dec 1)). discriminate. Defined.

