(* ===== verification/LiquityMath.v ===== *)
(** * The on-chain arithmetic the SDK mirrors

    The functions of [LiquityMath.sol], [LiquityBase.sol] and [TroveManager.sol] (under
    [packages/contracts/contracts]) that the SDK recomputes off chain, on [uint256] with
    SafeMath: every operation whose result does not fit reverts.  They are the
    specification of [Decimal.pow], of the collateral ratios of [Trove] and of [Fees]. *)

From S2P Require Import Prelude.

Module SafeMath.
Definition uint (z : Z) : result Z :=
  guard (0 <=? z) && (z <? 2 ^ 256) else Revert in Ok z.
Definition add (a b : Z) : result Z := uint (a + b).
Definition sub (a b : Z) : result Z := uint (a - b).
Definition mul (a b : Z) : result Z := uint (a * b).
Definition div (a b : Z) : result Z :=
  guard 0 <? b else Revert in Ok (a / b).
End SafeMath.

Module LiquityMath.
Definition DECIMAL_PRECISION : Z := 1000000000000000000.
Definition NICR_PRECISION : Z := 100000000000000000000.

Definition decMul (x y : Z) : result Z :=
  let* prod_xy := SafeMath.mul x y in
  let* s := SafeMath.add prod_xy (DECIMAL_PRECISION / 2) in
  SafeMath.div s DECIMAL_PRECISION.

(** The [while] loop of [_decPow]; the cap on the exponent keeps it below 30 rounds. *)
Fixpoint decPowLoop (fuel : nat) (x y n : Z) : result (Z * Z) :=
  if 1 <? n then
    match fuel with
    | O => Err OutOfFuel
    | S fuel =>
        if n mod 2 =? 0 then
          let* x := decMul x x in
          let* n := SafeMath.div n 2 in
          decPowLoop fuel x y n
        else
          let* y := decMul x y in
          let* x := decMul x x in
          let* n := SafeMath.sub n 1 in
          let* n := SafeMath.div n 2 in
          decPowLoop fuel x y n
    end
  else Ok (x, y).

Definition _decPow (_base _minutes : Z) : result Z :=
  let _minutes := if 525600000 <? _minutes then 525600000 else _minutes in
  if _minutes =? 0 then Ok DECIMAL_PRECISION
  else
    let* '(x, y) := decPowLoop 32 _base DECIMAL_PRECISION _minutes in
    decMul x y.

Definition _computeNominalCR (_coll _debt : Z) : result Z :=
  if 0 <? _debt then
    let* p := SafeMath.mul _coll NICR_PRECISION in SafeMath.div p _debt
  else Ok (2 ^ 256 - 1).

Definition _computeCR (_coll _debt _price : Z) : result Z :=
  if 0 <? _debt then
    let* p := SafeMath.mul _coll _price in SafeMath.div p _debt
  else Ok (2 ^ 256 - 1).
End LiquityMath.

Module LiquityBase.
Definition MCR : Z := 1100000000000000000.
Definition CCR : Z := 1500000000000000000.
Definition LUSD_GAS_COMPENSATION : Z := 5 * 10 ^ 17.
Definition MIN_NET_DEBT : Z := 5 * 10 ^ 18.
Definition BORROWING_FEE_FLOOR : Z := LiquityMath.DECIMAL_PRECISION / 1000 * 5.
End LiquityBase.

(** The fee functions of [TroveManager], on the state they read: the base rate, the time of
    the last fee operation and the block timestamp, in seconds. *)
Module TroveManager.
Definition SECONDS_IN_ONE_MINUTE : Z := 60.
Definition MINUTE_DECAY_FACTOR : Z := 999037758833783000.
Definition REDEMPTION_FEE_FLOOR : Z := LiquityMath.DECIMAL_PRECISION / 1000 * 5.
Definition MAX_BORROWING_FEE : Z := LiquityMath.DECIMAL_PRECISION / 100 * 5.
Definition BETA : Z := 2.

Section fees.
Context (baseRate lastFeeOperationTime timestamp : Z).

Definition _minutesPassedSinceLastFeeOp : result Z :=
  let* t := SafeMath.sub timestamp lastFeeOperationTime in
  SafeMath.div t SECONDS_IN_ONE_MINUTE.

Definition _calcDecayedBaseRate : result Z :=
  let* minutesPassed := _minutesPassedSinceLastFeeOp in
  let* decayFactor := LiquityMath._decPow MINUTE_DECAY_FACTOR minutesPassed in
  let* p := SafeMath.mul baseRate decayFactor in
  SafeMath.div p LiquityMath.DECIMAL_PRECISION.

Definition _calcBorrowingRate (_baseRate : Z) : result Z :=
  let* s := SafeMath.add LiquityBase.BORROWING_FEE_FLOOR _baseRate in
  Ok (Z.min s MAX_BORROWING_FEE).

Definition getBorrowingRateWithDecay : result Z :=
  let* r := _calcDecayedBaseRate in _calcBorrowingRate r.

Definition _calcRedemptionRate (_baseRate : Z) : result Z :=
  let* s := SafeMath.add REDEMPTION_FEE_FLOOR _baseRate in
  Ok (Z.min s LiquityMath.DECIMAL_PRECISION).

(** The time of the last fee operation moves only when a minute has passed. *)
Definition _updateLastFeeOpTime : result Z :=
  let* timePassed := SafeMath.sub timestamp lastFeeOperationTime in
  Ok (if SECONDS_IN_ONE_MINUTE <=? timePassed then timestamp else lastFeeOperationTime).

(** The base rate it returns and stores, with the new time of the last fee operation. *)
Definition _updateBaseRateFromRedemption (_ETHDrawn _price _totalLUSDSupply : Z) :
    result (Z * Z) :=
  let* decayedBaseRate := _calcDecayedBaseRate in
  let* drawn := SafeMath.mul _ETHDrawn _price in
  let* redeemedLUSDFraction := SafeMath.div drawn _totalLUSDSupply in
  let* increase := SafeMath.div redeemedLUSDFraction BETA in
  let* newBaseRate := SafeMath.add decayedBaseRate increase in
  let newBaseRate := Z.min newBaseRate LiquityMath.DECIMAL_PRECISION in
  guard 0 <? newBaseRate else AssertionError in
  let* lastFeeOperationTime := _updateLastFeeOpTime in
  Ok (newBaseRate, lastFeeOperationTime).

(** In [redeemCollateral], the base rate is stored first and [_getRedemptionFee] then reads
    [getRedemptionRate]: the rate of the redemption's fee. *)
Definition chargedRedemptionRate (_ETHDrawn _price _totalLUSDSupply : Z) : result Z :=
  let* stored := _updateBaseRateFromRedemption _ETHDrawn _price _totalLUSDSupply in
  _calcRedemptionRate stored.1.
End fees.
End TroveManager.

Lemma uintE z : 0 <= z < 2 ^ 256 -> SafeMath.uint z = Ok z.
Proof.
  intros. unfold SafeMath.uint.
  destruct (Z.leb_spec 0 z), (Z.ltb_spec z (2 ^ 256)); done || lia.
Qed.

Lemma safe_divE a b : 0 < b -> SafeMath.div a b = Ok (a / b).
Proof. intros. unfold SafeMath.div. by destruct (Z.ltb_spec 0 b); [|lia]. Qed.
