(* ===== verification/DecimalArith.v ===== *)
(** * Products, quotients and powers of decimals

    The rounding of [mul], [div] and [_divCeil] as adjunctions; [Decimal.pow] computes
    what the contracts' [_decPow] computes, stays below one, and is within half a unit
    per step of the exact power. *)

From S2P Require Import Prelude JsString BigNumber Decimal LiquityMath.

Section rounding.
Context `{BNL : BigNumberLaws}.
Implicit Types x y q r : Decimal.

Lemma div_le_iff a b c : 0 < b -> (a / b <= c <-> a < b * (c + 1)).
Proof.
  intros. split; intros.
  - pose proof (Z.mod_pos_bound a b). pose proof (Z.div_mod a b). nia.
  - assert (a / b < c + 1); [|lia]. apply Z.div_lt_upper_bound; lia.
Qed.

Lemma le_div_iff a b c : 0 < b -> (c <= a / b <-> c * b <= a).
Proof.
  intros. split; intros; [|by apply Z.div_le_lower_bound; lia].
  pose proof (Z.mod_pos_bound a b). pose proof (Z.div_mod a b). nia.
Qed.

(** [_divCeil] is the least quotient whose product with the divider, rounded down by
    [mul], reaches the dividend. *)
Theorem divCeil_least x y :
  Decimal.isZero y = false ->
  exists c, Decimal._divCeil x y = Ok c /\
  forall r p, Decimal.mul r y = Ok p -> (big x <= big p <-> big c <= big r).
Proof.
  rewrite isZeroE. intros Hy%Z.eqb_neq. assert (0 < big y) by blia.
  rewrite divCeilE by done. eexists; split; [done|]. intros r p.
  rewrite mulE. intros [= <-].
  rewrite !big_dec by (apply Z.div_pos; bnia).
  rewrite le_div_iff, div_le_iff by (done || lia). split; intros; nia.
Qed.
End rounding.

(** ** Square and multiply *)

(** Rounded product of two 18-digit fixed-point numbers. *)
Definition rmul (x y : Z) : Z := (x * y + 500000000000000000) / Decimal.DIGITS.

(** The common core of the two loops, on unbounded integers. *)
Fixpoint sqmul (fuel : nat) (x y n : Z) : Z * Z :=
  if 1 <? n then
    match fuel with
    | O => (x, y)
    | S fuel => sqmul fuel (rmul x x) (if Z.odd n then rmul x y else y) (n / 2)
    end
  else (x, y).

(** The power both compute, for a positive exponent. *)
Definition power (x n : Z) : Z :=
  let '(x, y) := sqmul 32 x Decimal.DIGITS n in rmul x y.

Lemma rmul_nonneg x y : 0 <= x -> 0 <= y -> 0 <= rmul x y.
Proof. intros. apply Z.div_pos; [nia | done]. Qed.

Lemma rmul_le_one x y :
  0 <= x <= Decimal.DIGITS -> 0 <= y <= Decimal.DIGITS -> 0 <= rmul x y <= Decimal.DIGITS.
Proof.
  intros. split; [apply rmul_nonneg; lia|]. unfold rmul.
  apply div_le_iff; [done|]. unfold Decimal.DIGITS in *. nia.
Qed.

Lemma half_exponent n fuel :
  1 < n -> n < 2 ^ Z.of_nat (S (S fuel)) -> 1 <= n / 2 < 2 ^ Z.of_nat (S fuel).
Proof.
  intros Hn Hf. rewrite Nat2Z.inj_succ, Z.pow_succ_r in Hf by lia.
  split; [apply Z.div_le_lower_bound; lia | apply Z.div_lt_upper_bound; lia].
Qed.

Lemma odd_land n : (Z.land n 1 =? 1) = Z.odd n.
Proof.
  change 1 with (Z.ones 1) at 1. rewrite Z.land_ones by lia. change (2 ^ 1) with 2.
  rewrite Zmod_odd. by destruct (Z.odd n).
Qed.

Lemma powLoop_sqmul `{BNL : BigNumberLaws} fuel x y n :
  0 <= x -> 0 <= y -> n < 2 ^ Z.of_nat (S fuel) ->
  Decimal.powLoop fuel x y n = Ok (sqmul fuel x y n).
Proof.
  revert x y n; induction fuel as [|fuel IH]; intros x y n Hx Hy Hn; cbn [Decimal.powLoop sqmul];
    destruct (Z.ltb_spec 1 n); try done.
  { change (2 ^ Z.of_nat 1) with 2 in Hn. lia. }
  pose proof (half_exponent n fuel). rewrite odd_land, Z.shiftr_div_pow2, Z.pow_1_r by lia.
  pose proof (rmul_nonneg x x). pose proof (rmul_nonneg x y).
  destruct (Z.odd n); rewrite ?roundedMulE by done; cbn [bind]; apply IH; tauto || lia.
Qed.

Lemma decMulE x y :
  0 <= x <= Decimal.DIGITS -> 0 <= y <= Decimal.DIGITS -> LiquityMath.decMul x y = Ok (rmul x y).
Proof.
  intros. unfold LiquityMath.decMul, SafeMath.mul, SafeMath.add, Decimal.DIGITS in *.
  rewrite uintE by nia. cbn [bind]. change (LiquityMath.DECIMAL_PRECISION / 2) with 500000000000000000.
  rewrite uintE by nia. cbn [bind]. by rewrite safe_divE.
Qed.

Lemma decPowLoop_sqmul fuel x y n :
  0 <= x <= Decimal.DIGITS -> 0 <= y <= Decimal.DIGITS -> n < 2 ^ Z.of_nat (S fuel) ->
  n < 2 ^ 256 ->
  LiquityMath.decPowLoop fuel x y n = Ok (sqmul fuel x y n).
Proof.
  revert x y n; induction fuel as [|fuel IH]; intros x y n Hx Hy Hn Hw;
    cbn [LiquityMath.decPowLoop sqmul]; destruct (Z.ltb_spec 1 n); try done.
  { change (2 ^ Z.of_nat 1) with 2 in Hn. lia. }
  pose proof (half_exponent n fuel). pose proof (rmul_le_one x x). pose proof (rmul_le_one x y).
  pose proof (Z.div_mod n 2 ltac:(lia)) as Hdm. rewrite Zmod_odd in Hdm. rewrite Zmod_odd.
  destruct (Z.odd n); cbn [Z.eqb]; rewrite !decMulE by done; cbn [bind].
  - unfold SafeMath.sub. rewrite uintE by lia. cbn [bind]. rewrite safe_divE by lia. cbn [bind].
    replace ((n - 1) / 2) with (n / 2) by (apply Z.div_unique with 0; lia).
    apply IH; tauto || lia.
  - rewrite safe_divE by lia. cbn [bind]. apply IH; tauto || lia.
Qed.

Lemma sqmul_le_one fuel x y n :
  0 <= x <= Decimal.DIGITS -> 0 <= y <= Decimal.DIGITS ->
  0 <= (sqmul fuel x y n).1 <= Decimal.DIGITS /\ 0 <= (sqmul fuel x y n).2 <= Decimal.DIGITS.
Proof.
  revert x y n; induction fuel as [|fuel IH]; intros x y n Hx Hy; cbn [sqmul];
    destruct (1 <? n); try done.
  apply IH; [by apply rmul_le_one|]. destruct (Z.odd n); [by apply rmul_le_one | done].
Qed.

Lemma sqmul_nonneg fuel x y n :
  0 <= x -> 0 <= y -> 0 <= (sqmul fuel x y n).1 /\ 0 <= (sqmul fuel x y n).2.
Proof.
  revert x y n; induction fuel as [|fuel IH]; intros x y n Hx Hy; cbn [sqmul];
    destruct (1 <? n); try done.
  apply IH; [by apply rmul_nonneg|]. destruct (Z.odd n); [by apply rmul_nonneg | done].
Qed.

Lemma power_1 x : 0 <= x -> power x 1 = x.
Proof.
  intros. unfold power, rmul; cbn -[Decimal.DIGITS Z.div Z.mul Z.add].
  rewrite Z.div_add_l by done. change (500000000000000000 / Decimal.DIGITS) with 0. lia.
Qed.

Section pow.
Context `{BNL : BigNumberLaws}.
Implicit Types x : Decimal.

(** [Decimal.pow] is [power], with the zeroth power set apart. *)
Lemma powE x n :
  0 <= n <= 4294967295 ->
  Decimal.pow x n = Ok (dec (if n =? 0 then Decimal.DIGITS else power (big x) n)).
Proof.
  intros Hn. unfold Decimal.pow. destruct (Z.leb_spec 0 n), (Z.leb_spec n 4294967295); try lia.
  cbn [andb]. destruct (Z.eqb_spec n 0); [done|]. destruct (Z.eqb_spec n 1) as [->|].
  { rewrite power_1 by blia. by rewrite dec_big. }
  rewrite powLoop_sqmul; [| blia | done | change (2 ^ Z.of_nat 33) with 8589934592; lia].
  cbn [bind]. unfold power.
  destruct (sqmul_nonneg 32 (big x) Decimal.DIGITS n (big_nonneg x) ltac:(done)) as [H1 H2].
  destruct (sqmul _ _ _ _) as [v w]; simpl in *. rewrite roundedMulE by done. cbn [bind].
  by apply newE, rmul_nonneg.
Qed.

(** On chain and off chain the same power. *)
Lemma decPow_pow x n :
  big x <= Decimal.DIGITS -> 0 <= n <= 525600000 ->
  exists r, Decimal.pow x n = Ok r /\ LiquityMath._decPow (big x) n = Ok (big r) /\
            big r <= Decimal.DIGITS.
Proof.
  intros Hx Hn. pose proof (big_nonneg x).
  rewrite powE by lia. eexists; split; [done|]. unfold LiquityMath._decPow.
  destruct (Z.ltb_spec 525600000 n); [lia|]. destruct (Z.eqb_spec n 0); [by rewrite big_dec|].
  unfold power. rewrite decPowLoop_sqmul;
    [| done | done | change (2 ^ Z.of_nat 33) with 8589934592; lia | lia].
  destruct (sqmul_le_one 32 (big x) Decimal.DIGITS n ltac:(done) ltac:(done)) as [H1 H2].
  destruct (sqmul _ _ _ _) as [v w]; simpl in *. rewrite decMulE by done.
  destruct (rmul_le_one v w H1 H2). by rewrite big_dec by lia.
Qed.

(** C26. Below the cap on the exponent and for a base of at most one, [Decimal.pow]
    computes exactly what the contract's [_decPow] computes, which does not revert. *)
Theorem pow_refines_decPow x n :
  big x <= big Decimal.ONE -> 0 <= n <= 525600000 ->
  exists r, Decimal.pow x n = Ok r /\ LiquityMath._decPow (big x) n = Ok (big r).
Proof. intros Hx Hn. destruct (decPow_pow x n Hx Hn) as (r & ? & ? & _). eauto. Qed.

Lemma power_le_one b n :
  0 <= b <= Decimal.DIGITS -> 0 <= power b n <= Decimal.DIGITS.
Proof.
  intros Hb. unfold power.
  destruct (sqmul_le_one 32 b Decimal.DIGITS n Hb ltac:(done)) as [H1 H2].
  destruct (sqmul _ _ _ _). by apply rmul_le_one.
Qed.

(** A power of a factor of at most one is at most one. *)
Lemma pow_le_one x n r :
  big x <= Decimal.DIGITS -> 0 <= n <= 4294967295 ->
  Decimal.pow x n = Ok r -> big r <= Decimal.DIGITS.
Proof.
  intros Hx Hn. rewrite powE by done. intros [= <-].
  pose proof (power_le_one (big x) n ltac:(blia)).
  destruct (n =? 0); rewrite big_dec; done || lia.
Qed.
End pow.

(** ** Accuracy

    [approx b v k c]: [v] is the fixed-point [k]-th power of [b], within [c] half units
    of the last digit: [|v / D - (b / D) ^ k| <= c / (2 * D)], cleared of fractions. *)

Section accuracy.
Context (b : Z) (Hb : 0 <= b <= Decimal.DIGITS).
Notation D := Decimal.DIGITS.

Definition approx (v k c : Z) : Prop :=
  2 * Z.abs (v * D ^ k - b ^ k * D) <= c * D ^ k.

Lemma pow_base_le k : 0 <= k -> 0 <= b ^ k <= D ^ k.
Proof. intros. split; [apply Z.pow_nonneg; lia | by apply Z.pow_le_mono_l]. Qed.

Lemma rmul_error v w : 2 * Z.abs (D * rmul v w - v * w) <= D.
Proof.
  unfold rmul. pose proof (Z.div_mod (v * w + 500000000000000000) D ltac:(done)).
  pose proof (Z.mod_pos_bound (v * w + 500000000000000000) D ltac:(done)).
  unfold Decimal.DIGITS in *. lia.
Qed.

(** Scaled errors of a product. *)
Lemma product_error v w A B p q c d r :
  0 < A -> 0 < B -> 0 <= v <= D -> 0 <= q <= B ->
  2 * Z.abs (v * A - p * D) <= c * A -> 2 * Z.abs (w * B - q * D) <= d * B ->
  2 * Z.abs (D * r - v * w) <= D ->
  2 * Z.abs (r * (A * B) - (p * q) * D) <= (c + d + 1) * (A * B).
Proof.
  intros HA HB Hv Hq H1 H2 H3. assert (0 < D) as HD by done. revert HD Hv H1 H2 H3.
  generalize D as E. intros E HE Hv H1 H2 H3.
  assert (2 * Z.abs (E * (r * (A * B) - p * q * E)) <= E * ((c + d + 1) * (A * B))) as H.
  { replace (E * (r * (A * B) - p * q * E)) with
      ((E * r - v * w) * (A * B) + (v * A) * (w * B - q * E) + (q * E) * (v * A - p * E)) by ring.
    pose proof (Z.abs_triangle ((E * r - v * w) * (A * B) + (v * A) * (w * B - q * E))
                  ((q * E) * (v * A - p * E))).
    pose proof (Z.abs_triangle ((E * r - v * w) * (A * B)) ((v * A) * (w * B - q * E))).
    rewrite !Z.abs_mul in *. rewrite (Z.abs_eq A), (Z.abs_eq B), (Z.abs_eq v), (Z.abs_eq q),
      (Z.abs_eq E) in * by lia.
    set (e1 := Z.abs (E * r - v * w)) in *. set (e2 := Z.abs (w * B - q * E)) in *.
    set (e3 := Z.abs (v * A - p * E)) in *.
    assert (0 < A * B) as HAB by nia.
    pose proof (Z.mul_le_mono_nonneg_r _ _ (A * B) ltac:(lia) H3).
    assert (0 <= v * A <= E * A) as [??] by nia.
    assert (0 <= q * E <= B * E) as [??] by nia.
    assert (0 <= e2 /\ 0 <= e3) as [??] by (unfold e2, e3; lia).
    assert (2 * (v * A * e2) <= (E * A) * (d * B)) by nia.
    assert (2 * (q * E * e3) <= (B * E) * (c * A)) by nia.
    lia. }
  rewrite Z.abs_mul, (Z.abs_eq E) in H by lia. nia.
Qed.

Lemma rmul_approx v w k l c d :
  0 <= k -> 0 <= l -> 0 <= v <= D ->
  approx v k c -> approx w l d -> approx (rmul v w) (k + l) (c + d + 1).
Proof.
  intros Hk Hl Hv H1 H2. unfold approx in *. rewrite !Z.pow_add_r by done.
  apply (product_error v w); auto using pow_base_le, rmul_error; by apply Z.pow_pos_nonneg.
Qed.

(** The loop invariant: [x] approximates the [k]-th power and [y] the [m]-th, and the
    exponent that is left makes up the rest of [k * n + m]. *)
Lemma sqmul_approx fuel x y n k m :
  1 <= n < 2 ^ Z.of_nat (S fuel) -> 0 < k -> 0 <= m ->
  0 <= x <= D -> 0 <= y <= D -> approx x k (k - 1) -> approx y m m ->
  exists k' m', 0 < k' /\ 0 <= m' /\ k' + m' = k * n + m /\
    let '(x', y') := sqmul fuel x y n in
    0 <= x' <= D /\ approx x' k' (k' - 1) /\ approx y' m' m'.
Proof.
  revert x y n k m; induction fuel as [|fuel IH]; intros x y n k m Hn Hk Hm Hx Hy Ax Ay;
    cbn [sqmul]; destruct (Z.ltb_spec 1 n);
    try (assert (n = 1) as -> by lia; exists k, m; split_and!; done || lia).
  pose proof (rmul_approx x x k k _ _ ltac:(lia) ltac:(lia) Hx Ax Ax) as Axx.
  pose proof (rmul_approx x y k m _ _ ltac:(lia) ltac:(lia) Hx Ax Ay) as Axy.
  pose proof (Z.div_mod n 2 ltac:(lia)) as Hdm. rewrite Zmod_odd in Hdm.
  destruct (IH (rmul x x) (if Z.odd n then rmul x y else y) (n / 2) (k + k)
              (if Z.odd n then k + m else m)) as (k' & m' & Hk' & Hm' & Heq & H').
  - apply half_exponent; lia.
  - lia.
  - destruct (Z.odd n); lia.
  - by apply rmul_le_one.
  - destruct (Z.odd n); [by apply rmul_le_one | done].
  - by replace (k + k - 1) with (k - 1 + (k - 1) + 1) by lia.
  - destruct (Z.odd n); [|done]. by replace (k + m) with (k - 1 + m + 1) at 2 by lia.
  - exists k', m'. split_and!; [done | done | destruct (Z.odd n); lia | done].
Qed.

Lemma power_approx n : 1 <= n < 2 ^ 33 -> approx (power b n) n n.
Proof.
  intros Hn. unfold power.
  destruct (sqmul_approx 32 b D n 1 0) as (k & m & Hk & Hm & Heq & H); try done || lia.
  { unfold approx. rewrite !Z.pow_1_r, Z.sub_diag. lia. }
  destruct (sqmul _ _ _ _) as [x y]. destruct H as (Hx & Ax & Ay).
  assert (k + m = n) as <- by lia. replace (k + m) with (k - 1 + m + 1) at 2 by lia.
  by apply rmul_approx; try lia.
Qed.
End accuracy.

(** For a base of at most one, [Decimal.pow] is within [n / 2] units of the
    eighteenth digit of the exact [n]-th power: with [D = 10 ^ 18] and [r] the result,
    [|r / D - (x / D) ^ n| <= n / (2 * D)], here multiplied by [2 * D ^ (n + 1)]. *)
Theorem pow_accurate `{BNL : BigNumberLaws} (x : Decimal) n :
  big x <= big Decimal.ONE -> 1 <= n <= 4294967295 ->
  exists r, Decimal.pow x n = Ok r /\
  2 * Z.abs (big r * Decimal.DIGITS ^ n - big x ^ n * Decimal.DIGITS) <= n * Decimal.DIGITS ^ n.
Proof.
  intros Hx Hn. change (big Decimal.ONE) with Decimal.DIGITS in Hx. pose proof (big_nonneg x).
  rewrite powE by lia. eexists; split; [done|]. destruct (Z.eqb_spec n 0); [lia|].
  pose proof (power_le_one (big x) n ltac:(done)). rewrite big_dec by lia.
  apply power_approx; [done | lia].
Qed.


(** A day of decay. *)
Lemma pow_refines_decPow_witness :
  exists r, Decimal.pow (dec 999037758833783000) 1440 = Ok r /\
    LiquityMath._decPow 999037758833783000 1440 = Ok (big r).
Proof.
  apply (pow_refines_decPow (dec 999037758833783000) 1440); [vm_compute; discriminate | lia].
Defined.

Lemma pow_accurate_witness :
  exists r, Decimal.pow Decimal.HALF 3 = Ok r /\
  2 * Z.abs (big r * Decimal.DIGITS ^ 3 - big Decimal.HALF ^ 3 * Decimal.DIGITS)
  <= 3 * Decimal.DIGITS ^ 3.
Proof. apply (pow_accurate Decimal.HALF 3); [vm_compute; discriminate | lia]. Defined.
