(* ===== verification/Constants.v ===== *)
(** * Protocol constants

    [packages/lib-base/src/constants.ts].  The constants are given by their value;
    [constants_init] shows that the initialisers of the source evaluate to them. *)

From S2P Require Import Prelude JsString BigNumber Decimal DecimalText LiquityMath.
From Stdlib Require Import String.

Local Open Scope string_scope.
Local Open Scope Z_scope.

Definition CRITICAL_COLLATERAL_RATIO : Decimal := dec 1500000000000000000.
Definition MINIMUM_COLLATERAL_RATIO : Decimal := dec 1100000000000000000.
Definition LUSD_LIQUIDATION_RESERVE : Decimal := dec 100000000000000000.
Definition LUSD_MINIMUM_NET_DEBT : Decimal := dec 5000000000000000000.
Definition LUSD_MINIMUM_DEBT : Decimal := dec 5100000000000000000.
Definition MINIMUM_BORROWING_RATE : Decimal := dec 5000000000000000.
Definition MAXIMUM_BORROWING_RATE : Decimal := dec 50000000000000000.
Definition MINIMUM_REDEMPTION_RATE : Decimal := dec 5000000000000000.

(** Reads a numeric initialiser. *)
Ltac read l := cbn [Decimal.from]; rewrite (read_constant l) by done; done.

(** The initialisers of the static decimals and of the protocol constants evaluate
    without throwing to the values used throughout; the ratios, the minimum net debt and
    the fee bounds are those of the contracts, but the liquidation reserve is not: the
    contracts lock half an LUSD, the SDK assumes a tenth. *)
Theorem constants_init `{BNL : BigNumberLaws} :
  (Decimal.getDigits Decimal.PRECISION = Ok Decimal.DIGITS /\
   Decimal.fromBigNumberString Decimal.MAX_UINT_256 = Ok Decimal.INFINITY /\
   Decimal.from (FromNumber "0") = Ok Decimal.ZERO /\
   Decimal.from (FromNumber "0.5") = Ok Decimal.HALF /\
   Decimal.from (FromNumber "1") = Ok Decimal.ONE) /\
  (Decimal.from (FromNumber "1.5") = Ok CRITICAL_COLLATERAL_RATIO /\
   Decimal.from (FromNumber "1.1") = Ok MINIMUM_COLLATERAL_RATIO /\
   Decimal.from (FromNumber "0.1") = Ok LUSD_LIQUIDATION_RESERVE /\
   Decimal.from (FromNumber "5") = Ok LUSD_MINIMUM_NET_DEBT /\
   Decimal.add LUSD_LIQUIDATION_RESERVE LUSD_MINIMUM_NET_DEBT = Ok LUSD_MINIMUM_DEBT /\
   Decimal.from (FromNumber "0.005") = Ok MINIMUM_BORROWING_RATE /\
   Decimal.from (FromNumber "0.05") = Ok MAXIMUM_BORROWING_RATE /\
   Decimal.from (FromNumber "0.005") = Ok MINIMUM_REDEMPTION_RATE) /\
  (big MINIMUM_COLLATERAL_RATIO = LiquityBase.MCR /\
   big CRITICAL_COLLATERAL_RATIO = LiquityBase.CCR /\
   big LUSD_MINIMUM_NET_DEBT = LiquityBase.MIN_NET_DEBT /\
   big MINIMUM_BORROWING_RATE = LiquityBase.BORROWING_FEE_FLOOR /\
   big MAXIMUM_BORROWING_RATE = TroveManager.MAX_BORROWING_FEE /\
   big MINIMUM_REDEMPTION_RATE = TroveManager.REDEMPTION_FEE_FLOOR /\
   big LUSD_LIQUIDATION_RESERVE < LiquityBase.LUSD_GAS_COMPENSATION).
Proof.
  split; [|split].
  - split; [apply DIGITS_init|]. split.
    { unfold Decimal.fromBigNumberString, Decimal.MAX_UINT_256.
      change "0xffffffffffffffffffffffffffffffffffffffffffffffffffffffffffffffff"
        with ("0x" +:+ "ffffffffffffffffffffffffffffffffffffffffffffffffffffffffffffffff").
      rewrite bn_from_hex by done. cbn [bind]. by rewrite newE. }
    split_and!; [read (Literal "0" None None) | read (Literal "0" (Some "5") None)
                | read (Literal "1" None None)].
  - split_and!;
      [ read (Literal "1" (Some "5") None) | read (Literal "1" (Some "1") None)
      | read (Literal "0" (Some "1") None) | read (Literal "5" None None)
      | by rewrite addE | read (Literal "0" (Some "005") None)
      | read (Literal "0" (Some "05") None) | read (Literal "0" (Some "005") None) ].
  - done.
Qed.

Lemma constants_init_witness : Decimal.from (FromNumber "0.1") = Ok LUSD_LIQUIDATION_RESERVE.
Proof. destruct constants_init as (_ & (_ & _ & H & _) & _). exact H. Defined.
