(* ===== verification/Trove.v ===== *)
(** * Troves

    [packages/lib-base/src/Trove.ts]: the parameters of Trove operations and their
    normalisation, [Trove] with [whatChanged] and [apply], and the user's Trove before
    and after pending redistributions are applied. *)

From S2P Require Import Prelude JsString BigNumber Decimal DecimalArith Constants LiquityMath.
From Stdlib Require Import Ascii String.

Local Open Scope string_scope.
Local Open Scope Z_scope.

(** ** Parameters and changes *)

Inductive CollateralChange (T : Type) := DepositCollateral (t : T) | WithdrawCollateral (t : T).
Inductive DebtChange (T : Type) := BorrowLUSD (t : T) | RepayLUSD (t : T).
Arguments DepositCollateral {T} t.
Arguments WithdrawCollateral {T} t.
Arguments BorrowLUSD {T} t.
Arguments RepayLUSD {T} t.

Record TroveCreationParams (T : Type) := mkCreation { c_depositCollateral : T; c_borrowLUSD : T }.
Arguments mkCreation {T}.
Arguments c_depositCollateral {T}.
Arguments c_borrowLUSD {T}.

Record TroveClosureParams (T : Type) :=
  mkClosure { x_withdrawCollateral : T; x_repayLUSD : option T }.
Arguments mkClosure {T}.
Arguments x_withdrawCollateral {T}.
Arguments x_repayLUSD {T}.

(** The type excludes a deposit with a withdrawal, and a borrowing with a repayment. *)
Record TroveAdjustmentParams (T : Type) :=
  mkAdjustment { a_collateral : option (CollateralChange T); a_debt : option (DebtChange T) }.
Arguments mkAdjustment {T}.
Arguments a_collateral {T}.
Arguments a_debt {T}.

(** The optional properties an adjustment is destructured into. *)
Definition depositCollateral {T} (p : TroveAdjustmentParams T) : option T :=
  match a_collateral p with Some (DepositCollateral t) => Some t | _ => None end.
Definition withdrawCollateral {T} (p : TroveAdjustmentParams T) : option T :=
  match a_collateral p with Some (WithdrawCollateral t) => Some t | _ => None end.
Definition borrowLUSD {T} (p : TroveAdjustmentParams T) : option T :=
  match a_debt p with Some (BorrowLUSD t) => Some t | _ => None end.
Definition repayLUSD {T} (p : TroveAdjustmentParams T) : option T :=
  match a_debt p with Some (RepayLUSD t) => Some t | _ => None end.

Record Trove := mkTrove { collateral : Decimal; debt : Decimal }.

#[export] Instance Trove_eq_dec : EqDecision Trove.
Proof. solve_decision. Defined.

Inductive TroveCreationError := MissingLiquidationReserve.

Inductive SetToZero := ZeroCollateral | ZeroDebt.

Inductive TroveChange (T : Type) :=
| InvalidCreation (invalidTrove : Trove) (error : TroveCreationError)
| Creation (params : TroveCreationParams T)
| Closure (params : TroveClosureParams T)
| Adjustment (params : TroveAdjustmentParams T) (setToZero : option SetToZero).
Arguments InvalidCreation {T}.
Arguments Creation {T}.
Arguments Closure {T}.
Arguments Adjustment {T}.

(** ** Normalisation of parameter objects

    A parameter object is the list of its [Object.entries]: string keys in order, each
    with a value that may be [undefined]. *)

Section normalize.
Context `{BN : BigNumber}.

Definition valueIsDefined {T} (entry : string * option T) : option (string * T) :=
  match entry.2 with Some v => Some (entry.1, v) | None => None end.

Definition definedEntries {T} (params : list (string * option T)) : list (string * T) :=
  omap valueIsDefined params.

Definition quoteKey (k : string) : string := "'" +:+ k +:+ "'".

(** [Object.fromEntries(entries)[k]]: the last entry with key [k]. *)
Definition fromEntries {T} (entries : list (string * T)) (k : string) : option T :=
  foldl (fun acc '(k', v) => if String.eqb k k' then Some v else acc) None entries.

Definition allowedTroveCreationKeys : list string := ["depositCollateral"; "borrowLUSD"].

Definition badKeys {T} (allowed : list string) (entries : list (string * T)) : list string :=
  quoteKey <$> filter (fun k => negb (existsb (String.eqb k) allowed)) (entries.*1).

Definition checkAllowedTroveCreationKeys {T} (entries : list (string * T)) : result unit :=
  match badKeys allowedTroveCreationKeys entries with
  | [] => Ok tt
  | bad => Err (JsError ("TroveCreationParams: property " +:+ join ", " bad +:+ " not allowed"))
  end.

Definition troveCreationParamsFromEntries {T} (entries : list (string * T)) :
    result (TroveCreationParams T) :=
  let params := fromEntries entries in
  let missingKeys :=
    quoteKey <$> filter (fun k => bool_decide (params k = None)) allowedTroveCreationKeys in
  match params "depositCollateral", params "borrowLUSD" with
  | Some d, Some b => Ok (mkCreation d b)
  | _, _ =>
      Err (JsError ("TroveCreationParams: property " +:+ join ", " missingKeys +:+ " missing"))
  end.

Definition decimalize {T} (entry : T * Decimalish) : result (T * Decimal) :=
  let* d := Decimal.from entry.2 in Ok (entry.1, d).

Definition nonZero {T} (entry : T * Decimal) : bool := negb (Decimal.isZero entry.2).

Definition _normalizeTroveCreation (params : list (string * option Decimalish)) :
    result (TroveCreationParams Decimal) :=
  let definedEntries := definedEntries params in
  let* _ := checkAllowedTroveCreationKeys definedEntries in
  let* nonZeroEntries := traverse decimalize definedEntries in
  troveCreationParamsFromEntries nonZeroEntries.

Definition allowedTroveAdjustmentKeys : list string :=
  ["depositCollateral"; "withdrawCollateral"; "borrowLUSD"; "repayLUSD"].

Definition checkAllowedTroveAdjustmentKeys {T} (entries : list (string * T)) : result unit :=
  match badKeys allowedTroveAdjustmentKeys entries with
  | [] => Ok tt
  | bad => Err (JsError ("TroveAdjustmentParams: property " +:+ join ", " bad +:+ " not allowed"))
  end.

Definition collateralChangeFrom {T} (params : string -> option T) :
    result (option (CollateralChange T)) :=
  match params "depositCollateral", params "withdrawCollateral" with
  | Some _, Some _ =>
      Err (JsError ("TroveAdjustmentParams: 'depositCollateral' and 'withdrawCollateral' " +:+
                    "can't be present at the same time"))
  | Some d, None => Ok (Some (DepositCollateral d))
  | None, Some w => Ok (Some (WithdrawCollateral w))
  | None, None => Ok None
  end.

Definition debtChangeFrom {T} (params : string -> option T) : result (option (DebtChange T)) :=
  match params "borrowLUSD", params "repayLUSD" with
  | Some _, Some _ =>
      Err (JsError ("TroveAdjustmentParams: 'borrowLUSD' and 'repayLUSD' " +:+
                    "can't be present at the same time"))
  | Some b, None => Ok (Some (BorrowLUSD b))
  | None, Some r => Ok (Some (RepayLUSD r))
  | None, None => Ok None
  end.

Definition troveAdjustmentParamsFromEntries {T} (entries : list (string * T)) :
    result (TroveAdjustmentParams T) :=
  let params := fromEntries entries in
  let* collateralChange := collateralChangeFrom params in
  let* debtChange := debtChangeFrom params in
  match collateralChange, debtChange with
  | None, None =>
      Err (JsError "TroveAdjustmentParams: must include at least one non-zero parameter")
  | _, _ => Ok (mkAdjustment collateralChange debtChange)
  end.

Definition _normalizeTroveAdjustment (params : list (string * option Decimalish)) :
    result (TroveAdjustmentParams Decimal) :=
  let definedEntries := definedEntries params in
  let* _ := checkAllowedTroveAdjustmentKeys definedEntries in
  let* entries := traverse decimalize definedEntries in
  let nonZeroEntries := filter nonZero entries in
  troveAdjustmentParamsFromEntries nonZeroEntries.
End normalize.

(** ** The Trove class *)

Section fees.
Context `{BN : BigNumber}.

Definition applyFee (borrowingRate : Decimalish) (debtIncrease : Decimal) : result Decimal :=
  let* factor := Decimal.add Decimal.ONE borrowingRate in
  Decimal.mul debtIncrease factor.

Definition unapplyFee (borrowingRate : Decimalish) (debtIncrease : Decimal) : result Decimal :=
  let* factor := Decimal.add Decimal.ONE borrowingRate in
  Decimal._divCeil debtIncrease factor.
End fees.

(** [Decimal.from(100)] *)
Definition NOMINAL_COLLATERAL_RATIO_PRECISION : Decimal := dec 100000000000000000000.

Definition _emptyTrove : Trove := mkTrove Decimal.ZERO Decimal.ZERO.

Module Trove.
Section Trove.
Context `{BN : BigNumber}.
Implicit Types this that : Trove.

Definition isEmpty this : bool :=
  Decimal.isZero (collateral this) && Decimal.isZero (debt this).

Definition netDebt this : result Decimal :=
  if Decimal.ltD (debt this) LUSD_LIQUIDATION_RESERVE then
    let* r := Decimal.toString LUSD_LIQUIDATION_RESERVE None in
    Err (JsError ("netDebt should not be used when debt < " +:+ r))
  else Decimal.sub (debt this) LUSD_LIQUIDATION_RESERVE.

Definition _nominalCollateralRatio this : result Decimal :=
  Decimal.mulDiv (collateral this) NOMINAL_COLLATERAL_RATIO_PRECISION (debt this).

Definition collateralRatio this (price : Decimalish) : result Decimal :=
  Decimal.mulDiv (collateral this) price (debt this).

Definition collateralRatioIsBelowMinimum this (price : Decimalish) : result bool :=
  let* r := collateralRatio this price in Ok (Decimal.ltD r MINIMUM_COLLATERAL_RATIO).

Definition collateralRatioIsBelowCritical this (price : Decimalish) : result bool :=
  let* r := collateralRatio this price in Ok (Decimal.ltD r CRITICAL_COLLATERAL_RATIO).

Definition isOpenableInRecoveryMode this (price : Decimalish) : result bool :=
  let* r := collateralRatio this price in Ok (Decimal.gteD r CRITICAL_COLLATERAL_RATIO).

Definition toString this : result string :=
  let* c := Decimal.toString (collateral this) None in
  let* d := Decimal.toString (debt this) None in
  Ok ("{ collateral: " +:+ c +:+ ", debt: " +:+ d +:+ " }").

Definition equals this that : bool :=
  Decimal.eqD (collateral this) (collateral that) && Decimal.eqD (debt this) (debt that).

Definition add this that : result Trove :=
  let* c := Decimal.add (collateral this) (collateral that) in
  let* d := Decimal.add (debt this) (debt that) in
  Ok (mkTrove c d).

Definition addCollateral this (c : Decimalish) : result Trove :=
  let* c := Decimal.add (collateral this) c in Ok (mkTrove c (debt this)).

Definition addDebt this (d : Decimalish) : result Trove :=
  let* d := Decimal.add (debt this) d in Ok (mkTrove (collateral this) d).

Definition subtract this that : result Trove :=
  let* c := if Decimal.gtD (collateral this) (collateral that)
            then Decimal.sub (collateral this) (collateral that) else Ok Decimal.ZERO in
  let* d := if Decimal.gtD (debt this) (debt that)
            then Decimal.sub (debt this) (debt that) else Ok Decimal.ZERO in
  Ok (mkTrove c d).

Definition subtractCollateral this (c : Decimalish) : result Trove :=
  let* b := Decimal.gt (collateral this) c in
  let* c := if b then Decimal.sub (collateral this) c else Ok Decimal.ZERO in
  Ok (mkTrove c (debt this)).

Definition subtractDebt this (d : Decimalish) : result Trove :=
  let* b := Decimal.gt (debt this) d in
  let* d := if b then Decimal.sub (debt this) d else Ok Decimal.ZERO in
  Ok (mkTrove (collateral this) d).

Definition multiply this (multiplier : Decimalish) : result Trove :=
  let* c := Decimal.mul (collateral this) multiplier in
  let* d := Decimal.mul (debt this) multiplier in
  Ok (mkTrove c d).

Definition setCollateral this (c : Decimalish) : result Trove :=
  let* c := Decimal.from c in Ok (mkTrove c (debt this)).

Definition setDebt this (d : Decimalish) : result Trove :=
  let* d := Decimal.from d in Ok (mkTrove (collateral this) d).

Definition _debtChange this that (borrowingRate : Decimalish) : result (DebtChange Decimal) :=
  if Decimal.gtD (debt that) (debt this) then
    let* increase := Decimal.sub (debt that) (debt this) in
    rmap BorrowLUSD (unapplyFee borrowingRate increase)
  else rmap RepayLUSD (Decimal.sub (debt this) (debt that)).

Definition _collateralChange this that : result (CollateralChange Decimal) :=
  if Decimal.gtD (collateral that) (collateral this)
  then rmap DepositCollateral (Decimal.sub (collateral that) (collateral this))
  else rmap WithdrawCollateral (Decimal.sub (collateral this) (collateral that)).

(** [d.zero && tag] *)
Definition zeroTag (d : Decimal) (tag : SetToZero) : option SetToZero :=
  match Decimal.zero d with Some _ => Some tag | None => None end.

(** [borrowingRate] defaults to [MINIMUM_BORROWING_RATE] in the source. *)
Definition whatChanged this that (borrowingRate : Decimalish) :
    result (option (TroveChange Decimal)) :=
  if Decimal.eqD (collateral this) (collateral that) && Decimal.eqD (debt this) (debt that)
  then Ok None
  else if isEmpty this then
    if Decimal.ltD (debt that) LUSD_LIQUIDATION_RESERVE
    then Ok (Some (InvalidCreation that MissingLiquidationReserve))
    else
      let* net := netDebt that in
      let* borrow := unapplyFee borrowingRate net in
      Ok (Some (Creation (mkCreation (collateral that) borrow)))
  else if isEmpty that then
    let* net := netDebt this in
    Ok (Some (Closure (mkClosure (collateral this) (Decimal.nonZero net))))
  else if Decimal.eqD (collateral this) (collateral that) then
    let* d := _debtChange this that borrowingRate in
    Ok (Some (Adjustment (mkAdjustment None (Some d)) (zeroTag (debt that) ZeroDebt)))
  else if Decimal.eqD (debt this) (debt that) then
    let* c := _collateralChange this that in
    Ok (Some (Adjustment (mkAdjustment (Some c) None)
                (zeroTag (collateral that) ZeroCollateral)))
  else
    let* d := _debtChange this that borrowingRate in
    let* c := _collateralChange this that in
    Ok (Some (Adjustment (mkAdjustment (Some c) (Some d))
                (match zeroTag (debt that) ZeroDebt with
                 | Some t => Some t
                 | None => zeroTag (collateral that) ZeroCollateral
                 end))).

(** [borrowingRate] defaults to [MINIMUM_BORROWING_RATE] in the source. *)
Definition apply this (change : option (TroveChange Decimal)) (borrowingRate : Decimalish) :
    result Trove :=
  match change with
  | None => Ok this
  | Some (InvalidCreation invalidTrove _) =>
      guard isEmpty this else JsError "Can't create onto existing Trove" in Ok invalidTrove
  | Some (Creation params) =>
      guard isEmpty this else JsError "Can't create onto existing Trove" in
      let* owed := applyFee borrowingRate (c_borrowLUSD params) in
      let* d := Decimal.add LUSD_LIQUIDATION_RESERVE owed in
      Ok (mkTrove (c_depositCollateral params) d)
  | Some (Closure _) =>
      guard negb (isEmpty this) else JsError "Can't close empty Trove" in Ok _emptyTrove
  | Some (Adjustment params setToZero) =>
      let collateralDecrease := default Decimal.ZERO (withdrawCollateral params) in
      let collateralIncrease := default Decimal.ZERO (depositCollateral params) in
      let debtDecrease := default Decimal.ZERO (repayLUSD params) in
      let* debtIncrease := match borrowLUSD params with
                           | Some b => applyFee borrowingRate b
                           | None => Ok Decimal.ZERO
                           end in
      match setToZero with
      | Some ZeroCollateral =>
          let* t := setCollateral this Decimal.ZERO in
          let* t := addDebt t debtIncrease in
          subtractDebt t debtDecrease
      | Some ZeroDebt =>
          let* t := setDebt this Decimal.ZERO in
          let* t := addCollateral t collateralIncrease in
          subtractCollateral t collateralDecrease
      | None =>
          let* t := add this (mkTrove collateralIncrease debtIncrease) in
          subtract t (mkTrove collateralDecrease debtDecrease)
      end
  end.

Definition create (params : list (string * option Decimalish)) (borrowingRate : Decimalish) :
    result Trove :=
  let* p := _normalizeTroveCreation params in
  apply _emptyTrove (Some (Creation p)) borrowingRate.

Definition recreate that (borrowingRate : Decimalish) : result (TroveCreationParams Decimal) :=
  let* change := whatChanged _emptyTrove that borrowingRate in
  match change with Some (Creation params) => Ok params | _ => Err AssertionError end.

Definition adjust this (params : list (string * option Decimalish)) (borrowingRate : Decimalish) :
    result Trove :=
  let* p := _normalizeTroveAdjustment params in
  apply this (Some (Adjustment p None)) borrowingRate.

Definition adjustTo this that (borrowingRate : Decimalish) :
    result (TroveAdjustmentParams Decimal) :=
  let* change := whatChanged this that borrowingRate in
  match change with Some (Adjustment params _) => Ok params | _ => Err AssertionError end.

End Trove.
End Trove.

(** ** Troves with an owner *)

Inductive UserTroveStatus :=
| nonExistent | open | closedByOwner | closedByLiquidation | closedByRedemption.

#[export] Instance UserTroveStatus_eq_dec : EqDecision UserTroveStatus.
Proof. solve_decision. Defined.

Definition showUserTroveStatus (s : UserTroveStatus) : string :=
  match s with
  | nonExistent => "nonExistent" | open => "open" | closedByOwner => "closedByOwner"
  | closedByLiquidation => "closedByLiquidation" | closedByRedemption => "closedByRedemption"
  end.

Record UserTrove := mkUserTrove {
  ut_trove : Trove;
  ownerAddress : string;
  status : UserTroveStatus
}.

Module UserTrove.
Section UserTrove.
Context `{BN : BigNumber}.

Definition equals (this that : UserTrove) : bool :=
  Trove.equals (ut_trove this) (ut_trove that) &&
  String.eqb (ownerAddress this) (ownerAddress that) &&
  bool_decide (status this = status that).

Definition toString (this : UserTrove) : result string :=
  let* c := Decimal.toString (collateral (ut_trove this)) None in
  let* d := Decimal.toString (debt (ut_trove this)) None in
  Ok ("{ ownerAddress: " +:+ dquote +:+ ownerAddress this +:+ dquote +:+
      ", collateral: " +:+ c +:+ ", debt: " +:+ d +:+
      ", status: " +:+ dquote +:+ showUserTroveStatus (status this) +:+ dquote +:+ " }").
End UserTrove.
End UserTrove.

Record TroveWithPendingRedistribution := mkPending {
  p_userTrove : UserTrove;
  stake : Decimal;
  snapshotOfTotalRedistributed : Trove
}.

Module TroveWithPendingRedistribution.
Section TroveWithPendingRedistribution.
Context `{BN : BigNumber}.

Definition applyRedistribution (this : TroveWithPendingRedistribution)
    (totalRedistributed : Trove) : result UserTrove :=
  let* since := Trove.subtract totalRedistributed (snapshotOfTotalRedistributed this) in
  let* share := Trove.multiply since (stake this) in
  let* afterRedistribution := Trove.add (ut_trove (p_userTrove this)) share in
  Ok (mkUserTrove afterRedistribution
        (ownerAddress (p_userTrove this)) (status (p_userTrove this))).

Definition equals (this that : TroveWithPendingRedistribution) : bool :=
  UserTrove.equals (p_userTrove this) (p_userTrove that) &&
  Decimal.eqD (stake this) (stake that) &&
  Trove.equals (snapshotOfTotalRedistributed this) (snapshotOfTotalRedistributed that).
End TroveWithPendingRedistribution.
End TroveWithPendingRedistribution.
