(* ===== verification/TroveTheory.v ===== *)
(** * Properties of Troves

    [apply] undoes [whatChanged] up to one unit of rounding, changes keep their
    meaning, redistributions accumulate, ratios agree with the contracts, and
    parameter objects are normalised as documented. *)

From S2P Require Import Prelude JsString BigNumber Decimal DecimalArith Constants LiquityMath Trove.
From Stdlib Require Import Ascii String.

Local Open Scope string_scope.
Local Open Scope Z_scope.

(** ** Operations as integer arithmetic *)

Lemma trove_eq t c d : big (collateral t) = c -> big (debt t) = d -> mkTrove (dec c) (dec d) = t.
Proof. intros <- <-. rewrite !dec_big. by destruct t. Qed.

Section facts.
Context `{BNL : BigNumberLaws}.
Implicit Types a b t : Trove.

Lemma isEmptyE t : Trove.isEmpty t = (big (collateral t) =? 0) && (big (debt t) =? 0).
Proof. unfold Trove.isEmpty. by rewrite !isZeroE. Qed.

Lemma isEmpty_true t : Trove.isEmpty t = true <-> t = _emptyTrove.
Proof.
  rewrite isEmptyE, andb_true_iff, !Z.eqb_eq. split; [|by intros ->].
  intros [H1 H2]. destruct t as [c d]; simpl in *.
  unfold _emptyTrove. f_equal; by apply big_inj.
Qed.

Lemma equals_true a b : Trove.equals a b = true <-> a = b.
Proof.
  unfold Trove.equals. rewrite andb_true_iff, !eqD_true.
  split; [destruct a, b; simpl; naive_solver | by intros ->].
Qed.

Lemma add_troveE a b :
  Trove.add a b = Ok (mkTrove (dec (big (collateral a) + big (collateral b)))
                        (dec (big (debt a) + big (debt b)))).
Proof. unfold Trove.add. by autorewrite with decimal. Qed.

(** Subtraction stops at zero. *)
Lemma monus_dec x y :
  (if Decimal.gtD x y then Decimal.sub x y else Ok Decimal.ZERO)
  = Ok (dec (Z.max 0 (big x - big y))).
Proof.
  rewrite gtDE. destruct (Z.ltb_spec (big y) (big x)).
  - rewrite subE by lia. do 2 f_equal. lia.
  - by rewrite Z.max_l by lia.
Qed.

Lemma subtract_troveE a b :
  Trove.subtract a b = Ok (mkTrove (dec (Z.max 0 (big (collateral a) - big (collateral b))))
                             (dec (Z.max 0 (big (debt a) - big (debt b))))).
Proof. unfold Trove.subtract. by rewrite !monus_dec. Qed.

Lemma multiply_troveE a (m : Decimal) :
  Trove.multiply a m = Ok (mkTrove (dec (big (collateral a) * big m / Decimal.DIGITS))
                             (dec (big (debt a) * big m / Decimal.DIGITS))).
Proof. unfold Trove.multiply. by autorewrite with decimal. Qed.

Lemma addCollateralE t (c : Decimal) :
  Trove.addCollateral t c = Ok (mkTrove (dec (big (collateral t) + big c)) (debt t)).
Proof. unfold Trove.addCollateral. by autorewrite with decimal. Qed.

Lemma addDebtE t (d : Decimal) :
  Trove.addDebt t d = Ok (mkTrove (collateral t) (dec (big (debt t) + big d))).
Proof. unfold Trove.addDebt. by autorewrite with decimal. Qed.

Lemma subtractCollateralE t (c : Decimal) :
  Trove.subtractCollateral t c
  = Ok (mkTrove (dec (Z.max 0 (big (collateral t) - big c))) (debt t)).
Proof. unfold Trove.subtractCollateral, Decimal.gt; simpl. by rewrite monus_dec. Qed.

Lemma subtractDebtE t (d : Decimal) :
  Trove.subtractDebt t d = Ok (mkTrove (collateral t) (dec (Z.max 0 (big (debt t) - big d)))).
Proof. unfold Trove.subtractDebt, Decimal.gt; simpl. by rewrite monus_dec. Qed.

Lemma netDebtE t :
  big LUSD_LIQUIDATION_RESERVE <= big (debt t) ->
  Trove.netDebt t = Ok (dec (big (debt t) - big LUSD_LIQUIDATION_RESERVE)).
Proof.
  intros. unfold Trove.netDebt. rewrite ltDE. destruct (Z.ltb_spec (big (debt t))
    (big LUSD_LIQUIDATION_RESERVE)); [lia|]. by apply subE.
Qed.

(** *** Borrowing fees *)

Definition feeFactor (rate : Decimal) : Z := Decimal.DIGITS + big rate.

Lemma feeFactor_pos (rate : Decimal) : 0 < feeFactor rate.
Proof. unfold feeFactor. blia. Qed.

Lemma applyFeeE (rate d : Decimal) :
  applyFee rate d = Ok (dec (big d * feeFactor rate / Decimal.DIGITS)).
Proof.
  unfold applyFee. rewrite addE. cbn [bind]. rewrite mulE, big_dec; [done|].
  change (big Decimal.ONE) with Decimal.DIGITS. pose proof (feeFactor_pos rate). unfold feeFactor in *. lia.
Qed.

Lemma unapplyFeeE (rate d : Decimal) :
  unapplyFee rate d
  = Ok (dec ((big d * Decimal.DIGITS + (feeFactor rate - 1)) / feeFactor rate)).
Proof.
  unfold unapplyFee. rewrite addE. cbn [bind]. change (big Decimal.ONE) with Decimal.DIGITS.
  pose proof (feeFactor_pos rate). fold (feeFactor rate).
  rewrite divCeilE by (rewrite big_dec; lia). by rewrite big_dec by lia.
Qed.

Definition unapplied (rate : Decimal) (x : Z) : Z :=
  (x * Decimal.DIGITS + (feeFactor rate - 1)) / feeFactor rate.

Definition applied (rate : Decimal) (x : Z) : Z := x * feeFactor rate / Decimal.DIGITS.

Lemma unapplied_pos (rate : Decimal) x : 0 < x -> 0 < unapplied rate x.
Proof.
  intros Hx. pose proof (feeFactor_pos rate). unfold unapplied.
  assert (1 <= (x * Decimal.DIGITS + (feeFactor rate - 1)) / feeFactor rate); [|lia].
  apply le_div_iff; [done|]. unfold Decimal.DIGITS. lia.
Qed.

Lemma unapplied_nonneg (rate : Decimal) x : 0 <= x -> 0 <= unapplied rate x.
Proof.
  intros Hx. pose proof (feeFactor_pos rate). apply Z.div_pos; [|done].
  unfold Decimal.DIGITS. lia.
Qed.

(** Adding the fee back to an amount it was taken out of restores the amount, with at
    most one unit of rounding. *)
Lemma applied_unapplied (rate : Decimal) x :
  big rate < Decimal.DIGITS -> 0 <= x -> x <= applied rate (unapplied rate x) <= x + 1.
Proof.
  intros Hr Hx. pose proof (feeFactor_pos rate) as HF. unfold applied, unapplied.
  set (F := feeFactor rate) in *. assert (F < 2 * Decimal.DIGITS) by (unfold F, feeFactor; lia).
  pose proof (Z.div_mod (x * Decimal.DIGITS + (F - 1)) F ltac:(lia)) as Hdm.
  pose proof (Z.mod_pos_bound (x * Decimal.DIGITS + (F - 1)) F HF) as Hm.
  set (u := (x * Decimal.DIGITS + (F - 1)) / F) in *.
  split; [apply le_div_iff; [done|] | apply div_le_iff; [done|]]; lia.
Qed.

Lemma applied_unapplied_exact (rate : Decimal) x :
  big rate = 0 -> applied rate (unapplied rate x) = x.
Proof.
  intros Hr. unfold applied, unapplied, feeFactor. rewrite Hr, Z.add_0_r.
  rewrite Z.div_mul by done. rewrite Z.div_add_l by done.
  change ((Decimal.DIGITS - 1) / Decimal.DIGITS) with 0. lia.
Qed.
End facts.

Create Rewrite HintDb trove.
#[export] Hint Rewrite @add_troveE @subtract_troveE @multiply_troveE @addCollateralE @addDebtE
  @subtractCollateralE @subtractDebtE @applyFeeE @unapplyFeeE using typeclasses eauto : trove.

(** ** What a change does *)

Definition collateral_after (c : option (CollateralChange Decimal)) (x : Z) : Z :=
  match c with
  | Some (DepositCollateral d) => x + big d
  | Some (WithdrawCollateral w) => Z.max 0 (x - big w)
  | None => x
  end.

Definition debt_after (rate : Decimal) (d : option (DebtChange Decimal)) (x : Z) : Z :=
  match d with
  | Some (BorrowLUSD b) => x + applied rate (big b)
  | Some (RepayLUSD r) => Z.max 0 (x - big r)
  | None => x
  end.

Section changes.
Context `{BNL : BigNumberLaws}.
Implicit Types a b t : Trove.
Implicit Types rate : Decimal.

Lemma applied_nonneg rate (d : Decimal) : 0 <= applied rate (big d).
Proof. pose proof (feeFactor_pos rate). apply Z.div_pos; [bnia | done]. Qed.

(** [Trove.apply] on an adjustment. *)
Lemma apply_adjustmentE t p z rate :
  Trove.apply t (Some (Adjustment p z)) rate
  = Ok (mkTrove
      (dec (match z with
            | Some ZeroCollateral => 0
            | _ => collateral_after (a_collateral p) (big (collateral t))
            end))
      (dec (match z with
            | Some ZeroDebt => 0
            | _ => debt_after rate (a_debt p) (big (debt t))
            end))).
Proof.
  destruct p as [c d]. unfold Trove.apply, borrowLUSD, repayLUSD, depositCollateral,
    withdrawCollateral, Trove.setCollateral, Trove.setDebt; cbn [a_collateral a_debt].
  pose proof (big_nonneg (collateral t)). pose proof (big_nonneg (debt t)).
  assert (big Decimal.ZERO = 0) as Hz by done.
  destruct z as [[]|], c as [[x|x]|], d as [[y|y]|];
    rewrite ?applyFeeE; cbn [bind default Decimal.from];
    autorewrite with trove; cbn [bind collateral debt]; autorewrite with trove;
    cbn [bind collateral debt collateral_after debt_after];
    repeat f_equal;
    try (pose proof (big_nonneg x)); try (pose proof (big_nonneg y));
    try (pose proof (applied_nonneg rate y));
    unfold applied in *; rewrite ?Hz; cbn [id];
    rewrite ?big_dec by blia; try blia; apply dec_eq; lia.
Qed.

Lemma debtChangeE a b rate :
  Trove._debtChange a b rate
  = Ok (if big (debt a) <? big (debt b)
        then BorrowLUSD (dec (unapplied rate (big (debt b) - big (debt a))))
        else RepayLUSD (dec (big (debt a) - big (debt b)))).
Proof.
  unfold Trove._debtChange. rewrite gtDE. destruct (Z.ltb_spec (big (debt a)) (big (debt b))).
  - rewrite subE by lia. cbn [bind]. rewrite unapplyFeeE. by rewrite big_dec by lia.
  - by rewrite subE by lia.
Qed.

Lemma collateralChangeE a b :
  Trove._collateralChange a b
  = Ok (if big (collateral a) <? big (collateral b)
        then DepositCollateral (dec (big (collateral b) - big (collateral a)))
        else WithdrawCollateral (dec (big (collateral a) - big (collateral b)))).
Proof.
  unfold Trove._collateralChange. rewrite gtDE.
  destruct (Z.ltb_spec (big (collateral a)) (big (collateral b))); by rewrite subE by lia.
Qed.

(** [b'] is [b] with at most one unit more debt, none when nothing is charged. *)
Definition roughly rate (b b' : Trove) : Prop :=
  collateral b' = collateral b /\ big (debt b) <= big (debt b') <= big (debt b) + 1 /\
  (big rate = 0 -> b' = b).

Lemma roughly_refl rate b : roughly rate b b.
Proof. unfold roughly. split_and!; done || lia. Qed.

Lemma roughly_intro rate b x :
  big (debt b) <= x <= big (debt b) + 1 -> (big rate = 0 -> x = big (debt b)) ->
  roughly rate b (mkTrove (collateral b) (dec x)).
Proof.
  intros Hx H0. pose proof (big_nonneg (debt b)). unfold roughly; cbn [collateral debt].
  rewrite big_dec by lia. split_and!; try done || lia.
  intros ->%H0. rewrite dec_big. by destruct b.
Qed.

Lemma collateral_change_after a b c :
  Trove._collateralChange a b = Ok c ->
  collateral_after (Some c) (big (collateral a)) = big (collateral b).
Proof.
  rewrite collateralChangeE. intros [= <-]. pose proof (big_nonneg (collateral b)).
  destruct (Z.ltb_spec (big (collateral a)) (big (collateral b)));
    cbn [collateral_after]; rewrite big_dec by lia; lia.
Qed.

Lemma debt_change_after a b rate d :
  big rate < Decimal.DIGITS -> Trove._debtChange a b rate = Ok d ->
  let x := debt_after rate (Some d) (big (debt a)) in
  big (debt b) <= x <= big (debt b) + 1 /\ (big rate = 0 -> x = big (debt b)).
Proof.
  intros Hr. rewrite debtChangeE. intros [= <-]. pose proof (big_nonneg (debt b)).
  destruct (Z.ltb_spec (big (debt a)) (big (debt b))); cbn [debt_after].
  - rewrite big_dec by (apply unapplied_nonneg; lia).
    set (x := big (debt b) - big (debt a)).
    pose proof (applied_unapplied rate x Hr ltac:(lia)).
    pose proof (applied_unapplied_exact rate x). lia.
  - rewrite big_dec by lia. lia.
Qed.

Lemma zeroTagE d tag : Trove.zeroTag d tag = if big d =? 0 then Some tag else None.
Proof. unfold Trove.zeroTag. rewrite zeroE. by destruct (_ =? _). Qed.
End changes.

(** ** [apply] undoes [whatChanged] *)

Section whatChanged_apply.
Context `{BNL : BigNumberLaws}.
Implicit Types a b t : Trove.
Implicit Types rate : Decimal.

(** One branch of [whatChanged] each: the branch succeeds and its change leads back. *)

Lemma creation_leads_to b rate :
  big rate < Decimal.DIGITS -> big LUSD_LIQUIDATION_RESERVE <= big (debt b) ->
  exists net borrow b',
    Trove.netDebt b = Ok net /\ unapplyFee rate net = Ok borrow /\
    Trove.apply _emptyTrove (Some (Creation (mkCreation (collateral b) borrow))) rate = Ok b' /\
    roughly rate b b'.
Proof.
  intros Hr Hd. rewrite netDebtE by done. eexists _, _, _. split; [done|].
  rewrite unapplyFeeE. split; [done|]. unfold Trove.apply.
  replace (Trove.isEmpty _emptyTrove) with true by by rewrite isEmptyE.
  cbn [c_borrowLUSD c_depositCollateral]. rewrite applyFeeE. cbn [bind]. rewrite addE.
  cbn [bind]. split; [done|].
  set (x := big (debt b) - big LUSD_LIQUIDATION_RESERVE).
  rewrite (big_dec x) by lia. fold (unapplied rate x).
  pose proof (unapplied_nonneg rate x ltac:(lia)) as Hu. rewrite (big_dec (unapplied rate x)) by done.
  fold (applied rate (unapplied rate x)).
  pose proof (applied_unapplied rate x Hr ltac:(lia)). rewrite big_dec by lia.
  apply roughly_intro; [lia|]. intros H0. rewrite applied_unapplied_exact by done. lia.
Qed.

Lemma adjustment_leads_to a b rate d c :
  big rate < Decimal.DIGITS ->
  match d with
  | Some d => Trove._debtChange a b rate = Ok d
  | None => big (debt a) = big (debt b)
  end ->
  match c with
  | Some c => Trove._collateralChange a b = Ok c
  | None => big (collateral a) = big (collateral b)
  end ->
  forall z,
  match z with
  | Some ZeroDebt => big (debt b) = 0
  | Some ZeroCollateral => big (collateral b) = 0
  | None => True
  end ->
  exists b', Trove.apply a (Some (Adjustment (mkAdjustment c d) z)) rate = Ok b' /\
             roughly rate b b'.
Proof.
  intros Hr Hd Hc z Hz. rewrite apply_adjustmentE. eexists; split; [done|].
  cbn [a_collateral a_debt].
  assert (collateral_after c (big (collateral a)) = big (collateral b)) as Hca.
  { destruct c; [by apply collateral_change_after | done]. }
  assert (let x := debt_after rate d (big (debt a)) in
          big (debt b) <= x <= big (debt b) + 1 /\ (big rate = 0 -> x = big (debt b))) as [H1 H2].
  { destruct d; [by apply debt_change_after | simpl; lia]. }
  destruct z as [[]|]; rewrite ?Hca.
  - rewrite <- Hz, dec_big. by apply roughly_intro.
  - rewrite dec_big. apply roughly_intro; lia.
  - rewrite dec_big. by apply roughly_intro.
Qed.

Lemma whatChanged_leads_to a b rate :
  big rate < Decimal.DIGITS ->
  (Trove.isEmpty b = true -> Trove.isEmpty a = false ->
   big LUSD_LIQUIDATION_RESERVE <= big (debt a)) ->
  exists change b',
    Trove.whatChanged a b rate = Ok change /\ Trove.apply a change rate = Ok b' /\
    roughly rate b b'.
Proof.
  intros Hr Hclose. unfold Trove.whatChanged. rewrite !eqDE.
  destruct (Z.eqb_spec (big (collateral a)) (big (collateral b))) as [Hc|Hc],
           (Z.eqb_spec (big (debt a)) (big (debt b))) as [Hd|Hd]; cbn [andb].
  { exists None, a. split_and!; try done. replace a with b; [apply roughly_refl|].
    apply equals_true. unfold Trove.equals. by rewrite !eqDE, Hc, Hd, !Z.eqb_refl. }
  all: destruct (Trove.isEmpty a) eqn:Ha.
  1, 3, 5: apply isEmpty_true in Ha as ->; rewrite ltDE;
    destruct (Z.ltb_spec (big (debt b)) (big LUSD_LIQUIDATION_RESERVE));
    [ eexists _, b; split_and!; [done | | apply roughly_refl];
      unfold Trove.apply; by rewrite (proj2 (isEmpty_true _) eq_refl)
    | destruct (creation_leads_to b rate) as (net & borrow & b' & Hn & Hu & Hb'); [done..|];
      rewrite Hn; cbn [bind]; rewrite Hu; cbn [bind]; eauto 10 ].
  all: destruct (Trove.isEmpty b) eqn:Hb.
  1, 3, 5: rewrite netDebtE by auto; cbn [bind]; eexists _, _; split; [done|];
    unfold Trove.apply; rewrite Ha; split; [done|];
    apply isEmpty_true in Hb as ->; apply roughly_refl.
  - destruct (Trove._debtChange a b rate) as [d|] eqn:Hdc; [|by rewrite debtChangeE in Hdc].
    cbn [bind]. rewrite zeroTagE. eexists. destruct (adjustment_leads_to a b rate (Some d) None
      Hr Hdc Hc (if big (debt b) =? 0 then Some ZeroDebt else None)) as (b' & ? & ?); eauto.
    by destruct (Z.eqb_spec (big (debt b)) 0).
  - destruct (Trove._collateralChange a b) as [c|] eqn:Hcc; [|by rewrite collateralChangeE in Hcc].
    cbn [bind]. rewrite zeroTagE. eexists. destruct (adjustment_leads_to a b rate None (Some c)
      Hr Hd Hcc (if big (collateral b) =? 0 then Some ZeroCollateral else None))
      as (b' & ? & ?); eauto.
    by destruct (Z.eqb_spec (big (collateral b)) 0).
  - destruct (Trove._debtChange a b rate) as [d|] eqn:Hdc; [|by rewrite debtChangeE in Hdc].
    destruct (Trove._collateralChange a b) as [c|] eqn:Hcc; [|by rewrite collateralChangeE in Hcc].
    cbn [bind]. rewrite !zeroTagE. eexists.
    destruct (adjustment_leads_to a b rate (Some d) (Some c) Hr Hdc Hcc
      (match (if big (debt b) =? 0 then Some ZeroDebt else None) with
       | Some t => Some t
       | None => if big (collateral b) =? 0 then Some ZeroCollateral else None
       end)) as (b' & ? & ?); eauto.
    by destruct (Z.eqb_spec (big (debt b)) 0), (Z.eqb_spec (big (collateral b)) 0).
Qed.

(** C1. For a borrowing rate below 100%, the change from one Trove to another can be
    computed unless it would close a Trove that owes less than the liquidation
    reserve, and applying it to the first Trove gives the second: same collateral,
    and the same debt up to one unit of rounding, exactly when the rate is zero. *)
Theorem whatChanged_apply a b rate :
  big rate < Decimal.DIGITS ->
  (Trove.isEmpty b = true -> Trove.isEmpty a = false ->
   big LUSD_LIQUIDATION_RESERVE <= big (debt a)) ->
  exists change b',
    Trove.whatChanged a b rate = Ok change /\ Trove.apply a change rate = Ok b' /\
    roughly rate b b'.
Proof. apply whatChanged_leads_to. Qed.
End whatChanged_apply.

(** ** The cases of a change *)

Section cases.
Context `{BNL : BigNumberLaws}.

(** [whatChanged] by cases. *)
Lemma trove_change_cases old edited (rate : Decimal) :
  (Trove.isEmpty edited = true -> Trove.isEmpty old = false ->
   big LUSD_LIQUIDATION_RESERVE <= big (debt old)) ->
  big rate < Decimal.DIGITS ->
  exists change,
    Trove.whatChanged old edited rate = Ok change /\
    match change with
    | None => old = edited
    | Some (InvalidCreation t _) => old <> edited /\ t = edited /\
        Trove.isEmpty old = true /\ big (debt edited) < big LUSD_LIQUIDATION_RESERVE
    | Some (Creation _) => old <> edited /\
        Trove.isEmpty old = true /\ big LUSD_LIQUIDATION_RESERVE <= big (debt edited)
    | Some (Closure _) => old <> edited /\ Trove.isEmpty old = false /\ Trove.isEmpty edited = true
    | Some (Adjustment _ _) =>
        old <> edited /\ Trove.isEmpty old = false /\ Trove.isEmpty edited = false
    end.
Proof.
  intros Hclose Hr. destruct (whatChanged_leads_to old edited rate) as (change & b' & Hw & _); [done..|].
  exists change. split; [done|]. revert Hw. unfold Trove.whatChanged.
  fold (Trove.equals old edited). destruct (Trove.equals old edited) eqn:Heq.
  { intros [= <-]. by apply equals_true. }
  assert (old <> edited) as Hne.
  { intros ->. by rewrite (proj2 (equals_true edited edited)) in Heq. }
  rewrite ltDE. destruct (Trove.isEmpty old) eqn:Ho.
  { destruct (Z.ltb_spec (big (debt edited)) (big LUSD_LIQUIDATION_RESERVE)); intros H';
      [by injection H' as <-|]. by inv_ok. }
  destruct (Trove.isEmpty edited); intros H'; [by inv_ok|].
  repeat case_match; by inv_ok.
Qed.

(** What emptying a Trove throws that owes less than the liquidation reserve. *)
Definition netDebtError : result Trove :=
  let* reserve := Decimal.toString LUSD_LIQUIDATION_RESERVE None in
  Err (JsError ("netDebt should not be used when debt < " +:+ reserve)).

(** Emptying a Trove that owes less than the liquidation reserve. *)
Lemma emptying_throws old (rate : Decimal) :
  Trove.isEmpty old = false -> big (debt old) < big LUSD_LIQUIDATION_RESERVE ->
  exists text, let e := JsError ("netDebt should not be used when debt < " +:+ text) in
    netDebtError = Err e /\ Trove.whatChanged old _emptyTrove rate = Err e.
Proof.
  intros Ho Hd. unfold Trove.whatChanged. fold (Trove.equals old _emptyTrove).
  destruct (Trove.equals old _emptyTrove) eqn:E; [apply equals_true in E as ->; by rewrite (proj2 (isEmpty_true _) eq_refl) in Ho|].
  rewrite Ho, (proj2 (isEmpty_true _) eq_refl). unfold Trove.netDebt.
  rewrite ltDE, (proj2 (Z.ltb_lt _ _) Hd). unfold netDebtError.
  assert (exists text, Decimal.toString LUSD_LIQUIDATION_RESERVE None = Ok text) as [text ->]; [|by exists text].
  unfold Decimal.toString, Decimal._toStringWithAutomaticPrecision. case_match; [eauto|].
  rewrite bn_div_floor, bn_modE by (first [apply big_nonneg | done]). cbn [bind].
  case_match; eauto.
Qed.
End cases.

(** ** The amounts of a change *)

Section amounts.
Context `{BNL : BigNumberLaws}.
Implicit Types a b c t : Trove.
Implicit Types rate : Decimal.

Definition amounts (p : TroveAdjustmentParams Decimal) : list Decimal :=
  option_list (depositCollateral p) ++ option_list (withdrawCollateral p) ++
  option_list (borrowLUSD p) ++ option_list (repayLUSD p).

Lemma debtChange_positive a b rate d :
  big (debt a) <> big (debt b) -> Trove._debtChange a b rate = Ok d ->
  exists x, 0 < big x /\ (d = BorrowLUSD x \/ d = RepayLUSD x).
Proof.
  intros Hne. rewrite debtChangeE. intros [= <-].
  destruct (Z.ltb_spec (big (debt a)) (big (debt b))); eexists; (split; [|eauto]).
  - pose proof (unapplied_pos rate (big (debt b) - big (debt a)) ltac:(lia)).
    by rewrite big_dec by lia.
  - rewrite big_dec; lia.
Qed.

Lemma collateralChange_positive a b (c : CollateralChange Decimal) :
  big (collateral a) <> big (collateral b) -> Trove._collateralChange a b = Ok c ->
  exists x, 0 < big x /\ (c = DepositCollateral x \/ c = WithdrawCollateral x).
Proof.
  intros Hne. rewrite collateralChangeE. intros [= <-].
  destruct (Z.ltb_spec (big (collateral a)) (big (collateral b))); eexists; (split; [|eauto]);
    rewrite big_dec; lia.
Qed.

(** How [whatChanged] builds an adjustment. *)
Lemma adjustment_inv a b rate p z :
  Trove.whatChanged a b rate = Ok (Some (Adjustment p z)) ->
  Trove.isEmpty a = false /\ Trove.isEmpty b = false /\
  match a_debt p with
  | Some d => big (debt a) <> big (debt b) /\ Trove._debtChange a b rate = Ok d
  | None => big (debt a) = big (debt b)
  end /\
  match a_collateral p with
  | Some c => big (collateral a) <> big (collateral b) /\ Trove._collateralChange a b = Ok c
  | None => big (collateral a) = big (collateral b)
  end /\
  ~ (a_debt p = None /\ a_collateral p = None) /\
  z = (if (big (debt b) =? 0) && negb (bool_decide (a_debt p = None)) then Some ZeroDebt
       else if (big (collateral b) =? 0) && negb (bool_decide (a_collateral p = None))
       then Some ZeroCollateral else None).
Proof.
  unfold Trove.whatChanged. rewrite !eqDE.
  destruct (Z.eqb_spec (big (collateral a)) (big (collateral b))) as [Hc|Hc],
           (Z.eqb_spec (big (debt a)) (big (debt b))) as [Hd|Hd]; cbn [andb]; [done|..];
    (destruct (Trove.isEmpty a); [intros H; by inv_ok|]);
    (destruct (Trove.isEmpty b); [intros H; by inv_ok|]);
    rewrite ?zeroTagE; intros H; inv_ok;
    cbn [a_debt a_collateral];
    split_and!; try done; try naive_solver;
    rewrite ?andb_true_r, ?andb_false_r; by repeat destruct (_ =? _).
Qed.

(** C36. An adjustment computed by [whatChanged] changes something, and every amount in it
    is positive. *)
Theorem adjustment_amounts_positive a b rate p z :
  Trove.whatChanged a b rate = Ok (Some (Adjustment p z)) ->
  amounts p <> [] /\ Forall (fun x => 0 < big x) (amounts p).
Proof.
  intros (_ & _ & Hd & Hc & Hne & _)%adjustment_inv.
  destruct p as [[c|] [d|]]; cbn [a_debt a_collateral] in *; try (exfalso; naive_solver);
    repeat match goal with
    | H : _ /\ Trove._debtChange _ _ _ = Ok _ |- _ =>
        destruct H as [Hdn H]; destruct (debtChange_positive _ _ _ _ Hdn H) as (x & ? & [->| ->])
    | H : _ /\ Trove._collateralChange _ _ = Ok _ |- _ =>
        destruct H as [Hcn H];
        destruct (collateralChange_positive _ _ _ Hcn H) as (y & ? & [->| ->])
    end; cbn; (split; [done|]); repeat constructor; done.
Qed.

(** Applied to any Trove, an adjustment that was computed towards a Trove without
    debt (and changes the debt) leaves no debt, one computed towards a Trove without
    collateral leaves no collateral, and neither throws. *)
Theorem adjustment_preserves_zeroing a b c rate p z :
  Trove.whatChanged b c rate = Ok (Some (Adjustment p z)) ->
  exists t, Trove.apply a (Some (Adjustment p z)) rate = Ok t /\
    (big (debt c) = 0 -> big (debt b) <> 0 -> big (debt t) = 0) /\
    (big (collateral c) = 0 -> big (collateral b) <> 0 -> big (collateral t) = 0).
Proof.
  intros (_ & Hce & Hd & Hc & _ & Hz)%adjustment_inv. rewrite apply_adjustmentE.
  eexists; split; [done|]. cbn [debt collateral]. rewrite isEmptyE in Hce.
  split; intros H0 Hb.
  - destruct (a_debt p); [|lia]. rewrite H0 in *. simpl in Hz. by subst z.
  - destruct (a_collateral p); [|lia]. rewrite H0 in *. cbn in Hce. rewrite Hce in Hz.
    simpl in Hz. by subst z.
Qed.
End amounts.

(** ** Collateral ratios against the contracts *)

Section ratios.
Context `{BNL : BigNumberLaws}.

(** The collateral ratio and the nominal collateral ratio of a Trove are the ones the
    contracts compute, whenever the contracts' multiplication does not overflow:
    the infinite ratio for a Trove without debt, the rounded-down quotient otherwise. *)
Theorem collateralRatio_refines_computeCR (t : Trove) (price : Decimal) r n :
  big (collateral t) * big price < 2 ^ 256 ->
  big (collateral t) * LiquityMath.NICR_PRECISION < 2 ^ 256 ->
  Trove.collateralRatio t price = Ok r -> Trove._nominalCollateralRatio t = Ok n ->
  LiquityMath._computeCR (big (collateral t)) (big (debt t)) (big price) = Ok (big r) /\
  LiquityMath._computeNominalCR (big (collateral t)) (big (debt t)) = Ok (big n).
Proof.
  intros Ho1 Ho2. unfold Trove.collateralRatio, Trove._nominalCollateralRatio,
    LiquityMath._computeCR, LiquityMath._computeNominalCR, SafeMath.mul.
  pose proof (big_nonneg (collateral t)). pose proof (big_nonneg (debt t)). pose proof (big_nonneg price).
  rewrite !uintE by (unfold LiquityMath.NICR_PRECISION in *; nia). cbn [bind].
  destruct (Z.ltb_spec 0 (big (debt t))).
  - rewrite !mulDivE, !safe_divE by done. intros [= <-] [= <-].
    by rewrite !big_dec by (apply Z.div_pos; bnia).
  - rewrite !mulDiv_0 by lia. by intros [= <-] [= <-].
Qed.
(** The collateral ratio as the contracts compute it: infinite without debt. *)
Definition ratio t (price : Decimal) : Z :=
  if big (debt t) =? 0 then 2 ^ 256 - 1 else big (collateral t) * big price / big (debt t).

Lemma ratio_nonneg t p : 0 <= ratio t p.
Proof. unfold ratio. zcase. apply Z.div_pos; bnia. Qed.

Lemma collateralRatioE t (p : Decimal) : Trove.collateralRatio t p = Ok (dec (ratio t p)).
Proof.
  unfold Trove.collateralRatio, ratio. destruct (Z.eqb_spec (big (debt t)) 0) as [Hz|Hnz].
  - by rewrite mulDiv_0.
  - by rewrite mulDivE by blia.
Qed.

Lemma belowMinimumE t (p : Decimal) :
  Trove.collateralRatioIsBelowMinimum t p = Ok (ratio t p <? big MINIMUM_COLLATERAL_RATIO).
Proof.
  unfold Trove.collateralRatioIsBelowMinimum. rewrite collateralRatioE; simpl.
  by rewrite ltDE, big_dec by apply ratio_nonneg.
Qed.

Lemma belowCriticalE t (p : Decimal) :
  Trove.collateralRatioIsBelowCritical t p = Ok (ratio t p <? big CRITICAL_COLLATERAL_RATIO).
Proof.
  unfold Trove.collateralRatioIsBelowCritical. rewrite collateralRatioE; simpl.
  by rewrite ltDE, big_dec by apply ratio_nonneg.
Qed.

Lemma openableE t (p : Decimal) :
  Trove.isOpenableInRecoveryMode t p = Ok (big CRITICAL_COLLATERAL_RATIO <=? ratio t p).
Proof.
  unfold Trove.isOpenableInRecoveryMode. rewrite collateralRatioE; simpl.
  by rewrite gteDE, big_dec by apply ratio_nonneg.
Qed.
End ratios.

(** ** Redistributions *)

Section redistribution.
Context `{BNL : BigNumberLaws}.

(** A Trove's share of what was redistributed per unit of stake since its snapshot. *)
Definition share (per_stake snapshot : Decimal) (s : Decimal) : Z :=
  Z.max 0 (big per_stake - big snapshot) * big s / Decimal.DIGITS.

Lemma share_nonneg l0 l s : 0 <= share l l0 s.
Proof. apply Z.div_pos; [bnia | done]. Qed.

Lemma applyRedistributionE p total :
  TroveWithPendingRedistribution.applyRedistribution p total
  = Ok (mkUserTrove
      (mkTrove
        (dec (big (collateral (ut_trove (p_userTrove p))) +
              share (collateral total) (collateral (snapshotOfTotalRedistributed p)) (stake p)))
        (dec (big (debt (ut_trove (p_userTrove p))) +
              share (debt total) (debt (snapshotOfTotalRedistributed p)) (stake p))))
      (ownerAddress (p_userTrove p)) (status (p_userTrove p))).
Proof.
  unfold TroveWithPendingRedistribution.applyRedistribution.
  rewrite subtract_troveE. cbn [bind]. rewrite multiply_troveE. cbn [bind].
  rewrite add_troveE. cbn [bind collateral debt].
  repeat f_equal; rewrite !(big_dec (Z.max _ _)) by lia; rewrite big_dec by apply share_nonneg; done.
Qed.

(** [p] after its rewards up to [total] have been booked, as the contracts do when a
    Trove is touched: same stake, new snapshot. *)
Definition book (p : TroveWithPendingRedistribution) (total : Trove) (u : UserTrove) :=
  mkPending u (stake p) total.

Lemma share_two_steps l0 l1 l2 s :
  big l0 <= big l1 <= big l2 ->
  share l1 l0 s + share l2 l1 s <= share l2 l0 s <= share l1 l0 s + share l2 l1 s + 1.
Proof.
  intros Hl. unfold share. rewrite !Z.max_r by lia. pose proof (big_nonneg s).
  set (x := (big l1 - big l0) * big s). set (y := (big l2 - big l1) * big s).
  replace ((big l2 - big l0) * big s) with (x + y) by (unfold x, y; ring).
  clearbody x y. unfold Decimal.DIGITS. clear. Z.div_mod_to_equations. lia.
Qed.

(** Applying a redistribution succeeds and keeps owner and status; collateral and debt
    grow by the Trove's share.  If redistributed totals only grow, booking the rewards at an
    intermediate total and then at the final one loses at most one unit of collateral
    and of debt compared with applying the final total at once. *)
Theorem redistribution_two_steps p l1 l2 :
  big (collateral (snapshotOfTotalRedistributed p)) <= big (collateral l1) <= big (collateral l2) ->
  big (debt (snapshotOfTotalRedistributed p)) <= big (debt l1) <= big (debt l2) ->
  exists u1 u2 u,
    TroveWithPendingRedistribution.applyRedistribution p l1 = Ok u1 /\
    TroveWithPendingRedistribution.applyRedistribution (book p l1 u1) l2 = Ok u2 /\
    TroveWithPendingRedistribution.applyRedistribution p l2 = Ok u /\
    ownerAddress u2 = ownerAddress u /\ status u2 = status u /\
    big (collateral (ut_trove (p_userTrove p))) <= big (collateral (ut_trove u1)) /\
    big (debt (ut_trove (p_userTrove p))) <= big (debt (ut_trove u1)) /\
    big (collateral (ut_trove u)) - 1 <= big (collateral (ut_trove u2))
      <= big (collateral (ut_trove u)) /\
    big (debt (ut_trove u)) - 1 <= big (debt (ut_trove u2)) <= big (debt (ut_trove u)).
Proof.
  intros Hc Hd. do 3 eexists. rewrite !applyRedistributionE.
  split; [done|]. split; [done|]. split; [done|].
  cbn [book p_userTrove ut_trove ownerAddress status collateral debt stake
       snapshotOfTotalRedistributed].
  pose proof (share_two_steps _ _ _ (stake p) Hc). pose proof (share_two_steps _ _ _ (stake p) Hd).
  pose proof (share_nonneg (collateral (snapshotOfTotalRedistributed p)) (collateral l1) (stake p)).
  pose proof (share_nonneg (debt (snapshotOfTotalRedistributed p)) (debt l1) (stake p)).
  pose proof (share_nonneg (collateral l1) (collateral l2) (stake p)).
  pose proof (share_nonneg (debt l1) (debt l2) (stake p)).
  pose proof (big_nonneg (collateral (ut_trove (p_userTrove p)))).
  pose proof (big_nonneg (debt (ut_trove (p_userTrove p)))).
  rewrite !big_dec by blia. split_and!; done || lia.
Qed.
End redistribution.

(** ** Parameter objects *)

(** The entries of an object with the keys an adjustment may have. *)
Definition adjustmentEntries (dc wc bl rl : option Decimal) : list (string * option Decimalish) :=
  [("depositCollateral", FromDecimal <$> dc); ("withdrawCollateral", FromDecimal <$> wc);
   ("borrowLUSD", FromDecimal <$> bl); ("repayLUSD", FromDecimal <$> rl)].

Definition creationEntries (dc bl : Decimal) : list (string * option Decimalish) :=
  [("depositCollateral", Some (FromDecimal dc)); ("borrowLUSD", Some (FromDecimal bl))].

(** A zero amount counts as absent. *)
Definition present (o : option Decimal) : option Decimal :=
  d ← o; if big d =? 0 then None else Some d.

(** What normalisation makes of the four amounts. *)
Definition adjustment_spec (dc wc bl rl : option Decimal) : result (TroveAdjustmentParams Decimal) :=
  match dc, wc, bl, rl with
  | Some _, Some _, _, _ =>
      Err (JsError ("TroveAdjustmentParams: 'depositCollateral' and 'withdrawCollateral' " +:+
                    "can't be present at the same time"))
  | _, _, Some _, Some _ =>
      Err (JsError ("TroveAdjustmentParams: 'borrowLUSD' and 'repayLUSD' " +:+
                    "can't be present at the same time"))
  | None, None, None, None =>
      Err (JsError "TroveAdjustmentParams: must include at least one non-zero parameter")
  | _, _, _, _ =>
      Ok (mkAdjustment
        match dc, wc with
        | Some d, _ => Some (DepositCollateral d)
        | None, Some w => Some (WithdrawCollateral w)
        | None, None => None
        end
        match bl, rl with
        | Some b, _ => Some (BorrowLUSD b)
        | None, Some r => Some (RepayLUSD r)
        | None, None => None
        end)
  end.

Section normalization.
Context `{BNL : BigNumberLaws}.

Lemma nonZeroE_entry (k : string) (d : Decimal) : nonZero (k, d) = negb (big d =? 0).
Proof. unfold nonZero; simpl. by rewrite isZeroE. Qed.

(** The entries that survive, by the amounts present. *)
Definition presentEntries (dc wc bl rl : option Decimal) : list (string * Decimal) :=
  omap (fun '(k, o) => d ← o; Some (k, d))
    [("depositCollateral", dc); ("withdrawCollateral", wc); ("borrowLUSD", bl); ("repayLUSD", rl)].

Lemma filter_nonZero_cons k d (l : list (string * Decimal)) :
  filter nonZero ((k, d) :: l) = if big d =? 0 then filter nonZero l else (k, d) :: filter nonZero l.
Proof.
  rewrite filter_cons, nonZeroE_entry. case_decide as H; by destruct (_ =? _).
Qed.

Lemma filter_presentEntries dc wc bl rl :
  filter nonZero (presentEntries dc wc bl rl)
  = presentEntries (present dc) (present wc) (present bl) (present rl).
Proof.
  unfold presentEntries, present. destruct dc as [d1|], wc as [d2|], bl as [d3|], rl as [d4|];
    simpl; rewrite ?filter_nonZero_cons; simpl;
    repeat match goal with |- context [big ?x =? 0] => destruct (big x =? 0); simpl end; done.
Qed.

Lemma normalize_entries dc wc bl rl :
  _normalizeTroveAdjustment (adjustmentEntries dc wc bl rl)
  = troveAdjustmentParamsFromEntries (filter nonZero (presentEntries dc wc bl rl)).
Proof. by destruct dc, wc, bl, rl. Qed.

(** Normalising the parameters of an adjustment drops zero amounts, rejects a deposit
    with a withdrawal, a borrowing with a repayment and an object without any amount
    with the error for it, and otherwise keeps exactly the amounts present; an
    unknown key with a defined value is rejected by name. *)
Theorem normalizeTroveAdjustment_spec dc wc bl rl :
  _normalizeTroveAdjustment (adjustmentEntries dc wc bl rl)
  = adjustment_spec (present dc) (present wc) (present bl) (present rl) /\
  forall k v, k ∉ allowedTroveAdjustmentKeys ->
  _normalizeTroveAdjustment ((k, Some v) :: adjustmentEntries dc wc bl rl)
  = Err (JsError ("TroveAdjustmentParams: property '" +:+ k +:+ "' not allowed")).
Proof.
  split.
  - rewrite normalize_entries, filter_presentEntries.
    by destruct (present dc), (present wc), (present bl), (present rl).
  - intros k v Hk. unfold _normalizeTroveAdjustment.
    replace (definedEntries _) with ((k, v) :: definedEntries (adjustmentEntries dc wc bl rl)) by done.
    assert (badKeys allowedTroveAdjustmentKeys ((k, v) :: definedEntries (adjustmentEntries dc wc bl rl))
            = [quoteKey k]) as Hbad.
    { unfold badKeys. rewrite fmap_cons, filter_cons. cbn [fst].
      assert (existsb (String.eqb k) allowedTroveAdjustmentKeys = false) as ->.
      { apply not_true_iff_false. intros (x & Hx & Heq%String.eqb_eq)%existsb_exists.
        apply Hk, list_elem_of_In. by subst. }
      by destruct dc, wc, bl, rl. }
    unfold checkAllowedTroveAdjustmentKeys. rewrite Hbad. cbn [bind join].
    unfold quoteKey. do 2 f_equal. simpl. by rewrite append_assoc.
Qed.

(** Recreating a Trove, for the clients of the two methods. *)
Lemma recreate_leads_to (t : Trove) (rate : Decimal) :
  big rate < Decimal.DIGITS -> big LUSD_LIQUIDATION_RESERVE <= big (debt t) ->
  exists p t',
    Trove.recreate t rate = Ok p /\
    Trove.create (creationEntries (c_depositCollateral p) (c_borrowLUSD p)) rate = Ok t' /\
    roughly rate t t'.
Proof.
  intros Hr Hd. destruct (creation_leads_to t rate Hr Hd) as (net & borrow & t' & Hn & Hu & Ha & Ht).
  exists (mkCreation (collateral t) borrow), t'. split_and!; [|done|done].
  unfold Trove.recreate, Trove.whatChanged. rewrite !eqDE.
  destruct (Z.eqb_spec (big (debt _emptyTrove)) (big (debt t))) as [He|He].
  { change (big LUSD_LIQUIDATION_RESERVE) with 100000000000000000 in Hd.
    change (big (debt _emptyTrove)) with 0 in He. lia. }
  rewrite andb_false_r, (proj2 (isEmpty_true _) eq_refl), ltDE.
  destruct (Z.ltb_spec (big (debt t)) (big LUSD_LIQUIDATION_RESERVE)); [lia|].
  rewrite Hn. cbn [bind]. by rewrite Hu.
Qed.

(** Recreating a Trove: the parameters [recreate] computes for a non-empty Trove with at
    least the liquidation reserve as debt are accepted by [create], which gives the
    Trove back with at most one unit more debt. *)
Theorem recreate_create (t : Trove) (rate : Decimal) :
  big rate < Decimal.DIGITS -> big LUSD_LIQUIDATION_RESERVE <= big (debt t) ->
  exists p t',
    Trove.recreate t rate = Ok p /\
    Trove.create (creationEntries (c_depositCollateral p) (c_borrowLUSD p)) rate = Ok t' /\
    roughly rate t t'.
Proof. apply recreate_leads_to. Qed.
End normalization.

(** ** Instances *)

(** Two Troves, and the rate of 0.5%. *)
Definition sampleTrove : Trove := mkTrove (dec 2000000000000000000) (dec 300000000000000000000).
Definition sampleTarget : Trove := mkTrove (dec 1500000000000000000) (dec 350000000000000000000).
Definition sampleRate : Decimal := dec 5000000000000000.

Lemma whatChanged_apply_witness :
  exists change b', Trove.whatChanged sampleTrove sampleTarget sampleRate = Ok change /\
    Trove.apply sampleTrove change sampleRate = Ok b' /\ roughly sampleRate sampleTarget b'.
Proof. apply whatChanged_apply; [vm_compute; reflexivity | discriminate]. Defined.

(** The adjustment between them. *)
Definition sampleAdjustment : TroveAdjustmentParams Decimal :=
  mkAdjustment (Some (WithdrawCollateral (dec 500000000000000000)))
    (Some (BorrowLUSD (dec 49751243781094527364))).

Lemma adjustment_amounts_positive_witness :
  amounts sampleAdjustment <> [] /\ Forall (fun x => 0 < big x) (amounts sampleAdjustment).
Proof.
  apply (adjustment_amounts_positive sampleTrove sampleTarget sampleRate sampleAdjustment None).
  vm_compute. reflexivity.
Defined.

(** Repaying everything, applied to a Trove that owes more. *)
Lemma adjustment_preserves_zeroing_witness :
  exists t,
    Trove.apply sampleTarget
      (Some (Adjustment (mkAdjustment None (Some (RepayLUSD (dec 300000000000000000000)))) (Some ZeroDebt)))
      sampleRate = Ok t /\ big (debt t) = 0.
Proof.
  destruct (adjustment_preserves_zeroing sampleTarget sampleTrove
    (mkTrove (collateral sampleTrove) Decimal.ZERO) sampleRate
    (mkAdjustment None (Some (RepayLUSD (dec 300000000000000000000)))) (Some ZeroDebt))
    as (t & H1 & H2 & _); [vm_compute; reflexivity|].
  exists t. split; [exact H1|]. apply H2; [reflexivity | discriminate].
Defined.

Lemma collateralRatio_refines_computeCR_witness :
  LiquityMath._computeCR (big (collateral sampleTrove)) (big (debt sampleTrove)) 200000000000000000000
  = Ok 1333333333333333333.
Proof.
  apply (collateralRatio_refines_computeCR sampleTrove (dec 200000000000000000000)
    (dec 1333333333333333333) (dec 666666666666666666)); vm_compute; reflexivity.
Defined.

Lemma normalizeTroveAdjustment_spec_witness :
  _normalizeTroveAdjustment
    (("foo", Some (FromDecimal Decimal.ONE)) :: adjustmentEntries (Some Decimal.ONE) None None None)
  = Err (JsError "TroveAdjustmentParams: property 'foo' not allowed").
Proof.
  apply (normalizeTroveAdjustment_spec (Some Decimal.ONE) None None None).
  intros H. repeat (apply elem_of_cons in H as [H|H]; [discriminate|]). by apply elem_of_nil in H.
Defined.

Lemma recreate_create_witness :
  exists p t', Trove.recreate sampleTrove sampleRate = Ok p /\
    Trove.create (creationEntries (c_depositCollateral p) (c_borrowLUSD p)) sampleRate = Ok t' /\
    roughly sampleRate sampleTrove t'.
Proof. apply recreate_create; vm_compute; [reflexivity | discriminate]. Defined.
