(* ===== verification/Fees.v ===== *)
(** * Borrowing and redemption fees

    [packages/lib-base/src/Fees.ts]: the fee calculator, its decay over time, and its
    agreement with the contracts.  A [Date] is its [getTime()] in milliseconds; the
    locale-dependent [toLocaleString] is a parameter of [toString]. *)

From S2P Require Import Prelude JsString BigNumber Decimal DecimalText DecimalArith Constants LiquityMath.
From Stdlib Require Import Ascii String.

Local Open Scope string_scope.
Local Open Scope Z_scope.

Definition Date : Type := Z.

Record Fees := mkFees {
  _baseRateWithoutDecay : Decimal;
  _minuteDecayFactor : Decimal;
  _beta : Decimal;
  _lastFeeOperation : Date;
  _timeOfLatestBlock : Date;
  _recoveryMode : bool
}.

Module Fees.
Section Fees.
Context `{BN : BigNumber}.
Implicit Types this that : Fees.

(** The constructor. *)
Definition new (baseRateWithoutDecay minuteDecayFactor beta : Decimalish)
    (lastFeeOperation timeOfLatestBlock : Date) (recoveryMode : bool) : result Fees :=
  let* baseRateWithoutDecay := Decimal.from baseRateWithoutDecay in
  let* minuteDecayFactor := Decimal.from minuteDecayFactor in
  let* beta := Decimal.from beta in
  let* below := Decimal.lt minuteDecayFactor (FromNumber "1") in
  guard below else AssertionError in
  Ok (mkFees baseRateWithoutDecay minuteDecayFactor beta
        lastFeeOperation timeOfLatestBlock recoveryMode).

Definition _setRecoveryMode this (recoveryMode : bool) : result Fees :=
  new (_baseRateWithoutDecay this) (_minuteDecayFactor this) (_beta this)
    (_lastFeeOperation this) (_timeOfLatestBlock this) recoveryMode.

Definition equals this that : bool :=
  Decimal.eqD (_baseRateWithoutDecay this) (_baseRateWithoutDecay that) &&
  Decimal.eqD (_minuteDecayFactor this) (_minuteDecayFactor that) &&
  Decimal.eqD (_beta this) (_beta that) &&
  (_lastFeeOperation this =? _lastFeeOperation that) &&
  (_timeOfLatestBlock this =? _timeOfLatestBlock that) &&
  Bool.eqb (_recoveryMode this) (_recoveryMode that).

Definition toString (toLocaleString : Date -> string) this : result string :=
  let* r := Decimal.toString (_baseRateWithoutDecay this) None in
  Ok ("{ baseRateWithoutDecay: " +:+ r +:+
      ", lastFeeOperation: " +:+ dquote +:+ toLocaleString (_lastFeeOperation this) +:+ dquote +:+
      ", recoveryMode: " +:+ (if _recoveryMode this then "true" else "false") +:+ " } ").

(** [when] defaults to the time of the latest block. *)
Definition baseRate this (when : option Date) : result Decimal :=
  let when := default (_timeOfLatestBlock this) when in
  let millisecondsSinceLastFeeOperation := Z.max (when - _lastFeeOperation this) 0 in
  let minutesSinceLastFeeOperation := millisecondsSinceLastFeeOperation / 60000 in
  let* decay := Decimal.pow (_minuteDecayFactor this) minutesSinceLastFeeOperation in
  Decimal.mul decay (_baseRateWithoutDecay this).

Definition borrowingRate this (when : option Date) : result Decimal :=
  if _recoveryMode this then Ok Decimal.ZERO
  else
    let* r := baseRate this when in
    let* r := Decimal.add MINIMUM_BORROWING_RATE r in
    Decimal.min r MAXIMUM_BORROWING_RATE.

(** [redeemedFractionOfSupply] defaults to zero in the source. *)
Definition redemptionRate this (redeemedFractionOfSupply : Decimalish) (when : option Date) :
    result Decimal :=
  let* redeemedFractionOfSupply := Decimal.from redeemedFractionOfSupply in
  let* base := baseRate this when in
  let* base :=
    match Decimal.nonZero redeemedFractionOfSupply with
    | Some _ =>
        let* q := Decimal.div redeemedFractionOfSupply (_beta this) in
        Decimal.add q base
    | None => Ok base
    end in
  let* r := Decimal.add MINIMUM_REDEMPTION_RATE base in
  Decimal.min r Decimal.ONE.
End Fees.
End Fees.

(** ** Bounds *)

Section bounds.
Context `{BNL : BigNumberLaws}.
Implicit Types f : Fees.

(** What the constructor guarantees. *)
Definition fees_ok f : Prop := big (_minuteDecayFactor f) < Decimal.DIGITS.

Lemma one_literal : Decimal.from (FromNumber "1") = Ok Decimal.ONE.
Proof. read (Literal "1" None None). Qed.

Lemma newFeesE (b m beta : Decimal) last latest rec :
  Fees.new b m beta last latest rec =
  if big m <? Decimal.DIGITS then Ok (mkFees b m beta last latest rec) else Err AssertionError.
Proof.
  unfold Fees.new, Decimal.lt. rewrite !fromE. cbn [bind]. rewrite one_literal.
  unfold rmap; cbn [bind]. by rewrite ltDE.
Qed.

Definition minutesSince f (when : Date) : Z := Z.max (when - _lastFeeOperation f) 0 / 60000.

Lemma minutesSince_nonneg f when : 0 <= minutesSince f when.
Proof. apply Z.div_pos; lia. Qed.

(** The decay factor lies between zero and one, so the decayed rate is at most the rate. *)
Lemma baseRate_bounds f when :
  fees_ok f -> minutesSince f (default (_timeOfLatestBlock f) when) <= 4294967295 ->
  exists r, Fees.baseRate f when = Ok r /\ big r <= big (_baseRateWithoutDecay f).
Proof.
  intros Hok Hmax. unfold Fees.baseRate. fold (minutesSince f (default (_timeOfLatestBlock f) when)).
  pose proof (minutesSince_nonneg f (default (_timeOfLatestBlock f) when)).
  set (n := minutesSince _ _) in *. red in Hok.
  destruct (Decimal.pow (_minuteDecayFactor f) n) as [d|] eqn:Hp; [|by rewrite powE in Hp].
  cbn [bind]. rewrite mulE. eexists; split; [done|].
  apply pow_le_one in Hp; [|lia|lia]. rewrite big_dec by (apply Z.div_pos; bnia).
  apply div_le_iff; [done|]. bnia.
Qed.

(** A floor added to a non-negative rate, under a cap. *)
Lemma floor_cap (floor cap r : Decimal) :
  big floor <= big cap ->
  exists b, (let* s := Decimal.add floor r in Decimal.min s cap) = Ok b /\
    big b = Z.min (big floor + big r) (big cap) /\ big floor <= big b <= big cap.
Proof.
  intros Hle. rewrite addE. cbn [bind]. rewrite minE. eexists; split; [done|].
  rewrite !big_dec by (rewrite ?big_dec by blia; blia). blia.
Qed.

Lemma borrowingRate_bounds f when base :
  Fees.baseRate f when = Ok base ->
  exists b, Fees.borrowingRate f when = Ok b /\
    if _recoveryMode f then b = Decimal.ZERO
    else big b = Z.min (big MINIMUM_BORROWING_RATE + big base) (big MAXIMUM_BORROWING_RATE) /\
         big MINIMUM_BORROWING_RATE <= big b <= big MAXIMUM_BORROWING_RATE.
Proof.
  intros Hb. unfold Fees.borrowingRate. destruct (_recoveryMode f); [by eexists|].
  rewrite Hb. cbn [bind]. by apply floor_cap.
Qed.

(** The base rate after a redemption of [fraction]: increased by [fraction / beta]. *)
Definition increased f (fraction base : Decimal) : Z :=
  big fraction * Decimal.DIGITS / big (_beta f) + big base.

Lemma redemptionRate_bounds f (fraction : Decimal) when base :
  0 < big (_beta f) -> Fees.baseRate f when = Ok base ->
  exists r, Fees.redemptionRate f fraction when = Ok r /\
    big r = Z.min (big MINIMUM_REDEMPTION_RATE + increased f fraction base) (big Decimal.ONE) /\
    big MINIMUM_REDEMPTION_RATE <= big r <= big Decimal.ONE.
Proof.
  intros Hbeta Hb. unfold Fees.redemptionRate, increased. rewrite fromE. cbn [bind]. rewrite Hb.
  cbn [bind]. rewrite nonZeroE. destruct (Z.eqb_spec (big fraction) 0) as [->|].
  - cbn [bind]. rewrite Z.mul_0_l, Z.div_0_l, Z.add_0_l by lia. by apply floor_cap.
  - rewrite divE by done. cbn [bind]. rewrite addE. cbn [bind].
    assert (0 <= big fraction * Decimal.DIGITS / big (_beta f)) by (apply Z.div_pos; bnia).
    rewrite (big_dec (_ / _)) by done.
    destruct (floor_cap MINIMUM_REDEMPTION_RATE Decimal.ONE
      (dec (big fraction * Decimal.DIGITS / big (_beta f) + big base))) as (r & ? & Hv & ?); [done|].
    rewrite (big_dec (_ / _ + _)) in Hv by blia. eauto.
Qed.

(** In normal mode the borrowing rate is between its floor and its cap; in recovery
    mode it is zero.  The redemption rate, for a non-zero [beta], is between its floor and
    one.  Neither throws as long as the elapsed minutes fit the exponent of [pow]. *)
Theorem rates_bounded f (fraction : Decimal) when :
  fees_ok f -> minutesSince f (default (_timeOfLatestBlock f) when) <= 4294967295 ->
  0 < big (_beta f) ->
  exists b r, Fees.borrowingRate f when = Ok b /\ Fees.redemptionRate f fraction when = Ok r /\
    (if _recoveryMode f then b = Decimal.ZERO
     else big MINIMUM_BORROWING_RATE <= big b <= big MAXIMUM_BORROWING_RATE) /\
    big MINIMUM_REDEMPTION_RATE <= big r <= big Decimal.ONE.
Proof.
  intros Hok Hmax Hbeta. destruct (baseRate_bounds f when Hok Hmax) as (base & Hb & _).
  destruct (borrowingRate_bounds f when base Hb) as (b & ? & Hbb).
  destruct (redemptionRate_bounds f fraction when base Hbeta Hb) as (r & ? & _ & ?).
  exists b, r. split; [done|]. split; [done|]. split; [|done].
  destruct (_recoveryMode f); [done | apply Hbb].
Qed.
End bounds.

(** ** Agreement with the contracts *)

Section refinement.
Context `{BNL : BigNumberLaws}.

(** The calculator for the state of the contract, at the time of the latest block:
    timestamps are in seconds on chain and in milliseconds in a [Date]. *)
Definition onChainFees (baseRate : Decimal) (lastFeeOperationTime timestamp : Z) : Fees :=
  mkFees baseRate (dec TroveManager.MINUTE_DECAY_FACTOR) (dec (TroveManager.BETA * Decimal.DIGITS))
    (lastFeeOperationTime * 1000) (timestamp * 1000) false.

Lemma decayed_refines (rate : Decimal) last now :
  big rate <= Decimal.DIGITS -> 0 <= last <= now -> now - last < 60 * 525600000 ->
  exists r, Fees.baseRate (onChainFees rate last now) None = Ok r /\
            TroveManager._calcDecayedBaseRate (big rate) last now = Ok (big r) /\
            big r <= Decimal.DIGITS.
Proof.
  intros Hr Hlast Hyears. unfold Fees.baseRate; cbn [onChainFees default _timeOfLatestBlock
    _lastFeeOperation _minuteDecayFactor _baseRateWithoutDecay].
  assert (Z.max (now * 1000 - last * 1000) 0 / 60000 = (now - last) / 60) as ->.
  { rewrite Z.max_l by lia. replace (now * 1000 - last * 1000) with ((now - last) * 1000) by ring.
    change 60000 with (60 * 1000). by rewrite Z.div_mul_cancel_r. }
  assert (0 <= (now - last) / 60 < 525600000) as Hmin.
  { split; [apply Z.div_pos; lia | apply Z.div_lt_upper_bound; lia]. }
  unfold TroveManager._calcDecayedBaseRate, TroveManager._minutesPassedSinceLastFeeOp, SafeMath.sub,
    TroveManager.SECONDS_IN_ONE_MINUTE.
  rewrite uintE by lia. cbn [bind]. rewrite safe_divE by lia. cbn [bind].
  set (m := (now - last) / 60) in *. set (x := dec TroveManager.MINUTE_DECAY_FACTOR).
  assert (big x = TroveManager.MINUTE_DECAY_FACTOR) as Hx by done.
  destruct (decPow_pow x m) as (d & -> & Hd & Hd1); [rewrite Hx; done | lia |].
  rewrite Hx in Hd. rewrite Hd. cbn [bind]. rewrite mulE. unfold SafeMath.mul.
  rewrite uintE by bnia. cbn [bind]. rewrite safe_divE by done. eexists; split; [done|].
  rewrite big_dec by (apply Z.div_pos; bnia). rewrite Z.mul_comm. split; [done|].
  apply div_le_iff; [done|]. bnia.
Qed.

(** Halving the fraction on chain is dividing it by [beta] in the SDK. *)
Lemma increased_onChain (rate fraction base : Decimal) last now :
  increased (onChainFees rate last now) fraction base = big base + big fraction / TroveManager.BETA.
Proof.
  unfold increased; simpl. rewrite big_dec by done. unfold TroveManager.BETA.
  rewrite Z.div_mul_cancel_r by done. lia.
Qed.

(** What a redemption is charged on chain, from the decayed base rate: the assertion that the
    new base rate is positive fails when both the decayed rate and half the redeemed fraction
    are zero. *)
Lemma chargedRedemptionRateE rate last now base drawn price supply :
  TroveManager._calcDecayedBaseRate rate last now = Ok base ->
  0 <= base <= Decimal.DIGITS -> 0 <= last <= now -> now < 2 ^ 256 ->
  0 <= drawn * price < 2 ^ 256 -> 0 < supply ->
  let raised := base + drawn * price / supply / TroveManager.BETA in
  TroveManager.chargedRedemptionRate rate last now drawn price supply =
  if 0 <? raised
  then Ok (Z.min (TroveManager.REDEMPTION_FEE_FLOOR + raised) Decimal.DIGITS)
  else Err AssertionError.
Proof.
  intros Hc Hb Hl Hnow Hp Hs raised. subst raised.
  unfold TroveManager.chargedRedemptionRate, TroveManager._updateBaseRateFromRedemption,
    TroveManager._updateLastFeeOpTime, TroveManager._calcRedemptionRate, SafeMath.mul, SafeMath.add,
    SafeMath.sub.
  rewrite Hc. cbn [bind]. rewrite uintE by lia. cbn [bind]. rewrite safe_divE by lia. cbn [bind].
  rewrite safe_divE by done. cbn [bind].
  assert (0 <= drawn * price / supply / TroveManager.BETA < 2 ^ 255) as Hq.
  { split; [apply Z.div_pos; [apply Z.div_pos|]; lia || done|]. apply Z.div_lt_upper_bound; [done|].
    change (TroveManager.BETA * 2 ^ 255) with (2 ^ 256). apply Z.div_lt_upper_bound; nia. }
  set (q := drawn * price / supply / TroveManager.BETA) in *. clearbody q.
  unfold Decimal.DIGITS in *. rewrite uintE by lia. cbn [bind].
  change LiquityMath.DECIMAL_PRECISION with 1000000000000000000.
  change TroveManager.REDEMPTION_FEE_FLOOR with 5000000000000000.
  destruct (Z.ltb_spec 0 (base + q)), (Z.ltb_spec 0 (Z.min (base + q) 1000000000000000000)); try lia;
    [|done].
  rewrite uintE by lia. cbn [bind fst]. rewrite uintE by lia. cbn [bind]. f_equal. lia.
Qed.

(** C11. For a base rate of at most one and less than a thousand years since the last fee
    operation, in the latest block: outside recovery mode [borrowingRate] is the rate the
    contract charges for a borrowing, whose functions do not revert.  For a redemption that draws
    [drawn] of the collateral at [price] from a total [supply] that is not zero, [redemptionRate]
    of the redeemed fraction is the rate of the contract's fee, unless the base rate has decayed
    to zero and half the fraction rounds to zero: then the contract's assertion fails and nothing
    is redeemed, while the SDK answers with the minimum rate. *)
Theorem fees_refine_contract (rate : Decimal) last now drawn price supply :
  big rate <= big Decimal.ONE ->
  0 <= last <= now -> now - last < 60 * 525600000 -> now < 2 ^ 256 ->
  0 <= drawn * price < 2 ^ 256 -> 0 < supply ->
  let f := onChainFees rate last now in
  let fraction := dec (drawn * price / supply) in
  exists base b r,
    Fees.baseRate f None = Ok base /\
    Fees.borrowingRate f None = Ok b /\
    TroveManager.getBorrowingRateWithDecay (big rate) last now = Ok (big b) /\
    Fees.redemptionRate f fraction None = Ok r /\
    TroveManager.chargedRedemptionRate (big rate) last now drawn price supply =
      (if 0 <? big base + big fraction / TroveManager.BETA then Ok (big r) else Err AssertionError) /\
    (big base + big fraction / TroveManager.BETA = 0 -> r = MINIMUM_REDEMPTION_RATE).
Proof.
  intros Hr Hlast Hyears Hnow Hp Hs f fraction. change (big Decimal.ONE) with Decimal.DIGITS in *.
  destruct (decayed_refines rate last now Hr Hlast Hyears) as (base & Hb & Hc & Hb1).
  destruct (borrowingRate_bounds f None base Hb) as (b & Hbr & Hbv & _).
  destruct (redemptionRate_bounds f fraction None base) as (r & Hrr & Hrv & _); [done|done|].
  assert (big fraction = drawn * price / supply) as Hf by (apply big_dec, Z.div_pos; lia).
  unfold f in Hrv. rewrite increased_onChain in Hrv.
  pose proof (big_nonneg base).
  exists base, b, r. do 2 (split; [done|]). split.
  { unfold TroveManager.getBorrowingRateWithDecay, TroveManager._calcBorrowingRate, SafeMath.add.
    rewrite Hc. cbn [bind]. rewrite uintE by (change LiquityBase.BORROWING_FEE_FLOOR with 5000000000000000; blia).
    by rewrite Hbv. }
  split; [done|]. split.
  - rewrite (chargedRedemptionRateE _ _ _ (big base)) by (done || lia).
    rewrite Hf in *. destruct (Z.ltb_spec 0 (big base + drawn * price / supply / TroveManager.BETA));
      [|done]. by rewrite Hrv.
  - intros H0. apply big_inj. by rewrite Hrv, H0.
Qed.
End refinement.

(** A base rate of 3%, with the parameters of the contracts, an hour later. *)
Definition sampleFees : Fees := onChainFees (dec 30000000000000000) 0 3600.

Lemma rates_bounded_witness :
  exists b r, Fees.borrowingRate sampleFees None = Ok b /\
    Fees.redemptionRate sampleFees Decimal.HALF None = Ok r /\
    big b <= big MAXIMUM_BORROWING_RATE /\ big r <= big Decimal.ONE.
Proof.
  destruct (rates_bounded sampleFees Decimal.HALF None) as (b & r & H1 & H2 & H3 & H4);
    [vm_compute; reflexivity | vm_compute; discriminate | vm_compute; reflexivity |].
  exists b, r. split; [exact H1|]. split; [exact H2|]. split; [apply H3 | apply H4].
Defined.

Lemma fees_refine_contract_witness :
  (exists base b r, Fees.baseRate sampleFees None = Ok base /\ Fees.borrowingRate sampleFees None = Ok b /\
     TroveManager.getBorrowingRateWithDecay 30000000000000000 0 3600 = Ok (big b) /\
     Fees.redemptionRate sampleFees (dec 250000000000000000) None = Ok r /\
     0 < big base + big (dec 250000000000000000) / TroveManager.BETA) /\
  TroveManager.chargedRedemptionRate 0 0 3600 1 1 (10 ^ 18) = Err AssertionError.
Proof.
  split.
  - destruct (fees_refine_contract (dec 30000000000000000) 0 3600 500 (10 ^ 18) 2000)
      as (base & b & r & H0 & H1 & H2 & H3 & _);
      [vm_compute; discriminate | lia | lia | lia | lia | lia |].
    exists base, b, r. split; [exact H0|]. split; [exact H1|]. split; [exact H2|]. split; [exact H3|].
    pose proof (big_nonneg base). change (big (dec 250000000000000000) / TroveManager.BETA) with 125000000000000000.
    lia.
  - vm_compute. reflexivity.
Defined.
