(* ===== verification/StabilityDeposit.v ===== *)
(** * Stability deposits

    [packages/lib-base/src/StabilityDeposit.ts]: a deposit in the Stability Pool, the
    change that leads from it to a new amount, and the application of a change. *)

From S2P Require Import Prelude JsString BigNumber Decimal.
From Stdlib Require Import Ascii String.

Local Open Scope string_scope.
Local Open Scope Z_scope.

(** The two alternatives of the union; a withdrawal says whether it empties the deposit. *)
Inductive StabilityDepositChange (T : Type) :=
| DepositLUSD (depositLUSD : T)
| WithdrawLUSD (withdrawLUSD : T) (withdrawAllLUSD : bool).
Arguments DepositLUSD {T}.
Arguments WithdrawLUSD {T}.

Record StabilityDeposit := mkDeposit {
  initialLUSD : Decimal;
  currentLUSD : Decimal;
  sd_collateralGain : Decimal;
  lqtyReward : Decimal;
  frontendTag : string
}.

Module StabilityDeposit.
Section StabilityDeposit.
Context `{BN : BigNumber}.
Implicit Types this that : StabilityDeposit.

(** The constructor. *)
Definition new (initialLUSD currentLUSD collateralGain lqtyReward : Decimal)
    (frontendTag : string) : result StabilityDeposit :=
  if Decimal.gtD currentLUSD initialLUSD
  then Err (JsError "currentLUSD can't be greater than initialLUSD")
  else Ok (mkDeposit initialLUSD currentLUSD collateralGain lqtyReward frontendTag).

Definition isEmpty this : bool :=
  Decimal.isZero (initialLUSD this) && Decimal.isZero (currentLUSD this) &&
  Decimal.isZero (sd_collateralGain this) && Decimal.isZero (lqtyReward this).

Definition toString this : result string :=
  let* i := Decimal.toString (initialLUSD this) None in
  let* c := Decimal.toString (currentLUSD this) None in
  let* g := Decimal.toString (sd_collateralGain this) None in
  let* r := Decimal.toString (lqtyReward this) None in
  Ok ("{ initialLUSD: " +:+ i +:+ ", currentLUSD: " +:+ c +:+ ", collateralGain: " +:+ g +:+
      ", lqtyReward: " +:+ r +:+
      ", frontendTag: " +:+ dquote +:+ frontendTag this +:+ dquote +:+ " }").

Definition equals this that : bool :=
  Decimal.eqD (initialLUSD this) (initialLUSD that) &&
  Decimal.eqD (currentLUSD this) (currentLUSD that) &&
  Decimal.eqD (sd_collateralGain this) (sd_collateralGain that) &&
  Decimal.eqD (lqtyReward this) (lqtyReward that) &&
  String.eqb (frontendTag this) (frontendTag that).

Definition whatChanged this (thatLUSD : Decimalish) :
    result (option (StabilityDepositChange Decimal)) :=
  let* thatLUSD := Decimal.from thatLUSD in
  if Decimal.ltD thatLUSD (currentLUSD this) then
    let* w := Decimal.sub (currentLUSD this) thatLUSD in
    Ok (Some (WithdrawLUSD w (Decimal.isZero thatLUSD)))
  else if Decimal.gtD thatLUSD (currentLUSD this) then
    let* d := Decimal.sub thatLUSD (currentLUSD this) in
    Ok (Some (DepositLUSD d))
  else Ok None.

Definition apply this (change : option (StabilityDepositChange Decimalish)) : result Decimal :=
  match change with
  | None => Ok (currentLUSD this)
  | Some (WithdrawLUSD w withdrawAllLUSD) =>
      let* all := if withdrawAllLUSD then Ok true else Decimal.lte (currentLUSD this) w in
      if all then Ok Decimal.ZERO else Decimal.sub (currentLUSD this) w
  | Some (DepositLUSD d) => Decimal.add (currentLUSD this) d
  end.

(** A change as computed, as an argument of [apply]: a [Decimal] is a [Decimalish]. *)
Definition asDecimalish (c : StabilityDepositChange Decimal) : StabilityDepositChange Decimalish :=
  match c with
  | DepositLUSD d => DepositLUSD (FromDecimal d)
  | WithdrawLUSD w all => WithdrawLUSD (FromDecimal w) all
  end.

End StabilityDeposit.
End StabilityDeposit.

(** ** Theorems *)

Section theorems.
Context `{BNL : BigNumberLaws}.
Implicit Types this that : StabilityDeposit.

(** The amounts of the change from one amount to another. *)
Definition moves (from to : Z) (c : StabilityDepositChange Decimal) : Prop :=
  match c with
  | DepositLUSD d => 0 < big d /\ big d = to - from
  | WithdrawLUSD w all => 0 < big w /\ big w = from - to /\ (all = true <-> to = 0)
  end.

(** What changed in a deposit, by cases. *)
Lemma deposit_change_cases this (that : Decimal) :
  exists change,
    StabilityDeposit.whatChanged this that = Ok change /\
    StabilityDeposit.apply this (StabilityDeposit.asDecimalish <$> change) = Ok that /\
    match change with
    | Some c => moves (big (currentLUSD this)) (big that) c
    | None => that = currentLUSD this
    end.
Proof.
  unfold StabilityDeposit.whatChanged; simpl. rewrite ltDE, gtDE.
  destruct (Z.ltb_spec (big that) (big (currentLUSD this))) as [Hlt|Hge].
  - rewrite subE by lia. eexists; split; [done|]; simpl. rewrite isZeroE.
    unfold Decimal.lte; simpl. rewrite lteDE, !big_dec by lia. split; [|zcase; naive_solver lia].
    destruct (Z.eqb_spec (big that) 0) as [Hz|]; simpl.
    + f_equal. by apply big_inj; rewrite Hz.
    + zcase; [pose proof (big_nonneg that); lia|]. rewrite subE by (rewrite big_dec; lia).
      f_equal. apply dec_eq. rewrite big_dec; lia.
  - destruct (Z.ltb_spec (big (currentLUSD this)) (big that)).
    + rewrite subE by lia. eexists; split; [done|]; simpl. rewrite big_dec by lia.
      split; [|lia]. rewrite addE. f_equal. apply dec_eq. rewrite big_dec; lia.
    + exists None. assert (that = currentLUSD this) as -> by (apply big_inj; lia). done.
Qed.

(** [whatChanged] never throws on a [Decimal]; it reports no change exactly for the
    current amount, and otherwise the positive amount to deposit or to withdraw, flagged as a
    full withdrawal exactly when nothing is left; applying the change gives the amount asked
    for. *)
Theorem deposit_whatChanged_apply this (that : Decimal) :
  exists change,
    StabilityDeposit.whatChanged this that = Ok change /\
    (change = None <-> that = currentLUSD this) /\
    (forall c, change = Some c -> moves (big (currentLUSD this)) (big that) c) /\
    StabilityDeposit.apply this (StabilityDeposit.asDecimalish <$> change) = Ok that.
Proof.
  destruct (deposit_change_cases this that) as (change & H & Happly & Hmoves).
  exists change. split; [done|]. split; [|by split; [intros ? ->|]].
  destruct change as [[d|w all]|]; simpl in Hmoves; [| |done];
    (split; [done|intros ->; lia]).
Qed.

(** Applying a change never fails on [Decimal]s and never goes below zero. *)
Lemma deposit_applyE this (c : StabilityDepositChange Decimal) :
  StabilityDeposit.apply this (Some (StabilityDeposit.asDecimalish c)) =
  Ok (dec match c with
          | DepositLUSD d => big (currentLUSD this) + big d
          | WithdrawLUSD w true => 0
          | WithdrawLUSD w false => Z.max 0 (big (currentLUSD this) - big w)
          end).
Proof.
  destruct c as [d|w []]; simpl.
  - by rewrite addE.
  - done.
  - unfold Decimal.lte; simpl. rewrite lteDE. zcase.
    + f_equal. symmetry. apply dec_eq. change (big Decimal.ZERO) with 0. lia.
    + rewrite subE by lia. f_equal. f_equal. lia.
Qed.

Lemma deposit_equals_spec this that : StabilityDeposit.equals this that = true <-> this = that.
Proof.
  unfold StabilityDeposit.equals. rewrite !andb_true_iff, !eqD_true, String.eqb_eq.
  destruct this, that; simpl. split; [naive_solver | by intros [= -> -> -> -> ->]].
Qed.
End theorems.

