(* ===== verification/LQTYStake.v ===== *)
(** * LQTY stakes

    [packages/lib-base/src/LQTYStake.ts]: a user's stake, the change that leads from it
    to a new amount, and the application of a change. *)

From S2P Require Import Prelude JsString BigNumber Decimal.
From Stdlib Require Import Ascii String.

Local Open Scope string_scope.
Local Open Scope Z_scope.

Inductive LQTYStakeChange (T : Type) :=
| StakeLQTY (stakeLQTY : T)
| UnstakeLQTY (unstakeLQTY : T) (unstakeAllLQTY : bool).
Arguments StakeLQTY {T}.
Arguments UnstakeLQTY {T}.

(** The constructor's parameters default to zero in the source. *)
Record LQTYStake := mkStake {
  stakedLQTY : Decimal;
  ls_collateralGain : Decimal;
  lusdGain : Decimal
}.

Module LQTYStake.
Section LQTYStake.
Context `{BN : BigNumber}.
Implicit Types this that : LQTYStake.

Definition isEmpty this : bool :=
  Decimal.isZero (stakedLQTY this) && Decimal.isZero (ls_collateralGain this) &&
  Decimal.isZero (lusdGain this).

Definition toString this : result string :=
  let* s := Decimal.toString (stakedLQTY this) None in
  let* c := Decimal.toString (ls_collateralGain this) None in
  let* l := Decimal.toString (lusdGain this) None in
  Ok ("{ stakedLQTY: " +:+ s +:+ ", collateralGain: " +:+ c +:+ ", lusdGain: " +:+ l +:+ " }").

Definition equals this that : bool :=
  Decimal.eqD (stakedLQTY this) (stakedLQTY that) &&
  Decimal.eqD (ls_collateralGain this) (ls_collateralGain that) &&
  Decimal.eqD (lusdGain this) (lusdGain that).

Definition whatChanged this (thatStakedLQTY : Decimalish) :
    result (option (LQTYStakeChange Decimal)) :=
  let* thatStakedLQTY := Decimal.from thatStakedLQTY in
  if Decimal.ltD thatStakedLQTY (stakedLQTY this) then
    let* u := Decimal.sub (stakedLQTY this) thatStakedLQTY in
    Ok (Some (UnstakeLQTY u (Decimal.isZero thatStakedLQTY)))
  else if Decimal.gtD thatStakedLQTY (stakedLQTY this) then
    let* s := Decimal.sub thatStakedLQTY (stakedLQTY this) in
    Ok (Some (StakeLQTY s))
  else Ok None.

Definition apply this (change : option (LQTYStakeChange Decimalish)) : result Decimal :=
  match change with
  | None => Ok (stakedLQTY this)
  | Some (UnstakeLQTY u unstakeAllLQTY) =>
      let* all := if unstakeAllLQTY then Ok true else Decimal.lte (stakedLQTY this) u in
      if all then Ok Decimal.ZERO else Decimal.sub (stakedLQTY this) u
  | Some (StakeLQTY s) => Decimal.add (stakedLQTY this) s
  end.

(** A change as computed, as an argument of [apply]. *)
Definition asDecimalish (c : LQTYStakeChange Decimal) : LQTYStakeChange Decimalish :=
  match c with
  | StakeLQTY s => StakeLQTY (FromDecimal s)
  | UnstakeLQTY u all => UnstakeLQTY (FromDecimal u) all
  end.

End LQTYStake.
End LQTYStake.

(** ** Theorems *)

Section theorems.
Context `{BNL : BigNumberLaws}.
Implicit Types this that : LQTYStake.

(** The amounts of the change from one amount to another. *)
Definition stakeMoves (from to : Z) (c : LQTYStakeChange Decimal) : Prop :=
  match c with
  | StakeLQTY s => 0 < big s /\ big s = to - from
  | UnstakeLQTY u all => 0 < big u /\ big u = from - to /\ (all = true <-> to = 0)
  end.

(** Applying a change never fails on [Decimal]s and never goes below zero. *)
Lemma stake_applyE this (c : LQTYStakeChange Decimal) :
  LQTYStake.apply this (Some (LQTYStake.asDecimalish c)) =
  Ok (dec match c with
          | StakeLQTY s => big (stakedLQTY this) + big s
          | UnstakeLQTY u true => 0
          | UnstakeLQTY u false => Z.max 0 (big (stakedLQTY this) - big u)
          end).
Proof.
  destruct c as [d|w []]; simpl.
  - by rewrite addE.
  - done.
  - unfold Decimal.lte; simpl. rewrite lteDE. zcase.
    + f_equal. symmetry. apply dec_eq. change (big Decimal.ZERO) with 0. lia.
    + rewrite subE by lia. f_equal. f_equal. lia.
Qed.

Lemma stake_change_cases this (that : Decimal) :
  exists change,
    LQTYStake.whatChanged this that = Ok change /\
    match change with
    | Some c => stakeMoves (big (stakedLQTY this)) (big that) c
    | None => that = stakedLQTY this
    end.
Proof.
  unfold LQTYStake.whatChanged; simpl. rewrite ltDE, gtDE.
  destruct (Z.ltb_spec (big that) (big (stakedLQTY this))) as [Hlt|Hge].
  - rewrite subE by lia. eexists; split; [done|]; simpl. rewrite isZeroE, big_dec by lia.
    zcase; naive_solver lia.
  - destruct (Z.ltb_spec (big (stakedLQTY this)) (big that)).
    + rewrite subE by lia. eexists; split; [done|]; simpl. rewrite big_dec by lia. lia.
    + exists None. split; [done|]. apply big_inj; lia.
Qed.

(** Applying the change that [whatChanged] reports from a stake to an amount gives
    that amount, for every amount; no change is reported exactly for the staked amount. *)
Theorem stake_whatChanged_apply this (that : Decimal) :
  exists change,
    LQTYStake.whatChanged this that = Ok change /\
    (change = None <-> that = stakedLQTY this) /\
    (forall u all, change = Some (UnstakeLQTY u all) -> (all = true <-> that = Decimal.ZERO)) /\
    LQTYStake.apply this (LQTYStake.asDecimalish <$> change) = Ok that.
Proof.
  destruct (stake_change_cases this that) as (change & H & Hmoves). exists change.
  assert (that = Decimal.ZERO <-> big that = 0) as Hzero.
  { split; [by intros ->|]. intros Hz. by apply big_inj. }
  pose proof (big_nonneg that).
  destruct change as [[s|u all]|]; cbn [fmap option_fmap option_map stakeMoves] in *.
  - rewrite stake_applyE. split_and!; [done | | done | f_equal; apply dec_eq; lia].
    split; [done|]. intros ->; lia.
  - rewrite stake_applyE. destruct Hmoves as (Hpos & Hu & Hall). split_and!; [done | | | ].
    + split; [done|]. intros ->; lia.
    + intros ? ? [= <- <-]. by rewrite Hall, Hzero.
    + f_equal. apply dec_eq. destruct all; [by rewrite (proj1 Hall) | lia].
  - subst that. by split_and!.
Qed.

Lemma stake_equals_spec this that : LQTYStake.equals this that = true <-> this = that.
Proof.
  unfold LQTYStake.equals. rewrite !andb_true_iff, !eqD_true.
  destruct this, that; simpl. split; [naive_solver | by intros [= -> -> ->]].
Qed.
End theorems.

