(* ===== verification/ReadableLiquity.v ===== *)
(** * Reading the protocol

    [packages/lib-base/src/ReadableLiquity.ts]: the interface through which the SDK reads the
    state of the protocol, with the law its documentation gives for the getters that are
    defined from others; and [packages/lib-base/src/_CachedReadableLiquity.ts]: the
    implementation of the interface by a cache in front of another implementation.

    A getter is a function of its parameters; [E] are the extra parameters an implementation
    adds.  [F] is what a getter returns: a promise, which is a [result] here, for a reader, and
    a value or [undefined] for a cache. *)

From S2P Require Import Prelude BigNumber Decimal Trove Fees StabilityDeposit LQTYStake.
From Stdlib Require Import String.

Inductive FrontendStatus := Unregistered | Registered (kickbackRate : Decimal).

Inductive SortedBy := ascendingCollateralRatio | descendingCollateralRatio.

Record TroveListingParams := mkListing {
  first : Z;
  sortedBy : SortedBy;
  startingAt : option Z;
  beforeRedistribution : bool
}.

(** What [getTroves] resolves to: its overloads return the Troves as stored when
    [beforeRedistribution] is set, and the current ones otherwise. *)
Inductive Troves :=
| StoredTroves (troves : list TroveWithPendingRedistribution)
| CurrentTroves (troves : list UserTrove).

Record ReadableLiquityF (F : Type -> Type) (E : Type) := mkReadable {
  getTotalRedistributed : E -> F Trove;
  getTroveBeforeRedistribution : option string -> E -> F TroveWithPendingRedistribution;
  getTrove : option string -> E -> F UserTrove;
  getNumberOfTroves : E -> F Z;
  getPrice : E -> F Decimal;
  getTotal : E -> F Trove;
  getStabilityDeposit : option string -> E -> F StabilityDeposit;
  getRemainingStabilityPoolLQTYReward : E -> F Decimal;
  getLUSDInStabilityPool : E -> F Decimal;
  getLUSDBalance : option string -> E -> F Decimal;
  getLQTYBalance : option string -> E -> F Decimal;
  getUniTokenBalance : option string -> E -> F Decimal;
  getUniTokenAllowance : option string -> E -> F Decimal;
  getRemainingLiquidityMiningLQTYReward : E -> F Decimal;
  getLiquidityMiningStake : option string -> E -> F Decimal;
  getTotalStakedUniTokens : E -> F Decimal;
  getLiquidityMiningLQTYReward : option string -> E -> F Decimal;
  getCollateralSurplusBalance : option string -> E -> F Decimal;
  getTroves : TroveListingParams -> E -> F Troves;
  getFees : E -> F Fees;
  getLQTYStake : option string -> E -> F LQTYStake;
  getTotalStakedLQTY : E -> F Decimal;
  getFrontendStatus : option string -> E -> F FrontendStatus
}.
Arguments mkReadable {F E}.
Arguments getTotalRedistributed {F E}. Arguments getTroveBeforeRedistribution {F E}.
Arguments getTrove {F E}. Arguments getNumberOfTroves {F E}. Arguments getPrice {F E}.
Arguments getTotal {F E}. Arguments getStabilityDeposit {F E}.
Arguments getRemainingStabilityPoolLQTYReward {F E}. Arguments getLUSDInStabilityPool {F E}.
Arguments getLUSDBalance {F E}. Arguments getLQTYBalance {F E}.
Arguments getUniTokenBalance {F E}. Arguments getUniTokenAllowance {F E}.
Arguments getRemainingLiquidityMiningLQTYReward {F E}. Arguments getLiquidityMiningStake {F E}.
Arguments getTotalStakedUniTokens {F E}. Arguments getLiquidityMiningLQTYReward {F E}.
Arguments getCollateralSurplusBalance {F E}. Arguments getTroves {F E}. Arguments getFees {F E}.
Arguments getLQTYStake {F E}. Arguments getTotalStakedLQTY {F E}. Arguments getFrontendStatus {F E}.

Definition _ReadableLiquityWithExtraParams : Type -> Type := ReadableLiquityF result.
Definition _LiquityReadCache : Type -> Type := ReadableLiquityF option.

Module CachedReadableLiquity.
Section CachedReadableLiquity.
Context `{BN : BigNumber} {E : Type}.
Context (_readable : _ReadableLiquityWithExtraParams E) (_cache : _LiquityReadCache E).

(** [cached ?? read] *)
Definition orElse {A} (cached : option A) (read : result A) : result A :=
  match cached with Some a => Ok a | None => read end.

Definition get_TotalRedistributed (e : E) : result Trove :=
  orElse (getTotalRedistributed _cache e) (getTotalRedistributed _readable e).

Definition get_TroveBeforeRedistribution (address : option string) (e : E) :
    result TroveWithPendingRedistribution :=
  orElse (getTroveBeforeRedistribution _cache address e)
    (getTroveBeforeRedistribution _readable address e).

Definition get_Trove (address : option string) (e : E) : result UserTrove :=
  let* troveBeforeRedistribution := get_TroveBeforeRedistribution address e in
  let* totalRedistributed := get_TotalRedistributed e in
  TroveWithPendingRedistribution.applyRedistribution troveBeforeRedistribution totalRedistributed.

(** The parameters with [beforeRedistribution: true]. *)
Definition before (params : TroveListingParams) : TroveListingParams :=
  mkListing (first params) (sortedBy params) (startingAt params) true.

Definition get_Troves (params : TroveListingParams) (e : E) : result Troves :=
  let* totalRedistributed :=
    if beforeRedistribution params then Ok None
    else rmap Some (get_TotalRedistributed e) in
  let* troves := orElse (getTroves _cache (before params) e) (getTroves _readable (before params) e) in
  match totalRedistributed, troves with
  | None, _ => Ok troves
  | Some totalRedistributed, StoredTroves troves =>
      rmap CurrentTroves
        (traverse (fun trove =>
           TroveWithPendingRedistribution.applyRedistribution trove totalRedistributed) troves)
  | Some _, CurrentTroves _ => Err (JsError "trove.applyRedistribution is not a function")
  end.

(** The class, as an implementation of the interface. *)
Definition cachedReadable : _ReadableLiquityWithExtraParams E := mkReadable (F := result)
  get_TotalRedistributed
  get_TroveBeforeRedistribution
  get_Trove
  (fun e => orElse (getNumberOfTroves _cache e) (getNumberOfTroves _readable e))
  (fun e => orElse (getPrice _cache e) (getPrice _readable e))
  (fun e => orElse (getTotal _cache e) (getTotal _readable e))
  (fun a e => orElse (getStabilityDeposit _cache a e) (getStabilityDeposit _readable a e))
  (fun e => orElse (getRemainingStabilityPoolLQTYReward _cache e)
              (getRemainingStabilityPoolLQTYReward _readable e))
  (fun e => orElse (getLUSDInStabilityPool _cache e) (getLUSDInStabilityPool _readable e))
  (fun a e => orElse (getLUSDBalance _cache a e) (getLUSDBalance _readable a e))
  (fun a e => orElse (getLQTYBalance _cache a e) (getLQTYBalance _readable a e))
  (fun a e => orElse (getUniTokenBalance _cache a e) (getUniTokenBalance _readable a e))
  (fun a e => orElse (getUniTokenAllowance _cache a e) (getUniTokenAllowance _readable a e))
  (fun e => orElse (getRemainingLiquidityMiningLQTYReward _cache e)
              (getRemainingLiquidityMiningLQTYReward _readable e))
  (fun a e => orElse (getLiquidityMiningStake _cache a e) (getLiquidityMiningStake _readable a e))
  (fun e => orElse (getTotalStakedUniTokens _cache e) (getTotalStakedUniTokens _readable e))
  (fun a e => orElse (getLiquidityMiningLQTYReward _cache a e)
                (getLiquidityMiningLQTYReward _readable a e))
  (fun a e => orElse (getCollateralSurplusBalance _cache a e)
                (getCollateralSurplusBalance _readable a e))
  get_Troves
  (fun e => orElse (getFees _cache e) (getFees _readable e))
  (fun a e => orElse (getLQTYStake _cache a e) (getLQTYStake _readable a e))
  (fun e => orElse (getTotalStakedLQTY _cache e) (getTotalStakedLQTY _readable e))
  (fun a e => orElse (getFrontendStatus _cache a e) (getFrontendStatus _readable a e)).
End CachedReadableLiquity.
End CachedReadableLiquity.

(** ** The contract of the interface *)

Section contract.
Context `{BN : BigNumber} {E : Type}.
Implicit Types r : _ReadableLiquityWithExtraParams E.

(** The parameters of a listing are natural numbers. *)
Definition valid_listing (p : TroveListingParams) : Prop :=
  0 <= first p /\ forall n, startingAt p = Some n -> 0 <= n.

(** What the documentation of the interface says of the getters that depend on others: the
    user's Trove is the stored one with redistributions applied, and so are the listed Troves. *)
Class ReadableLaws r : Prop := {
  rl_getTrove a e :
    getTrove r a e =
    (let* trove := getTroveBeforeRedistribution r a e in
     let* total := getTotalRedistributed r e in
     TroveWithPendingRedistribution.applyRedistribution trove total);
  rl_getTroves_before p e l : getTroves r p e = Ok l ->
    if beforeRedistribution p then exists ts, l = StoredTroves ts else exists ts, l = CurrentTroves ts;
  rl_getTroves_after p e : valid_listing p -> beforeRedistribution p = false ->
    getTroves r p e =
    (let* total := getTotalRedistributed r e in
     let* troves := getTroves r (CachedReadableLiquity.before p) e in
     match troves with
     | StoredTroves ts =>
         rmap CurrentTroves
           (traverse (fun t => TroveWithPendingRedistribution.applyRedistribution t total) ts)
     | CurrentTroves _ => Ok troves
     end)
}.

(** A cached value is what the reader returns. *)
Definition agrees {A} (c : option A) (r : result A) : Prop := forall a, c = Some a -> r = Ok a.

(** A cache that holds nothing but what the reader returns. *)
Record coherent r (c : _LiquityReadCache E) : Prop := {
  co_totalRedistributed e : agrees (getTotalRedistributed c e) (getTotalRedistributed r e);
  co_troveBefore a e :
    agrees (getTroveBeforeRedistribution c a e) (getTroveBeforeRedistribution r a e);
  co_numberOfTroves e : agrees (getNumberOfTroves c e) (getNumberOfTroves r e);
  co_price e : agrees (getPrice c e) (getPrice r e);
  co_total e : agrees (getTotal c e) (getTotal r e);
  co_deposit a e : agrees (getStabilityDeposit c a e) (getStabilityDeposit r a e);
  co_remainingSP e : agrees (getRemainingStabilityPoolLQTYReward c e)
                       (getRemainingStabilityPoolLQTYReward r e);
  co_lusdInSP e : agrees (getLUSDInStabilityPool c e) (getLUSDInStabilityPool r e);
  co_lusd a e : agrees (getLUSDBalance c a e) (getLUSDBalance r a e);
  co_lqty a e : agrees (getLQTYBalance c a e) (getLQTYBalance r a e);
  co_uni a e : agrees (getUniTokenBalance c a e) (getUniTokenBalance r a e);
  co_allowance a e : agrees (getUniTokenAllowance c a e) (getUniTokenAllowance r a e);
  co_remainingLM e : agrees (getRemainingLiquidityMiningLQTYReward c e)
                       (getRemainingLiquidityMiningLQTYReward r e);
  co_stakeLM a e : agrees (getLiquidityMiningStake c a e) (getLiquidityMiningStake r a e);
  co_totalUni e : agrees (getTotalStakedUniTokens c e) (getTotalStakedUniTokens r e);
  co_rewardLM a e : agrees (getLiquidityMiningLQTYReward c a e) (getLiquidityMiningLQTYReward r a e);
  co_surplus a e : agrees (getCollateralSurplusBalance c a e) (getCollateralSurplusBalance r a e);
  co_troves p e : beforeRedistribution p = true -> agrees (getTroves c p e) (getTroves r p e);
  co_fees e : agrees (getFees c e) (getFees r e);
  co_stake a e : agrees (getLQTYStake c a e) (getLQTYStake r a e);
  co_totalLQTY e : agrees (getTotalStakedLQTY c e) (getTotalStakedLQTY r e);
  co_frontend a e : agrees (getFrontendStatus c a e) (getFrontendStatus r a e)
}.

(** Two readers return the same from every getter. *)
Record same_reads r r' : Prop := {
  sr_totalRedistributed e : getTotalRedistributed r e = getTotalRedistributed r' e;
  sr_troveBefore a e : getTroveBeforeRedistribution r a e = getTroveBeforeRedistribution r' a e;
  sr_trove a e : getTrove r a e = getTrove r' a e;
  sr_numberOfTroves e : getNumberOfTroves r e = getNumberOfTroves r' e;
  sr_price e : getPrice r e = getPrice r' e;
  sr_total e : getTotal r e = getTotal r' e;
  sr_deposit a e : getStabilityDeposit r a e = getStabilityDeposit r' a e;
  sr_remainingSP e :
    getRemainingStabilityPoolLQTYReward r e = getRemainingStabilityPoolLQTYReward r' e;
  sr_lusdInSP e : getLUSDInStabilityPool r e = getLUSDInStabilityPool r' e;
  sr_lusd a e : getLUSDBalance r a e = getLUSDBalance r' a e;
  sr_lqty a e : getLQTYBalance r a e = getLQTYBalance r' a e;
  sr_uni a e : getUniTokenBalance r a e = getUniTokenBalance r' a e;
  sr_allowance a e : getUniTokenAllowance r a e = getUniTokenAllowance r' a e;
  sr_remainingLM e :
    getRemainingLiquidityMiningLQTYReward r e = getRemainingLiquidityMiningLQTYReward r' e;
  sr_stakeLM a e : getLiquidityMiningStake r a e = getLiquidityMiningStake r' a e;
  sr_totalUni e : getTotalStakedUniTokens r e = getTotalStakedUniTokens r' e;
  sr_rewardLM a e : getLiquidityMiningLQTYReward r a e = getLiquidityMiningLQTYReward r' a e;
  sr_surplus a e : getCollateralSurplusBalance r a e = getCollateralSurplusBalance r' a e;
  sr_troves p e : valid_listing p -> getTroves r p e = getTroves r' p e;
  sr_fees e : getFees r e = getFees r' e;
  sr_stake a e : getLQTYStake r a e = getLQTYStake r' a e;
  sr_totalLQTY e : getTotalStakedLQTY r e = getTotalStakedLQTY r' e;
  sr_frontend a e : getFrontendStatus r a e = getFrontendStatus r' a e
}.

Lemma orElse_agrees {A} (c : option A) (r : result A) :
  agrees c r -> CachedReadableLiquity.orElse c r = r.
Proof. intros H. destruct c; simpl; [symmetry; auto | done]. Qed.

Lemma before_id p : beforeRedistribution p = true -> CachedReadableLiquity.before p = p.
Proof. by destruct p; simpl; intros ->. Qed.

(** C27. In front of a reader that satisfies the documented laws, a cache that holds only
    what the reader returns is invisible: every getter of [_CachedReadableLiquity], the
    derived ones and the listing included, returns what the reader's does, failures too. *)
Theorem cache_transparent r c :
  ReadableLaws r -> coherent r c -> same_reads (CachedReadableLiquity.cachedReadable r c) r.
Proof.
  intros Hlaws [].
  constructor; intros; simpl; try by apply orElse_agrees.
  - rewrite rl_getTrove. unfold CachedReadableLiquity.get_Trove, CachedReadableLiquity.get_TroveBeforeRedistribution,
      CachedReadableLiquity.get_TotalRedistributed. by rewrite !orElse_agrees.
  - unfold CachedReadableLiquity.get_Troves, CachedReadableLiquity.get_TotalRedistributed.
    rewrite !orElse_agrees by (first [done | by apply co_troves0]).
    destruct (beforeRedistribution p) eqn:Hp; simpl.
    + rewrite before_id by done. apply bind_ret.
    + rewrite (rl_getTroves_after p e) by done. destruct (getTotalRedistributed r e) as [t|]; [|done].
      simpl. pose proof (rl_getTroves_before (CachedReadableLiquity.before p) e) as Hb.
      destruct (getTroves r (CachedReadableLiquity.before p) e) as [l|]; [|done]. simpl.
      by destruct (Hb l eq_refl) as [ts ->].
Qed.
End contract.

(** ** An instance *)

(** A reader with one Trove, and a cache that holds the price. *)
Definition samplePendingTrove : TroveWithPendingRedistribution :=
  mkPending (mkUserTrove (mkTrove Decimal.ONE Decimal.HALF) "0x1" open) Decimal.ONE _emptyTrove.

Definition sampleTroves (p : TroveListingParams) : result Troves :=
  if beforeRedistribution p then Ok (StoredTroves [samplePendingTrove])
  else rmap CurrentTroves
    (traverse (fun t => TroveWithPendingRedistribution.applyRedistribution t _emptyTrove)
       [samplePendingTrove]).

Definition sampleReader : _ReadableLiquityWithExtraParams unit :=
  let zero := Ok Decimal.ZERO in
  mkReadable (fun _ => Ok _emptyTrove) (fun _ _ => Ok samplePendingTrove)
    (fun _ _ => TroveWithPendingRedistribution.applyRedistribution samplePendingTrove _emptyTrove)
    (fun _ => Ok 1%Z) (fun _ => Ok Decimal.ONE) (fun _ => Ok (ut_trove (p_userTrove samplePendingTrove)))
    (fun _ _ => Ok (mkDeposit Decimal.ZERO Decimal.ZERO Decimal.ZERO Decimal.ZERO "0x0"))
    (fun _ => zero) (fun _ => zero) (fun _ _ => zero) (fun _ _ => zero) (fun _ _ => zero)
    (fun _ _ => zero) (fun _ => zero) (fun _ _ => zero) (fun _ => zero) (fun _ _ => zero)
    (fun _ _ => zero) (fun p _ => sampleTroves p)
    (fun _ => Fees.new Decimal.ZERO Decimal.HALF Decimal.ONE 0 0 false)
    (fun _ _ => Ok (mkStake Decimal.ZERO Decimal.ZERO Decimal.ZERO)) (fun _ => zero)
    (fun _ _ => Ok Unregistered).

Definition sampleCache : _LiquityReadCache unit :=
  mkReadable (fun _ => None) (fun _ _ => None) (fun _ _ => None) (fun _ => None)
    (fun _ => Some Decimal.ONE) (fun _ => None) (fun _ _ => None) (fun _ => None) (fun _ => None)
    (fun _ _ => None) (fun _ _ => None) (fun _ _ => None) (fun _ _ => None) (fun _ => None)
    (fun _ _ => None) (fun _ => None) (fun _ _ => None) (fun _ _ => None) (fun _ _ => None)
    (fun _ => None) (fun _ _ => None) (fun _ => None) (fun _ _ => None).

Lemma cache_transparent_witness :
  same_reads (CachedReadableLiquity.cachedReadable sampleReader sampleCache) sampleReader.
Proof.
  apply cache_transparent.
  - constructor; [reflexivity | |].
    + intros p e l. simpl. unfold sampleTroves. destruct (beforeRedistribution p); intros [= <-]; eauto.
    + intros p e _ Hp. simpl. unfold sampleTroves. rewrite Hp. reflexivity.
  - constructor; intros; intros x Hx; discriminate Hx || (injection Hx as <-; reflexivity).
Defined.
