(* ===== verification/LiquityStore.v ===== *)
(** * The data store

    [packages/lib-base/src/LiquityStore.ts]: the abstract store that keeps the latest state
    read from the blockchain, derives the user's Trove and the fees from it, and notifies
    listeners of what changed.  The store is a state machine: every method is an action on
    [Store] that keeps the changes made before a failure, as the object does when a method
    throws.  What a subclass adds ([T], [_reduceExtra]) is a parameter, and so is what the
    subscribers' callbacks do ([react]).

    Objects have an identity: a [Ref] is the address of an immutable object with its
    content.  [Object.entries] of a state is a finite map of [Value]s. *)

From S2P Require Import Prelude JsString BigNumber Decimal LiquityMath Constants Trove Fees StabilityDeposit LQTYStake ReadableLiquity.
From stdpp Require Import pretty.
From Stdlib Require Import Ascii String.

Local Open Scope string_scope.
Local Open Scope Z_scope.

(** ** Values with identity *)

Record Ref (A : Type) := mkRef { addr : positive; deref : A }.
Arguments mkRef {A}.
Arguments addr {A}.
Arguments deref {A}.

(** [LiquityStoreBaseState] for [F] the identity, and [Partial<LiquityStoreBaseState>] for
    [F] the option type. *)
Record BaseStateF (F : Type -> Type) := mkBase {
  frontend : F (Ref FrontendStatus);
  ownFrontend : F (Ref FrontendStatus);
  numberOfTroves : F Z;
  accountBalance : F (Ref Decimal);
  lusdBalance : F (Ref Decimal);
  lqtyBalance : F (Ref Decimal);
  uniTokenBalance : F (Ref Decimal);
  uniTokenAllowance : F (Ref Decimal);
  remainingLiquidityMiningLQTYReward : F (Ref Decimal);
  liquidityMiningStake : F (Ref Decimal);
  totalStakedUniTokens : F (Ref Decimal);
  liquidityMiningLQTYReward : F (Ref Decimal);
  collateralSurplusBalance : F (Ref Decimal);
  price : F (Ref Decimal);
  lusdInStabilityPool : F (Ref Decimal);
  total : F (Ref Trove);
  totalRedistributed : F (Ref Trove);
  troveBeforeRedistribution : F (Ref TroveWithPendingRedistribution);
  stabilityDeposit : F (Ref StabilityDeposit);
  remainingStabilityPoolLQTYReward : F (Ref Decimal);
  _feesInNormalMode : F (Ref Fees);
  lqtyStake : F (Ref LQTYStake);
  totalStakedLQTY : F (Ref Decimal);
  _riskiestTroveBeforeRedistribution : F (Ref TroveWithPendingRedistribution)
}.
Arguments mkBase {F}.
Arguments frontend {F}. Arguments ownFrontend {F}. Arguments numberOfTroves {F}.
Arguments accountBalance {F}. Arguments lusdBalance {F}. Arguments lqtyBalance {F}.
Arguments uniTokenBalance {F}. Arguments uniTokenAllowance {F}.
Arguments remainingLiquidityMiningLQTYReward {F}. Arguments liquidityMiningStake {F}.
Arguments totalStakedUniTokens {F}. Arguments liquidityMiningLQTYReward {F}.
Arguments collateralSurplusBalance {F}. Arguments price {F}. Arguments lusdInStabilityPool {F}.
Arguments total {F}. Arguments totalRedistributed {F}. Arguments troveBeforeRedistribution {F}.
Arguments stabilityDeposit {F}. Arguments remainingStabilityPoolLQTYReward {F}.
Arguments _feesInNormalMode {F}. Arguments lqtyStake {F}. Arguments totalStakedLQTY {F}.
Arguments _riskiestTroveBeforeRedistribution {F}.

Definition BaseState : Type := BaseStateF (fun A => A).
Definition BaseUpdate : Type := BaseStateF option.

(** [LiquityStoreDerivedState] *)
Record DerivedState := mkDerived {
  trove : Ref UserTrove;
  fees : Ref Fees;
  borrowingRate : Ref Decimal;
  redemptionRate : Ref Decimal;
  haveUndercollateralizedTroves : bool
}.

(** The addresses the runtime gives to the objects that [_derive] creates. *)
Record DerivedAddrs := mkAddrs {
  a_trove : positive; a_fees : positive; a_borrowingRate : positive; a_redemptionRate : positive
}.

(** A property value of a state; [X] is the type of the values of a subclass. *)
Inductive Value (X : Type) :=
| VFrontend (r : Ref FrontendStatus)
| VNumber (n : Z)
| VBool (b : bool)
| VDecimal (r : Ref Decimal)
| VTrove (r : Ref Trove)
| VUserTrove (r : Ref UserTrove)
| VPending (r : Ref TroveWithPendingRedistribution)
| VDeposit (r : Ref StabilityDeposit)
| VFees (r : Ref Fees)
| VStake (r : Ref LQTYStake)
| VExtra (x : X).
Arguments VFrontend {X}. Arguments VNumber {X}. Arguments VBool {X}. Arguments VDecimal {X}.
Arguments VTrove {X}. Arguments VUserTrove {X}. Arguments VPending {X}. Arguments VDeposit {X}.
Arguments VFees {X}. Arguments VStake {X}. Arguments VExtra {X}.

(** ** Comparisons and printing *)

Section compare.
Context `{BN : BigNumber} (toLocaleString : Date -> string).

Definition eq (a b : Ref Decimal) : bool := Decimal.eqD (deref a) (deref b).

Definition frontendStatusEquals (a b : Ref FrontendStatus) : bool :=
  match deref a, deref b with
  | Unregistered, Unregistered => true
  | Registered k, Registered k' => Decimal.eqD k k'
  | _, _ => false
  end.

Definition showFrontendStatus (x : Ref FrontendStatus) : result string :=
  match deref x with
  | Unregistered => Ok ("{ status: " +:+ dquote +:+ "unregistered" +:+ dquote +:+ " }")
  | Registered k =>
      let* s := Decimal.toString k None in
      Ok ("{ status: " +:+ dquote +:+ "registered" +:+ dquote +:+ ", kickbackRate: " +:+ s +:+ " }")
  end.

(** The method [equals] of two objects of a class. *)
Definition equals {A} (m : A -> A -> bool) (a b : Ref A) : bool := m (deref a) (deref b).

Definition showDecimal (x : Ref Decimal) : result string := Decimal.toString (deref x) None.
Definition showTrove (x : Ref Trove) : result string := Trove.toString (deref x).
Definition showPending (x : Ref TroveWithPendingRedistribution) : result string :=
  UserTrove.toString (p_userTrove (deref x)).
Definition showUserTrove (x : Ref UserTrove) : result string := UserTrove.toString (deref x).
Definition showDeposit (x : Ref StabilityDeposit) : result string :=
  StabilityDeposit.toString (deref x).
Definition showStake (x : Ref LQTYStake) : result string := LQTYStake.toString (deref x).
Definition showFees (x : Ref Fees) : result string := Fees.toString toLocaleString (deref x).

End compare.

(** ** Objects as maps *)

Section entries.
Context {X : Type} (sameExtra : X -> X -> bool).

(** The properties of a base state or of an update: an absent one is [None]. *)
Definition entriesF {F : Type -> Type} (get : forall A, (A -> Value X) -> F A -> option (Value X))
    (b : BaseStateF F) : list (string * option (Value X)) :=
  [ ("frontend", get _ VFrontend (frontend b));
    ("ownFrontend", get _ VFrontend (ownFrontend b));
    ("numberOfTroves", get _ VNumber (numberOfTroves b));
    ("accountBalance", get _ VDecimal (accountBalance b));
    ("lusdBalance", get _ VDecimal (lusdBalance b));
    ("lqtyBalance", get _ VDecimal (lqtyBalance b));
    ("uniTokenBalance", get _ VDecimal (uniTokenBalance b));
    ("uniTokenAllowance", get _ VDecimal (uniTokenAllowance b));
    ("remainingLiquidityMiningLQTYReward", get _ VDecimal (remainingLiquidityMiningLQTYReward b));
    ("liquidityMiningStake", get _ VDecimal (liquidityMiningStake b));
    ("totalStakedUniTokens", get _ VDecimal (totalStakedUniTokens b));
    ("liquidityMiningLQTYReward", get _ VDecimal (liquidityMiningLQTYReward b));
    ("collateralSurplusBalance", get _ VDecimal (collateralSurplusBalance b));
    ("price", get _ VDecimal (price b));
    ("lusdInStabilityPool", get _ VDecimal (lusdInStabilityPool b));
    ("total", get _ VTrove (total b));
    ("totalRedistributed", get _ VTrove (totalRedistributed b));
    ("troveBeforeRedistribution", get _ VPending (troveBeforeRedistribution b));
    ("stabilityDeposit", get _ VDeposit (stabilityDeposit b));
    ("remainingStabilityPoolLQTYReward", get _ VDecimal (remainingStabilityPoolLQTYReward b));
    ("_feesInNormalMode", get _ VFees (_feesInNormalMode b));
    ("lqtyStake", get _ VStake (lqtyStake b));
    ("totalStakedLQTY", get _ VDecimal (totalStakedLQTY b));
    ("_riskiestTroveBeforeRedistribution", get _ VPending (_riskiestTroveBeforeRedistribution b)) ].

Definition baseEntries (b : BaseState) : list (string * option (Value X)) :=
  entriesF (fun A inj a => Some (inj a)) b.

Definition updateEntries (u : BaseUpdate) : list (string * option (Value X)) :=
  entriesF (fun A inj o => inj <$> o) u.

Definition derivedEntries (d : DerivedState) : list (string * option (Value X)) :=
  [ ("trove", Some (VUserTrove (trove d)));
    ("fees", Some (VFees (fees d)));
    ("borrowingRate", Some (VDecimal (borrowingRate d)));
    ("redemptionRate", Some (VDecimal (redemptionRate d)));
    ("haveUndercollateralizedTroves", Some (VBool (haveUndercollateralizedTroves d))) ].

Definition toMap (l : list (string * option (Value X))) : gmap string (Value X) :=
  list_to_map (omap (fun e => pair e.1 <$> e.2) l).

(** [===] on property values: objects are compared by address. *)
Definition strictEquals (a b : Value X) : bool :=
  match a, b with
  | VNumber n, VNumber m => n =? m
  | VBool b, VBool c => Bool.eqb b c
  | VFrontend r, VFrontend s => Pos.eqb (addr r) (addr s)
  | VDecimal r, VDecimal s => Pos.eqb (addr r) (addr s)
  | VTrove r, VTrove s => Pos.eqb (addr r) (addr s)
  | VUserTrove r, VUserTrove s => Pos.eqb (addr r) (addr s)
  | VPending r, VPending s => Pos.eqb (addr r) (addr s)
  | VDeposit r, VDeposit s => Pos.eqb (addr r) (addr s)
  | VFees r, VFees s => Pos.eqb (addr r) (addr s)
  | VStake r, VStake s => Pos.eqb (addr r) (addr s)
  | VExtra x, VExtra y => sameExtra x y
  | _, _ => false
  end.

Definition unchangedIn (b : gmap string (Value X)) (entry : string * Value X) : bool :=
  match b !! entry.1 with Some v => strictEquals entry.2 v | None => false end.

(** The entries of [a] whose value is not strictly equal to [b]'s. *)
Definition difference (a b : gmap string (Value X)) : gmap string (Value X) :=
  filter (fun entry => unchangedIn b entry = false) a.
End entries.

(** ** The store *)

Record ListenerParams (X : Type) := mkParams {
  newState : gmap string (Value X);
  oldState : gmap string (Value X);
  stateChange : gmap string (Value X)
}.
Arguments mkParams {X}.
Arguments newState {X}. Arguments oldState {X}. Arguments stateChange {X}.

(** What a callback given to [subscribe] may do to the store. *)
Inductive Reaction (L : Type) := RSubscribe (listener : L) | RUnsubscribe (unique : nat).
Arguments RSubscribe {L}.
Arguments RUnsubscribe {L}.

(** [_listeners] is a [Set]: the subscribed functions in the order they were added, each
    with the identity of its [wrap]per.  [pending] are the timers the runtime will fire,
    [console] and [calls] what was printed and which listeners were called. *)
Record Store (T L : Type) := mkStore {
  logging : bool;
  hasOnLoaded : bool;
  _loaded : bool;
  _baseState : option BaseState;
  _derivedState : option DerivedState;
  _extraState : option T;
  _updateTimeoutId : option nat;
  _listeners : list (nat * L);
  nextWrapper : nat;
  pending : gset nat;
  nextTimer : nat;
  console : list string;
  onLoadedCalls : nat;
  calls : list nat
}.
Arguments mkStore {T L}.
Arguments logging {T L}. Arguments hasOnLoaded {T L}. Arguments _loaded {T L}.
Arguments _baseState {T L}. Arguments _derivedState {T L}. Arguments _extraState {T L}.
Arguments _updateTimeoutId {T L}. Arguments _listeners {T L}. Arguments nextWrapper {T L}.
Arguments pending {T L}. Arguments nextTimer {T L}. Arguments console {T L}.
Arguments onLoadedCalls {T L}. Arguments calls {T L}.

(** Methods: the state reached is kept when they fail. *)
Definition M (T L A : Type) : Type := Store T L -> Store T L * result A.

#[export] Instance M_ret {T L} : MRet (M T L) := fun A a s => (s, Ok a).
#[export] Instance M_bind {T L} : MBind (M T L) := fun A B k m s =>
  match m s with
  | (s, Ok a) => k a s
  | (s, Err e) => (s, Err e)
  end.

Section methods.
Context `{BN : BigNumber} (toLocaleString : Date -> string).
Context {T TU X L : Type}.
(** The abstract method of the subclass, the entries of its extra state, [===] on their
    values, and what the subscribed callbacks do (with the exception they end in, if any). *)
Context (_reduceExtra : T -> TU -> result T).
Context (extraEntries : T -> list (string * option (Value X))).
Context (sameExtra : X -> X -> bool).
Context (react : L -> ListenerParams X -> list (Reaction L) * option error).

Local Notation Store := (Store T L).
Local Notation M := (M T L).

Definition lift {A} (r : result A) : M A := fun s => (s, r).
Definition get : M Store := fun s => (s, Ok s).
Definition set (f : Store -> Store) : M unit := fun s => (f s, Ok tt).

Definition assert (b : bool) : M unit := lift (if b then Ok tt else Err AssertionError).

Definition setBase (b : BaseState) (s : Store) : Store :=
  mkStore (logging s) (hasOnLoaded s) (_loaded s) (Some b) (_derivedState s) (_extraState s)
    (_updateTimeoutId s) (_listeners s) (nextWrapper s) (pending s) (nextTimer s) (console s)
    (onLoadedCalls s) (calls s).
Definition setDerived (d : DerivedState) (s : Store) : Store :=
  mkStore (logging s) (hasOnLoaded s) (_loaded s) (_baseState s) (Some d) (_extraState s)
    (_updateTimeoutId s) (_listeners s) (nextWrapper s) (pending s) (nextTimer s) (console s)
    (onLoadedCalls s) (calls s).
Definition setExtra (t : option T) (s : Store) : Store :=
  mkStore (logging s) (hasOnLoaded s) (_loaded s) (_baseState s) (_derivedState s) t
    (_updateTimeoutId s) (_listeners s) (nextWrapper s) (pending s) (nextTimer s) (console s)
    (onLoadedCalls s) (calls s).
Definition setLoaded (s : Store) : Store :=
  mkStore (logging s) (hasOnLoaded s) true (_baseState s) (_derivedState s) (_extraState s)
    (_updateTimeoutId s) (_listeners s) (nextWrapper s) (pending s) (nextTimer s) (console s)
    (onLoadedCalls s) (calls s).
Definition setListeners (l : list (nat * L)) (n : nat) (s : Store) : Store :=
  mkStore (logging s) (hasOnLoaded s) (_loaded s) (_baseState s) (_derivedState s) (_extraState s)
    (_updateTimeoutId s) l n (pending s) (nextTimer s) (console s) (onLoadedCalls s) (calls s).
Definition setTimers (id : option nat) (p : gset nat) (n : nat) (s : Store) : Store :=
  mkStore (logging s) (hasOnLoaded s) (_loaded s) (_baseState s) (_derivedState s) (_extraState s)
    id (_listeners s) (nextWrapper s) p n (console s) (onLoadedCalls s) (calls s).
Definition print (line : string) (s : Store) : Store :=
  mkStore (logging s) (hasOnLoaded s) (_loaded s) (_baseState s) (_derivedState s) (_extraState s)
    (_updateTimeoutId s) (_listeners s) (nextWrapper s) (pending s) (nextTimer s)
    (console s ++ [line])%list (onLoadedCalls s) (calls s).
Definition callOnLoaded (s : Store) : Store :=
  mkStore (logging s) (hasOnLoaded s) (_loaded s) (_baseState s) (_derivedState s) (_extraState s)
    (_updateTimeoutId s) (_listeners s) (nextWrapper s) (pending s) (nextTimer s) (console s)
    (S (onLoadedCalls s)) (calls s).
Definition called (unique : nat) (s : Store) : Store :=
  mkStore (logging s) (hasOnLoaded s) (_loaded s) (_baseState s) (_derivedState s) (_extraState s)
    (_updateTimeoutId s) (_listeners s) (nextWrapper s) (pending s) (nextTimer s) (console s)
    (onLoadedCalls s) (calls s ++ [unique])%list.

(** *** Timers *)

Definition _cancelUpdateIfScheduled : M unit :=
  set (fun s => match _updateTimeoutId s with
                | Some id => setTimers (Some id) (pending s ∖ {[ id ]}) (nextTimer s) s
                | None => s
                end).

(** The timer's callback is [onTimer] below. *)
Definition _scheduleUpdate : M unit :=
  _cancelUpdateIfScheduled ;;
  set (fun s => setTimers (Some (nextTimer s)) (pending s ∪ {[ nextTimer s ]}) (S (nextTimer s)) s).

(** *** Reduction *)

Definition _logUpdate {U} (show : U -> result string) (name : string) (next : U) : M U :=
  s ← get;
  (if logging s then
     shown ← lift (show next);
     set (print (name +:+ " updated to " +:+ shown))
   else mret tt) ;;
  mret next.

Definition _updateIfChanged {U} (equals : U -> U -> bool) (show : U -> result string)
    (name : string) (prev : U) (next : option U) : M U :=
  match next with
  | Some next => if negb (equals prev next) then _logUpdate show name next else mret prev
  | None => mret prev
  end.

Definition _silentlyUpdateIfChanged {U} (equals : U -> U -> bool) (prev : U) (next : option U) : M U :=
  match next with
  | Some next => if negb (equals prev next) then mret next else mret prev
  | None => mret prev
  end.

Definition _updateFees (name : string) (prev : Ref Fees) (next : option (Ref Fees)) : M (Ref Fees) :=
  match next with
  | Some next =>
      if negb (equals Fees.equals next prev) then
        n ← lift (showFees toLocaleString next);
        p ← lift (showFees toLocaleString prev);
        (if negb (String.eqb n p) then _logUpdate (showFees toLocaleString) name next
         else mret next) ;;
        mret next
      else mret prev
  | None => mret prev
  end.

Definition showNumber (n : Z) : result string := Ok (pretty n).
Definition showBool (b : bool) : result string := Ok (if b then "true" else "false").

Definition _reduce (baseState : BaseState) (baseStateUpdate : BaseUpdate) : M BaseState :=
  v1 ← _updateIfChanged frontendStatusEquals showFrontendStatus "frontend"
    (frontend baseState) (frontend baseStateUpdate);
  v2 ← _updateIfChanged frontendStatusEquals showFrontendStatus "ownFrontend"
    (ownFrontend baseState) (ownFrontend baseStateUpdate);
  v3 ← _updateIfChanged Z.eqb showNumber "numberOfTroves"
    (numberOfTroves baseState) (numberOfTroves baseStateUpdate);
  v4 ← _updateIfChanged eq showDecimal "accountBalance"
    (accountBalance baseState) (accountBalance baseStateUpdate);
  v5 ← _updateIfChanged eq showDecimal "lusdBalance"
    (lusdBalance baseState) (lusdBalance baseStateUpdate);
  v6 ← _updateIfChanged eq showDecimal "lqtyBalance"
    (lqtyBalance baseState) (lqtyBalance baseStateUpdate);
  v7 ← _updateIfChanged eq showDecimal "uniTokenBalance"
    (uniTokenBalance baseState) (uniTokenBalance baseStateUpdate);
  v8 ← _updateIfChanged eq showDecimal "uniTokenAllowance"
    (uniTokenAllowance baseState) (uniTokenAllowance baseStateUpdate);
  v9 ← _silentlyUpdateIfChanged eq
    (remainingLiquidityMiningLQTYReward baseState) (remainingLiquidityMiningLQTYReward baseStateUpdate);
  v10 ← _updateIfChanged eq showDecimal "liquidityMiningStake"
    (liquidityMiningStake baseState) (liquidityMiningStake baseStateUpdate);
  v11 ← _updateIfChanged eq showDecimal "totalStakedUniTokens"
    (totalStakedUniTokens baseState) (totalStakedUniTokens baseStateUpdate);
  v12 ← _silentlyUpdateIfChanged eq
    (liquidityMiningLQTYReward baseState) (liquidityMiningLQTYReward baseStateUpdate);
  v13 ← _updateIfChanged eq showDecimal "collateralSurplusBalance"
    (collateralSurplusBalance baseState) (collateralSurplusBalance baseStateUpdate);
  v14 ← _updateIfChanged eq showDecimal "price"
    (price baseState) (price baseStateUpdate);
  v15 ← _updateIfChanged eq showDecimal "lusdInStabilityPool"
    (lusdInStabilityPool baseState) (lusdInStabilityPool baseStateUpdate);
  v16 ← _updateIfChanged (equals Trove.equals) showTrove "total"
    (total baseState) (total baseStateUpdate);
  v17 ← _updateIfChanged (equals Trove.equals) showTrove "totalRedistributed"
    (totalRedistributed baseState) (totalRedistributed baseStateUpdate);
  v18 ← _updateIfChanged (equals TroveWithPendingRedistribution.equals) showPending "troveBeforeRedistribution"
    (troveBeforeRedistribution baseState) (troveBeforeRedistribution baseStateUpdate);
  v19 ← _updateIfChanged (equals StabilityDeposit.equals) showDeposit "stabilityDeposit"
    (stabilityDeposit baseState) (stabilityDeposit baseStateUpdate);
  v20 ← _silentlyUpdateIfChanged eq
    (remainingStabilityPoolLQTYReward baseState) (remainingStabilityPoolLQTYReward baseStateUpdate);
  v21 ← _silentlyUpdateIfChanged (equals Fees.equals)
    (_feesInNormalMode baseState) (_feesInNormalMode baseStateUpdate);
  v22 ← _updateIfChanged (equals LQTYStake.equals) showStake "lqtyStake"
    (lqtyStake baseState) (lqtyStake baseStateUpdate);
  v23 ← _updateIfChanged eq showDecimal "totalStakedLQTY"
    (totalStakedLQTY baseState) (totalStakedLQTY baseStateUpdate);
  v24 ← _silentlyUpdateIfChanged (equals TroveWithPendingRedistribution.equals)
    (_riskiestTroveBeforeRedistribution baseState) (_riskiestTroveBeforeRedistribution baseStateUpdate);
  mret (mkBase (F := fun A => A) v1 v2 v3 v4 v5 v6 v7 v8 v9 v10 v11 v12 v13 v14 v15 v16 v17 v18 v19 v20 v21 v22 v23 v24).

Definition _derive (addrs : DerivedAddrs) (baseState : BaseState) : result DerivedState :=
  let totalRedistributed := deref (totalRedistributed baseState) in
  let price := deref (price baseState) in
  let* recovery := Trove.collateralRatioIsBelowCritical (deref (total baseState)) price in
  let* fees := Fees._setRecoveryMode (deref (_feesInNormalMode baseState)) recovery in
  let* trove := TroveWithPendingRedistribution.applyRedistribution
                  (deref (troveBeforeRedistribution baseState)) totalRedistributed in
  let* borrowingRate := Fees.borrowingRate fees None in
  let* redemptionRate := Fees.redemptionRate fees Decimal.ZERO None in
  let* riskiest := TroveWithPendingRedistribution.applyRedistribution
                     (deref (_riskiestTroveBeforeRedistribution baseState)) totalRedistributed in
  let* under := Trove.collateralRatioIsBelowMinimum (ut_trove riskiest) price in
  Ok (mkDerived (mkRef (a_trove addrs) trove) (mkRef (a_fees addrs) fees)
        (mkRef (a_borrowingRate addrs) borrowingRate)
        (mkRef (a_redemptionRate addrs) redemptionRate) under).

Definition _reduceDerived (derivedState derivedStateUpdate : DerivedState) : M DerivedState :=
  f ← _updateFees "fees" (fees derivedState) (Some (fees derivedStateUpdate));
  t ← _updateIfChanged (equals UserTrove.equals) showUserTrove "trove"
    (trove derivedState) (Some (trove derivedStateUpdate));
  b ← _silentlyUpdateIfChanged eq (borrowingRate derivedState)
    (Some (borrowingRate derivedStateUpdate));
  r ← _silentlyUpdateIfChanged eq (redemptionRate derivedState)
    (Some (redemptionRate derivedStateUpdate));
  h ← _updateIfChanged Bool.eqb showBool "haveUndercollateralizedTroves"
    (haveUndercollateralizedTroves derivedState)
    (Some (haveUndercollateralizedTroves derivedStateUpdate));
  mret (mkDerived t f b r h).

(** *** The state read by clients *)

(** [Object.assign]: later objects win, and an absent one adds nothing. *)
Definition state (s : Store) : gmap string (Value X) :=
  let entries {A} (f : A -> list (string * option (Value X))) (o : option A) :=
    match o with Some a => toMap (f a) | None => ∅ end in
  entries extraEntries (_extraState s) ∪
  (entries derivedEntries (_derivedState s) ∪ entries baseEntries (_baseState s)).

(** *** Listeners *)

Definition subscribe (listener : L) : M nat := fun s =>
  let unique := nextWrapper s in
  (setListeners (_listeners s ++ [(unique, listener)])%list (S unique) s, Ok unique).

(** The function that [subscribe] returns. *)
Definition unsubscribe (unique : nat) : M unit :=
  set (fun s => setListeners (filter (fun e => e.1 <> unique) (_listeners s)) (nextWrapper s) s).

Definition perform (reaction : Reaction L) : M unit :=
  match reaction with
  | RSubscribe l => subscribe l ;; mret tt
  | RUnsubscribe u => unsubscribe u
  end.

Fixpoint performAll (reactions : list (Reaction L)) : M unit :=
  match reactions with
  | [] => mret tt
  | r :: rs => perform r ;; performAll rs
  end.

(** A call of a listener: it is recorded, it acts on the store, and it may throw. *)
Definition callListener (listener : nat * L) (params : ListenerParams X) : M unit :=
  let '(reactions, exception) := react listener.2 params in
  set (called listener.1) ;;
  performAll reactions ;;
  match exception with Some e => lift (Err e) | None => mret tt end.

(** The loop over the copy of [_listeners]. *)
Fixpoint notifyEach (copy : list (nat * L)) (params : ListenerParams X) : M unit :=
  match copy with
  | [] => mret tt
  | listener :: copy =>
      s ← get;
      (if existsb (fun e => Nat.eqb e.1 listener.1) (_listeners s)
       then callListener listener params else mret tt) ;;
      notifyEach copy params
  end.

Definition _notify (params : ListenerParams X) : M unit :=
  s ← get; notifyEach (_listeners s) params.

(** *** Loading and updating *)

Definition _load (addrs : DerivedAddrs) (baseState : BaseState) (extraState : option T) : M unit :=
  s ← get;
  assert (negb (_loaded s)) ;;
  set (setBase baseState) ;;
  derived ← lift (_derive addrs baseState);
  set (setDerived derived) ;;
  set (setExtra extraState) ;;
  set setLoaded ;;
  _scheduleUpdate ;;
  set (fun s => if hasOnLoaded s then callOnLoaded s else s).

Definition orAssert {A} (o : option A) : M A :=
  lift (match o with Some a => Ok a | None => Err AssertionError end).

Definition _update (addrs : DerivedAddrs) (baseStateUpdate : option BaseUpdate)
    (extraStateUpdate : option TU) : M unit :=
  s ← get;
  base ← orAssert (_baseState s);
  derived ← orAssert (_derivedState s);
  let oldState := state s in
  base ← match baseStateUpdate with
         | Some u => base ← _reduce base u; set (setBase base) ;; mret base
         | None => mret base
         end;
  update ← lift (_derive addrs base);
  derived ← _reduceDerived derived update;
  set (setDerived derived) ;;
  match extraStateUpdate with
  | Some u =>
      s ← get;
      extra ← orAssert (_extraState s);
      extra ← lift (_reduceExtra extra u);
      set (setExtra (Some extra))
  | None => mret tt
  end ;;
  _scheduleUpdate ;;
  s ← get;
  _notify (mkParams (state s) oldState (difference sameExtra (state s) oldState)).

(** The callback of the timer set by [_scheduleUpdate]. *)
Definition onTimer (addrs : DerivedAddrs) : M unit :=
  set (fun s => setTimers None (pending s) (nextTimer s) s) ;;
  _update addrs None None.

(** The function that [start] returns, after the subclass's own [doStop]. *)
Definition stop : M unit := _cancelUpdateIfScheduled.

End methods.
