(* ===== verification/LiquityStoreTheory.v ===== *)
(** * The data store: theorems

    What an update changes and reports, which listeners a notification calls, and the
    discipline of the update timer over every sequence of events. *)

From S2P Require Import Prelude JsString BigNumber Decimal DecimalText LiquityMath Constants Trove TroveTheory Fees StabilityDeposit LQTYStake ReadableLiquity LiquityStore.
From Stdlib Require Import Ascii String.

Local Open Scope string_scope.
Local Open Scope Z_scope.

(** ** Total printing and equality by content *)

Section total.
Context `{BNL : BigNumberLaws}.

(** A printing function that never throws. *)
Class TotalShow {U} (show : U -> result string) : Prop :=
  total_show : forall u, exists s, show u = Ok s.

Lemma decimal_toString_total d : exists s, Decimal.toString d None = Ok s.
Proof.
  unfold Decimal.toString. rewrite infiniteE. destruct (_ =? _); [eauto|].
  unfold Decimal._toStringWithAutomaticPrecision.
  rewrite bn_div_floor by (unfold Decimal.DIGITS; blia). cbn [bind].
  rewrite bn_modE by (unfold Decimal.DIGITS; blia). cbn [bind].
  destruct (bn_isZero _); eauto.
Qed.

Ltac total_show :=
  intros x; unfold showFrontendStatus, showDecimal, showTrove, showPending, showUserTrove, showDeposit,
    showStake, showFees, Trove.toString, UserTrove.toString, StabilityDeposit.toString,
    LQTYStake.toString, Fees.toString;
  try (destruct (deref x));
  repeat match goal with
  | |- context [Decimal.toString ?d None] =>
      let s := fresh "s" in let H := fresh in
      destruct (decimal_toString_total d) as [s H]; rewrite H; clear H; cbn [bind]
  end; eauto.

#[export] Instance showFrontendStatus_total : TotalShow showFrontendStatus.
Proof. total_show. Qed.
#[export] Instance showDecimal_total : TotalShow showDecimal.
Proof. total_show. Qed.
#[export] Instance showTrove_total : TotalShow showTrove.
Proof. total_show. Qed.
#[export] Instance showPending_total : TotalShow showPending.
Proof. total_show. Qed.
#[export] Instance showUserTrove_total : TotalShow showUserTrove.
Proof. total_show. Qed.
#[export] Instance showDeposit_total : TotalShow showDeposit.
Proof. total_show. Qed.
#[export] Instance showStake_total : TotalShow showStake.
Proof. total_show. Qed.
#[export] Instance showFees_total toLocaleString : TotalShow (showFees toLocaleString).
Proof. total_show. Qed.
#[export] Instance showNumber_total : TotalShow showNumber.
Proof. intros n. by eexists. Qed.
#[export] Instance showBool_total : TotalShow showBool.
Proof. intros []; by eexists. Qed.

Lemma fees_equals_spec (a b : Fees) : Fees.equals a b = true <-> a = b.
Proof.
  unfold Fees.equals. rewrite !andb_true_iff, !eqD_true, !Z.eqb_eq, eqb_true_iff.
  destruct a, b; simpl. split; [naive_solver | by intros [= -> -> -> -> -> ->]].
Qed.

Lemma userTrove_equals_spec (a b : UserTrove) : UserTrove.equals a b = true <-> a = b.
Proof.
  unfold UserTrove.equals.
  rewrite !andb_true_iff, equals_true, String.eqb_eq, bool_decide_eq_true.
  destruct a, b; simpl. split; [naive_solver | by intros [= -> -> ->]].
Qed.

Lemma pending_equals_spec (a b : TroveWithPendingRedistribution) :
  TroveWithPendingRedistribution.equals a b = true <-> a = b.
Proof.
  unfold TroveWithPendingRedistribution.equals.
  rewrite !andb_true_iff, userTrove_equals_spec, eqD_true, equals_true.
  destruct a, b; simpl. split; [naive_solver | by intros [= -> -> ->]].
Qed.

Lemma frontendStatusEquals_spec (a b : Ref FrontendStatus) :
  frontendStatusEquals a b = true <-> deref a = deref b.
Proof.
  unfold frontendStatusEquals. destruct (deref a), (deref b); try done.
  rewrite eqD_true. naive_solver.
Qed.

Lemma eq_spec (a b : Ref Decimal) : eq a b = true <-> deref a = deref b.
Proof. apply eqD_true. Qed.
End total.

(** ** Values up to identity *)

(** The content of a value: what is left when the address is forgotten. *)
Definition anonymous {A} (r : Ref A) : Ref A := mkRef 1 (deref r).

Definition content {X} (v : Value X) : Value X :=
  match v with
  | VFrontend r => VFrontend (anonymous r) | VDecimal r => VDecimal (anonymous r)
  | VTrove r => VTrove (anonymous r) | VUserTrove r => VUserTrove (anonymous r)
  | VPending r => VPending (anonymous r) | VDeposit r => VDeposit (anonymous r)
  | VFees r => VFees (anonymous r) | VStake r => VStake (anonymous r)
  | _ => v
  end.

(** [prev] unless [next] is there and differs. *)
Definition pick {U} (same : U -> U -> bool) (prev : U) (next : option U) : U :=
  match next with
  | Some n => if same prev n then prev else n
  | None => prev
  end.

(** The entry of a reduced state, from the old entry and the update's. *)
Definition merged {X} (old next new : option (Value X)) : Prop :=
  match old, next with
  | Some o, Some n =>
      (content o = content n /\ new = Some o) \/ (content o <> content n /\ new = Some n)
  | _, _ => new = old
  end.

Lemma merged_pick {U X} (inj : U -> Value X) (same : U -> U -> bool) prev next :
  (forall a b, same a b = true <-> content (inj a) = content (inj b)) ->
  merged (Some (inj prev)) (inj <$> next) (Some (inj (pick same prev next))).
Proof.
  intros Hsame. destruct next as [n|]; simpl; [|done].
  pose proof (Hsame prev n). destruct (same prev n); [left | right]; naive_solver.
Qed.

Lemma ref_content {A X} (inj : Ref A -> Value X) (same : Ref A -> Ref A -> bool) :
  (forall a, content (inj a) = inj (anonymous a)) -> (forall a b, inj a = inj b -> a = b) ->
  (forall a b, same a b = true <-> deref a = deref b) ->
  forall a b, same a b = true <-> content (inj a) = content (inj b).
Proof.
  intros Hc Hinj Hs a b. rewrite Hs, !Hc. split.
  - intros H. unfold anonymous. by rewrite H.
  - by intros H%Hinj%(f_equal deref).
Qed.

(** *** Entry lists as maps *)

#[local] Arguments toMap : simpl never.

Section maps.
Context {X : Type}.
Implicit Types l u : list (string * option (Value X)).

Lemma toMap_cons k o l :
  toMap ((k, o) :: l) = match o with Some v => <[k := v]> (toMap l) | None => toMap l end.
Proof. unfold toMap. simpl. by destruct o. Qed.

Lemma toMap_notin k l : k ∉ l.*1 -> toMap l !! k = None.
Proof.
  induction l as [|[k' o] l IH]; [done|]. intros [Hk Hl]%not_elem_of_cons.
  rewrite toMap_cons. destruct o; [rewrite lookup_insert_ne by done|]; auto.
Qed.

Lemma toMap_lookup k o l k' :
  k ∉ l.*1 -> toMap ((k, o) :: l) !! k' = if decide (k' = k) then o else toMap l !! k'.
Proof.
  intros Hk. rewrite toMap_cons. case_decide as H; [subst|]; destruct o.
  - by rewrite lookup_insert_eq.
  - by apply toMap_notin.
  - by rewrite lookup_insert_ne.
  - done.
Qed.

Lemma toMap_app l u : toMap (l ++ u) = toMap l ∪ toMap u.
Proof. unfold toMap. by rewrite omap_app, list_to_map_app. Qed.

(** Entry by entry, [n] merges [u] into [l]. *)
Definition mergesTo l u (n : list (string * option (Value X))) : Prop :=
  Forall3 (fun a b c => b.1 = a.1 /\ c.1 = a.1 /\ merged a.2 b.2 c.2) l u n.

Lemma mergesTo_keys l u n : mergesTo l u n -> u.*1 = l.*1 /\ n.*1 = l.*1.
Proof. induction 1 as [|a b c l u n (Hb & Hc & _) _ [IH1 IH2]]; [done|]. cbn. split; congruence. Qed.

Lemma mergesTo_lookup l u n k :
  mergesTo l u n -> NoDup (l.*1) -> merged (toMap l !! k) (toMap u !! k) (toMap n !! k).
Proof.
  induction 1 as [|[ka a] [kb b] [kc c] l u n (Hb & Hc & Hm) H IH]; [done|].
  cbn in *. subst kb kc. intros [Hka Hnd]%NoDup_cons.
  destruct (mergesTo_keys l u n H) as [Hu Hn].
  rewrite !toMap_lookup by congruence. case_decide; auto.
Qed.
End maps.

(** ** Reduction *)

Section store.
Context `{BNL : BigNumberLaws} (toLocaleString : Date -> string).
Context {T TU X L : Type}.
Context (_reduceExtra : T -> TU -> result T).
Context (extraEntries : T -> list (string * option (Value X))).
Context (sameExtra : X -> X -> bool).
Context (react : L -> ListenerParams X -> list (Reaction L) * option error).

Local Notation Store := (Store T L).
Local Notation M := (M T L).
Local Notation update := (_update toLocaleString _reduceExtra extraEntries sameExtra react).
Local Notation notify := (_notify react).
Local Notation stateOf := (state extraEntries).
Local Notation diff := (difference sameExtra).

Definition setConsole (c : list string) (s : Store) : Store :=
  mkStore (logging s) (hasOnLoaded s) (_loaded s) (_baseState s) (_derivedState s) (_extraState s)
    (_updateTimeoutId s) (_listeners s) (nextWrapper s) (pending s) (nextTimer s) c
    (onLoadedCalls s) (calls s).

(** [m] returns [a] and does nothing but print. *)
Definition computes {A} (m : M A) (a : A) : Prop :=
  forall s, exists c, m s = (setConsole c s, Ok a).

Lemma computes_ret {A} (a : A) : computes (mret a) a.
Proof. intros s. exists (console s). by destruct s. Qed.

Lemma computes_bind {A B} (m : M A) (k : A -> M B) a b :
  computes m a -> computes (k a) b -> computes (m ≫= k) b.
Proof.
  intros Hm Hk s. destruct (Hm s) as [c Hc]. destruct (Hk (setConsole c s)) as [c' Hc'].
  exists c'. unfold mbind, M_bind. by rewrite Hc.
Qed.

Lemma logUpdate_computes {U} (show : U -> result string) name next :
  TotalShow show -> computes (_logUpdate show name next) next.
Proof.
  intros Hshow s. unfold _logUpdate, LiquityStore.get, LiquityStore.set, lift, mbind, M_bind, mret, M_ret.
  destruct (logging s) eqn:Hl.
  - destruct (Hshow next) as [str ->]. eexists. reflexivity.
  - exists (console s). by destruct s.
Qed.

Lemma updateIfChanged_computes {U} (same : U -> U -> bool) show name prev next :
  TotalShow show -> computes (_updateIfChanged same show name prev next) (pick same prev next).
Proof.
  intros Hshow. unfold _updateIfChanged, pick. destruct next as [n|]; [|apply computes_ret].
  destruct (same prev n); simpl; [apply computes_ret | by apply logUpdate_computes].
Qed.

Lemma silently_computes {U} (same : U -> U -> bool) prev next :
  computes (_silentlyUpdateIfChanged same prev next) (pick same prev next).
Proof.
  unfold _silentlyUpdateIfChanged, pick. destruct next as [n|]; [|apply computes_ret].
  destruct (same prev n); apply computes_ret.
Qed.

Lemma updateFees_computes name prev next :
  computes (_updateFees toLocaleString name prev next) (pick (equals Fees.equals) prev next).
Proof.
  intros s. unfold _updateFees, pick. destruct next as [n|]; [|apply computes_ret].
  assert (equals Fees.equals n prev = equals Fees.equals prev n) as ->.
  { apply eq_true_iff_eq. unfold equals. by rewrite !fees_equals_spec. }
  destruct (equals Fees.equals prev n); simpl; [apply computes_ret|].
  destruct (total_show (show := showFees toLocaleString) n) as [sn Hn].
  destruct (total_show (show := showFees toLocaleString) prev) as [sp Hp].
  unfold lift, mbind, M_bind. rewrite Hn, Hp.
  destruct (negb _); [|apply computes_ret].
  destruct (logUpdate_computes (showFees toLocaleString) name n
    (showFees_total toLocaleString) s) as [c Hc].
  rewrite Hc. by exists c.
Qed.

Ltac computes :=
  repeat (eapply computes_bind;
    [first [apply updateIfChanged_computes; typeclasses eauto | apply silently_computes
           | apply updateFees_computes] |]);
  apply computes_ret.

(** The reduced base state. *)
Definition reduced (b : BaseState) (u : BaseUpdate) : BaseState :=
  mkBase (F := fun A => A)
    (pick frontendStatusEquals (frontend b) (frontend u))
    (pick frontendStatusEquals (ownFrontend b) (ownFrontend u))
    (pick Z.eqb (numberOfTroves b) (numberOfTroves u))
    (pick eq (accountBalance b) (accountBalance u))
    (pick eq (lusdBalance b) (lusdBalance u))
    (pick eq (lqtyBalance b) (lqtyBalance u))
    (pick eq (uniTokenBalance b) (uniTokenBalance u))
    (pick eq (uniTokenAllowance b) (uniTokenAllowance u))
    (pick eq (remainingLiquidityMiningLQTYReward b) (remainingLiquidityMiningLQTYReward u))
    (pick eq (liquidityMiningStake b) (liquidityMiningStake u))
    (pick eq (totalStakedUniTokens b) (totalStakedUniTokens u))
    (pick eq (liquidityMiningLQTYReward b) (liquidityMiningLQTYReward u))
    (pick eq (collateralSurplusBalance b) (collateralSurplusBalance u))
    (pick eq (price b) (price u))
    (pick eq (lusdInStabilityPool b) (lusdInStabilityPool u))
    (pick (equals Trove.equals) (total b) (total u))
    (pick (equals Trove.equals) (totalRedistributed b) (totalRedistributed u))
    (pick (equals TroveWithPendingRedistribution.equals)
       (troveBeforeRedistribution b) (troveBeforeRedistribution u))
    (pick (equals StabilityDeposit.equals) (stabilityDeposit b) (stabilityDeposit u))
    (pick eq (remainingStabilityPoolLQTYReward b) (remainingStabilityPoolLQTYReward u))
    (pick (equals Fees.equals) (_feesInNormalMode b) (_feesInNormalMode u))
    (pick (equals LQTYStake.equals) (lqtyStake b) (lqtyStake u))
    (pick eq (totalStakedLQTY b) (totalStakedLQTY u))
    (pick (equals TroveWithPendingRedistribution.equals)
       (_riskiestTroveBeforeRedistribution b) (_riskiestTroveBeforeRedistribution u)).

Definition reducedDerived (d u : DerivedState) : DerivedState :=
  mkDerived
    (pick (equals UserTrove.equals) (trove d) (Some (trove u)))
    (pick (equals Fees.equals) (fees d) (Some (fees u)))
    (pick eq (borrowingRate d) (Some (borrowingRate u)))
    (pick eq (redemptionRate d) (Some (redemptionRate u)))
    (pick Bool.eqb (haveUndercollateralizedTroves d) (Some (haveUndercollateralizedTroves u))).

Lemma reduce_computes b u : computes (_reduce b u) (reduced b u).
Proof. unfold _reduce. computes. Qed.

Lemma reduceDerived_computes d u :
  computes (_reduceDerived toLocaleString d u) (reducedDerived d u).
Proof. unfold _reduceDerived. computes. Qed.

Lemma merged_ref {A} (inj : Ref A -> Value X) (same : A -> A -> bool) prev next :
  (forall a, content (inj a) = inj (anonymous a)) -> (forall a b, inj a = inj b -> a = b) ->
  (forall a b, same a b = true <-> a = b) ->
  merged (Some (inj prev)) (inj <$> next) (Some (inj (pick (equals same) prev next))).
Proof. intros. apply merged_pick, ref_content; unfold equals; auto. Qed.

Lemma merged_decimal prev next :
  merged (X := X) (Some (VDecimal prev)) (VDecimal <$> next) (Some (VDecimal (pick eq prev next))).
Proof. refine (merged_ref VDecimal Decimal.eqD prev next _ _ _); [done | naive_solver | apply eqD_true]. Qed.

Lemma merged_frontend prev next :
  merged (X := X) (Some (VFrontend prev)) (VFrontend <$> next)
    (Some (VFrontend (pick frontendStatusEquals prev next))).
Proof.
  apply merged_pick, ref_content; [done | naive_solver | apply frontendStatusEquals_spec].
Qed.

Lemma merged_number prev next :
  merged (X := X) (Some (VNumber prev)) (VNumber <$> next)
    (Some (VNumber (pick Z.eqb prev next))).
Proof. apply merged_pick. intros a b. rewrite Z.eqb_eq. naive_solver. Qed.

Lemma merged_bool prev next :
  merged (X := X) (Some (VBool prev)) (VBool <$> next)
    (Some (VBool (pick Bool.eqb prev next))).
Proof. apply merged_pick. intros a b. rewrite eqb_true_iff. naive_solver. Qed.

Ltac merges :=
  repeat constructor; cbn;
  first [ apply merged_decimal | apply merged_frontend | apply merged_number | apply merged_bool
        | apply (merged_ref VTrove); [done | naive_solver | apply equals_true]
        | apply (merged_ref VPending); [done | naive_solver | apply pending_equals_spec]
        | apply (merged_ref VUserTrove); [done | naive_solver | apply userTrove_equals_spec]
        | apply (merged_ref VDeposit); [done | naive_solver | apply deposit_equals_spec]
        | apply (merged_ref VFees); [done | naive_solver | apply fees_equals_spec]
        | apply (merged_ref VStake); [done | naive_solver | apply stake_equals_spec] ].

Lemma reduced_merges b u :
  mergesTo (X := X) (baseEntries b) (updateEntries u) (baseEntries (reduced b u)).
Proof. unfold mergesTo, baseEntries, updateEntries, entriesF. merges. Qed.

Lemma reducedDerived_merges d u :
  mergesTo (X := X) (derivedEntries d) (derivedEntries u) (derivedEntries (reducedDerived d u)).
Proof. unfold mergesTo, derivedEntries, reducedDerived. 
  repeat first [apply Forall3_cons; [split_and!; [done | done | cbn [snd]] |] | apply Forall3_nil].
  - apply (merged_ref VUserTrove UserTrove.equals (trove d) (Some (trove u)));
      [done | naive_solver | apply userTrove_equals_spec].
  - apply (merged_ref VFees Fees.equals (fees d) (Some (fees u)));
      [done | naive_solver | apply fees_equals_spec].
  - apply (merged_decimal (borrowingRate d) (Some (borrowingRate u))).
  - apply (merged_decimal (redemptionRate d) (Some (redemptionRate u))).
  - apply (merged_bool (haveUndercollateralizedTroves d) (Some (haveUndercollateralizedTroves u))).
Qed.

(** *** An update *)

Definition baseAfter (b : BaseState) (upd : option BaseUpdate) : BaseState :=
  match upd with Some u => reduced b u | None => b end.

Definition extraAfter (x : option T) (xu : option TU) : result (option T) :=
  match xu, x with
  | None, _ => Ok x
  | Some u, Some t => rmap Some (_reduceExtra t u)
  | Some _, None => Err AssertionError
  end.

Definition noEntries (l : list (string * option (Value X))) : list (string * option (Value X)) :=
  (fun e => (e.1, None)) <$> l.

(** What an update offers for each key of the base and derived states. *)
Definition offered (b : BaseState) (upd : option BaseUpdate) (nd : DerivedState) :
    list (string * option (Value X)) :=
  derivedEntries nd ++
  match upd with Some u => updateEntries u | None => noEntries (baseEntries b) end.

Definition ownEntries (b : BaseState) (d : DerivedState) : list (string * option (Value X)) :=
  derivedEntries d ++ baseEntries b.

Definition ownKeys : list string :=
  [ "trove"; "fees"; "borrowingRate"; "redemptionRate"; "haveUndercollateralizedTroves";
    "frontend"; "ownFrontend"; "numberOfTroves"; "accountBalance"; "lusdBalance"; "lqtyBalance";
    "uniTokenBalance"; "uniTokenAllowance"; "remainingLiquidityMiningLQTYReward";
    "liquidityMiningStake"; "totalStakedUniTokens"; "liquidityMiningLQTYReward";
    "collateralSurplusBalance"; "price"; "lusdInStabilityPool"; "total"; "totalRedistributed";
    "troveBeforeRedistribution"; "stabilityDeposit"; "remainingStabilityPoolLQTYReward";
    "_feesInNormalMode"; "lqtyStake"; "totalStakedLQTY"; "_riskiestTroveBeforeRedistribution" ].

Lemma ownEntries_keys b d : (ownEntries b d).*1 = ownKeys.
Proof. done. Qed.

Lemma mergesTo_none l : mergesTo l (noEntries l) l.
Proof.
  unfold mergesTo, noEntries. induction l as [|[k o] l IH]; cbn; constructor; [|done].
  split_and!; [done..|]. by destruct o.
Qed.

Lemma own_merges b d upd nd :
  mergesTo (ownEntries b d) (offered b upd nd) (ownEntries (baseAfter b upd) (reducedDerived d nd)).
Proof.
  unfold ownEntries, offered, mergesTo. apply Forall3_app; [apply reducedDerived_merges|].
  destruct upd; [apply reduced_merges | apply mergesTo_none].
Qed.

(** A subclass does not use the keys of the base and derived states. *)
Definition extraKeysDisjoint : Prop :=
  forall t k, k ∈ ownKeys -> toMap (extraEntries t) !! k = None.

Lemma state_own (s : Store) b d k :
  extraKeysDisjoint -> k ∈ ownKeys -> _baseState s = Some b -> _derivedState s = Some d ->
  stateOf s !! k = toMap (ownEntries b d) !! k.
Proof.
  intros Hx Hk Hb Hd. unfold state, ownEntries. rewrite Hb, Hd, toMap_app.
  rewrite lookup_union_r; [done|]. destruct (_extraState s); [by apply Hx | done].
Qed.

Lemma ownKeys_nodup : NoDup ownKeys.
Proof. apply (bool_decide_unpack _). by vm_compute. Qed.

(** The store at the time the listeners are notified: the new states are in place and the
    next update is scheduled. *)
Definition updated (s : Store) (c : list string) (b : BaseState) (d : DerivedState) (x : option T) : Store :=
  mkStore (logging s) (hasOnLoaded s) (_loaded s) (Some b) (Some d) x
    (Some (nextTimer s)) (_listeners s) (nextWrapper s)
    ((match _updateTimeoutId s with Some id => pending s ∖ {[ id ]} | None => pending s end)
       ∪ {[ nextTimer s ]})
    (S (nextTimer s)) c (onLoadedCalls s) (calls s).

Lemma bind_ok {A B} (m : M A) (k : A -> M B) s s' a :
  m s = (s', Ok a) -> (m ≫= k) s = k a s'.
Proof. intros H. unfold mbind, M_bind. by rewrite H. Qed.

Lemma update_run addrs upd xu (s : Store) b d nd x' :
  _baseState s = Some b -> _derivedState s = Some d ->
  _derive addrs (baseAfter b upd) = Ok nd -> extraAfter (_extraState s) xu = Ok x' ->
  exists c, let s1 := updated s c (baseAfter b upd) (reducedDerived d nd) x' in
    update addrs upd xu s =
    notify (mkParams (stateOf s1) (stateOf s) (diff (stateOf s1) (stateOf s))) s1.
Proof.
  intros Hb Hd Hderive Hextra.
  assert (exists c, (match upd with
      | Some u => base ← _reduce b u; LiquityStore.set (setBase base) ;; mret base
      | None => mret b end : M BaseState) s =
    (match upd with Some u => setConsole c (setBase (reduced b u) s) | None => s end,
     Ok (baseAfter b upd))) as [c1 H1].
  { destruct upd as [u|]; [|by exists []]. destruct (reduce_computes b u s) as [c Hc].
    exists c. unfold mbind, M_bind. by rewrite Hc. }
  set (s1 := match upd with Some u => _ | None => s end) in H1.
  destruct (reduceDerived_computes d nd s1) as [c2 H2].
  exists c2. unfold _update, orAssert, lift, LiquityStore.get.
  rewrite (bind_ok _ _ s s s) by done.
  rewrite (bind_ok _ _ s s b) by (by rewrite Hb).
  rewrite (bind_ok _ _ s s d) by (by rewrite Hd).
  rewrite (bind_ok _ _ s _ _ H1). rewrite (bind_ok _ _ s1 s1 nd) by (by rewrite Hderive).
  rewrite (bind_ok _ _ _ _ _ H2).
  set (s2 := setDerived (reducedDerived d nd) (setConsole c2 s1)).
  rewrite (bind_ok _ _ _ s2 tt) by done.
  rewrite (bind_ok _ _ s2 (setExtra x' s2) tt).
  - unfold _scheduleUpdate, s2, s1; destruct upd, s as [??????[]]; simpl in *; by simplify_eq.
  - assert (_extraState s2 = _extraState s) as Hs by (by destruct upd).
    destruct xu as [u|]; simpl in Hextra.
    + unfold mbind, M_bind, mret, M_ret. rewrite Hs. destruct (_extraState s) as [t|]; [|done].
      destruct (_reduceExtra t u); simpl in *; by simplify_eq.
    + simplify_eq. rewrite <- Hs. by destruct s2.
Qed.

Lemma diff_lookup a b k v :
  diff a b !! k = Some v <->
  a !! k = Some v /\ forall w, b !! k = Some w -> strictEquals sameExtra v w = false.
Proof.
  unfold difference. rewrite map_lookup_filter_Some. unfold unchangedIn; cbn [fst snd].
  destruct (b !! k); naive_solver.
Qed.

Lemma strictEquals_refl (v : Value X) :
  (forall x, v <> VExtra x) -> strictEquals sameExtra v v = true.
Proof.
  destruct v; intros H; simpl; try apply Pos.eqb_refl; [apply Z.eqb_refl | by destruct b |].
  by destruct (H x).
Qed.

Lemma own_not_extra b d k v x : toMap (ownEntries b d) !! k = Some v -> v <> VExtra (X := X) x.
Proof.
  intros Hv%elem_of_list_to_map_2. apply list_elem_of_omap in Hv as ([k' o] & Hin & Ho).
  assert (Forall (fun e => e.2 <> Some (VExtra (X := X) x)) (ownEntries b d)) as Hall.
  { unfold ownEntries, derivedEntries, baseEntries, entriesF. cbn [app].
    repeat first [apply Forall_cons_2; [done|] | apply Forall_nil_2]. }
  rewrite Forall_forall in Hall. specialize (Hall _ Hin). cbn in Hall, Ho.
  destruct o; [|done]. intros ->. cbn in Ho. by simplify_eq.
Qed.

(** Among merged entries, strict inequality is inequality of contents. *)
Lemma merged_change (old next new : option (Value X)) v :
  merged old next new -> new = Some v -> strictEquals sameExtra v v = true ->
  (forall o w, old = Some o -> next = Some w ->
     strictEquals sameExtra w o = true -> content o = content w) ->
  (forall o, old = Some o -> strictEquals sameExtra v o = false) <->
  content <$> old <> Some (content v).
Proof.
  intros Hm -> Hv Hheap. destruct old as [o|]; [|naive_solver]. simpl. split.
  - intros H [= Heq]. specialize (H o eq_refl). destruct next as [n|]; simpl in Hm.
    + destruct Hm as [[_ [= ->]]|[Hne [= ->]]]; [congruence | done].
    + injection Hm as ->. congruence.
  - intros Hne o' [= <-]. destruct next as [n|]; simpl in Hm; [|by injection Hm as ->].
    destruct Hm as [[_ [= ->]]|[Hne' [= ->]]]; [done|].
    destruct (strictEquals sameExtra n o) eqn:Hs; [|done].
    by destruct Hne'; apply Hheap.
Qed.

(** C2. An update of a loaded store whose derivation succeeds leads to the state where every
    property of the base and derived states is the old object unless the update (or the
    derivation) offers one of a different content, schedules the next update, and notifies the
    listeners with the old state, the new state and, as [stateChange], exactly the properties
    whose content changed. *)
Theorem update_reports_changes addrs upd xu (s : Store) b d nd x' :
  extraKeysDisjoint ->
  _baseState s = Some b -> _derivedState s = Some d ->
  _derive addrs (baseAfter b upd) = Ok nd -> extraAfter (_extraState s) xu = Ok x' ->
  (forall k v w, stateOf s !! k = Some v -> toMap (offered b upd nd) !! k = Some w ->
     strictEquals sameExtra w v = true -> content v = content w) ->
  exists s1 params, update addrs upd xu s = notify params s1 /\
    oldState params = stateOf s /\ newState params = stateOf s1 /\
    _listeners s1 = _listeners s /\ nextTimer s ∈ pending s1 /\
    forall k, k ∈ ownKeys ->
      merged (stateOf s !! k) (toMap (offered b upd nd) !! k) (stateOf s1 !! k) /\
      forall v, stateChange params !! k = Some v <->
        stateOf s1 !! k = Some v /\ content <$> stateOf s !! k <> Some (content v).
Proof.
  intros Hx Hb Hd Hderive Hextra Hheap.
  destruct (update_run addrs upd xu s b d nd x') as [c Hrun]; [done..|]. cbv zeta in Hrun.
  set (s1 := updated _ _ _ _ _) in Hrun. exists s1. eexists; split; [exact Hrun|].
  do 3 (split; [done|]). split; [set_solver|]. intros k Hk. cbn [stateChange].
  assert (stateOf s !! k = toMap (ownEntries b d) !! k) as Hold by (by apply state_own).
  assert (stateOf s1 !! k = toMap (ownEntries (baseAfter b upd) (reducedDerived d nd)) !! k)
    as Hnew by (by apply state_own).
  pose proof (mergesTo_lookup _ _ _ k (own_merges b d upd nd)) as Hm.
  rewrite ownEntries_keys in Hm. specialize (Hm ownKeys_nodup). rewrite <- Hold, <- Hnew in Hm.
  split; [done|]. intros v. rewrite diff_lookup. specialize (Hheap k).
  rewrite Hnew in Hm |- *. clear Hnew Hold.
  split; intros [Hv Hchange]; (split; [done|]).
  all: assert (strictEquals sameExtra v v = true) as Hrefl
    by (apply strictEquals_refl; intros x; by eapply own_not_extra).
  all: by apply (merged_change _ _ _ v Hm Hv Hrefl Hheap).
Qed.

(** An update during which the derivation throws is not atomic: the base state is
    already replaced, while the derived state, the extra state, the scheduled update and the
    listeners are as before, and nobody is notified. *)
Theorem update_derivation_failure addrs upd xu (s : Store) b d e :
  _baseState s = Some b -> _derivedState s = Some d ->
  _derive addrs (baseAfter b upd) = Err e ->
  exists s', update addrs upd xu s = (s', Err e) /\
    _baseState s' = Some (baseAfter b upd) /\ _derivedState s' = Some d /\
    _extraState s' = _extraState s /\ pending s' = pending s /\
    _updateTimeoutId s' = _updateTimeoutId s /\ _listeners s' = _listeners s /\
    calls s' = calls s.
Proof.
  intros Hb Hd Hderive. unfold _update, orAssert, lift, LiquityStore.get.
  rewrite (bind_ok _ _ s s s) by done.
  rewrite (bind_ok _ _ s s b) by (by rewrite Hb).
  rewrite (bind_ok _ _ s s d) by (by rewrite Hd).
  unfold mbind, M_bind. destruct upd as [u|]; simpl in *.
  - destruct (reduce_computes b u s) as [c ->]. simpl. rewrite Hderive. by eexists.
  - rewrite Hderive. by exists s.
Qed.

(** ** Notification *)

Definition subscribed (u : nat) (s : Store) : Prop := u ∈ (_listeners s).*1.

Lemma perform_spec r (s : Store) :
  exists s', perform r s = (s', Ok tt) /\ calls s' = calls s /\ (nextWrapper s <= nextWrapper s')%nat /\
    forall u, (u < nextWrapper s)%nat -> subscribed u s' <-> subscribed u s /\ RUnsubscribe u <> r.
Proof.
  unfold subscribed. destruct r as [l|w]; eexists; (split; [done|]); cbn; (split; [done|]).
  - split; [lia|]. intros u Hu. rewrite fmap_app, elem_of_app. cbn.
    rewrite elem_of_cons, elem_of_nil. split; [|naive_solver].
    intros [?|[->|[]]]; [naive_solver | lia].
  - split; [lia|]. intros u _. rewrite !list_elem_of_fmap. split.
    + intros (e & -> & [Hne Hin]%list_elem_of_filter). split; [by exists e | naive_solver].
    + intros [(e & -> & Hin) Hne]. exists e. split; [done|]. apply list_elem_of_filter.
      split; [congruence | done].
Qed.

Lemma performAll_spec rs (s : Store) :
  exists s', performAll rs s = (s', Ok tt) /\ calls s' = calls s /\ (nextWrapper s <= nextWrapper s')%nat /\
    forall u, (u < nextWrapper s)%nat -> subscribed u s' <-> subscribed u s /\ RUnsubscribe u ∉ rs.
Proof.
  revert s. induction rs as [|r rs IH]; intros s; simpl.
  { exists s. split_and!; [done | done | lia |]. intros. rewrite elem_of_nil. naive_solver. }
  destruct (perform_spec r s) as (s1 & H1 & Hc1 & Hn1 & Hs1).
  destruct (IH s1) as (s2 & H2 & Hc2 & Hn2 & Hs2).
  exists s2. rewrite (bind_ok _ _ _ _ _ H1). split_and!; [done | congruence | lia |].
  intros u Hu. rewrite Hs2, Hs1, elem_of_cons by lia. naive_solver.
Qed.

Lemma existsb_subscribed u (s : Store) :
  existsb (fun e => Nat.eqb e.1 u) (_listeners s) = true <-> subscribed u s.
Proof.
  unfold subscribed. rewrite existsb_exists, list_elem_of_fmap. setoid_rewrite Nat.eqb_eq.
  setoid_rewrite list_elem_of_In. naive_solver.
Qed.

(** The reactions of a listener to a notification. *)
Definition reactions (params : ListenerParams X) (l : L) : list (Reaction L) := (react l params).1.

(** What it throws, if anything. *)
Definition thrown (params : ListenerParams X) (l : L) : option error := (react l params).2.

(** A listener called before unsubscribed this one, or threw. *)
Definition stoppedBefore params (trace : list nat) (pre : list (nat * L)) (u : nat) : Prop :=
  exists e, e ∈ pre /\ e.1 ∈ trace /\ (RUnsubscribe u ∈ reactions params e.2 \/ thrown params e.2 <> None).

(** How a notification ends: with the exception of the listener that was called last. *)
Definition endsWith params (copy : list (nat * L)) (trace : list nat) (r : result unit) : Prop :=
  match r with
  | Ok _ => forall e, e ∈ copy -> e.1 ∈ trace -> thrown params e.2 = None
  | Err error => exists u l, (u, l) ∈ copy /\ last trace = Some u /\ thrown params l = Some error
  end.

Lemma endsWith_cons params e copy trace r :
  endsWith params copy trace r -> e.1 ∉ copy.*1 -> thrown params e.2 = None ->
  endsWith params (e :: copy) (e.1 :: trace) r.
Proof.
  intros Hr He Ht. destruct r as [?|error]; cbn in *.
  - intros e' [->|Hin]%elem_of_cons Htr; [done|]. apply elem_of_cons in Htr as [Heq|Htr]; [|by apply Hr].
    destruct He. rewrite <- Heq. by apply list_elem_of_fmap_2.
  - destruct Hr as (u & l & Hin & Hlast & Hl). exists u, l. split; [by right|]. split; [|done].
    rewrite last_cons. by rewrite Hlast.
Qed.

Lemma endsWith_skip params e copy trace r :
  endsWith params copy trace r -> e.1 ∉ trace -> endsWith params (e :: copy) trace r.
Proof.
  intros Hr He. destruct r as [?|error]; cbn in *.
  - intros e' [->|Hin]%elem_of_cons Htr; [done | by apply Hr].
  - destruct Hr as (u & l & Hin & H). exists u, l. split; [by right | done].
Qed.

(** A listener that is called acts on the store and may throw. *)
Lemma callListener_spec params u l (s : Store) :
  exists s', callListener react (u, l) params s =
      (s', match thrown params l with Some e => Err e | None => Ok tt end) /\
    calls s' = (calls s ++ [u])%list /\ (nextWrapper s <= nextWrapper s')%nat /\
    forall u', (u' < nextWrapper s)%nat ->
      subscribed u' s' <-> subscribed u' s /\ RUnsubscribe u' ∉ reactions params l.
Proof.
  destruct (performAll_spec (reactions params l) (called u s)) as (s1 & H1 & Hc1 & Hn1 & Hs1).
  exists s1. split_and!; [|done|done|done]. unfold callListener, reactions, thrown in *. cbn [fst snd].
  destruct (react l params) as [rs exc]; cbn [fst snd] in *.
  rewrite (bind_ok _ _ s (called u s) tt) by done. rewrite (bind_ok _ _ _ _ _ H1). by destruct exc.
Qed.

(** A listener in front of the others: it comes first, and stops those it unsubscribes. *)
Lemma called_first params u l copy trace (s s1 : Store) :
  u ∉ copy.*1 -> Forall (fun u => (u < nextWrapper s)%nat) (copy.*1) -> thrown params l = None ->
  (forall u', (u' < nextWrapper s)%nat ->
     subscribed u' s1 <-> subscribed u' s /\ RUnsubscribe u' ∉ reactions params l) ->
  (forall pre u' l' post, copy = (pre ++ (u', l') :: post)%list ->
     u' ∈ trace <-> subscribed u' s1 /\ ~ stoppedBefore params trace pre u') ->
  forall e pre u' l' post, copy = (pre ++ (u', l') :: post)%list -> e = (u, l) ->
  u' ∈ u :: trace <-> subscribed u' s /\ ~ stoppedBefore params (u :: trace) (e :: pre) u'.
Proof.
  intros Hu Hlt Ht Hs1 Hspec e pre u' l' post Heq ->.
  assert (u' ∈ copy.*1) as Hin by (rewrite Heq, fmap_app, elem_of_app; right; by left).
  assert (u' <> u) as Hne by congruence.
  rewrite elem_of_cons, (Hspec pre u' l' post) by done.
  rewrite Hs1 by (rewrite Forall_forall in Hlt; auto).
  unfold stoppedBefore. setoid_rewrite elem_of_cons. split.
  - intros [->|[[Hsu Hr] Hn]]; [done|]. split; [done|].
    intros (e & [->|He] & Htr & Hre); [naive_solver|].
    destruct Htr as [Heu|Htr]; [|apply Hn; by exists e].
    apply Hu. rewrite <- Heu, Heq, fmap_app, elem_of_app. left. by apply list_elem_of_fmap_2.
  - intros [Hsu Hn]. right. split; [split; [done|]|].
    + intros Hr. apply Hn. exists (u, l). split_and!; [by left | by left | by left].
    + intros (e & He & Htr & Hre). apply Hn. exists e. split_and!; [by right | by right | done].
Qed.

Lemma notifyEach_spec params copy (s : Store) :
  NoDup (copy.*1) -> Forall (fun u => (u < nextWrapper s)%nat) (copy.*1) ->
  exists s' trace r, notifyEach react copy params s = (s', r) /\ calls s' = (calls s ++ trace)%list /\
    sublist trace (copy.*1) /\ endsWith params copy trace r /\
    forall pre u l post, copy = (pre ++ (u, l) :: post)%list ->
      u ∈ trace <-> subscribed u s /\ ~ stoppedBefore params trace pre u.
Proof.
  revert s. induction copy as [|[u l] copy IH]; intros s Hnd Hlt.
  { exists s, [], (Ok tt). rewrite app_nil_r. split_and!; [done | done | constructor | |].
    - intros e He. by apply elem_of_nil in He.
    - intros pre ???. by destruct pre. }
  cbn [fmap list_fmap fst] in Hnd, Hlt. apply NoDup_cons in Hnd as [Hu Hnd].
  apply Forall_cons in Hlt as [Hul Hlt]. cbn [notifyEach].
  rewrite (bind_ok LiquityStore.get _ s s s) by done. cbn [fst].
  assert (forall trace, u ∈ u :: trace <-> True /\ ~ stoppedBefore params (u :: trace) [] u) as Hfirst.
  { intros trace. split; [|by left]. intros _. split; [done|]. intros (e & He & _). by apply elem_of_nil in He. }
  destruct (existsb _ _) eqn:Hsub.
  - apply existsb_subscribed in Hsub.
    destruct (callListener_spec params u l s) as (s1 & H1 & Hc1 & Hn1 & Hs1).
    destruct (thrown params l) as [error|] eqn:Hthrown.
    + exists s1, [u], (Err error). split_and!.
      * unfold mbind, M_bind. by rewrite H1.
      * done.
      * apply sublist_skip, sublist_nil_l.
      * exists u, l. split_and!; [by left | done | done].
      * intros pre u' l' post Heq. destruct pre as [|e pre]; simplify_eq/=; [by rewrite Hfirst; naive_solver|].
        rewrite list_elem_of_singleton. split.
        -- intros ->. destruct Hu. rewrite fmap_app, elem_of_app. right. by left.
        -- intros [_ Hn]. destruct Hn. exists (u, l). split_and!; [by left | by left | right; cbn; by rewrite Hthrown].
    + destruct (IH s1) as (s2 & trace & r & H2 & Hc2 & Hsl & He & Hspec);
        [done | eapply Forall_impl; [exact Hlt | cbn in *; lia] |].
      exists s2, (u :: trace), r. split_and!.
      * by rewrite (bind_ok _ _ s s1 tt).
      * rewrite Hc2, Hc1. by rewrite <- app_assoc.
      * by constructor.
      * by apply (endsWith_cons params (u, l)).
      * intros pre u' l' post Heq. destruct pre as [|e pre]; simplify_eq/=; [by rewrite Hfirst; naive_solver|].
        by eapply called_first.
  - assert (~ subscribed u s) as Hns.
    { intros H%existsb_subscribed. congruence. }
    destruct (IH s) as (s2 & trace & r & H2 & Hc2 & Hsl & He & Hspec); [done..|].
    assert (u ∉ trace) as Hut by (intros Hin; destruct Hu; by eapply elem_of_sublist).
    exists s2, trace, r. split_and!.
    + by rewrite (bind_ok _ _ s s tt).
    + done.
    + by constructor.
    + by apply (endsWith_skip params (u, l)).
    + intros pre u' l' post Heq. destruct pre as [|e pre]; simplify_eq/=; [naive_solver|].
      rewrite (Hspec pre u' l' post) by done. unfold stoppedBefore.
      setoid_rewrite elem_of_cons. split; [|naive_solver].
      intros [? Hn]. split; [done|]. intros (e & [->|Hin] & Htr & Hre); naive_solver.
Qed.

(** C28. A notification calls listeners that were subscribed when it began, in the order of
    their subscription and at most once each, and it calls one exactly when no listener
    called before it has unsubscribed it or thrown; in particular a listener subscribed by a
    callback is not called.  It throws what a listener throws, and that listener is the last to
    be called: those after it are not notified.  (In every reachable store the identities of the
    listeners are distinct and below the next one.) *)
Theorem notify_calls params (s : Store) :
  NoDup ((_listeners s).*1) -> Forall (fun u => (u < nextWrapper s)%nat) ((_listeners s).*1) ->
  exists s' trace r, notify params s = (s', r) /\ calls s' = (calls s ++ trace)%list /\
    sublist trace ((_listeners s).*1) /\ endsWith params (_listeners s) trace r /\
    forall pre u l post, _listeners s = (pre ++ (u, l) :: post)%list ->
      u ∈ trace <-> ~ stoppedBefore params trace pre u.
Proof.
  intros Hnd Hlt.
  destruct (notifyEach_spec params (_listeners s) s Hnd Hlt) as (s' & trace & r & H & Hc & Hsl & He & Hspec).
  exists s', trace, r. split_and!; [done..|]. intros pre u l post Heq.
  rewrite (Hspec pre u l post Heq). split; [naive_solver|]. intros ?. split; [|done].
  unfold subscribed. rewrite Heq, fmap_app, elem_of_app. right. by left.
Qed.

(** ** Events and invariants *)

(** The events in the life of a store: the subclass loads or updates it, a pending timer
    fires, a client subscribes or unsubscribes, and the monitoring is stopped. *)
Inductive step : Store -> Store -> Prop :=
| step_load addrs b x s : step s (_load addrs b x s).1
| step_update addrs upd xu s : step s (update addrs upd xu s).1
| step_timer id addrs s : id ∈ pending s ->
    step s (onTimer toLocaleString _reduceExtra extraEntries sameExtra react addrs
              (setTimers (_updateTimeoutId s) (pending s ∖ {[ id ]}) (nextTimer s) s)).1
| step_subscribe l s : step s (subscribe l s).1
| step_unsubscribe u s : step s (unsubscribe u s).1
| step_stop s : step s (stop s).1.

(** A store as constructed. *)
Definition initial (s : Store) : Prop :=
  _loaded s = false /\ _baseState s = None /\ _derivedState s = None /\
  _updateTimeoutId s = None /\ pending s = ∅ /\ _listeners s = [].

Definition hasStates (s : Store) : Prop := is_Some (_baseState s) /\ is_Some (_derivedState s).

Record invariant (s : Store) : Prop := {
  inv_timer : forall id, id ∈ pending s -> _updateTimeoutId s = Some id;
  inv_fresh : forall id, id ∈ pending s -> (id < nextTimer s)%nat;
  inv_pending : pending s <> ∅ -> hasStates s;
  inv_loaded : _loaded s = true -> hasStates s;
  inv_nodup : NoDup ((_listeners s).*1);
  inv_wrappers : Forall (fun u => (u < nextWrapper s)%nat) ((_listeners s).*1)
}.

Definition keeps {A} (P : Store -> Prop) (m : M A) : Prop := forall s, P s -> P (m s).1.

Lemma keeps_bind {A B} P (m : M A) (k : A -> M B) :
  keeps P m -> (forall a, keeps P (k a)) -> keeps P (m ≫= k).
Proof.
  intros Hm Hk s HP. specialize (Hm s HP). unfold mbind, M_bind.
  destruct (m s) as [s' [a|e]]; [by apply Hk | done].
Qed.

Lemma keeps_ret {A} P (a : A) : keeps P (mret a : M A).
Proof. by intros s. Qed.

Lemma keeps_lift {A} P (r : result A) : keeps P (lift r : M A).
Proof. by intros s. Qed.

Lemma keeps_get P : keeps P LiquityStore.get.
Proof. by intros s. Qed.

Lemma keeps_set P f : (forall s, P s -> P (f s)) -> keeps P (LiquityStore.set f).
Proof. intros H s. apply H. Qed.

Lemma keeps_computes {A} P (m : M A) a :
  computes m a -> (forall s c, P s -> P (setConsole c s)) -> keeps P m.
Proof. intros Hm HP s. destruct (Hm s) as [c ->]. apply HP. Qed.

(** The invariant together with the presence of both states. *)
Definition live (s : Store) : Prop := invariant s /\ hasStates s.

Lemma live_setConsole (s : Store) c : live s -> live (setConsole c s).
Proof. intros [[] ?]. split; [by constructor | done]. Qed.

Lemma live_setBase b (s : Store) : live s -> live (setBase b s).
Proof. intros [[] [??]]. split; [constructor; try done; split; eauto | split; eauto]. Qed.

Lemma live_setDerived d (s : Store) : live s -> live (setDerived d s).
Proof. intros [[] [??]]. split; [constructor; try done; split; eauto | split; eauto]. Qed.

Lemma live_setExtra x (s : Store) : live s -> live (setExtra x s).
Proof. intros [[] ?]. split; [by constructor | done]. Qed.

Lemma live_called u (s : Store) : live s -> live (called u s).
Proof. intros [[] ?]. split; [by constructor | done]. Qed.

Lemma invariant_cancel (s : Store) : invariant s ->
  invariant (_cancelUpdateIfScheduled s).1 /\ pending (_cancelUpdateIfScheduled s).1 = ∅ /\
  (hasStates s -> hasStates (_cancelUpdateIfScheduled s).1).
Proof.
  intros []. unfold _cancelUpdateIfScheduled, LiquityStore.set; cbn [fst].
  destruct (_updateTimeoutId s) as [id|] eqn:Hid.
  - assert (pending s ∖ {[ id ]} = ∅) as He.
    { apply elem_of_equiv_empty_L. intros x [Hx Hne]%elem_of_difference.
      apply Hne, elem_of_singleton. specialize (inv_timer0 x Hx). congruence. }
    split; [|split; done]. constructor; cbn; rewrite ?He; try done.
  - assert (pending s = ∅) as He.
    { apply elem_of_equiv_empty_L. intros x Hx. specialize (inv_timer0 x Hx). congruence. }
    split; [|done]. constructor; try done. by rewrite Hid.
Qed.

Lemma live_schedule : keeps live (_scheduleUpdate : M unit).
Proof.
  intros s [Hinv Hst]. unfold _scheduleUpdate.
  destruct (invariant_cancel s Hinv) as (Hinv' & He & Hst').
  specialize (Hst' Hst). rewrite (bind_ok _ _ s (_cancelUpdateIfScheduled s).1 tt) by done.
  generalize dependent (_cancelUpdateIfScheduled s).1. clear. intros s [] He Hst.
  unfold LiquityStore.set; cbn [fst]. rewrite He. split; [|done].
  constructor; cbn; try done; set_solver by lia.
Qed.

Lemma invariant_setListeners l n (s : Store) :
  NoDup (l.*1) -> Forall (fun u => (u < n)%nat) (l.*1) -> invariant s -> invariant (setListeners l n s).
Proof. intros ?? []. by constructor. Qed.

Lemma invariant_subscribe l (s : Store) : invariant s -> invariant (subscribe l s).1.
Proof.
  intros Hinv. destruct (Hinv). unfold subscribe; cbn [fst].
  apply invariant_setListeners; [..|done]; rewrite fmap_app; cbn.
  - apply NoDup_app. split_and!; [done | | apply NoDup_singleton].
    intros u Hu. rewrite elem_of_cons, elem_of_nil. intros [->|[]].
    rewrite Forall_forall in inv_wrappers0. specialize (inv_wrappers0 _ Hu). lia.
  - apply Forall_app. split; [|constructor; [lia | constructor]].
    eapply Forall_impl; [exact inv_wrappers0 | cbn; lia].
Qed.

Lemma invariant_unsubscribe u (s : Store) : invariant s -> invariant (unsubscribe u s).1.
Proof.
  intros Hinv. destruct (Hinv). unfold unsubscribe, LiquityStore.set; cbn [fst].
  assert (sublist (filter (fun e => e.1 <> u) (_listeners s)).*1 (_listeners s).*1) as Hsub
    by (apply fmap_sublist, sublist_filter).
  apply invariant_setListeners; [by eapply sublist_NoDup | | done].
  rewrite Forall_forall in *. intros x Hx. apply inv_wrappers0. by eapply elem_of_sublist.
Qed.

Lemma live_perform r : keeps live (perform r : M unit).
Proof.
  intros s [Hinv Hst]. destruct r as [l|u]; simpl.
  - split; [by apply invariant_subscribe | done].
  - split; [by apply invariant_unsubscribe | done].
Qed.

(** What the reactions of the listeners keep, a notification keeps. *)
Lemma keeps_notify P params :
  (forall r, keeps P (perform r : M unit)) -> (forall u s, P s -> P (called u s)) ->
  keeps P (notify params).
Proof.
  intros Hperform Hcalled. apply keeps_bind; [apply keeps_get|]. intros s0.
  generalize (_listeners s0). intros copy.
  induction copy as [|[u l] copy IH]; [apply keeps_ret|]. simpl.
  apply keeps_bind; [apply keeps_get|]. intros s1. apply keeps_bind; [|done].
  destruct (existsb _ _); [|apply keeps_ret]. unfold callListener. cbn [fst snd].
  destruct (react l params) as [rs exc].
  apply keeps_bind; [apply keeps_set, Hcalled|]. intros _. apply keeps_bind.
  - induction rs as [|r rs IHrs]; [apply keeps_ret|].
    apply keeps_bind; [apply Hperform | done].
  - intros _. destruct exc; [apply keeps_lift | apply keeps_ret].
Qed.

Lemma live_notify params : keeps live (notify params).
Proof. apply keeps_notify; [apply live_perform | intros u s; apply live_called]. Qed.

(** From a store that has its states an update keeps them; without them it stops at once. *)
Lemma update_invariant addrs upd xu (s : Store) :
  invariant s -> invariant (update addrs upd xu s).1 /\ (hasStates s -> hasStates (update addrs upd xu s).1).
Proof.
  intros Hinv. cut (hasStates s -> live (update addrs upd xu s).1).
  { intros Hlive. split; [|intros H; apply (Hlive H)].
    destruct (_baseState s) as [b|] eqn:Hb; [destruct (_derivedState s) as [d|] eqn:Hd|].
    - apply Hlive. split; by rewrite ?Hb, ?Hd.
    - unfold _update, LiquityStore.get, orAssert, lift, mbind, M_bind. by rewrite Hb, Hd.
    - unfold _update, LiquityStore.get, orAssert, lift, mbind, M_bind. by rewrite Hb. }
  intros Hst. assert (live s) as Hs by done. revert Hs. generalize s. clear - BNL. fold (keeps live (update addrs upd xu)).
  unfold _update. repeat (apply keeps_bind; [first [apply keeps_get | apply keeps_lift] | intros ?]).
  apply keeps_bind.
  { destruct upd; [|apply keeps_ret]. apply keeps_bind.
    - eapply keeps_computes; [apply reduce_computes | intros; by apply live_setConsole].
    - intros b1. apply keeps_bind; [apply keeps_set, live_setBase | intros; apply keeps_ret]. }
  intros b1. apply keeps_bind; [apply keeps_lift | intros nd]. apply keeps_bind.
  { eapply keeps_computes; [apply reduceDerived_computes | intros; by apply live_setConsole]. }
  intros d1. apply keeps_bind; [apply keeps_set, live_setDerived | intros _].
  apply keeps_bind.
  { destruct xu; [|apply keeps_ret].
    repeat (apply keeps_bind; [first [apply keeps_get | apply keeps_lift] | intros ?]).
    apply keeps_set, live_setExtra. }
  intros _. apply keeps_bind; [apply live_schedule | intros _].
  apply keeps_bind; [apply keeps_get | intros ?]. apply live_notify.
Qed.

Lemma load_invariant addrs b x (s : Store) : invariant s -> invariant (_load addrs b x s).1.
Proof.
  intros Hinv. unfold _load. rewrite (bind_ok _ _ s s s) by done.
  destruct (_loaded s) eqn:Hl.
  { unfold LiquityStore.assert, lift, mbind, M_bind. done. }
  rewrite (bind_ok _ _ s s tt) by done.
  rewrite (bind_ok _ _ s (setBase b s) tt) by done.
  assert (invariant (setBase b s)) as Hb.
  { destruct Hinv. constructor; cbn; try done; [|congruence].
    intros [? ?]%inv_pending0. split; eauto. }
  unfold lift. destruct (_derive addrs b) as [d|e]; [|done].
  rewrite (bind_ok _ _ _ (setBase b s) d) by done.
  rewrite (bind_ok _ _ _ (setDerived d (setBase b s)) tt) by done.
  rewrite (bind_ok _ _ _ (setExtra x (setDerived d (setBase b s))) tt) by done.
  rewrite (bind_ok _ _ _ (setLoaded (setExtra x (setDerived d (setBase b s)))) tt) by done.
  set (s1 := setLoaded _). assert (live s1) as Hs1.
  { destruct Hb. split; [constructor; try done | ]; try (intros _); split; cbn; eauto. }
  assert (keeps live (_scheduleUpdate ;; LiquityStore.set (fun s : Store => if hasOnLoaded s then callOnLoaded s else s))) as Hk.
  { apply keeps_bind; [apply live_schedule | intros _]. apply keeps_set. intros s2 [[] ?].
    destruct (hasOnLoaded s2); (split; [by constructor | done]). }
  by apply Hk.
Qed.

Lemma step_invariant (s s' : Store) : invariant s -> step s s' -> invariant s'.
Proof.
  intros Hinv Hstep. destruct Hstep.
  - by apply load_invariant.
  - by apply update_invariant.
  - unfold onTimer. set (s1 := setTimers _ _ _ s).
    rewrite (bind_ok _ _ s1 (setTimers None (pending s1) (nextTimer s1) s1) tt) by done.
    apply update_invariant. destruct Hinv.
    assert (pending s ∖ {[ id ]} = ∅) as He.
    { apply elem_of_equiv_empty_L. intros y [Hy Hne]%elem_of_difference.
      apply Hne, elem_of_singleton. apply inv_timer0 in H, Hy. congruence. }
    constructor; cbn; rewrite ?He; done.
  - by apply invariant_subscribe.
  - by apply invariant_unsubscribe.
  - by apply invariant_cancel.
Qed.

Lemma reachable_invariant (s0 s : Store) : initial s0 -> rtc step s0 s -> invariant s.
Proof.
  intros (Hl & Hb & Hd & Hid & Hp & Hls) Hrtc.
  assert (invariant s0) as H0.
  { constructor; rewrite ?Hp, ?Hls;
      [set_solver | set_solver | done | congruence | constructor | constructor]. }
  clear - H0 Hrtc BNL. induction Hrtc; [done|]. eauto using step_invariant.
Qed.

(** C8. Whatever the sequence of loads, updates, timer events, subscriptions and stops, at
    most one update is scheduled, and it is the one whose timer the store remembers; when it
    fires the states it needs are there; the identities of the listeners are distinct; and
    stopping leaves no update scheduled. *)
Theorem timer_discipline (s0 s : Store) :
  initial s0 -> rtc step s0 s ->
  (forall id, id ∈ pending s -> _updateTimeoutId s = Some id /\ hasStates s) /\
  (_loaded s = true -> hasStates s) /\
  NoDup ((_listeners s).*1) /\ Forall (fun u => (u < nextWrapper s)%nat) ((_listeners s).*1) /\
  pending (stop s).1 = ∅.
Proof.
  intros H0 Hrtc. pose proof (reachable_invariant s0 s H0 Hrtc) as Hinv. destruct (Hinv).
  split_and!; try done; [|by apply invariant_cancel].
  intros id Hid. split; [by apply inv_timer0|]. apply inv_pending0. set_solver.
Qed.

(** A second load is refused, and changes nothing. *)
Lemma load_twice addrs b x (s : Store) :
  _loaded s = true -> _load addrs b x s = (s, Err AssertionError).
Proof.
  intros Hl. unfold _load. rewrite (bind_ok _ _ s s s) by done.
  unfold LiquityStore.assert, lift, mbind, M_bind. by rewrite Hl.
Qed.
End store.

(** ** Instances *)

(** A store of a subclass that adds nothing, with one Trove and one subscriber. *)
Section sample.

Definition at_ {A} (n : positive) (a : A) : Ref A := mkRef n a.

Definition sampleUserTrove : TroveWithPendingRedistribution :=
  mkPending (mkUserTrove (mkTrove (dec 2000000000000000000) (dec 200000000000000000000)) "0x1" open)
    Decimal.ONE _emptyTrove.

Definition sampleBase : BaseState :=
  let zero n := at_ n Decimal.ZERO in
  let total := mkTrove (dec 2000000000000000000) (dec 200000000000000000000) in
  mkBase (F := fun A => A) (at_ 1 Unregistered) (at_ 2 Unregistered) 1 (zero 3%positive) (zero 4%positive)
    (zero 5%positive) (zero 6%positive) (zero 7%positive) (zero 8%positive) (zero 9%positive)
    (zero 10%positive) (zero 11%positive) (zero 12%positive) (at_ 13 (dec 200000000000000000000))
    (zero 14%positive) (at_ 15 total) (at_ 16 _emptyTrove) (at_ 17 sampleUserTrove)
    (at_ 18 (mkDeposit Decimal.ZERO Decimal.ZERO Decimal.ZERO Decimal.ZERO "0x0")) (zero 19%positive)
    (at_ 20 (mkFees Decimal.ZERO Decimal.HALF Decimal.ONE 0 0 false))
    (at_ 21 (mkStake Decimal.ZERO Decimal.ZERO Decimal.ZERO)) (zero 22%positive)
    (at_ 23 sampleUserTrove).

(** An update of the price alone. *)
Definition samplePrice (p : Decimal) : BaseUpdate :=
  mkBase (F := option) None None None None None None None None None None None None None
    (Some (at_ 40 p)) None None None None None None None None None None.

Definition sampleDate (d : Date) : string := "".
Definition sampleReact (l : unit) (p : ListenerParams unit) : list (Reaction unit) * option error := ([], None).
Definition noExtra (t : unit) : list (string * option (Value unit)) := [].
Definition sameUnit (x y : unit) : bool := true.
Definition keepExtra (t : unit) (u : unit) : result unit := Ok t.

Definition newStore : Store unit unit :=
  mkStore false false false None None None None [] 0 ∅ 0 [] 0 [].

Definition loadedStore : Store unit unit :=
  (_load (mkAddrs 30 31 32 33) sampleBase None (subscribe tt newStore).1).1.

(** The listener [true] throws. *)
Definition throwingReact (l : bool) (p : ListenerParams unit) : list (Reaction bool) * option error :=
  ([], if l then Some (JsError "boom") else None).

Definition threeListeners : Store unit bool :=
  mkStore false false false None None None None [(0%nat, false); (1%nat, true); (2%nat, false)] 3 ∅ 0 [] 0 [].

Lemma notify_calls_witness :
  exists s', _notify throwingReact (mkParams ∅ ∅ ∅) threeListeners = (s', Err (JsError "boom")) /\
    1%nat ∈ calls s' /\ 2%nat ∉ calls s'.
Proof.
  destruct (notify_calls throwingReact (mkParams ∅ ∅ ∅) threeListeners) as (s' & trace & r & H1 & H2 & _ & _ & H3).
  - apply (bool_decide_unpack _). vm_compute. exact I.
  - repeat constructor.
  - assert (1%nat ∈ trace) as Hin.
    { apply (H3 [(0%nat, false)] 1%nat true [(2%nat, false)]); [reflexivity|].
      intros (e & He & _ & [Hr|Hr]); apply list_elem_of_singleton in He as ->; [inversion Hr | by apply Hr]. }
    assert (2%nat ∉ trace) as Hnot.
    { intros H. apply (H3 [(0%nat, false); (1%nat, true)] 2%nat false [] eq_refl) in H. apply H.
      exists (1%nat, true). split; [right; left|]. split; [exact Hin|]. right. discriminate. }
    exists s'. rewrite H2. split; [|split; [exact Hin | exact Hnot]].
    rewrite H1. f_equal. exact (eq_trans (eq_sym (f_equal snd H1)) eq_refl).
Defined.

Lemma timer_discipline_witness :
  pending (stop loadedStore).1 = ∅.
Proof.
  apply (timer_discipline sampleDate keepExtra noExtra sameUnit sampleReact newStore loadedStore).
  - repeat split.
  - eapply rtc_l; [apply (step_subscribe sampleDate keepExtra noExtra sameUnit sampleReact tt)|].
    eapply rtc_l; [apply (step_load sampleDate keepExtra noExtra sameUnit sampleReact (mkAddrs 30 31 32 33) sampleBase None)|].
    apply rtc_refl.
Defined.

Definition sampleAddrs : DerivedAddrs := mkAddrs 34 35 36 37.

(** The price falls from 200 to 100: it is reported, with the derived state, and the number
    of Troves is not. *)
Lemma update_reports_changes_witness :
  exists s1 params,
    _update sampleDate keepExtra noExtra sameUnit sampleReact sampleAddrs
      (Some (samplePrice (dec 100000000000000000000))) None loadedStore = _notify sampleReact params s1 /\
    stateChange params !! "numberOfTroves" <> Some (VNumber 1).
Proof.
  edestruct (update_reports_changes sampleDate keepExtra noExtra sameUnit sampleReact sampleAddrs
    (Some (samplePrice (dec 100000000000000000000))) None loadedStore) as (s1 & params & H1 & _ & _ & _ & _ & H);
    [| vm_compute; reflexivity | vm_compute; reflexivity | vm_compute; reflexivity | reflexivity | |].
  - intros t k Hk. reflexivity.
  - intros k v w Hv Hw He. apply elem_of_list_to_map_2 in Hw.
    vm_compute in Hw.
    repeat (apply elem_of_cons in Hw as [Hw|Hw];
      [injection Hw as -> ->; vm_compute in Hv; injection Hv as <-; first [discriminate He | reflexivity] |]).
    inversion Hw.
  - exists s1, params. split; [exact H1|]. intros Hn.
    assert ("numberOfTroves" ∈ ownKeys) as Hk by (apply (bool_decide_unpack _); vm_compute; reflexivity).
    apply (proj2 (H _ Hk) _) in Hn. destruct Hn as [_ Hn]. apply Hn. vm_compute. reflexivity.
Defined.

(** A block time too far from the last fee operation for the decay to be computed. *)
Definition sampleBadFees : BaseUpdate :=
  mkBase (F := option) None None None None None None None None None None None None None
    None None None None None None None (Some (at_ 41 (mkFees Decimal.ZERO Decimal.HALF Decimal.ONE 0 (60000 * 2 ^ 33) false)))
    None None None.

Lemma update_derivation_failure_witness :
  exists s' e,
    _update sampleDate keepExtra noExtra sameUnit sampleReact sampleAddrs (Some sampleBadFees) None loadedStore
    = (s', Err e) /\ pending s' = pending loadedStore.
Proof.
  edestruct (update_derivation_failure sampleDate keepExtra noExtra sameUnit sampleReact sampleAddrs
    (Some sampleBadFees) None loadedStore) as (s' & H1 & _ & _ & _ & H2 & _);
    [vm_compute; reflexivity | vm_compute; reflexivity | vm_compute; reflexivity |].
  eexists s', _. split; [exact H1 | exact H2].
Defined.
End sample.
