(* ===== verification/EthersReadable.v ===== *)
(** * Reading the contracts

    [packages/lib-ethers/src/ReadableEthersLiquity.ts] (the class [ReadableEthersLiquity]),
    [_utils.ts] and the parts of [EthersLiquityConnection.ts] it uses: the implementation of the
    reading interface by calls of the contracts' view functions.

    The contracts, reached through the ethers library, are parameters: a view function takes
    its arguments and the call overrides and returns what the call resolves to.  A promise is
    the [result] it resolves to; of several promises awaited together, the first in the order
    of the array decides the error.  Numbers are integers, so the checks that a parameter is
    an integer always pass. *)

From S2P Require Import Prelude JsString BigNumber Decimal LiquityMath Constants Trove Fees StabilityDeposit LQTYStake ReadableLiquity.
From stdpp Require Import pretty.
From Stdlib Require Import Ascii String.

Local Open Scope string_scope.
Local Open Scope Z_scope.

(** ** Calls *)

Inductive BlockTag := BlockNumber (n : Z) | BlockName (name : string).

#[export] Instance BlockTag_eq_dec : EqDecision BlockTag.
Proof. solve_decision. Defined.

(** [EthersCallOverrides]: the block to read from, and the sender of the call. *)
Record Overrides := mkOverrides { blockTag : option BlockTag; from : option string }.

(** [{ ...overrides }] *)
Definition spread (overrides : option Overrides) : Overrides :=
  default (mkOverrides None None) overrides.

(** The structures that view functions return. *)
Record BackendTrove := mkBackendTrove {
  bt_owner : string; bt_coll : Z; bt_debt : Z; bt_stake : Z; bt_status : Z;
  bt_snapshotETH : Z; bt_snapshotLUSDDebt : Z
}.

Record Contracts := mkContracts {
  troveManager_L_ETH : Overrides -> result Z;
  troveManager_L_LUSDDebt : Overrides -> result Z;
  troveManager_Troves : string -> Overrides -> result BackendTrove;
  troveManager_rewardSnapshots : string -> Overrides -> result (Z * Z);
  troveManager_getTroveOwnersCount : Overrides -> result Z;
  troveManager_lastFeeOperationTime : Overrides -> result Z;
  troveManager_baseRate : Overrides -> result Z;
  priceFeed_fetchPrice : Overrides -> result Z;
  activePool_getETH : Overrides -> result Z;
  activePool_getLUSDDebt : Overrides -> result Z;
  defaultPool_getETH : Overrides -> result Z;
  defaultPool_getLUSDDebt : Overrides -> result Z;
  stabilityPool_deposits : string -> Overrides -> result (string * Z);
  stabilityPool_getCompoundedLUSDDeposit : string -> Overrides -> result Z;
  stabilityPool_getDepositorETHGain : string -> Overrides -> result Z;
  stabilityPool_getDepositorLQTYGain : string -> Overrides -> result Z;
  stabilityPool_getTotalLUSDDeposits : Overrides -> result Z;
  stabilityPool_frontEnds : string -> Overrides -> result (bool * Z);
  communityIssuance_totalLQTYIssued : Overrides -> result Z;
  lusdToken_balanceOf : string -> Overrides -> result Z;
  lqtyToken_balanceOf : string -> Overrides -> result Z;
  uniToken_balanceOf : string -> Overrides -> result Z;
  uniToken_allowance : string -> string -> Overrides -> result Z;
  unipool_address : string;
  unipool_totalSupply : Overrides -> result Z;
  unipool_rewardRate : Overrides -> result Z;
  unipool_periodFinish : Overrides -> result Z;
  unipool_lastUpdateTime : Overrides -> result Z;
  unipool_balanceOf : string -> Overrides -> result Z;
  unipool_earned : string -> Overrides -> result Z;
  collSurplusPool_getCollateral : string -> Overrides -> result Z;
  lqtyStaking_stakes : string -> Overrides -> result Z;
  lqtyStaking_getPendingETHGain : string -> Overrides -> result Z;
  lqtyStaking_getPendingLUSDGain : string -> Overrides -> result Z;
  lqtyStaking_totalLQTYStaked : Overrides -> result Z;
  multiTroveGetter_getMultipleSortedTroves : Z -> Z -> Overrides -> result (list BackendTrove);
  multicall_getCurrentBlockTimestamp : option (BlockTag -> result Z);
  provider_getBlockTimestamp : BlockTag -> result Z;
  provider_getBalance : string -> option BlockTag -> result Z
}.

(** [EthersLiquityConnection] *)
Record Connection := mkConnection {
  userAddress : option string;
  cn_frontendTag : option string;
  totalStabilityPoolLQTYReward : Decimal
}.

(** The closure [_getFeesFactory] resolves to, by what it captures. *)
Record FeesFactory := mkFactory { ff_lastFeeOperationTime : Z; ff_baseRateWithoutDecay : Decimal }.

(** The closure [_getRemainingLiquidityMiningLQTYRewardCalculator] resolves to. *)
Record RewardCalculator := mkCalculator {
  rc_totalSupply : Z; rc_rewardRate : Decimal; rc_periodFinish : Z; rc_lastUpdateTime : Z
}.

Section utils.
Context `{BN : BigNumber}.

Definition decimalify (bigNumber : Z) : result Decimal :=
  Decimal.fromBigNumberString (bn_toHexString bigNumber).

Definition numberify (bigNumber : Z) : result Z := bn_toNumber bigNumber.

Definition MINUTE_DECAY_FACTOR : result Decimal := Decimal.from (FromString "0.999037758833783000").
Definition BETA : result Decimal := Decimal.from (FromNumber "2").

(** [userTroveStatusFrom] *)
Definition userTroveStatusFrom (backendStatus : Z) : result UserTroveStatus :=
  if backendStatus =? 0 then Ok nonExistent
  else if backendStatus =? 1 then Ok open
  else if backendStatus =? 2 then Ok closedByOwner
  else if backendStatus =? 3 then Ok closedByLiquidation
  else if backendStatus =? 4 then Ok closedByRedemption
  else Err (JsError ("invalid backendStatus " +:+ pretty backendStatus)).

Definition convertToDate (timestamp : Z) : Date := timestamp * 1000.

Definition expectPositiveInt (value : option Z) (key : string) : result unit :=
  match value with
  | Some n => if n <? 0 then Err (JsError (key +:+ " must not be negative")) else Ok tt
  | None => Ok tt
  end.

Definition FeesFactory_call (f : FeesFactory) (blockTimestamp : Z) (recoveryMode : bool) :
    result Fees :=
  let* decay := MINUTE_DECAY_FACTOR in
  let* beta := BETA in
  let* last := numberify (ff_lastFeeOperationTime f) in
  Fees.new (ff_baseRateWithoutDecay f) decay beta (convertToDate last)
    (convertToDate blockTimestamp) recoveryMode.

Definition RewardCalculator_call (c : RewardCalculator) (blockTimestamp : Z) : result Decimal :=
  Decimal.mul (rc_rewardRate c) (FromNumber (pretty
    (Z.max 0 (rc_periodFinish c -
       (if bn_isZero (rc_totalSupply c) then rc_lastUpdateTime c else blockTimestamp))))).

(** [new TroveWithPendingRedistribution(ownerAddress, status)], with the defaults for the rest. *)
Definition newPending (ownerAddress : string) (status : UserTroveStatus) :
    TroveWithPendingRedistribution :=
  mkPending (mkUserTrove (mkTrove Decimal.ZERO Decimal.ZERO) ownerAddress status)
    Decimal.ZERO _emptyTrove.

Definition pendingFrom (owner : string) (status : UserTroveStatus) (coll debt stake ETH LUSDDebt : Z) :
    result TroveWithPendingRedistribution :=
  let* coll := decimalify coll in
  let* debt := decimalify debt in
  let* stake := decimalify stake in
  let* snapshotETH := decimalify ETH in
  let* snapshotLUSDDebt := decimalify LUSDDebt in
  Ok (mkPending (mkUserTrove (mkTrove coll debt) owner status) stake
        (mkTrove snapshotETH snapshotLUSDDebt)).

Definition mapBackendTroves (troves : list BackendTrove) :
    result (list TroveWithPendingRedistribution) :=
  traverse (fun trove => pendingFrom (bt_owner trove) open (bt_coll trove) (bt_debt trove)
              (bt_stake trove) (bt_snapshotETH trove) (bt_snapshotLUSDDebt trove)) troves.
End utils.

(** ** The reader *)

Module ReadableEthersLiquity.
Section ReadableEthersLiquity.
Context `{BN : BigNumber} (contracts : Contracts) (connection : Connection).

Notation call f e := (let* value := f (spread e) in decimalify value).

(** [address ??= _requireAddress(connection)] *)
Definition requireAddress (address : option string) : result string :=
  match address, userAddress connection with
  | Some a, _ | None, Some a => Ok a
  | None, None => Err (JsError "A user address is required")
  end.

Definition requireFrontendAddress (address : option string) : result string :=
  match address, cn_frontendTag connection with
  | Some a, _ | None, Some a => Ok a
  | None, None => Err (JsError "A frontend address is required")
  end.

Definition ofUser (f : string -> Overrides -> result Z) (address : option string)
    (overrides : option Overrides) : result Decimal :=
  let* address := requireAddress address in call (f address) overrides.

Definition getTotalRedistributed (overrides : option Overrides) : result Trove :=
  let* collateral := call (troveManager_L_ETH contracts) overrides in
  let* debt := call (troveManager_L_LUSDDebt contracts) overrides in
  Ok (mkTrove collateral debt).

Definition getTroveBeforeRedistribution (address : option string) (overrides : option Overrides) :
    result TroveWithPendingRedistribution :=
  let* address := requireAddress address in
  let* trove := troveManager_Troves contracts address (spread overrides) in
  let* '(ETH, LUSDDebt) := troveManager_rewardSnapshots contracts address (spread overrides) in
  let* status := userTroveStatusFrom (bt_status trove) in
  if bt_status trove =? 1
  then pendingFrom address status (bt_coll trove) (bt_debt trove) (bt_stake trove) ETH LUSDDebt
  else Ok (newPending address status).

Definition getTrove (address : option string) (overrides : option Overrides) : result UserTrove :=
  let* trove := getTroveBeforeRedistribution address overrides in
  let* totalRedistributed := getTotalRedistributed overrides in
  TroveWithPendingRedistribution.applyRedistribution trove totalRedistributed.

Definition getNumberOfTroves (overrides : option Overrides) : result Z :=
  let* n := troveManager_getTroveOwnersCount contracts (spread overrides) in bn_toNumber n.

Definition getPrice (overrides : option Overrides) : result Decimal :=
  call (priceFeed_fetchPrice contracts) overrides.

Definition _getActivePool (overrides : option Overrides) : result Trove :=
  let* activeCollateral := call (activePool_getETH contracts) overrides in
  let* activeDebt := call (activePool_getLUSDDebt contracts) overrides in
  Ok (mkTrove activeCollateral activeDebt).

Definition _getDefaultPool (overrides : option Overrides) : result Trove :=
  let* liquidatedCollateral := call (defaultPool_getETH contracts) overrides in
  let* closedDebt := call (defaultPool_getLUSDDebt contracts) overrides in
  Ok (mkTrove liquidatedCollateral closedDebt).

Definition getTotal (overrides : option Overrides) : result Trove :=
  let* activePool := _getActivePool overrides in
  let* defaultPool := _getDefaultPool overrides in
  Trove.add activePool defaultPool.

Definition getStabilityDeposit (address : option string) (overrides : option Overrides) :
    result StabilityDeposit :=
  let* address := requireAddress address in
  let* '(frontEndTag, initialValue) := stabilityPool_deposits contracts address (spread overrides) in
  let* currentLUSD := stabilityPool_getCompoundedLUSDDeposit contracts address (spread overrides) in
  let* collateralGain := stabilityPool_getDepositorETHGain contracts address (spread overrides) in
  let* lqtyReward := stabilityPool_getDepositorLQTYGain contracts address (spread overrides) in
  let* initialValue := decimalify initialValue in
  let* currentLUSD := decimalify currentLUSD in
  let* collateralGain := decimalify collateralGain in
  let* lqtyReward := decimalify lqtyReward in
  StabilityDeposit.new initialValue currentLUSD collateralGain lqtyReward frontEndTag.

Definition getRemainingStabilityPoolLQTYReward (overrides : option Overrides) : result Decimal :=
  let* totalLQTYIssued := call (communityIssuance_totalLQTYIssued contracts) overrides in
  Decimal.sub (totalStabilityPoolLQTYReward connection) totalLQTYIssued.

Definition getLUSDInStabilityPool (overrides : option Overrides) : result Decimal :=
  call (stabilityPool_getTotalLUSDDeposits contracts) overrides.

Definition getLUSDBalance := ofUser (lusdToken_balanceOf contracts).
Definition getLQTYBalance := ofUser (lqtyToken_balanceOf contracts).
Definition getUniTokenBalance := ofUser (uniToken_balanceOf contracts).
Definition getUniTokenAllowance :=
  ofUser (fun address => uniToken_allowance contracts address (unipool_address contracts)).

Definition _getRemainingLiquidityMiningLQTYRewardCalculator (overrides : option Overrides) :
    result RewardCalculator :=
  let* totalSupply := unipool_totalSupply contracts (spread overrides) in
  let* rewardRate := call (unipool_rewardRate contracts) overrides in
  let* periodFinish := unipool_periodFinish contracts (spread overrides) in
  let* periodFinish := numberify periodFinish in
  let* lastUpdateTime := unipool_lastUpdateTime contracts (spread overrides) in
  let* lastUpdateTime := numberify lastUpdateTime in
  Ok (mkCalculator totalSupply rewardRate periodFinish lastUpdateTime).

(** [_getBlockTimestamp(connection, blockTag = "latest")]: the multicall contract's function
    where there is one, the timestamp of the provider's block elsewhere. *)
Definition _getBlockTimestamp (blockTag : option BlockTag) : result Z :=
  let blockTag := default (BlockName "latest") blockTag in
  match multicall_getCurrentBlockTimestamp contracts with
  | Some getCurrentBlockTimestamp =>
      let* timestamp := getCurrentBlockTimestamp blockTag in numberify timestamp
  | None => provider_getBlockTimestamp contracts blockTag
  end.

(** [overrides?.blockTag] *)
Definition tagOf (overrides : option Overrides) : option BlockTag :=
  overrides ≫= blockTag.

Definition getRemainingLiquidityMiningLQTYReward (overrides : option Overrides) : result Decimal :=
  let* calculateRemainingLQTY := _getRemainingLiquidityMiningLQTYRewardCalculator overrides in
  let* blockTimestamp := _getBlockTimestamp (tagOf overrides) in
  RewardCalculator_call calculateRemainingLQTY blockTimestamp.

Definition getLiquidityMiningStake := ofUser (unipool_balanceOf contracts).

Definition getTotalStakedUniTokens (overrides : option Overrides) : result Decimal :=
  call (unipool_totalSupply contracts) overrides.

Definition getLiquidityMiningLQTYReward := ofUser (unipool_earned contracts).
Definition getCollateralSurplusBalance := ofUser (collSurplusPool_getCollateral contracts).

(** The index a listing starts at: negative indices count from the end of the list. *)
Definition startIndex (params : TroveListingParams) : Z :=
  match sortedBy params with
  | descendingCollateralRatio => default 0 (startingAt params)
  | ascendingCollateralRatio => - (default 0 (startingAt params) + 1)
  end.

Definition getTroves (params : TroveListingParams) (overrides : option Overrides) : result Troves :=
  let* _ := expectPositiveInt (Some (first params)) "first" in
  let* _ := expectPositiveInt (startingAt params) "startingAt" in
  let* totalRedistributed :=
    if beforeRedistribution params then Ok None
    else rmap Some (getTotalRedistributed (Some (spread overrides))) in
  let* backendTroves :=
    multiTroveGetter_getMultipleSortedTroves contracts (startIndex params) (first params)
      (spread overrides) in
  let* troves := mapBackendTroves backendTroves in
  match totalRedistributed with
  | Some totalRedistributed =>
      rmap CurrentTroves (traverse (fun trove =>
        TroveWithPendingRedistribution.applyRedistribution trove totalRedistributed) troves)
  | None => Ok (StoredTroves troves)
  end.

Definition _getFeesFactory (overrides : option Overrides) : result FeesFactory :=
  let* lastFeeOperationTime := troveManager_lastFeeOperationTime contracts (spread overrides) in
  let* baseRateWithoutDecay := call (troveManager_baseRate contracts) overrides in
  Ok (mkFactory lastFeeOperationTime baseRateWithoutDecay).

Definition getFees (overrides : option Overrides) : result Fees :=
  let* createFees := _getFeesFactory overrides in
  let* total := getTotal overrides in
  let* price := getPrice overrides in
  let* blockTimestamp := _getBlockTimestamp (tagOf overrides) in
  let* recoveryMode := Trove.collateralRatioIsBelowCritical total price in
  FeesFactory_call createFees blockTimestamp recoveryMode.

Definition getLQTYStake (address : option string) (overrides : option Overrides) : result LQTYStake :=
  let* address := requireAddress address in
  let* stakedLQTY := call (lqtyStaking_stakes contracts address) overrides in
  let* collateralGain := call (lqtyStaking_getPendingETHGain contracts address) overrides in
  let* lusdGain := call (lqtyStaking_getPendingLUSDGain contracts address) overrides in
  Ok (mkStake stakedLQTY collateralGain lusdGain).

Definition getTotalStakedLQTY (overrides : option Overrides) : result Decimal :=
  call (lqtyStaking_totalLQTYStaked contracts) overrides.

Definition getFrontendStatus (address : option string) (overrides : option Overrides) :
    result FrontendStatus :=
  let* address := requireFrontendAddress address in
  let* '(registered, kickbackRate) := stabilityPool_frontEnds contracts address (spread overrides) in
  if registered : bool then rmap Registered (decimalify kickbackRate) else Ok Unregistered.

(** The class, as an implementation of the interface. *)
Definition readable : _ReadableLiquityWithExtraParams (option Overrides) := mkReadable (F := result)
  getTotalRedistributed getTroveBeforeRedistribution getTrove getNumberOfTroves getPrice getTotal
  getStabilityDeposit getRemainingStabilityPoolLQTYReward getLUSDInStabilityPool getLUSDBalance
  getLQTYBalance getUniTokenBalance getUniTokenAllowance getRemainingLiquidityMiningLQTYReward
  getLiquidityMiningStake getTotalStakedUniTokens getLiquidityMiningLQTYReward
  getCollateralSurplusBalance getTroves getFees getLQTYStake getTotalStakedLQTY getFrontendStatus.
End ReadableEthersLiquity.
End ReadableEthersLiquity.

(** ** The contract of the interface *)

Section laws.
Context `{BNL : BigNumberLaws} (contracts : Contracts) (connection : Connection).

Lemma spread_spread e : spread (Some (spread e)) = spread e.
Proof. by destruct e. Qed.

Lemma totalRedistributed_spread e :
  ReadableEthersLiquity.getTotalRedistributed contracts (Some (spread e)) =
  ReadableEthersLiquity.getTotalRedistributed contracts e.
Proof. by destruct e. Qed.

Lemma expectPositiveInt_ok o key :
  (forall n, o = Some n -> 0 <= n) -> expectPositiveInt o key = Ok tt.
Proof. destruct o as [n|]; simpl; [|done]. intros H. specialize (H n eq_refl). zcase. Qed.

(** The reader keeps the laws of the interface. *)
#[export] Instance ethers_readable_laws :
  ReadableLaws (ReadableEthersLiquity.readable contracts connection).
Proof.
  constructor.
  - done.
  - intros p e l. simpl. unfold ReadableEthersLiquity.getTroves.
    destruct (expectPositiveInt _ _); [|done]. destruct (expectPositiveInt _ _); [|done]. simpl.
    destruct (beforeRedistribution p); simpl.
    + destruct (multiTroveGetter_getMultipleSortedTroves _ _ _ _); [|done]. simpl.
      destruct (mapBackendTroves _); simpl; [|done]. intros [= <-]. eauto.
    + destruct (ReadableEthersLiquity.getTotalRedistributed _ _); simpl; [|done].
      destruct (multiTroveGetter_getMultipleSortedTroves _ _ _ _); [|done]. simpl.
      destruct (mapBackendTroves _); simpl; [|done].
      destruct (traverse _ _); simpl; [|done]. intros [= <-]. eauto.
  - intros p e [Hf Hs] Hp.
    cbn [getTroves getTotalRedistributed ReadableEthersLiquity.readable].
    unfold ReadableEthersLiquity.getTroves.
    rewrite !expectPositiveInt_ok by (destruct p; naive_solver). simpl. rewrite Hp. simpl.
    rewrite totalRedistributed_spread.
    change (ReadableEthersLiquity.startIndex (CachedReadableLiquity.before p))
      with (ReadableEthersLiquity.startIndex p).
    destruct (ReadableEthersLiquity.getTotalRedistributed _ _); simpl; [|done].
    destruct (multiTroveGetter_getMultipleSortedTroves _ _ _ _); [|done]. simpl.
    by destruct (mapBackendTroves _).
Qed.

Lemma decimalifyE (d : Z) : 0 <= d -> decimalify d = Ok (mkDecimal (Z.to_N d)).
Proof.
  intros H. unfold decimalify, Decimal.fromBigNumberString, Decimal.new.
  rewrite bn_from_toHexString by done. simpl. autorewrite with bn. zcase.
Qed.
End laws.
