(* ===== verification/PolledStore.v ===== *)
(** * The store that polls the chain

    [packages/lib-ethers/src/BlockPolledLiquityStore.ts]: the subclass of the data store that
    reads the whole state of the protocol whenever a block is announced; and the class
    [_BlockPolledReadableEthersLiquity] of [ReadableEthersLiquity.ts], which answers reads
    from that store.

    The code runs in a single thread between which blocks are announced, timers fire and
    reads resolve.  A state [Poll] holds the store, the variables of the closure made by
    [_doStart], and what the runtime has pending for it; an [Event] is one turn.  A read of a
    block resolves to what the contracts return for it, or it fails. *)

From S2P Require Import Prelude JsString BigNumber Decimal LiquityMath Constants Trove Fees StabilityDeposit LQTYStake ReadableLiquity LiquityStore EthersReadable.
From Stdlib Require Import Ascii String.

Local Open Scope string_scope.
Local Open Scope Z_scope.

(** ** The extra state *)

(** [BlockPolledLiquityStoreExtraState], and its [Partial]. *)
Record ExtraState := mkExtra {
  x_blockTag : option Z;
  blockTimestamp : Z;
  _feesFactory : Ref FeesFactory
}.

Record ExtraUpdate := mkExtraUpdate {
  u_blockTag : option Z;
  u_blockTimestamp : option Z;
  u_feesFactory : option (Ref FeesFactory)
}.

(** The values of the extra properties: the block tag may be [undefined]. *)
Inductive ExtraValue := XTag (tag : option Z) | XNumber (n : Z) | XFactory (f : Ref FeesFactory).

Definition extraEntries (x : ExtraState) : list (string * option (Value ExtraValue)) :=
  [ ("blockTag", Some (VExtra (XTag (x_blockTag x))));
    ("blockTimestamp", Some (VExtra (XNumber (blockTimestamp x))));
    ("_feesFactory", Some (VExtra (XFactory (_feesFactory x)))) ].

Definition sameExtra (v w : ExtraValue) : bool :=
  match v, w with
  | XTag t, XTag u => bool_decide (t = u)
  | XNumber n, XNumber m => n =? m
  | XFactory f, XFactory g => Pos.eqb (addr f) (addr g)
  | _, _ => false
  end.

Definition _reduceExtra (oldState : ExtraState) (stateUpdate : ExtraUpdate) : result ExtraState :=
  Ok (mkExtra
    (match u_blockTag stateUpdate with Some t => Some t | None => x_blockTag oldState end)
    (default (blockTimestamp oldState) (u_blockTimestamp stateUpdate))
    (default (_feesFactory oldState) (u_feesFactory stateUpdate))).

(** A complete state passed where a partial one is accepted. *)
Definition asUpdate (b : BaseState) : BaseUpdate :=
  mkBase (F := option) (Some (frontend b)) (Some (ownFrontend b)) (Some (numberOfTroves b))
    (Some (accountBalance b)) (Some (lusdBalance b)) (Some (lqtyBalance b))
    (Some (uniTokenBalance b)) (Some (uniTokenAllowance b))
    (Some (remainingLiquidityMiningLQTYReward b)) (Some (liquidityMiningStake b))
    (Some (totalStakedUniTokens b)) (Some (liquidityMiningLQTYReward b))
    (Some (collateralSurplusBalance b)) (Some (price b)) (Some (lusdInStabilityPool b))
    (Some (total b)) (Some (totalRedistributed b)) (Some (troveBeforeRedistribution b))
    (Some (stabilityDeposit b)) (Some (remainingStabilityPoolLQTYReward b))
    (Some (_feesInNormalMode b)) (Some (lqtyStake b)) (Some (totalStakedLQTY b))
    (Some (_riskiestTroveBeforeRedistribution b)).

Definition asExtraUpdate (x : ExtraState) : ExtraUpdate :=
  mkExtraUpdate (x_blockTag x) (Some (blockTimestamp x)) (Some (_feesFactory x)).

(** ** Reading a block *)

Section get.
Context `{BN : BigNumber} (contracts : Contracts) (connection : Connection).

Import ReadableEthersLiquity.

Definition AddressZero : string := "0x0000000000000000000000000000000000000000".

(** The empty string is falsy. *)
Definition truthy (s : option string) : option string :=
  match s with Some "" => None | _ => s end.

Definition _getRiskiestTroveBeforeRedistribution (overrides : option Overrides) :
    result TroveWithPendingRedistribution :=
  let* riskiestTroves :=
    getTroves contracts (mkListing 1 ascendingCollateralRatio None true) overrides in
  match riskiestTroves with
  | StoredTroves (t :: _) => Ok t
  | _ => Ok (newPending AddressZero nonExistent)
  end.

(** The part of the state that depends on the user. *)
Record UserState := mkUserState {
  us_accountBalance : Decimal; us_lusdBalance : Decimal; us_lqtyBalance : Decimal;
  us_uniTokenBalance : Decimal; us_uniTokenAllowance : Decimal;
  us_liquidityMiningStake : Decimal; us_liquidityMiningLQTYReward : Decimal;
  us_collateralSurplusBalance : Decimal;
  us_troveBeforeRedistribution : TroveWithPendingRedistribution;
  us_stabilityDeposit : StabilityDeposit; us_lqtyStake : LQTYStake; us_ownFrontend : FrontendStatus
}.

Definition getUserState (blockTag : option Z) : result UserState :=
  let tag := BlockNumber <$> blockTag in
  let overrides := Some (mkOverrides tag None) in
  match truthy (userAddress connection) with
  | Some user =>
      let* balance := provider_getBalance contracts user tag in
      let* accountBalance := decimalify balance in
      let* lusdBalance := getLUSDBalance contracts connection (Some user) overrides in
      let* lqtyBalance := getLQTYBalance contracts connection (Some user) overrides in
      let* uniTokenBalance := getUniTokenBalance contracts connection (Some user) overrides in
      let* uniTokenAllowance := getUniTokenAllowance contracts connection (Some user) overrides in
      let* liquidityMiningStake := getLiquidityMiningStake contracts connection (Some user) overrides in
      let* liquidityMiningLQTYReward :=
        getLiquidityMiningLQTYReward contracts connection (Some user) overrides in
      let* collateralSurplusBalance :=
        getCollateralSurplusBalance contracts connection (Some user) overrides in
      let* troveBeforeRedistribution :=
        getTroveBeforeRedistribution contracts connection (Some user) overrides in
      let* stabilityDeposit := getStabilityDeposit contracts connection (Some user) overrides in
      let* lqtyStake := getLQTYStake contracts connection (Some user) overrides in
      let* ownFrontend := getFrontendStatus contracts connection (Some user) overrides in
      Ok (mkUserState accountBalance lusdBalance lqtyBalance uniTokenBalance uniTokenAllowance
            liquidityMiningStake liquidityMiningLQTYReward collateralSurplusBalance
            troveBeforeRedistribution stabilityDeposit lqtyStake ownFrontend)
  | None =>
      let zero := Decimal.ZERO in
      let* stabilityDeposit := StabilityDeposit.new zero zero zero zero AddressZero in
      Ok (mkUserState zero zero zero zero zero zero zero zero
            (newPending AddressZero nonExistent) stabilityDeposit (mkStake zero zero zero)
            Unregistered)
  end.

(** The objects read are new: [alloc] gives the address of each. *)
Definition _get (alloc : nat -> positive) (blockTag : option Z) : result (BaseState * ExtraState) :=
  let tag := BlockNumber <$> blockTag in
  let overrides := Some (mkOverrides tag None) in
  let* blockTimestamp := _getBlockTimestamp contracts tag in
  let* _feesFactory := _getFeesFactory contracts overrides in
  let* calculateRemainingLQTY := _getRemainingLiquidityMiningLQTYRewardCalculator contracts overrides in
  let* price := getPrice contracts overrides in
  let* numberOfTroves := getNumberOfTroves contracts overrides in
  let* totalRedistributed := getTotalRedistributed contracts overrides in
  let* total := getTotal contracts overrides in
  let* lusdInStabilityPool := getLUSDInStabilityPool contracts overrides in
  let* totalStakedLQTY := getTotalStakedLQTY contracts overrides in
  let* riskiest := _getRiskiestTroveBeforeRedistribution overrides in
  let* totalStakedUniTokens := getTotalStakedUniTokens contracts overrides in
  let* remainingStabilityPoolLQTYReward :=
    getRemainingStabilityPoolLQTYReward contracts connection overrides in
  let* frontend :=
    match truthy (cn_frontendTag connection) with
    | Some frontendTag => getFrontendStatus contracts connection (Some frontendTag) overrides
    | None => Ok Unregistered
    end in
  let* user := getUserState blockTag in
  let* fees := FeesFactory_call _feesFactory blockTimestamp false in
  let* remaining := RewardCalculator_call calculateRemainingLQTY blockTimestamp in
  let new {A} (n : nat) (a : A) := mkRef (alloc n) a in
  Ok (mkBase (F := fun A => A) (new 0%nat frontend) (new 1%nat (us_ownFrontend user)) numberOfTroves
        (new 2%nat (us_accountBalance user)) (new 3%nat (us_lusdBalance user))
        (new 4%nat (us_lqtyBalance user)) (new 5%nat (us_uniTokenBalance user))
        (new 6%nat (us_uniTokenAllowance user)) (new 7%nat remaining)
        (new 8%nat (us_liquidityMiningStake user)) (new 9%nat totalStakedUniTokens)
        (new 10%nat (us_liquidityMiningLQTYReward user))
        (new 11%nat (us_collateralSurplusBalance user)) (new 12%nat price)
        (new 13%nat lusdInStabilityPool) (new 14%nat total) (new 15%nat totalRedistributed)
        (new 16%nat (us_troveBeforeRedistribution user)) (new 17%nat (us_stabilityDeposit user))
        (new 18%nat remainingStabilityPoolLQTYReward) (new 19%nat fees) (new 20%nat (us_lqtyStake user))
        (new 21%nat totalStakedLQTY) (new 22%nat riskiest),
      mkExtra blockTag blockTimestamp (new 23%nat _feesFactory)).
End get.

(** ** Polling *)

(** [fetches] are the reads in flight, by the block they read (none for the initial one);
    [issued] is the history of all of them. *)
Record Poll (L : Type) := mkPoll {
  store : Store ExtraState L;
  latestBlock : option Z;
  timerId : option nat;
  blockTimers : gset nat;
  nextBlockTimer : nat;
  listening : bool;
  fetches : list (option Z);
  issued : list (option Z)
}.
Arguments mkPoll {L}. Arguments store {L}. Arguments latestBlock {L}. Arguments timerId {L}.
Arguments blockTimers {L}. Arguments nextBlockTimer {L}. Arguments listening {L}.
Arguments fetches {L}. Arguments issued {L}.

Inductive Event (L : Type) :=
| Block (blockTag : Z)
| BlockTimeout (id : nat)
| Fetched (request : nat) (alloc : nat -> positive) (addrs : DerivedAddrs) (succeeded : bool)
| UpdateTimeout (id : nat) (addrs : DerivedAddrs)
| Subscribe (listener : L)
| Unsubscribe (unique : nat)
| Stop.
Arguments Block {L}. Arguments BlockTimeout {L}. Arguments Fetched {L}. Arguments UpdateTimeout {L}.
Arguments Subscribe {L}. Arguments Unsubscribe {L}. Arguments Stop {L}.

Section polling.
Context `{BN : BigNumber} (contracts : Contracts) (connection : Connection).
Context (toLocaleString : Date -> string) {L : Type}.
Context (react : L -> ListenerParams ExtraValue -> list (Reaction L) * option error).

Local Notation Poll := (Poll L).
Local Notation Event := (Event L).

Definition _update := LiquityStore._update toLocaleString _reduceExtra extraEntries sameExtra react.

Definition withStore (p : Poll) (s : Store ExtraState L) : Poll :=
  mkPoll s (latestBlock p) (timerId p) (blockTimers p) (nextBlockTimer p) (listening p)
    (fetches p) (issued p).

(** The start of [this._get(tag)]. *)
Definition fetch (tag : option Z) (p : Poll) : Poll :=
  mkPoll (store p) (latestBlock p) (timerId p) (blockTimers p) (nextBlockTimer p) (listening p)
    (fetches p ++ [tag])%list (issued p ++ [tag])%list.

(** [_doStart], on the store [s]: the initial read, and the listener for blocks. *)
Definition _doStart (s : Store ExtraState L) : Poll :=
  fetch None (mkPoll s None None ∅ 0 true [] []).

(** [clearTimeout] *)
Definition clear (id : option nat) (timers : gset nat) : gset nat :=
  match id with Some id => timers ∖ {[ id ]} | None => timers end.

Definition blockListener (blockTag : Z) (p : Poll) : Poll :=
  mkPoll (store p) (Some (Z.max blockTag (default blockTag (latestBlock p))))
    (Some (nextBlockTimer p)) (clear (timerId p) (blockTimers p) ∪ {[ nextBlockTimer p ]})
    (S (nextBlockTimer p)) (listening p) (fetches p) (issued p).

(** The callback of the listener's timer. *)
Definition onBlockTimeout (id : nat) (p : Poll) : Poll :=
  let p := mkPoll (store p) (latestBlock p) (timerId p) (blockTimers p ∖ {[ id ]})
             (nextBlockTimer p) (listening p) (fetches p) (issued p) in
  match latestBlock p with Some tag => fetch (Some tag) p | None => p end.

(** What happens to a state that was read: [handleBlock] for a block, and the continuation of
    the initial read. *)
Definition handleState (tag : option Z) (addrs : DerivedAddrs) (state : BaseState * ExtraState)
    (s : Store ExtraState L) : Store ExtraState L :=
  if _loaded s then
    match tag with
    | Some _ => (_update addrs (Some (asUpdate state.1)) (Some (asExtraUpdate state.2)) s).1
    | None => s
    end
  else (_load addrs state.1 (Some state.2) s).1.

Definition onFetched (request : nat) (alloc : nat -> positive) (addrs : DerivedAddrs)
    (succeeded : bool) (p : Poll) : Poll :=
  match fetches p !! request with
  | None => p
  | Some tag =>
      let p := mkPoll (store p) (latestBlock p) (timerId p) (blockTimers p) (nextBlockTimer p)
                 (listening p) (delete request (fetches p)) (issued p) in
      match (if succeeded then _get contracts connection alloc tag else Err BigNumberError) with
      | Ok state => withStore p (handleState tag addrs state (store p))
      | Err _ => p
      end
  end.

(** The function that [start] returns. *)
Definition onStop (p : Poll) : Poll :=
  mkPoll (stop (store p)).1 (latestBlock p) (timerId p) (clear (timerId p) (blockTimers p))
    (nextBlockTimer p) false (fetches p) (issued p).

(** The timer of the store's own scheduled update. *)
Definition onUpdateTimeout (id : nat) (addrs : DerivedAddrs) (s : Store ExtraState L) :
    Store ExtraState L :=
  (onTimer toLocaleString _reduceExtra extraEntries sameExtra react addrs
     (setTimers (_updateTimeoutId s) (pending s ∖ {[ id ]}) (nextTimer s) s)).1.

(** One turn: events that the runtime cannot produce leave everything as it is. *)
Definition turn (p : Poll) (e : Event) : Poll :=
  match e with
  | Block blockTag => if listening p then blockListener blockTag p else p
  | BlockTimeout id => if decide (id ∈ blockTimers p) then onBlockTimeout id p else p
  | Fetched request alloc addrs succeeded => onFetched request alloc addrs succeeded p
  | UpdateTimeout id addrs =>
      if decide (id ∈ pending (store p)) then withStore p (onUpdateTimeout id addrs (store p)) else p
  | Subscribe l => withStore p (subscribe l (store p)).1
  | Unsubscribe u => withStore p (unsubscribe u (store p)).1
  | Stop => onStop p
  end.

Definition run (p : Poll) (events : list Event) : Poll := fold_left turn events p.
End polling.

(** ** Reading through the store *)

Module _BlockPolledReadableEthersLiquity.
Section reader.
Context `{BN : BigNumber} (contracts : Contracts) (connection : Connection).
Context {L : Type} (store : Store ExtraState L).

Local Notation Value := (LiquityStore.Value ExtraValue).

(** [this.store.state.<key>] *)
Definition property {A} (as_ : Value -> option A) (key : string) : option A :=
  state extraEntries store !! key ≫= as_.

Definition asDecimal (v : Value) : option Decimal :=
  match v with VDecimal r => Some (deref r) | _ => None end.
Definition asNumber (v : Value) : option Z :=
  match v with VNumber n => Some n | VExtra (XNumber n) => Some n | _ => None end.
Definition asTrove (v : Value) : option Trove :=
  match v with VTrove r => Some (deref r) | _ => None end.
Definition asUserTrove (v : Value) : option UserTrove :=
  match v with VUserTrove r => Some (deref r) | _ => None end.
Definition asPending (v : Value) : option TroveWithPendingRedistribution :=
  match v with VPending r => Some (deref r) | _ => None end.
Definition asDeposit (v : Value) : option StabilityDeposit :=
  match v with VDeposit r => Some (deref r) | _ => None end.
Definition asFees (v : Value) : option Fees :=
  match v with VFees r => Some (deref r) | _ => None end.
Definition asStake (v : Value) : option LQTYStake :=
  match v with VStake r => Some (deref r) | _ => None end.
Definition asFrontend (v : Value) : option FrontendStatus :=
  match v with VFrontend r => Some (deref r) | _ => None end.
Definition asTag (v : Value) : option Z :=
  match v with VExtra (XTag t) => t | _ => None end.
Definition asFactory (v : Value) : option FeesFactory :=
  match v with VExtra (XFactory f) => Some (deref f) | _ => None end.

Definition _blockHit (overrides : option Overrides) : bool :=
  match overrides ≫= blockTag with
  | None => true
  | Some tag => bool_decide (Some tag = BlockNumber <$> property asTag "blockTag")
  end.

Definition _userHit (address : option string) (overrides : option Overrides) : bool :=
  _blockHit overrides &&
  match address with None => true | Some a => bool_decide (Some a = userAddress connection) end.

Definition _frontendHit (address : option string) (overrides : option Overrides) : bool :=
  _blockHit overrides &&
  match address with None => true | Some a => bool_decide (Some a = cn_frontendTag connection) end.

(** A getter: the property of the store's state on a hit, what the reader returns otherwise.
    A property of a store that is not loaded is [undefined]. *)
Definition through {A} (hit : bool) (as_ : Value -> option A) (key : string) (read : result A) :
    result (option A) :=
  if hit then Ok (property as_ key) else rmap Some read.

Definition _getBlockTimestamp (blockTag : option BlockTag) : result (option Z) :=
  through (_blockHit (Some (mkOverrides blockTag None))) asNumber "blockTimestamp"
    (ReadableEthersLiquity._getBlockTimestamp contracts blockTag).

Definition _getFeesFactory (overrides : option Overrides) : result (option FeesFactory) :=
  through (_blockHit overrides) asFactory "_feesFactory"
    (ReadableEthersLiquity._getFeesFactory contracts overrides).

Definition _getActivePool : result Trove := Err (JsError "Method not implemented.").
Definition _getDefaultPool : result Trove := Err (JsError "Method not implemented.").
Definition _getRemainingLiquidityMiningLQTYRewardCalculator : result RewardCalculator :=
  Err (JsError "Method not implemented.").

(** The class, as an implementation of the interface whose results may be [undefined]. *)
Definition readable : ReadableLiquityF (fun A => result (option A)) (option Overrides) :=
  let r := ReadableEthersLiquity.readable contracts connection in
  let onBlock {A} as_ key (read : option Overrides -> result A) overrides :=
    through (_blockHit overrides) as_ key (read overrides) in
  let onUser {A} as_ key (read : option string -> option Overrides -> result A) address overrides :=
    through (_userHit address overrides) as_ key (read address overrides) in
  mkReadable (F := fun A => result (option A))
    (onBlock asTrove "totalRedistributed" (getTotalRedistributed r))
    (onUser asPending "troveBeforeRedistribution" (getTroveBeforeRedistribution r))
    (onUser asUserTrove "trove" (getTrove r))
    (onBlock asNumber "numberOfTroves" (getNumberOfTroves r))
    (onBlock asDecimal "price" (getPrice r))
    (onBlock asTrove "total" (getTotal r))
    (onUser asDeposit "stabilityDeposit" (getStabilityDeposit r))
    (onBlock asDecimal "remainingStabilityPoolLQTYReward" (getRemainingStabilityPoolLQTYReward r))
    (onBlock asDecimal "lusdInStabilityPool" (getLUSDInStabilityPool r))
    (onUser asDecimal "lusdBalance" (getLUSDBalance r))
    (onUser asDecimal "lqtyBalance" (getLQTYBalance r))
    (onUser asDecimal "uniTokenBalance" (getUniTokenBalance r))
    (onUser asDecimal "uniTokenAllowance" (getUniTokenAllowance r))
    (onBlock asDecimal "remainingLiquidityMiningLQTYReward" (getRemainingLiquidityMiningLQTYReward r))
    (onUser asDecimal "liquidityMiningStake" (getLiquidityMiningStake r))
    (onBlock asDecimal "totalStakedUniTokens" (getTotalStakedUniTokens r))
    (onUser asDecimal "liquidityMiningLQTYReward" (getLiquidityMiningLQTYReward r))
    (onUser asDecimal "collateralSurplusBalance" (getCollateralSurplusBalance r))
    (fun params overrides => rmap Some (getTroves r params overrides))
    (onBlock asFees "fees" (getFees r))
    (onUser asStake "lqtyStake" (getLQTYStake r))
    (onBlock asDecimal "totalStakedLQTY" (getTotalStakedLQTY r))
    (fun address overrides =>
       through (_frontendHit address overrides) asFrontend "frontend"
         (getFrontendStatus r address overrides)).
End reader.
End _BlockPolledReadableEthersLiquity.
