(* ===== verification/PolledStoreTheory.v ===== *)
(** * The polled store: theorems

    What a client sees of the chain through the polled store: the store shows the last state
    that was read and nothing older than it, reads through the store agree with reads of the
    block the store shows, no announced block is forgotten, and a read that is in flight when
    the monitoring stops revives the store. *)

From S2P Require Import Prelude JsString BigNumber Decimal DecimalText LiquityMath Constants Trove TroveTheory Fees StabilityDeposit LQTYStake ReadableLiquity LiquityStore LiquityStoreTheory EthersReadable PolledStore.
From Stdlib Require Import Ascii String.

Local Open Scope string_scope.
Local Open Scope Z_scope.

(** ** The content of a state, without the identity of its objects *)

Definition baseContent (b : BaseState) : BaseState :=
  mkBase (F := fun A => A) (anonymous (frontend b)) (anonymous (ownFrontend b)) (numberOfTroves b)
    (anonymous (accountBalance b)) (anonymous (lusdBalance b)) (anonymous (lqtyBalance b))
    (anonymous (uniTokenBalance b)) (anonymous (uniTokenAllowance b))
    (anonymous (remainingLiquidityMiningLQTYReward b)) (anonymous (liquidityMiningStake b))
    (anonymous (totalStakedUniTokens b)) (anonymous (liquidityMiningLQTYReward b))
    (anonymous (collateralSurplusBalance b)) (anonymous (price b)) (anonymous (lusdInStabilityPool b))
    (anonymous (total b)) (anonymous (totalRedistributed b)) (anonymous (troveBeforeRedistribution b))
    (anonymous (stabilityDeposit b)) (anonymous (remainingStabilityPoolLQTYReward b))
    (anonymous (_feesInNormalMode b)) (anonymous (lqtyStake b)) (anonymous (totalStakedLQTY b))
    (anonymous (_riskiestTroveBeforeRedistribution b)).

Definition derivedContent (d : DerivedState) : DerivedState :=
  mkDerived (anonymous (trove d)) (anonymous (fees d)) (anonymous (borrowingRate d))
    (anonymous (redemptionRate d)) (haveUndercollateralizedTroves d).

Definition extraContent (x : ExtraState) : ExtraState :=
  mkExtra (x_blockTag x) (blockTimestamp x) (anonymous (_feesFactory x)).

Section content.
Context `{BNL : BigNumberLaws}.

Lemma anonymous_deref {A} (r s : Ref A) : anonymous r = anonymous s <-> deref r = deref s.
Proof. unfold anonymous. split; [by intros [=] | by intros ->]. Qed.

Lemma pick_content {A} (same : Ref A -> Ref A -> bool) prev next :
  (forall a b, same a b = true -> deref a = deref b) ->
  anonymous (pick same prev (Some next)) = anonymous next.
Proof.
  intros Hsame. simpl. destruct (same prev next) eqn:H; [|done]. by apply anonymous_deref, Hsame.
Qed.

Lemma pick_number prev next : pick Z.eqb prev (Some next) = next.
Proof. simpl. by destruct (Z.eqb_spec prev next). Qed.

Lemma pick_bool prev next : pick Bool.eqb prev (Some next) = next.
Proof. by destruct prev, next. Qed.

Ltac picks :=
  first [ apply pick_number | apply pick_bool
        | apply pick_content; intros x y;
          first [ apply eq_spec | apply frontendStatusEquals_spec | apply pending_equals_spec
                | apply userTrove_equals_spec | apply deposit_equals_spec | apply stake_equals_spec
                | apply fees_equals_spec | apply equals_true ] ].

(** A complete update replaces the content of the base state. *)
Lemma reduced_content b u : baseContent (reduced b (asUpdate u)) = baseContent u.
Proof. unfold baseContent, reduced, asUpdate. cbn -[pick]. f_equal; picks. Qed.

Lemma reducedDerived_content d nd : derivedContent (reducedDerived d nd) = derivedContent nd.
Proof. unfold derivedContent, reducedDerived. cbn -[pick]. f_equal; picks. Qed.

(** The derivation depends on the content of the base state alone. *)
Lemma derive_content addrs addrs' b b' nd :
  baseContent b = baseContent b' -> _derive addrs b = Ok nd ->
  exists nd', _derive addrs' b' = Ok nd' /\ derivedContent nd' = derivedContent nd.
Proof.
  intros Hc. apply (f_equal (fun b : BaseState => (deref (totalRedistributed b), deref (price b), deref (total b),
    deref (_feesInNormalMode b), deref (troveBeforeRedistribution b),
    deref (_riskiestTroveBeforeRedistribution b)))) in Hc. cbn in Hc.
  injection Hc as H1 H2 H3 H4 H5 H6. unfold _derive. rewrite H1, H2, H3, H4, H5, H6.
  repeat match goal with |- context [bind ?m _] => destruct m; cbn [bind]; [|done] end.
  intros [= <-]. by eexists.
Qed.
End content.

(** ** What the contracts return can be shown *)

Section derivation.
Context `{BNL : BigNumberLaws} (contracts : Contracts) (connection : Connection).

Lemma minuteDecayFactorE : MINUTE_DECAY_FACTOR = Ok (dec 999037758833783000).
Proof. unfold MINUTE_DECAY_FACTOR. read (Literal "0" (Some "999037758833783000") None). Qed.

Lemma betaE : BETA = Ok (dec 2000000000000000000).
Proof. unfold BETA. read (Literal "2" None None). Qed.

(** The fees of a state can be derived when no more than [2 ^ 32] minutes, some eight thousand
    years, lie between the last fee operation and the block. *)
Definition decayable (f : Fees) : Prop := minutesSince f (_timeOfLatestBlock f) <= 4294967295.

Lemma factoryE f timestamp recovery :
  FeesFactory_call f timestamp recovery =
  (let* last := numberify (ff_lastFeeOperationTime f) in
   Ok (mkFees (ff_baseRateWithoutDecay f) (dec 999037758833783000) (dec 2000000000000000000)
         (convertToDate last) (convertToDate timestamp) recovery)).
Proof.
  unfold FeesFactory_call. rewrite minuteDecayFactorE, betaE. cbn [bind].
  destruct (numberify _) as [last|]; cbn [bind]; [|done]. by rewrite newFeesE.
Qed.


Lemma derive_ok addrs b :
  fees_ok (deref (_feesInNormalMode b)) -> 0 < big (_beta (deref (_feesInNormalMode b))) ->
  decayable (deref (_feesInNormalMode b)) ->
  exists nd, _derive addrs b = Ok nd.
Proof.
  intros Hok Hbeta Hd. unfold _derive. rewrite belowCriticalE. cbn [bind].
  unfold Fees._setRecoveryMode. rewrite newFeesE.
  red in Hok. rewrite (proj2 (Z.ltb_lt _ _)) by done. cbn [bind].
  set (f := mkFees _ _ _ _ _ _). rewrite applyRedistributionE. cbn [bind].
  destruct (rates_bounded f Decimal.ZERO None) as (r1 & r2 & Hr1 & Hr2 & _); [done..|].
  rewrite Hr1. cbn [bind]. rewrite Hr2. cbn [bind]. rewrite applyRedistributionE. cbn [bind].
  rewrite belowMinimumE. cbn [bind]. eauto.
Qed.
End derivation.

(** ** What was read *)

Section reads.
Context `{BNL : BigNumberLaws} (contracts : Contracts) (connection : Connection).

Local Notation reader := (ReadableEthersLiquity.readable contracts connection).

(** The overrides with which the state of a block is read. *)
Definition atBlock (tag : option Z) : option Overrides :=
  Some (mkOverrides (BlockNumber <$> tag) None).

(** What the state holds for the connected user. *)
Record readsUser (user : string) (o : option Overrides) (b : BaseState) : Prop := {
  ru_lusd : getLUSDBalance reader (Some user) o = Ok (deref (lusdBalance b));
  ru_lqty : getLQTYBalance reader (Some user) o = Ok (deref (lqtyBalance b));
  ru_uni : getUniTokenBalance reader (Some user) o = Ok (deref (uniTokenBalance b));
  ru_allowance : getUniTokenAllowance reader (Some user) o = Ok (deref (uniTokenAllowance b));
  ru_stakeLM : getLiquidityMiningStake reader (Some user) o = Ok (deref (liquidityMiningStake b));
  ru_rewardLM : getLiquidityMiningLQTYReward reader (Some user) o =
                Ok (deref (liquidityMiningLQTYReward b));
  ru_surplus : getCollateralSurplusBalance reader (Some user) o =
               Ok (deref (collateralSurplusBalance b));
  ru_trove : getTroveBeforeRedistribution reader (Some user) o =
             Ok (deref (troveBeforeRedistribution b));
  ru_deposit : getStabilityDeposit reader (Some user) o = Ok (deref (stabilityDeposit b));
  ru_stake : getLQTYStake reader (Some user) o = Ok (deref (lqtyStake b))
}.

(** A state as read from a block. *)
Record reads (tag : option Z) (b : BaseState) (x : ExtraState) : Prop := {
  rd_tag : x_blockTag x = tag;
  rd_timestamp : ReadableEthersLiquity._getBlockTimestamp contracts (BlockNumber <$> tag) =
                 Ok (blockTimestamp x);
  rd_factory : ReadableEthersLiquity._getFeesFactory contracts (atBlock tag) =
               Ok (deref (_feesFactory x));
  rd_price : getPrice reader (atBlock tag) = Ok (deref (price b));
  rd_number : getNumberOfTroves reader (atBlock tag) = Ok (numberOfTroves b);
  rd_redistributed : getTotalRedistributed reader (atBlock tag) = Ok (deref (totalRedistributed b));
  rd_total : getTotal reader (atBlock tag) = Ok (deref (total b));
  rd_lusdInSP : getLUSDInStabilityPool reader (atBlock tag) = Ok (deref (lusdInStabilityPool b));
  rd_totalLQTY : getTotalStakedLQTY reader (atBlock tag) = Ok (deref (totalStakedLQTY b));
  rd_totalUni : getTotalStakedUniTokens reader (atBlock tag) = Ok (deref (totalStakedUniTokens b));
  rd_remainingSP : getRemainingStabilityPoolLQTYReward reader (atBlock tag) =
                   Ok (deref (remainingStabilityPoolLQTYReward b));
  rd_remainingLM : getRemainingLiquidityMiningLQTYReward reader (atBlock tag) =
                   Ok (deref (remainingLiquidityMiningLQTYReward b));
  rd_fees : FeesFactory_call (deref (_feesFactory x)) (blockTimestamp x) false =
            Ok (deref (_feesInNormalMode b));
  rd_frontend : match truthy (cn_frontendTag connection) with
                | Some t => getFrontendStatus reader (Some t) (atBlock tag) = Ok (deref (frontend b))
                | None => deref (frontend b) = Unregistered
                end;
  rd_user : forall u, truthy (userAddress connection) = Some u -> readsUser u (atBlock tag) b
}.

Ltac unbind :=
  repeat match goal with
  | |- context [bind ?m _ = Ok _] => let H := fresh "Hread" in destruct m eqn:H; cbn [bind]; [|done]
  | |- bind ?m _ = Ok _ -> _ => let H := fresh "Hread" in destruct m eqn:H; cbn [bind]; [|done]
  end.

Lemma get_inv alloc tag b x : _get contracts connection alloc tag = Ok (b, x) -> reads tag b x.
Proof.
  unfold _get. destruct (getUserState contracts connection tag) as [user|e] eqn:Huser.
  2: { unbind. done. }
  unbind. intros [= <- <-]. constructor; cbn; try done.
  - unfold ReadableEthersLiquity.getRemainingLiquidityMiningLQTYReward, atBlock.
    rewrite Hread1. cbn [bind].
    change (ReadableEthersLiquity.tagOf _) with (BlockNumber <$> tag). by rewrite Hread.
  - destruct (truthy _); [done | by injection Hread11].
  - intros u Hu. revert Huser. unfold getUserState. rewrite Hu. clear - Hu. unbind.
    intros [= <-]. by constructor.
Qed.
End reads.

(** ** What the store shows *)

Section shows.
Context `{BNL : BigNumberLaws} {L : Type}.
Implicit Types s : Store ExtraState L.

(** The store holds the content of a state that was read, with what derives from it. *)
Definition shows s (base : BaseState) (extra : ExtraState) : Prop :=
  exists b d x addrs nd,
    _baseState s = Some b /\ _derivedState s = Some d /\ _extraState s = Some x /\
    baseContent b = baseContent base /\ extraContent x = extraContent extra /\
    _derive addrs base = Ok nd /\ derivedContent d = derivedContent nd.



End shows.



(** ** Reading through the store *)

Section through.
Context `{BNL : BigNumberLaws} (contracts : Contracts) (connection : Connection).
Context {L : Type} (s : Store ExtraState L) (n : Z).

Import _BlockPolledReadableEthersLiquity.
Local Notation reader := (ReadableEthersLiquity.readable contracts connection).
Local Notation polled := (_BlockPolledReadableEthersLiquity.readable contracts connection s).











End through.

(** ** Turns *)

Section polling.
Context `{BNL : BigNumberLaws} (contracts : Contracts) (connection : Connection).
Context (toLocaleString : Date -> string) {L : Type}.
Context (react : L -> ListenerParams ExtraValue -> list (Reaction L) * option error).

Local Notation Store := (Store ExtraState L).
Implicit Types s : Store.
Local Notation Poll := (Poll L).
Local Notation Event := (Event L).
Local Notation read := (_get contracts connection).
Local Notation turn := (turn contracts connection toLocaleString react).
Local Notation run := (run contracts connection toLocaleString react).
Local Notation handleState := (handleState toLocaleString react).
Local Notation onUpdateTimeout := (onUpdateTimeout toLocaleString react).
Local Notation storeStep := (LiquityStoreTheory.step toLocaleString _reduceExtra extraEntries sameExtra react).

(** A turn takes the store through the steps of the data store: the polled store is one. *)
Lemma handleState_steps tag addrs state s : rtc storeStep s (handleState tag addrs state s).
Proof.
  unfold PolledStore.handleState. destruct (_loaded s).
  - destruct tag; [|done]. apply rtc_once. apply step_update.
  - apply rtc_once. apply step_load.
Qed.

Lemma turn_steps p e : rtc storeStep (store p) (store (turn p e)).
Proof.
  destruct e as [n|id|i alloc addrs ok|id addrs|l|u|]; cbn.
  - by destruct (listening p).
  - case_decide; [|done]. unfold onBlockTimeout. cbn. by destruct (latestBlock p).
  - unfold onFetched. destruct (fetches p !! i) as [tag|]; [|done].
    destruct (if ok then _ else _) as [state|]; [|done]. apply handleState_steps.
  - case_decide as Hid; [|done]. apply rtc_once. by apply step_timer.
  - apply rtc_once, step_subscribe.
  - apply rtc_once, step_unsubscribe.
  - apply rtc_once, step_stop.
Qed.

Lemma run_steps p events : rtc storeStep (store p) (store (run p events)).
Proof.
  revert p. induction events as [|e events IH]; intros p; [done|].
  etrans; [apply turn_steps | apply IH].
Qed.

Lemma polled_invariant s events : initial s -> invariant (store (run (_doStart s) events)).
Proof.
  intros Hs. apply (reachable_invariant toLocaleString _reduceExtra extraEntries sameExtra react s); [done|].
  apply (run_steps (_doStart s)).
Qed.

(** *** Showing a state *)

(** What [shows] depends on. *)
Definition sameStates (s s' : Store) : Prop :=
  _baseState s' = _baseState s /\ _derivedState s' = _derivedState s /\
  _extraState s' = _extraState s /\ _loaded s' = _loaded s /\ pending s' = pending s.

Lemma sameStates_refl s : sameStates s s.
Proof. by unfold sameStates. Qed.

Lemma notify_sameStates params s : sameStates s (_notify react params s).1.
Proof.
  apply (keeps_notify react (sameStates s)); [by intros [] ? H; apply H | by intros ?? H; apply H |].
  apply sameStates_refl.
Qed.

Lemma shows_sameStates s s' base extra : sameStates s s' -> shows s base extra -> shows s' base extra.
Proof.
  intros (H1 & H2 & H3 & _) (b & d & x & addrs & nd & ? & ? & ? & ?).
  exists b, d, x, addrs, nd. by rewrite H1, H2, H3.
Qed.

(** An update of a store that shows a state leads to a store that shows what the update and
    the derivation offer. *)
Lemma update_shows addrs upd xu s extra base' x' b d :
  _baseState s = Some b -> _derivedState s = Some d ->
  baseContent (baseAfter b upd) = baseContent base' ->
  (exists nd, _derive addrs base' = Ok nd) ->
  extraAfter _reduceExtra (_extraState s) xu = Ok (Some x') -> extraContent x' = extraContent extra ->
  let s' := (_update toLocaleString react addrs upd xu s).1 in
  shows s' base' extra /\ _loaded s' = _loaded s /\ nextTimer s ∈ pending s'.
Proof.
  intros Hb Hd Hbase [nd Hderive] Hx Hextra.
  destruct (derive_content addrs addrs base' (baseAfter b upd) nd (eq_sym Hbase) Hderive) as (nd' & Hnd' & Hc).
  destruct (update_run toLocaleString _reduceExtra extraEntries sameExtra react addrs upd xu s b d nd' (Some x'))
    as [c Hrun]; [done..|].
  cbv zeta in Hrun |- *. unfold _update. rewrite Hrun. set (s1 := updated _ _ _ _ _).
  pose proof (notify_sameStates (mkParams (state extraEntries s1) (state extraEntries s)
    (difference sameExtra (state extraEntries s1) (state extraEntries s))) s1) as Hsame.
  split_and!.
  - eapply shows_sameStates; [exact Hsame|].
    exists (baseAfter b upd), (reducedDerived d nd'), x', addrs, nd. split_and!; try done.
    by rewrite reducedDerived_content.
  - apply Hsame.
  - destruct Hsame as (_ & _ & _ & _ & ->). cbn. set_solver.
Qed.

Lemma load_shows addrs base extra s :
  _loaded s = false -> (exists nd, _derive addrs base = Ok nd) ->
  let s' := (_load addrs base (Some extra) s).1 in
  shows s' base extra /\ _loaded s' = true /\ nextTimer s ∈ pending s'.
Proof.
  intros Hl [nd Hnd]. unfold _load, LiquityStore.assert, LiquityStore.get, LiquityStore.set, lift.
  cbv [mbind M_bind]. rewrite Hl. cbn. rewrite Hnd. cbn.
  unfold _scheduleUpdate, _cancelUpdateIfScheduled, LiquityStore.set. cbv [mbind M_bind]. cbn.
  destruct (_updateTimeoutId s); cbn; destruct (hasOnLoaded s); cbn;
    (split; [exists base, nd, extra, addrs, nd; by split_and! | split; [done | set_solver]]).
Qed.

Lemma handleState_shows tag addrs base x s base0 x0 :
  (if _loaded s then shows s base0 x0 /\ is_Some tag else True) -> x_blockTag x = tag ->
  (exists nd, _derive addrs base = Ok nd) ->
  let s' := handleState tag addrs (base, x) s in
  shows s' base x /\ _loaded s' = true /\ nextTimer s ∈ pending s'.
Proof.
  unfold PolledStore.handleState. destruct (_loaded s) eqn:Hl; intros Hs Htag Hd;
    [|by apply load_shows].
  destruct Hs as [(b & d & xs & addrs' & nd & Hb & Hds & Hx & _) [n Hn]]. subst tag.
  rewrite <- Hl. eapply update_shows; [exact Hb | exact Hds | apply reduced_content | exact Hd | |].
  - rewrite Hx. cbn. rewrite Htag. reflexivity.
  - unfold extraContent; cbn. by rewrite Htag.
Qed.

Lemma updateTimeout_shows id addrs s base x :
  shows s base x ->
  let s' := onUpdateTimeout id addrs s in
  shows s' base x /\ _loaded s' = _loaded s /\ exists id', id' ∈ pending s'.
Proof.
  intros Hs. destruct (Hs) as (b & d & xs & addrs' & nd & Hb & Hd & Hx & Hbase & Hextra & Hnd & _).
  unfold PolledStore.onUpdateTimeout, onTimer.
  set (s1 := setTimers None (pending s ∖ {[ id ]}) (nextTimer s) s). 
  assert (exists nd', _derive addrs base = Ok nd') as Hd'.
  { destruct (derive_content addrs' addrs base base nd eq_refl Hnd) as (nd' & ? & _). by exists nd'. }
  destruct (update_shows addrs None None s1 x base xs b d) as (H1 & H2 & H3);
    [done | done | done | done | cbn; by rewrite Hx | done |].
  cbv zeta. rewrite (bind_ok _ _ _ s1 tt) by done. split; [done|]. split; [done | by eexists].
Qed.

(** *** The last state read *)

(** The block of the last read that was put into the store: the reads in the order in which
    they resolved, except that the initial one only counts as long as there was no other. *)
Definition nextRead (last : option (option Z)) (p : Poll) (e : Event) : option (option Z) :=
  match e with
  | Fetched request alloc _ true =>
      match fetches p !! request with
      | Some tag =>
          match read alloc tag, last, tag with
          | Err _, _, _ | Ok _, Some _, None => last
          | Ok _, _, _ => Some tag
          end
      | None => last
      end
  | _ => last
  end.

Fixpoint lastRead (last : option (option Z)) (p : Poll) (events : list Event) : option (option Z) :=
  match events with
  | [] => last
  | e :: events => lastRead (nextRead last p e) (turn p e) events
  end.

(** Fewer than [2 ^ 32] minutes lie between any block and the last fee operation before it. *)
Definition allDecayable : Prop :=
  forall alloc tag base x, read alloc tag = Ok (base, x) -> decayable (deref (_feesInNormalMode base)).

Lemma read_derives addrs alloc tag base x :
  allDecayable -> read alloc tag = Ok (base, x) -> exists nd, _derive addrs base = Ok nd.
Proof.
  intros Hall Hr. pose proof (Hall _ _ _ _ Hr) as Hdec.
  pose proof (rd_fees _ _ _ _ _ (get_inv _ _ _ _ _ _ Hr)) as Hf.
  rewrite factoryE in Hf. destruct (numberify _) as [last|]; cbn [bind] in Hf; [|done].
  injection Hf as Hf. apply derive_ok; [by rewrite <- Hf.. | done].
Qed.

(** What a store is after the read [last]. *)
Definition shown (last : option (option Z)) s : Prop :=
  match last with
  | None => _loaded s = false /\ pending s = ∅
  | Some tag => _loaded s = true /\
      exists alloc base x, read alloc tag = Ok (base, x) /\ shows s base x
  end.

Lemma shown_frame last s s' :
  _baseState s' = _baseState s -> _derivedState s' = _derivedState s ->
  _extraState s' = _extraState s -> _loaded s' = _loaded s -> pending s' ⊆ pending s ->
  shown last s -> shown last s'.
Proof.
  intros Hb Hd Hx Hl Hp. destruct last as [tag|]; cbn; rewrite Hl; [|intros [-> He]; set_solver].
  intros [-> (alloc & base & x & Hr & b & d & x' & addrs & nd & H)].
  split; [done|]. exists alloc, base, x. split; [done|].
  exists b, d, x', addrs, nd. by rewrite Hb, Hd, Hx.
Qed.

Lemma turn_shown last p e :
  allDecayable -> shown last (store p) -> shown (nextRead last p e) (store (turn p e)).
Proof.
  intros Hall Hs. destruct e as [n|id|i alloc addrs ok|id addrs|l|u|]; cbn [nextRead PolledStore.turn].
  - by destruct (listening p).
  - case_decide; [|done]. unfold onBlockTimeout. cbn. by destruct (latestBlock p).
  - unfold onFetched. destruct (fetches p !! i) as [tag|]; [|by destruct ok].
    destruct ok; [|done]. destruct (read alloc tag) as [[base x]|] eqn:Hr; [|done].
    pose proof (rd_tag _ _ _ _ _ (get_inv _ _ _ _ _ _ Hr)) as Htag.
    pose proof (read_derives addrs _ _ _ _ Hall Hr) as Hd. cbn [withStore store].
    destruct last as [last|].
    + destruct Hs as [Hl (alloc0 & base0 & x0 & Hr0 & Hs)]. destruct tag as [n|].
      * destruct (handleState_shows (Some n) addrs base x (store p) base0 x0) as (H1 & H2 & _);
          [rewrite Hl; by split | done | done |]. split; [done|]. by exists alloc, base, x.
      * unfold PolledStore.handleState. cbn. rewrite Hl. split; [done|]. by exists alloc0, base0, x0.
    + destruct Hs as [Hl _]. destruct (handleState_shows tag addrs base x (store p) base x) as (H1 & H2 & _);
        [by rewrite Hl | done | done |].
      destruct tag; (split; [done|]; by exists alloc, base, x).
  - case_decide as Hid; [|done]. cbn. destruct last as [tag|]; [|set_solver].
    destruct Hs as [Hl (alloc & base & x & Hr & Hs)].
    destruct (updateTimeout_shows id addrs (store p) base x Hs) as (H1 & H2 & _).
    split; [by rewrite H2|]. by exists alloc, base, x.
  - by eapply shown_frame.
  - by eapply shown_frame.
  - eapply shown_frame; [..|exact Hs]; cbn; destruct (_updateTimeoutId (store p)); cbn; set_solver.
Qed.

Lemma run_shown last p events :
  allDecayable -> shown last (store p) -> shown (lastRead last p events) (store (run p events)).
Proof.
  intros Hall. revert last p. induction events as [|e events IH]; intros last p Hs; [done|].
  apply IH. by apply turn_shown.
Qed.

(** C9. Whatever the order in which blocks are announced, timers fire and reads resolve or
    fail, the store shows exactly the last state that was read, the objects it derives from it
    included, and it is loaded as soon as one read has succeeded. *)
Theorem polled_store_shows_last_read s events :
  initial s -> allDecayable ->
  let p := run (_doStart s) events in
  match lastRead None (_doStart s) events with
  | None => _loaded (store p) = false
  | Some tag => _loaded (store p) = true /\
      exists base x, reads contracts connection tag base x /\ shows (store p) base x
  end.
Proof.
  intros (Hl & _ & _ & _ & Hp & _) Hall p.
  pose proof (run_shown None (_doStart s) events Hall (conj Hl Hp)) as Hs. fold p in Hs.
  destruct (lastRead _ _ _) as [tag|]; [|apply Hs].
  destruct Hs as [Hload (alloc & base & x & Hr & Hs)]. split; [done|].
  exists base, x. split; [by eapply get_inv | done].
Qed.

(** Stopping the monitoring leaves no timer behind, but it does not cancel the reads in
    flight: when the read of a block resolves afterwards, the stopped store changes, schedules
    an update, and every scheduled update schedules the next one. *)
Theorem read_after_stop_revives s events request n alloc addrs base x :
  initial s -> allDecayable ->
  let p := turn (run (_doStart s) events) Stop in
  fetches p !! request = Some (Some n) -> read alloc (Some n) = Ok (base, x) ->
  let p' := turn p (Fetched request alloc addrs true) in
  pending (store p) = ∅ /\ listening p = false /\
  shows (store p') base x /\ pending (store p') <> ∅ /\
  forall id addrs', id ∈ pending (store p') ->
    pending (store (turn p' (UpdateTimeout id addrs'))) <> ∅.
Proof.
  intros Hs Hall p Hi Hr p'.
  pose proof (polled_invariant s events Hs) as Hinv.
  assert (shown (lastRead None (_doStart s) events) (store p)) as Hsh.
  { apply (turn_shown _ _ Stop Hall). apply run_shown; [done|].
    destruct Hs as (? & ? & ? & ? & ? & ?). by split. }
  pose proof (rd_tag _ _ _ _ _ (get_inv _ _ _ _ _ _ Hr)) as Htag.
  assert (shows (store p') base x /\ _loaded (store p') = true /\
          nextTimer (store p) ∈ pending (store p')) as (H1 & H2 & H3).
  { unfold p'. cbn [PolledStore.turn]. unfold onFetched. rewrite Hi, Hr. cbn [withStore store].
    destruct (lastRead None (_doStart s) events) as [tag|].
    - destruct Hsh as [Hl (alloc0 & base0 & x0 & _ & Hsh)].
      apply (handleState_shows (Some n) addrs base x (store p) base0 x0); [rewrite Hl; by split | done |].
      by eapply read_derives.
    - destruct Hsh as [Hl _].
      apply (handleState_shows (Some n) addrs base x (store p) base x); [by rewrite Hl | done |].
      by eapply read_derives. }
  split; [apply invariant_cancel, Hinv|]. split; [done|]. split; [done|]. split; [set_solver|].
  intros id addrs' Hid. cbn [PolledStore.turn]. case_decide; [|done]. cbn [withStore store].
  destruct (updateTimeout_shows id addrs' (store p') base x H1) as (_ & _ & id' & Hid'). set_solver.
Qed.

(** *** No block is forgotten *)

(** The blocks announced before the monitoring stops. *)
Fixpoint heard (on : bool) (events : list Event) : list Z :=
  match events with
  | [] => []
  | Block n :: events => if on then n :: heard on events else heard on events
  | Stop :: events => heard false events
  | _ :: events => heard on events
  end.

Record polling (blocks : list Z) (p : Poll) : Prop := {
  po_timer id : id ∈ blockTimers p ->
    timerId p = Some id /\ (id < nextBlockTimer p)%nat /\ is_Some (latestBlock p);
  po_stopped : listening p = false -> blockTimers p = ∅;
  po_latest : match latestBlock p with
              | None => blocks = []
              | Some b => b ∈ blocks /\ Forall (fun n => n <= b) blocks
              end;
  po_issued : listening p = true -> blockTimers p = ∅ -> last (issued p) = Some (latestBlock p);
  po_only tag : tag ∈ issued p -> tag = None \/ exists b, b ∈ blocks /\ tag = Some b
}.

(** The part of the state the polling is about. *)
Definition closure (p : Poll) :=
  (latestBlock p, timerId p, blockTimers p, nextBlockTimer p, listening p, issued p).

Lemma polling_frame blocks p p' : closure p' = closure p -> polling blocks p -> polling blocks p'.
Proof. unfold closure. intros [= H1 H2 H3 H4 H5 H6] []. constructor; rewrite ?H1, ?H2, ?H3, ?H4, ?H5, ?H6; auto. Qed.

Lemma polling_block blocks p n :
  listening p = true -> polling blocks p -> polling (blocks ++ [n]) (blockListener n p).
Proof.
  intros Hl [Ht Hs Hb Hi Ho]. constructor; cbn [blockListener latestBlock timerId blockTimers nextBlockTimer listening issued].
  - intros id [Hid|Hid%elem_of_singleton]%elem_of_union; [exfalso|by subst; eauto].
    unfold clear in Hid. destruct (timerId p) as [t|] eqn:Htid.
    + apply elem_of_difference in Hid as [Hid Hne]. destruct (Ht id Hid) as ([= <-] & _). set_solver.
    + by destruct (Ht id Hid).
  - congruence.
  - destruct (latestBlock p) as [b|]; cbn.
    + destruct Hb as [Hin Hall]. split.
      * destruct (Z.max_spec n b) as [[_ ->]|[_ ->]]; set_solver.
      * apply Forall_app. split; [|apply Forall_singleton; lia].
        eapply Forall_impl; [exact Hall|]. cbn. lia.
    + subst blocks. rewrite Z.max_id. split; [set_solver|]. by apply Forall_singleton.
  - intros _ He. set_solver.
  - intros tag Htag. destruct (Ho tag Htag) as [?|(b & ? & ?)]; [by left|]. right. exists b. set_solver.
Qed.

Lemma polling_timeout blocks p id :
  id ∈ blockTimers p -> polling blocks p -> polling blocks (onBlockTimeout id p).
Proof.
  intros Hid [Ht Hs Hb Hi Ho]. destruct (Ht id Hid) as (Htid & _ & [b Hlatest]).
  unfold onBlockTimeout. cbn. rewrite Hlatest. unfold fetch. cbn. rewrite Hlatest in Hb.
  constructor; cbn.
  - intros id' [Hid' Hne]%elem_of_difference. destruct (Ht id' Hid') as ([= <-]%(eq_trans (eq_sym Htid)) & _).
    set_solver.
  - intros Hl. rewrite (Hs Hl) in Hid. set_solver.
  - done.
  - intros _ _. by rewrite last_snoc.
  - intros tag [Htag|Htag%list_elem_of_singleton]%elem_of_app; [by apply Ho|].
    right. exists b. by split; [apply Hb|].
Qed.

Lemma polling_stop blocks p : polling blocks p -> polling blocks (onStop p).
Proof.
  intros [Ht Hs Hb Hi Ho]. unfold onStop, clear.
  assert (match timerId p with Some id => blockTimers p ∖ {[ id ]} | None => blockTimers p end = ∅) as He.
  { apply elem_of_equiv_empty_L. intros id Hid.
    destruct (timerId p) as [t|] eqn:Htid; [apply elem_of_difference in Hid as [Hid Hne]|];
      destruct (Ht id Hid) as ([=] & _); set_solver. }
  constructor; cbn; rewrite ?He; [set_solver | done | done | done | done].
Qed.

Lemma polling_run blocks p events :
  polling blocks p -> polling (blocks ++ heard (listening p) events) (run p events).
Proof.
  revert blocks p. induction events as [|e events IH]; intros blocks p Hp; [by rewrite app_nil_r|].
  change (run p (e :: events)) with (run (turn p e) events).
  destruct e as [n|id|i alloc addrs ok|id addrs|l|u|]; cbn [heard].
  - cbn [PolledStore.turn]. destruct (listening p) eqn:Hl.
    + pose proof (IH _ _ (polling_block _ _ n Hl Hp)) as H. cbn [blockListener listening] in H.
      by rewrite Hl, <- app_assoc in H.
    + rewrite <- Hl. by apply IH.
  - cbn [PolledStore.turn]. case_decide as Hid; [|by apply IH].
    pose proof (IH _ _ (polling_timeout _ _ id Hid Hp)) as H.
    replace (listening p) with (listening (onBlockTimeout id p)); [done|].
    unfold onBlockTimeout. cbn. by destruct (latestBlock p).
  - assert (closure (turn p (Fetched i alloc addrs ok)) = closure p) as Hc.
    { cbn. unfold onFetched. destruct (fetches p !! i); [|done]. by destruct (if ok then _ else _). }
    replace (listening p) with (listening (turn p (Fetched i alloc addrs ok))) by (by injection Hc).
    apply IH. by apply (polling_frame _ p).
  - assert (closure (turn p (UpdateTimeout id addrs)) = closure p) as Hc by (cbn; by case_decide).
    replace (listening p) with (listening (turn p (UpdateTimeout id addrs))) by (by injection Hc).
    apply IH. by apply (polling_frame _ p).
  - apply (IH _ (turn p (Subscribe l))). by apply (polling_frame _ p).
  - apply (IH _ (turn p (Unsubscribe u))). by apply (polling_frame _ p).
  - apply (IH _ (turn p Stop)). by apply polling_stop.
Qed.

(** A read that fails is given up: nothing is shown of it and it is not made again. *)
Lemma failed_read p i alloc addrs :
  store (turn p (Fetched i alloc addrs false)) = store p /\ closure (turn p (Fetched i alloc addrs false)) = closure p.
Proof. cbn. unfold onFetched. by destruct (fetches p !! i). Qed.

(** C29. No announced block goes unasked for: while the monitoring runs, either a timer is pending
    or the read of the newest block announced so far is the last that was issued; only announced
    blocks are asked for (after the initial read), at most one timer is pending, and none is once
    the monitoring has stopped.  Issued is all: a read that fails leaves the store as it is and is
    not made again, so its block is only made up for by the next one that is announced. *)
Theorem polling_discipline s events :
  let p := run (_doStart s) events in
  let blocks := heard true events in
  match latestBlock p with
  | None => blocks = []
  | Some b => b ∈ blocks /\ Forall (fun n => n <= b) blocks
  end /\
  (listening p = true -> blockTimers p <> ∅ \/ last (issued p) = Some (latestBlock p)) /\
  (forall tag, tag ∈ issued p -> tag = None \/ exists b, b ∈ blocks /\ tag = Some b) /\
  (forall id id', id ∈ blockTimers p -> id' ∈ blockTimers p -> id = id') /\
  (listening p = false -> blockTimers p = ∅) /\
  (forall i alloc addrs, let p' := turn p (Fetched i alloc addrs false) in
     store p' = store p /\ issued p' = issued p /\ blockTimers p' = blockTimers p).
Proof.
  intros p blocks. assert (polling [] (_doStart s)) as H0.
  { constructor; cbn; try done. intros tag ->%list_elem_of_singleton. by left. }
  pose proof (polling_run [] (_doStart s) events H0) as [Ht Hs Hb Hi Ho]. fold p in Ht, Hs, Hb, Hi, Ho.
  cbn in Hb, Ho. fold blocks in Hb, Ho. split; [done|]. split; [|split; [done|split; [|split; [done|]]]].
  - intros Hl. destruct (decide (blockTimers p = ∅)); [right; auto | by left].
  - intros id id' H1 H2. destruct (Ht id H1) as [E1 _], (Ht id' H2) as [E2 _]. congruence.
  - intros i alloc addrs p'. destruct (failed_read p i alloc addrs) as [Hst [=]]. done.
Qed.
End polling.

(** ** Instances *)

Section sample.

(** Contracts with one Trove, for any block. *)
Definition sampleContracts : Contracts :=
  let zero (_ : Overrides) := Ok 0 in
  let none (_ : string) (_ : Overrides) := Ok 0 in
  let trove := mkBackendTrove "0x1" (2 * 10 ^ 18) (200 * 10 ^ 18) (2 * 10 ^ 18) 1 0 0 in
  mkContracts zero zero (fun _ _ => Ok trove) (fun _ _ => Ok (0, 0)) (fun _ => Ok 1) zero zero
    (fun _ => Ok (200 * 10 ^ 18)) (fun _ => Ok (2 * 10 ^ 18)) (fun _ => Ok (200 * 10 ^ 18)) zero zero
    (fun _ _ => Ok (AddressZero, 0)) none none none zero (fun _ _ => Ok (false, 0)) zero none none none
    (fun _ _ _ => Ok 0) "0x2" zero zero zero zero none none none none none none zero
    (fun _ _ _ => Ok [trove]) None (fun _ => Ok 3600) (fun _ _ => Ok 0).

Definition sampleConnection : Connection := mkConnection (Some "0x1") None (dec (32 * 10 ^ 24)).

Definition sampleAlloc (n : nat) : positive := Pos.of_succ_nat n.
Definition noReaction (l : unit) (p : ListenerParams ExtraValue) :
    list (Reaction unit) * option error := ([], None).
Definition freshStore : Store ExtraState unit :=
  mkStore false false false None None None None [] 0 ∅ 0 [] 0 [].

Lemma sample_decayable : allDecayable sampleContracts sampleConnection.
Proof.
  intros alloc tag base x H. vm_compute in H. injection H as <- <-. vm_compute. discriminate.
Qed.

Lemma fresh_initial : initial freshStore.
Proof. repeat split. Qed.

(** A block is announced and read before the initial read resolves. *)
Lemma polled_store_shows_last_read_witness :
  _loaded (store (run sampleContracts sampleConnection sampleDate noReaction (_doStart freshStore)
    [Block 1; BlockTimeout 0; Fetched 1 sampleAlloc sampleAddrs true;
     Fetched 0 sampleAlloc sampleAddrs true])) = true.
Proof.
  pose proof (polled_store_shows_last_read sampleContracts sampleConnection sampleDate noReaction
    freshStore [Block 1; BlockTimeout 0; Fetched 1 sampleAlloc sampleAddrs true;
     Fetched 0 sampleAlloc sampleAddrs true] fresh_initial sample_decayable) as H.
  assert (lastRead sampleContracts sampleConnection sampleDate noReaction None (_doStart freshStore)
    [Block 1; BlockTimeout 0; Fetched 1 sampleAlloc sampleAddrs true;
     Fetched 0 sampleAlloc sampleAddrs true] = Some (Some 1)) as E by (vm_compute; reflexivity).
  cbv zeta in H. rewrite E in H. exact (proj1 H).
Defined.

(** Reads that resolve out of order: the store goes back from block 2 to block 1. *)
Example older_block_overwrites :
  lastRead sampleContracts sampleConnection sampleDate noReaction None (_doStart freshStore)
    [Block 1; BlockTimeout 0; Block 2; BlockTimeout 1;
     Fetched 2 sampleAlloc sampleAddrs true; Fetched 1 sampleAlloc sampleAddrs true] = Some (Some 1).
Proof. vm_compute. reflexivity. Qed.

Lemma read_after_stop_revives_witness :
  pending (store (turn sampleContracts sampleConnection sampleDate noReaction
    (turn sampleContracts sampleConnection sampleDate noReaction
      (run sampleContracts sampleConnection sampleDate noReaction (_doStart freshStore)
        [Fetched 0 sampleAlloc sampleAddrs true; Block 1; BlockTimeout 0]) Stop)
    (Fetched 0 sampleAlloc sampleAddrs true))) <> ∅.
Proof.
  destruct (_get sampleContracts sampleConnection sampleAlloc (Some 1)) as [[base x]|e] eqn:Hr;
    [|vm_compute in Hr; discriminate Hr].
  refine (proj1 (proj2 (proj2 (proj2 (read_after_stop_revives sampleContracts sampleConnection sampleDate
    noReaction freshStore [Fetched 0 sampleAlloc sampleAddrs true; Block 1; BlockTimeout 0]
    0 1 sampleAlloc sampleAddrs base x fresh_initial sample_decayable _ Hr))))).
  vm_compute. reflexivity.
Defined.

(** Blocks that arrive out of order before the timer fires: the newest one is read. *)
Lemma polling_discipline_witness :
  let p := run sampleContracts sampleConnection sampleDate noReaction (_doStart freshStore)
    [Block 2; Block 1; BlockTimeout 1] in
  last (issued p) = Some (Some 2).
Proof.
  intros p.
  destruct (polling_discipline sampleContracts sampleConnection sampleDate noReaction freshStore
    [Block 2; Block 1; BlockTimeout 1]) as (_ & H & _).
  destruct (H eq_refl) as [Ht|Hi]; [contradict Ht; vm_compute; reflexivity | exact Hi].
Defined.
End sample.
