(* ===== verification/Hints.v ===== *)
(** * Hints for the sorted list of Troves

    [packages/lib-ethers/src/PopulatableEthersLiquity.ts], [generateTrials] and the methods
    [_findHintsForNominalCollateralRatio], [_findHints] and [_findRedemptionHints]: the search
    for the position of a Trove in the list that the contracts keep sorted by nominal
    collateral ratio.

    The contracts [HintHelpers] and [SortedTroves], reached through the ethers library, are
    parameters; [SortedTrovesLaws] is what the documentation of [SortedTroves] says of them.
    The number of trials is [Math.ceil(10 * Math.sqrt(n))]: it is computed in double
    precision, which gives the exact value below as long as [n] is less than [2 ^ 44]. *)

From S2P Require Import Prelude JsString BigNumber Decimal Constants Trove EthersReadable PolledStore.
From Stdlib Require Import Ascii String Sorting.Sorted.

Local Open Scope string_scope.
Local Open Scope Z_scope.

(** ** Trials *)

Definition maxNumberOfTrialsAtOnce : Z := 2500.

(** The generator's loop; [fuel] bounds the number of values it yields. *)
Fixpoint trialsLoop (fuel : nat) (totalNumberOfTrials : Z) : result (list Z) :=
  if totalNumberOfTrials =? 0 then Ok []
  else match fuel with
       | O => Err OutOfFuel
       | S fuel =>
           let numberOfTrials := Z.min totalNumberOfTrials maxNumberOfTrialsAtOnce in
           let* rest := trialsLoop fuel (totalNumberOfTrials - numberOfTrials) in
           Ok (numberOfTrials :: rest)
       end.

Definition generateTrials (totalNumberOfTrials : Z) : result (list Z) :=
  guard 0 <? totalNumberOfTrials else AssertionError in
  trialsLoop (Z.to_nat totalNumberOfTrials) totalNumberOfTrials.

(** ** The search *)

Record ApproxHint := mkApprox { hintAddress : string; diff : Z; latestRandomSeed : Z }.

Record RedemptionHints := mkRedemptionHints {
  firstRedemptionHint : string;
  partialRedemptionHintNICR : Z;
  truncatedLUSDamount : Z
}.

Record HintContracts := mkHintContracts {
  hintHelpers_getApproxHint : Decimal -> Z -> Z -> result ApproxHint;
  hintHelpers_getRedemptionHints : Decimal -> Decimal -> Z -> result RedemptionHints;
  sortedTroves_getFirst : result string;
  sortedTroves_getPrev : string -> result string;
  sortedTroves_getNext : string -> result string;
  sortedTroves_findInsertPosition : Decimal -> string -> string -> result (string * string)
}.

Section search.
Context `{BN : BigNumber} (hints : HintContracts).

(** The calls of [getApproxHint] one after the other, each with the seed the last one left. *)
Fixpoint collectApproxHints (nominalCollateralRatio : Decimal) (seed : Z) (trials : list Z) :
    result (list ApproxHint) :=
  match trials with
  | [] => Ok []
  | numberOfTrials :: trials =>
      let* r := hintHelpers_getApproxHint hints nominalCollateralRatio numberOfTrials seed in
      let* rest := collectApproxHints nominalCollateralRatio (latestRandomSeed r) trials in
      Ok (r :: rest)
  end.

(** [results.reduce((a, b) => (a.diff.lt(b.diff) ? a : b))] *)
Definition bestApproxHint (results : list ApproxHint) : result ApproxHint :=
  match results with
  | [] => Err (JsError "Reduce of empty array with no initial value")
  | r :: rs => Ok (fold_left (fun a b => if bn_lt (diff a) (diff b) then a else b) rs r)
  end.

(** [Math.ceil(10 * Math.sqrt(numberOfTroves))] *)
Definition numberOfTrialsFor (numberOfTroves : Z) : Z := Z.sqrt_up (100 * numberOfTroves).

(** "Jump over" the Trove that is being reinserted. *)
Definition jumpOver (ownAddress : option string) (prev next : string) : result (string * string) :=
  match ownAddress with
  | None | Some "" => Ok (prev, next)
  | Some own =>
      if String.eqb prev own then
        let* prev := sortedTroves_getPrev hints prev in Ok (prev, next)
      else if String.eqb next own then
        let* next := sortedTroves_getNext hints next in Ok (prev, next)
      else Ok (prev, next)
  end.

(** Don't use [address(0)] as hint. *)
Definition avoidZero (prev next : string) : string * string :=
  if String.eqb prev AddressZero then (next, next)
  else if String.eqb next AddressZero then (prev, prev)
  else (prev, next).

(** [getNumberOfTroves] is what the reader returns, [randomSeed] the value of [randomInteger()]. *)
Definition _findHintsForNominalCollateralRatio (getNumberOfTroves : result Z) (randomSeed : Z)
    (nominalCollateralRatio : Decimal) (ownAddress : option string) : result (string * string) :=
  let* numberOfTroves := getNumberOfTroves in
  if numberOfTroves =? 0 then Ok (AddressZero, AddressZero)
  else if Decimal.infinite nominalCollateralRatio is Some _ then
    let* first := sortedTroves_getFirst hints in Ok (AddressZero, first)
  else
    let* trials := generateTrials (numberOfTrialsFor numberOfTroves) in
    let* results := collectApproxHints nominalCollateralRatio randomSeed trials in
    let* best := bestApproxHint results in
    let* '(prev, next) :=
      sortedTroves_findInsertPosition hints nominalCollateralRatio (hintAddress best) (hintAddress best) in
    let* '(prev, next) := jumpOver ownAddress prev next in
    Ok (avoidZero prev next).

(** A Trove given to [_findHints]: one with pending redistributions is refused. *)
Inductive AnyTrove := Current (trove : Trove) | Pending (trove : TroveWithPendingRedistribution).

Definition _findHints (getNumberOfTroves : result Z) (randomSeed : Z) (trove : AnyTrove) (ownAddress : option string) :
    result (string * string) :=
  match trove with
  | Pending _ => Err (JsError "Rewards must be applied to this Trove")
  | Current trove =>
      let* nominal := Trove._nominalCollateralRatio trove in
      _findHintsForNominalCollateralRatio getNumberOfTroves randomSeed nominal ownAddress
  end.

Definition _redeemMaxIterations : Z := 70.

Definition _findRedemptionHints (getNumberOfTroves : result Z) (getPrice : result Decimal)
    (randomSeed : Z) (amount : Decimal) : result (Decimal * string * (string * string * Z)) :=
  let* price := getPrice in
  let* r := hintHelpers_getRedemptionHints hints amount price _redeemMaxIterations in
  let* '(upper, lower) :=
    if bn_isZero (partialRedemptionHintNICR r) then Ok (AddressZero, AddressZero)
    else
      let* nominal := decimalify (partialRedemptionHintNICR r) in
      _findHintsForNominalCollateralRatio getNumberOfTroves randomSeed nominal None in
  let* truncatedAmount := decimalify (truncatedLUSDamount r) in
  Ok (truncatedAmount, firstRedemptionHint r, (upper, lower, partialRedemptionHintNICR r)).
End search.

(** ** Trials: theorems *)

Section trials.

Lemma trialsLoop_spec fuel n :
  0 <= n -> n <= Z.of_nat fuel ->
  exists l, trialsLoop fuel n = Ok l /\ foldr Z.add 0 l = n /\
    Forall (fun k => 0 < k <= maxNumberOfTrialsAtOnce) l /\
    Z.of_nat (List.length l) = (n + maxNumberOfTrialsAtOnce - 1) / maxNumberOfTrialsAtOnce.
Proof.
  revert n. induction fuel as [|fuel IH]; intros n H0 Hn; simpl; unfold maxNumberOfTrialsAtOnce in *.
  - assert (n = 0) as -> by lia. by exists [].
  - destruct (Z.eqb_spec n 0) as [->|Hne]; [by exists []|].
    destruct (IH (n - Z.min n 2500)) as (l & -> & Hs & Hf & Hlen); [lia|lia|].
    exists (Z.min n 2500 :: l). cbn [bind foldr List.length]. split_and!; [done | lia | |].
    + constructor; [lia | done].
    + rewrite Nat2Z.inj_succ, Hlen. destruct (Z.min_spec n 2500) as [[? ->]|[? ->]].
      * replace (n - n + 2500 - 1) with 2499 by lia. change (2499 / 2500) with 0.
        assert ((n + 2500 - 1) / 2500 = 1) as ->; [|lia].
        symmetry. apply (Z.div_unique _ _ 1 (n - 1)); lia.
      * replace (n + 2500 - 1) with ((n - 2500 + 2500 - 1) + 1 * 2500) by lia.
        rewrite Z.div_add by lia. lia.
Qed.

(** The trials add up to what was asked for, in as few calls as the limit allows. *)
Lemma generateTrials_spec n :
  0 < n ->
  exists l, generateTrials n = Ok l /\ l <> [] /\ foldr Z.add 0 l = n /\
    Forall (fun k => 0 < k <= maxNumberOfTrialsAtOnce) l /\
    Z.of_nat (List.length l) = (n + maxNumberOfTrialsAtOnce - 1) / maxNumberOfTrialsAtOnce.
Proof.
  intros Hn. unfold generateTrials. rewrite (proj2 (Z.ltb_lt _ _)) by done.
  destruct (trialsLoop_spec (Z.to_nat n) n) as (l & H1 & H2 & H3 & H4); [lia|lia|].
  exists l. split_and!; [done | | done..]. intros ->. simpl in H2. lia.
Qed.

Lemma numberOfTrials_pos n : 0 < n -> 0 < numberOfTrialsFor n.
Proof. intros H. unfold numberOfTrialsFor. apply Z.sqrt_up_pos. lia. Qed.
End trials.

(** ** Hints: theorems *)

(** The head and the last address of a list of Troves, the zero address if there is none. *)
Definition headOrZero (l : list string) : string := default AddressZero (head l).
Definition lastOrZero (l : list string) : string := default AddressZero (last l).

(** [SortedTroves] keeps the addresses [l] of the open Troves in descending order of their
    nominal collateral ratio; an insert position is a pair of neighbours between which the
    ratio fits, the zero address standing for the ends.  [HintHelpers] always has a guess. *)
Class SortedTrovesLaws (hints : HintContracts) (nicr : string -> Z) (l : list string) : Prop := {
  st_nodup : NoDup l;
  st_zero : AddressZero ∉ l;
  st_sorted : StronglySorted (fun a b => nicr b <= nicr a) l;
  st_first : sortedTroves_getFirst hints = Ok (headOrZero l);
  st_prev l1 a l2 : l = (l1 ++ a :: l2)%list -> sortedTroves_getPrev hints a = Ok (lastOrZero l1);
  st_next l1 a l2 : l = (l1 ++ a :: l2)%list -> sortedTroves_getNext hints a = Ok (headOrZero l2);
  st_position n p q : exists l1 l2, l = (l1 ++ l2)%list /\
    sortedTroves_findInsertPosition hints n p q = Ok (lastOrZero l1, headOrZero l2) /\
    (forall a, last l1 = Some a -> big n <= nicr a) /\ (forall a, head l2 = Some a -> nicr a <= big n);
  st_approx n k seed : exists r, hintHelpers_getApproxHint hints n k seed = Ok r
}.

Section neighbours.
Context `{BNL : BigNumberLaws} (hints : HintContracts) (nicr : string -> Z) (l : list string).
Context `{LAWS : !SortedTrovesLaws hints nicr l}.

(** The Troves other than the one being reinserted. *)
Definition others (ownAddress : option string) : list string :=
  match truthy ownAddress with Some own => filter (fun a => a <> own) l | None => l end.

Lemma filter_other own (k : list string) : own ∉ k -> filter (fun a => a <> own) k = k.
Proof.
  induction k as [|a k IH]; [done|]. intros Hin. rewrite filter_cons_True by set_solver.
  f_equal. apply IH. set_solver.
Qed.

Lemma head_filter own (k : list string) a :
  head k = Some a -> a <> own -> head (filter (fun a => a <> own) k) = Some a.
Proof. destruct k as [|b k]; [done|]. intros [= ->] Ha. by rewrite filter_cons_True. Qed.

Lemma last_filter own (k : list string) a :
  last k = Some a -> a <> own -> last (filter (fun a => a <> own) k) = Some a.
Proof.
  intros Hl Ha. apply last_Some in Hl as [k' ->].
  rewrite filter_app, filter_cons_True by done. apply last_snoc.
Qed.

Lemma avoidZero_spec (l1 l2 : list string) :
  AddressZero ∉ l1 -> AddressZero ∉ l2 ->
  avoidZero (lastOrZero l1) (headOrZero l2) =
  (default (headOrZero l2) (last l1), default (lastOrZero l1) (head l2)).
Proof.
  intros H1 H2. unfold avoidZero, lastOrZero, headOrZero.
  destruct (last l1) as [a|] eqn:Ha; cbn -[AddressZero].
  - assert (String.eqb a AddressZero = false) as ->.
    { apply String.eqb_neq. intros ->. apply H1. by apply last_Some_elem_of. }
    destruct (head l2) as [b|] eqn:Hb; cbn -[AddressZero]; [|by rewrite String.eqb_refl].
    assert (String.eqb b AddressZero = false) as ->; [|done].
    apply String.eqb_neq. intros ->. apply H2. destruct l2; simplify_eq/=. set_solver.
  - rewrite String.eqb_refl. by destruct (head l2).
Qed.

(** What jumping over the own Trove does to an insert position. *)
Lemma jumpOver_spec own l1 l2 :
  own <> Some AddressZero -> l = (l1 ++ l2)%list ->
  exists k1 k2, others own = (k1 ++ k2)%list /\ k1 ⊆ l1 /\ k2 ⊆ l2 /\
    jumpOver hints own (lastOrZero l1) (headOrZero l2) = Ok (lastOrZero k1, headOrZero k2).
Proof.
  intros Hz Hl. unfold others, jumpOver.
  destruct own as [own|]; [|by exists l1, l2]. destruct own as [|c own']; [by exists l1, l2|].
  cbn [truthy]. set (own := String c own') in *. clearbody own. clear c own'.
  assert (own <> AddressZero) as Hza by congruence.
  pose proof st_nodup as Hnd. rewrite Hl in Hnd. apply NoDup_app in Hnd as (Hnd1 & Hdis & Hnd2).
  assert (filter (fun a => a <> own) l =
    (filter (fun a => a <> own) l1 ++ filter (fun a => a <> own) l2)%list) as -> by (by rewrite Hl, filter_app).
  destruct (String.eqb_spec (lastOrZero l1) own) as [Hp|Hp].
  { unfold lastOrZero in Hp. destruct (last l1) as [a|] eqn:Ha; cbn -[AddressZero] in Hp; [|congruence]. subst a.
    apply last_Some in Ha as [k1 ->]. exists k1, l2.
    apply NoDup_app in Hnd1 as (_ & Hd1 & _). split_and!.
    - rewrite filter_app, filter_cons_False by naive_solver. rewrite filter_nil, app_nil_r.
      f_equal; apply filter_other; [intros Hin; apply (Hd1 own Hin); set_solver | apply Hdis; set_solver].
    - set_solver.
    - done.
    - unfold lastOrZero. rewrite last_snoc. cbn [default from_option].
      rewrite (st_prev k1 own l2) by (by rewrite Hl, <- app_assoc). done. }
  destruct (String.eqb_spec (headOrZero l2) own) as [Hn|Hn].
  { unfold headOrZero in Hn. destruct l2 as [|a k2]; cbn -[AddressZero] in Hn; [congruence|]. subst a.
    exists l1, k2. apply NoDup_cons in Hnd2 as [Hin2 _]. split_and!.
    - rewrite filter_cons_False by naive_solver.
      f_equal; apply filter_other; [intros Hin; apply (Hdis own Hin); set_solver | done].
    - done.
    - set_solver.
    - cbn [headOrZero head default from_option]. by rewrite (st_next l1 own k2). }
  exists (filter (fun a => a <> own) l1), (filter (fun a => a <> own) l2). split_and!; [done | | |].
  - intros a [_ ?]%list_elem_of_filter. done.
  - intros a [_ ?]%list_elem_of_filter. done.
  - do 2 f_equal.
    + unfold lastOrZero in *. destruct (last l1) as [a|] eqn:Ha; cbn in Hp |- *.
      * by rewrite (last_filter own l1 a).
      * apply last_None in Ha as ->. done.
    + unfold headOrZero in *. destruct l2 as [|a k2]; cbn -[filter AddressZero] in Hn |- *; [done|].
      by rewrite filter_cons_True.
Qed.

Lemma position_ordered l1 l2 n :
  l = (l1 ++ l2)%list ->
  (forall a, last l1 = Some a -> n <= nicr a) -> (forall a, head l2 = Some a -> nicr a <= n) ->
  Forall (fun a => n <= nicr a) l1 /\ Forall (fun a => nicr a <= n) l2.
Proof.
  intros Hl H1 H2. pose proof st_sorted as Hs. rewrite Hl in Hs. split.
  - destruct (last l1) as [b|] eqn:Hb; [|by apply last_None in Hb as ->].
    specialize (H1 b eq_refl). apply last_Some in Hb as [k ->].
    apply Forall_app. split; [|by apply Forall_singleton].
    rewrite <- app_assoc in Hs. clear - Hs H1. induction k as [|a k IH]; [done|].
    apply StronglySorted_inv in Hs as [Hs Hall]. constructor; [|by apply IH].
    rewrite Forall_forall in Hall. specialize (Hall b). cbn in Hall. 
    assert (nicr b <= nicr a) by (apply Hall; set_solver). lia.
  - destruct l2 as [|b k]; [done|]. specialize (H2 b eq_refl). clear - Hs H2.
    induction l1 as [|a l1 IH]; [|apply StronglySorted_inv in Hs as [Hs _]; by apply IH].
    apply StronglySorted_inv in Hs as [_ Hall]. constructor; [done|].
    eapply Forall_impl; [exact Hall|]. cbn. lia.
Qed.

Lemma collect_ok n trials seed : exists rs,
  collectApproxHints hints n seed trials = Ok rs /\ List.length rs = List.length trials.
Proof.
  revert seed. induction trials as [|k trials IH]; intros seed; simpl; [by exists []|].
  destruct (st_approx n k seed) as [r ->]. cbn [bind].
  destruct (IH (latestRandomSeed r)) as (rs & -> & Hlen). exists (r :: rs). split; [done|].
  cbn. by rewrite Hlen.
Qed.

(** C24. The hints for a finite ratio are the neighbours of the position where the Trove
    belongs among the other Troves, its own old entry left out; where there is no neighbour on
    one side the one on the other side is given twice, so that the zero address is only ever
    a hint when there are no other Troves. *)
Theorem hints_are_neighbours n own seed :
  Decimal.infinite n = None -> own <> Some AddressZero ->
  exists upper lower l1 l2,
    _findHintsForNominalCollateralRatio hints (Ok (Z.of_nat (List.length l))) seed n own = Ok (upper, lower) /\
    others own = (l1 ++ l2)%list /\
    Forall (fun a => big n <= nicr a) l1 /\ Forall (fun a => nicr a <= big n) l2 /\
    upper = default (headOrZero l2) (last l1) /\ lower = default (lastOrZero l1) (head l2) /\
    (upper = AddressZero \/ lower = AddressZero -> others own = []).
Proof.
  intros Hinf Hz. unfold _findHintsForNominalCollateralRatio. cbn [bind].
  destruct (Z.eqb_spec (Z.of_nat (List.length l)) 0) as [Hlen|Hlen].
  { assert (l = []) as Hl by (destruct l; [done | simpl in Hlen; lia]).
    exists AddressZero, AddressZero, [], []. unfold others. rewrite Hl. by destruct (truthy own). }
  rewrite Hinf. destruct (generateTrials_spec (numberOfTrialsFor (Z.of_nat (List.length l))))
    as (trials & Ht & Hne & _); [apply numberOfTrials_pos; lia|].
  rewrite Ht. cbn [bind]. destruct (collect_ok n trials seed) as (rs & -> & Hrs). cbn [bind].
  destruct rs as [|r rs]; [by destruct trials|]. cbn [bestApproxHint bind].
  set (best := hintAddress _). destruct (st_position n best best) as (l1 & l2 & Hl & -> & H1 & H2).
  cbn [bind]. destruct (position_ordered l1 l2 (big n) Hl H1 H2) as [Ho1 Ho2].
  destruct (jumpOver_spec own l1 l2 Hz Hl) as (k1 & k2 & Hk & Hs1 & Hs2 & ->). cbn [bind].
  pose proof st_zero as Hzero. rewrite Hl in Hzero.
  assert (AddressZero ∉ k1) as Hz1 by set_solver. assert (AddressZero ∉ k2) as Hz2 by set_solver.
  rewrite avoidZero_spec by done. do 2 eexists. exists k1, k2. split_and!; try done.
  - rewrite Forall_forall in Ho1 |- *. auto.
  - rewrite Forall_forall in Ho2 |- *. auto.
  - rewrite Hk. unfold headOrZero, lastOrZero.
    destruct (last k1) as [a|] eqn:Ha; destruct k2 as [|b k2]; cbn; try (apply last_Some_elem_of in Ha).
    + intros [->| ->]; done.
    + intros [->| ->]; set_solver.
    + apply last_None in Ha as ->. done.
    + intros [->| ->]; set_solver.
Qed.
End neighbours.

(** ** An instance *)

(** Three Troves in descending order of their ratio. *)
Section sample.
Definition sampleTroves : list string := ["0xa"; "0xb"; "0xc"].
Definition sampleNicr (a : string) : Z :=
  if String.eqb a "0xa" then 300 else if String.eqb a "0xb" then 200 else 100.

Definition sampleHints : HintContracts :=
  mkHintContracts (fun _ _ seed => Ok (mkApprox "0xa" 0 (seed + 1)))
    (fun amount _ _ => Ok (mkRedemptionHints "0xc" 0 (big amount)))
    (Ok "0xa")
    (fun a => Ok (if String.eqb a "0xa" then AddressZero else if String.eqb a "0xb" then "0xa" else "0xb"))
    (fun a => Ok (if String.eqb a "0xa" then "0xb" else if String.eqb a "0xb" then "0xc" else AddressZero))
    (fun n _ _ => Ok (if 300 <? big n then (AddressZero, "0xa") else if 200 <? big n then ("0xa", "0xb")
                      else if 100 <? big n then ("0xb", "0xc") else ("0xc", AddressZero))).

Local Ltac change_nicr := unfold sampleNicr; cbn [String.eqb Ascii.eqb Bool.eqb].

Lemma sample_laws : SortedTrovesLaws sampleHints sampleNicr sampleTroves.
Proof.
  constructor.
  - apply (bool_decide_unpack _). vm_compute. exact I.
  - apply (bool_decide_unpack _). vm_compute. exact I.
  - repeat constructor; vm_compute; discriminate.
  - reflexivity.
  - intros l1 a l2 H. unfold sampleTroves in H. destruct l1 as [|? [|? [|? [|? ?]]]]; simplify_eq/=; reflexivity.
  - intros l1 a l2 H. unfold sampleTroves in H. destruct l1 as [|? [|? [|? [|? ?]]]]; simplify_eq/=; reflexivity.
  - intros n p q. simpl. destruct (Z.ltb_spec 300 (big n)); [|destruct (Z.ltb_spec 200 (big n));
      [|destruct (Z.ltb_spec 100 (big n))]].
    + exists [], sampleTroves. split_and!; [reflexivity | reflexivity | by intros | intros a [= <-]; change_nicr; lia].
    + exists ["0xa"], ["0xb"; "0xc"]. split_and!; [reflexivity | reflexivity | |]; intros a [= <-]; change_nicr; lia.
    + exists ["0xa"; "0xb"], ["0xc"]. split_and!; [reflexivity | reflexivity | |]; intros a [= <-]; change_nicr; lia.
    + exists sampleTroves, []. split_and!; [reflexivity | reflexivity | intros a [= <-]; change_nicr; lia | by intros].
  - intros. by eexists.
Qed.

(** The second Trove moves up: its neighbours are the first one and the third one. *)
Lemma hints_are_neighbours_witness :
  exists upper lower,
    _findHintsForNominalCollateralRatio sampleHints (Ok 3) 0 (dec 250) (Some "0xb") = Ok (upper, lower) /\
    upper <> AddressZero /\ lower <> AddressZero.
Proof.
  destruct (@hints_are_neighbours _ ZBN_laws sampleHints sampleNicr sampleTroves sample_laws
    (dec 250) (Some "0xb") 0 eq_refl ltac:(discriminate)) as (upper & lower & l1 & l2 & H & _ & _ & _ & _ & _ & Hz).
  exists upper, lower. split; [exact H|].
  assert (others sampleTroves (Some "0xb") <> []) as Hne by (vm_compute; discriminate).
  split; intros E; apply Hne, Hz; [left | right]; exact E.
Defined.
End sample.
