(* ===== verification/Population.v ===== *)
(** * Preparing transactions

    [packages/lib-ethers/src/PopulatableEthersLiquity.ts] and [buildEstimatedFunctions] of
    [contracts.ts]: the transactions of the protocol with their parameters, gas limits and
    hints, as they are handed to the ethers library for encoding.

    A [RawTx] is the request given to [populateTransaction]: the contract's function with its
    arguments and overrides.  Gas estimates come from the node and are a parameter; so are the
    contracts and the random seed of the hint search.  Tolerances in minutes are integers. *)

From S2P Require Import Prelude JsString BigNumber Decimal DecimalArith Constants Trove TroveTheory Fees StabilityDeposit LQTYStake ReadableLiquity EthersReadable PolledStore PolledStoreTheory Hints.
From stdpp Require Import pretty.
From Stdlib Require Import Ascii String.

Local Open Scope string_scope.
Local Open Scope Z_scope.

(** ** Requests *)

(** [EthersTransactionOverrides] *)
Record TxOverrides := mkTxOverrides { tx_from : option string; tx_gasLimit : option Z }.

Inductive Arg := Hex (s : string) | Address (s : string) | Addresses (l : list string)
               | Flag (b : bool) | Number (n : Z).

Record RawTx := mkTx {
  tx_contract : string;
  tx_function : string;
  tx_args : list Arg;
  tx_value : option string;
  tx_overrides : TxOverrides
}.

Record PopulatedTx := mkPopulated { rawPopulatedTransaction : RawTx; gasHeadroom : option Z }.

Definition withGasLimit (overrides : TxOverrides) (gasLimit : Z) : TxOverrides :=
  mkTxOverrides (tx_from overrides) (Some gasLimit).

(** ** Gas *)

Section gas.
Context `{BN : BigNumber}.

Definition bigNumberMax (a : Z) (b : option Z) : Z :=
  match b with Some b => if bn_gt b a then b else a | None => a end.

Definition addGasForBaseRateUpdate (maxMinutesSinceLastUpdate : Z) (gas : Z) : Z :=
  bn_add gas (10000 + 1414 * Z.log2_up (maxMinutesSinceLastUpdate + 1)).

Definition addGasForPotentialListTraversal (gas : Z) : Z := bn_add gas 80000.
Definition addGasForLQTYIssuance (gas : Z) : Z := bn_add gas 50000.
Definition addGasForUnipoolRewardUpdate (gas : Z) : Z := bn_add gas 20000.
Definition compose {T U V} (f : U -> V) (g : T -> U) (t : T) : V := f (g t).

Definition defaultBorrowingRateSlippageTolerance : result Decimal := Decimal.from (FromNumber "0.005").
Definition defaultRedemptionRateSlippageTolerance : result Decimal := Decimal.from (FromNumber "0.001").
Definition defaultBorrowingFeeDecayToleranceMinutes : Z := 10.

(** ** Optional parameters of a borrowing *)

Inductive BorrowingParams :=
| NoParams
| MaxRate (maxBorrowingRate : Decimalish)
| Params (maxBorrowingRate : option Decimalish) (borrowingFeeDecayToleranceMinutes : option Z).

(** The current rate with the default tolerance, zero where nothing is borrowed. *)
Definition defaultMaxBorrowingRate (currentBorrowingRate : option Decimal) : result Decimal :=
  match currentBorrowingRate with
  | Some rate =>
      let* tolerance := defaultBorrowingRateSlippageTolerance in Decimal.add rate tolerance
  | None => Ok Decimal.ZERO
  end.

Definition normalizeBorrowingOperationOptionalParams (params : BorrowingParams)
    (currentBorrowingRate : option Decimal) : result (Decimal * Z) :=
  match params with
  | NoParams =>
      let* rate := defaultMaxBorrowingRate currentBorrowingRate in
      Ok (rate, defaultBorrowingFeeDecayToleranceMinutes)
  | MaxRate rate =>
      let* rate := Decimal.from rate in Ok (rate, defaultBorrowingFeeDecayToleranceMinutes)
  | Params rate minutes =>
      let* rate :=
        match rate with
        | Some rate => Decimal.from rate
        | None => defaultMaxBorrowingRate currentBorrowingRate
        end in
      Ok (rate, default defaultBorrowingFeeDecayToleranceMinutes minutes)
  end.
End gas.

(** ** Operations *)

Section operations.
Context `{BN : BigNumber} (contracts : Contracts) (connection : Connection).
Context (hints : HintContracts) (randomSeed : Z) (estimateGas : RawTx -> result Z).

Definition requireSender (overrides : option TxOverrides) : result string :=
  ReadableEthersLiquity.requireAddress connection (overrides ≫= tx_from).

Definition _prepareOverrides (overrides : option TxOverrides) : result TxOverrides :=
  let* from := requireSender overrides in
  Ok (mkTxOverrides (Some from) (overrides ≫= tx_gasLimit)).

(** [contract.estimateAndPopulate[functionName]] *)
Definition estimateAndPopulate (contract functionName : string) (overrides : TxOverrides)
    (adjustEstimate : Z -> Z) (args : list Arg) : result PopulatedTx :=
  let* overrides :=
    match tx_gasLimit overrides with
    | None =>
        let* estimatedGas := estimateGas (mkTx contract functionName args None overrides) in
        Ok (withGasLimit overrides (adjustEstimate estimatedGas))
    | Some _ => Ok overrides
    end in
  Ok (mkPopulated (mkTx contract functionName args None overrides) None).

Definition findHints (trove : Trove) (ownAddress : option string) : result (string * string) :=
  _findHints hints (ReadableEthersLiquity.getNumberOfTroves contracts None) randomSeed
    (Current trove) ownAddress.

(** *** Opening a Trove *)

Definition normalizedCreation (p : TroveCreationParams Decimal) : list (string * option Decimalish) :=
  [ ("depositCollateral", Some (FromDecimal (c_depositCollateral p)));
    ("borrowLUSD", Some (FromDecimal (c_borrowLUSD p))) ].

Definition debtWarning (minutes : Z) : result error :=
  let* minimum := Decimal.toString LUSD_MINIMUM_DEBT None in
  Ok (JsError ("Trove's debt might fall below " +:+ minimum +:+ " within " +:+ pretty minutes +:+ " minutes")).

(** The gas limit of a borrowing: room for a longer traversal of the list now or for the
    position the Trove would have after the borrowing fee has decayed, and for the update of
    the base rate. *)
Definition openTroveGasLimit (minutes gasNow gasLater : Z) : Z :=
  addGasForBaseRateUpdate minutes
    (bigNumberMax (addGasForPotentialListTraversal gasNow) (Some gasLater)).

Definition openTroveTx (maxBorrowingRate depositCollateral borrowLUSD : Decimal)
    (hintPair : string * string) (overrides : TxOverrides) : RawTx :=
  mkTx "borrowerOperations" "openTrove"
    [ Hex (Decimal.hex maxBorrowingRate); Hex (Decimal.hex borrowLUSD);
      Address hintPair.1; Address hintPair.2 ]
    (Some (Decimal.hex depositCollateral)) overrides.

Definition openTrove (params : list (string * option Decimalish)) (optional : BorrowingParams)
    (overrides : option TxOverrides) : result PopulatedTx :=
  let* overrides := _prepareOverrides overrides in
  let* normalizedParams := Trove._normalizeTroveCreation params in
  let* fees := ReadableEthersLiquity._getFeesFactory contracts None in
  let* blockTimestamp := ReadableEthersLiquity._getBlockTimestamp contracts None in
  let* total := ReadableEthersLiquity.getTotal contracts None in
  let* price := ReadableEthersLiquity.getPrice contracts None in
  let* recoveryMode := Trove.collateralRatioIsBelowCritical total price in
  let decayBorrowingRate (seconds : Z) :=
    let* f := FeesFactory_call fees (blockTimestamp + seconds) recoveryMode in
    Fees.borrowingRate f None in
  let* currentBorrowingRate := decayBorrowingRate 0 in
  let* newTrove := Trove.create (normalizedCreation normalizedParams) currentBorrowingRate in
  let* hintPair := findHints newTrove None in
  let* '(maxBorrowingRate, minutes) :=
    normalizeBorrowingOperationOptionalParams optional (Some currentBorrowingRate) in
  let txParams borrowLUSD overrides :=
    openTroveTx maxBorrowingRate (c_depositCollateral normalizedParams) borrowLUSD hintPair overrides in
  let* '(overrides, gasHeadroom) :=
    match tx_gasLimit overrides with
    | None =>
        let* decayedBorrowingRate := decayBorrowingRate (60 * minutes) in
        let* decayedTrove := Trove.create (normalizedCreation normalizedParams) decayedBorrowingRate in
        let* simulated := Trove.recreate decayedTrove currentBorrowingRate in
        if Decimal.ltD (debt decayedTrove) LUSD_MINIMUM_DEBT then
          let* e := debtWarning minutes in Err e
        else
          let* gasNow := estimateGas (txParams (c_borrowLUSD normalizedParams) overrides) in
          let* gasLater := estimateGas (txParams (c_borrowLUSD simulated) overrides) in
          let gasLimit := openTroveGasLimit minutes gasNow gasLater in
          let* headroom := bn_toNumber (bn_sub gasLimit gasNow) in
          Ok (withGasLimit overrides gasLimit, Some headroom)
    | Some _ => Ok (overrides, None)
    end in
  Ok (mkPopulated (txParams (c_borrowLUSD normalizedParams) overrides) gasHeadroom).

Definition closeTrove (overrides : option TxOverrides) : result PopulatedTx :=
  let* overrides := _prepareOverrides overrides in
  estimateAndPopulate "borrowerOperations" "closeTrove" overrides id [].

(** *** Adjusting a Trove *)

Definition normalizedAdjustment (p : TroveAdjustmentParams Decimal) : list (string * option Decimalish) :=
  [ ("depositCollateral", FromDecimal <$> depositCollateral p);
    ("withdrawCollateral", FromDecimal <$> withdrawCollateral p);
    ("borrowLUSD", FromDecimal <$> borrowLUSD p);
    ("repayLUSD", FromDecimal <$> repayLUSD p) ].

Definition adjustTroveTx (p : TroveAdjustmentParams Decimal) (maxBorrowingRate : Decimal)
    (borrow : option Decimal) (hintPair : string * string) (overrides : TxOverrides) : RawTx :=
  mkTx "borrowerOperations" "adjustTrove"
    [ Hex (Decimal.hex maxBorrowingRate);
      Hex (Decimal.hex (default Decimal.ZERO (withdrawCollateral p)));
      Hex (Decimal.hex (default (default Decimal.ZERO (repayLUSD p)) borrow));
      Flag (if borrow is Some _ then true else false);
      Address hintPair.1; Address hintPair.2 ]
    (Decimal.hex <$> depositCollateral p) overrides.

(** The reader's values that only a borrowing needs. *)
Definition readFeeVars : result (FeesFactory * Z * Trove * Decimal) :=
  let* fees := ReadableEthersLiquity._getFeesFactory contracts None in
  let* blockTimestamp := ReadableEthersLiquity._getBlockTimestamp contracts None in
  let* total := ReadableEthersLiquity.getTotal contracts None in
  let* price := ReadableEthersLiquity.getPrice contracts None in
  Ok (fees, blockTimestamp, total, price).

Definition decayBorrowingRate (feeVars : option (FeesFactory * Z * Trove * Decimal)) (seconds : Z) :
    result (option Decimal) :=
  match feeVars with
  | Some (fees, blockTimestamp, total, price) =>
      let* recoveryMode := Trove.collateralRatioIsBelowCritical total price in
      let* f := FeesFactory_call fees (blockTimestamp + seconds) recoveryMode in
      rmap Some (Fees.borrowingRate f None)
  | None => Ok None
  end.

(** An [undefined] rate is replaced by the default of [adjust] and [adjustTo]. *)
Definition orMinimumRate (rate : option Decimal) : Decimal := default MINIMUM_BORROWING_RATE rate.

Definition adjustTroveGasLimit (borrowing : bool) (minutes gasNow : Z) (gasLater : option Z) : Z :=
  let gasLimit := bigNumberMax (addGasForPotentialListTraversal gasNow) gasLater in
  if borrowing then addGasForBaseRateUpdate minutes gasLimit else gasLimit.

Definition adjustTrove (params : list (string * option Decimalish)) (optional : BorrowingParams)
    (overrides : option TxOverrides) : result PopulatedTx :=
  let* overrides := _prepareOverrides overrides in
  let* p := Trove._normalizeTroveAdjustment params in
  let* trove := ReadableEthersLiquity.getTrove contracts connection (tx_from overrides) None in
  let trove := ut_trove trove in
  let* feeVars := match borrowLUSD p with Some _ => rmap Some readFeeVars | None => Ok None end in
  let* currentBorrowingRate := decayBorrowingRate feeVars 0 in
  let* adjustedTrove := Trove.adjust trove (normalizedAdjustment p) (orMinimumRate currentBorrowingRate) in
  let* hintPair := findHints adjustedTrove (tx_from overrides) in
  let* '(maxBorrowingRate, minutes) :=
    normalizeBorrowingOperationOptionalParams optional currentBorrowingRate in
  let txParams borrow overrides := adjustTroveTx p maxBorrowingRate borrow hintPair overrides in
  let* '(overrides, gasHeadroom) :=
    match tx_gasLimit overrides with
    | None =>
        let* decayedBorrowingRate := decayBorrowingRate feeVars (60 * minutes) in
        let* decayedTrove := Trove.adjust trove (normalizedAdjustment p) (orMinimumRate decayedBorrowingRate) in
        let* simulated := Trove.adjustTo trove decayedTrove (orMinimumRate currentBorrowingRate) in
        if Decimal.ltD (debt decayedTrove) LUSD_MINIMUM_DEBT then
          let* e := debtWarning minutes in Err e
        else
          let* gasNow := estimateGas (txParams (borrowLUSD p) overrides) in
          let* gasLater :=
            match borrowLUSD p with
            | Some _ => rmap Some (estimateGas (txParams (borrowLUSD simulated) overrides))
            | None => Ok None
            end in
          let gasLimit :=
            adjustTroveGasLimit (if borrowLUSD p is Some _ then true else false) minutes gasNow gasLater in
          let* headroom := bn_toNumber (bn_sub gasLimit gasNow) in
          Ok (withGasLimit overrides gasLimit, Some headroom)
    | Some _ => Ok (overrides, None)
    end in
  Ok (mkPopulated (txParams (borrowLUSD p) overrides) gasHeadroom).

(** *** Redeeming *)

(** [PopulatedEthersRedemption]: [_increaseAmountByMinimumNetDebt] is what the closure captures,
    the amount that the next attempt redeems and the rate it was given. *)
Record PopulatedRedemption := mkRedemption {
  redemptionTx : PopulatedTx;
  attemptedLUSDAmount : Decimal;
  redeemableLUSDAmount : Decimal;
  isTruncated : bool;
  _increaseAmountByMinimumNetDebt : option (Decimal * option Decimalish)
}.

Definition noPartialHints : string * string * Z := (AddressZero, AddressZero, 0).

Definition defaultMaxRedemptionRate (fees : Fees) (total : Trove) (amount : Decimal) : result Decimal :=
  let* fraction := Decimal.div amount (debt total) in
  let* rate := Fees.redemptionRate fees fraction None in
  let* tolerance := defaultRedemptionRateSlippageTolerance in
  let* rate := Decimal.add rate tolerance in
  Decimal.min rate Decimal.ONE.

Definition redemptionArgs (amount : Decimal) (firstHint : string) (partialHints : string * string * Z)
    (maxRate : Decimal) : list Arg :=
  let '(upper, lower, NICR) := partialHints in
  [ Hex (Decimal.hex amount); Address firstHint; Address upper; Address lower; Number NICR;
    Number _redeemMaxIterations; Hex (Decimal.hex maxRate) ].

Definition populateRedemption (overrides : TxOverrides) (fees : Fees) (total : Trove)
    (firstHint : string) (attempted : Decimal) (maxRedemptionRate : option Decimalish)
    (truncatedAmount : Decimal) (partialHints : string * string * Z) : result PopulatedRedemption :=
  let* maxRate :=
    match maxRedemptionRate with
    | Some rate => Decimal.from rate
    | None => defaultMaxRedemptionRate fees total truncatedAmount
    end in
  let* tx := estimateAndPopulate "troveManager" "redeemCollateral" overrides
               (addGasForBaseRateUpdate 10) (redemptionArgs truncatedAmount firstHint partialHints maxRate) in
  let truncated := Decimal.ltD truncatedAmount attempted in
  let* next := if truncated then rmap Some (Decimal.add truncatedAmount LUSD_MINIMUM_NET_DEBT) else Ok None in
  Ok (mkRedemption tx attempted truncatedAmount truncated
        ((fun amount => (amount, maxRedemptionRate)) <$> next)).

(** What [redeemLUSD] reads, and the closures share. *)
Record RedemptionContext := mkRedemptionContext {
  rx_overrides : TxOverrides; rx_fees : Fees; rx_total : Trove; rx_firstHint : string
}.

Definition redeemLUSD (amount : Decimalish) (maxRedemptionRate : option Decimalish)
    (overrides : option TxOverrides) : result (PopulatedRedemption * RedemptionContext) :=
  let* preparedOverrides := _prepareOverrides overrides in
  let* attempted := Decimal.from amount in
  let* fees := ReadableEthersLiquity.getFees contracts None in
  let* total := ReadableEthersLiquity.getTotal contracts None in
  let* '(truncatedAmount, firstHint, partialHints) :=
    _findRedemptionHints hints (ReadableEthersLiquity.getNumberOfTroves contracts None)
      (ReadableEthersLiquity.getPrice contracts None) randomSeed attempted in
  if Decimal.isZero truncatedAmount then
    let* minimum := Decimal.toString LUSD_MINIMUM_NET_DEBT None in
    Err (JsError ("redeemLUSD: amount too low to redeem (try at least " +:+ minimum +:+ ")"))
  else
    let* redemption :=
      populateRedemption preparedOverrides fees total firstHint attempted maxRedemptionRate
        truncatedAmount partialHints in
    Ok (redemption, mkRedemptionContext preparedOverrides fees total firstHint).

(** [increaseAmountByMinimumNetDebt] of a redemption that was populated in a context. *)
Definition increaseAmountByMinimumNetDebt (c : RedemptionContext) (redemption : PopulatedRedemption)
    (newMaxRedemptionRate : option Decimalish) : result PopulatedRedemption :=
  match _increaseAmountByMinimumNetDebt redemption with
  | None =>
      Err (JsError ("PopulatedEthersRedemption: increaseAmountByMinimumNetDebt() can " +:+
                    "only be called when amount is truncated"))
  | Some (amount, maxRedemptionRate) =>
      populateRedemption (rx_overrides c) (rx_fees c) (rx_total c) (rx_firstHint c) amount
        (match newMaxRedemptionRate with Some r => Some r | None => maxRedemptionRate end)
        amount noPartialHints
  end.
End operations.

Module PopulatableEthersLiquity.
Section methods.
Context `{BN : BigNumber} (contracts : Contracts) (connection : Connection).
Context (hints : HintContracts) (randomSeed : Z) (estimateGas : RawTx -> result Z).
(** Which contracts of the deployment are the ones made for tests. *)
Context (priceFeedIsTestnet uniTokenIsMock : bool).

(** A transaction of one contract function, with the sender's overrides. *)
Definition simple (contract functionName : string) (adjust : Z -> Z) (overrides : option TxOverrides)
    (args : result (list Arg)) : result PopulatedTx :=
  let* overrides := _prepareOverrides connection overrides in
  let* args := args in
  estimateAndPopulate estimateGas contract functionName overrides adjust args.

Definition amountArg (amount : Decimalish) : result (list Arg) :=
  let* d := Decimal.from amount in Ok [Hex (Decimal.hex d)].

Definition claimCollateralSurplus (overrides : option TxOverrides) : result PopulatedTx :=
  simple "borrowerOperations" "claimCollateral" id overrides (Ok []).

Definition setPrice (price : Decimalish) (overrides : option TxOverrides) : result PopulatedTx :=
  simple "priceFeed" "setPrice" id overrides
    (if priceFeedIsTestnet then amountArg price
     else Err (JsError "setPrice() unavailable on this deployment of Liquity")).

Definition liquidate (address : string + list string) (overrides : option TxOverrides) :
    result PopulatedTx :=
  match address with
  | inr addresses =>
      simple "troveManager" "batchLiquidateTroves" addGasForLQTYIssuance overrides (Ok [Addresses addresses])
  | inl address =>
      simple "troveManager" "liquidate" addGasForLQTYIssuance overrides (Ok [Address address])
  end.

Definition liquidateUpTo (maximumNumberOfTrovesToLiquidate : Z) (overrides : option TxOverrides) :
    result PopulatedTx :=
  simple "troveManager" "liquidateTroves" addGasForLQTYIssuance overrides
    (Ok [Number maximumNumberOfTrovesToLiquidate]).

Definition depositLUSDInStabilityPool (amount : Decimalish) (frontendTag : option string)
    (overrides : option TxOverrides) : result PopulatedTx :=
  simple "stabilityPool" "provideToSP" addGasForLQTYIssuance overrides
    (let* depositLUSD := Decimal.from amount in
     Ok [ Hex (Decimal.hex depositLUSD);
          Address (match frontendTag, cn_frontendTag connection with
                   | Some tag, _ | None, Some tag => tag
                   | None, None => AddressZero
                   end) ]).

Definition withdrawLUSDFromStabilityPool (amount : Decimalish) (overrides : option TxOverrides) :
    result PopulatedTx :=
  simple "stabilityPool" "withdrawFromSP" addGasForLQTYIssuance overrides (amountArg amount).

Definition withdrawGainsFromStabilityPool (overrides : option TxOverrides) : result PopulatedTx :=
  simple "stabilityPool" "withdrawFromSP" addGasForLQTYIssuance overrides
    (Ok [Hex (Decimal.hex Decimal.ZERO)]).

Definition transferCollateralGainToTrove (overrides : option TxOverrides) : result PopulatedTx :=
  let* overrides := _prepareOverrides connection overrides in
  let* initialTrove := ReadableEthersLiquity.getTrove contracts connection (tx_from overrides) None in
  let* stabilityDeposit :=
    ReadableEthersLiquity.getStabilityDeposit contracts connection (tx_from overrides) None in
  let* finalTrove := Trove.addCollateral (ut_trove initialTrove) (sd_collateralGain stabilityDeposit) in
  let* hintPair := findHints contracts hints randomSeed finalTrove (tx_from overrides) in
  estimateAndPopulate estimateGas "stabilityPool" "withdrawETHGainToTrove" overrides
    (compose addGasForPotentialListTraversal addGasForLQTYIssuance)
    [Address hintPair.1; Address hintPair.2].

Definition sendLUSD (toAddress : string) (amount : Decimalish) (overrides : option TxOverrides) :
    result PopulatedTx :=
  simple "lusdToken" "transfer" id overrides
    (let* args := amountArg amount in Ok (Address toAddress :: args)).

Definition sendLQTY (toAddress : string) (amount : Decimalish) (overrides : option TxOverrides) :
    result PopulatedTx :=
  simple "lqtyToken" "transfer" id overrides
    (let* args := amountArg amount in Ok (Address toAddress :: args)).

Definition stakeLQTY (amount : Decimalish) (overrides : option TxOverrides) : result PopulatedTx :=
  simple "lqtyStaking" "stake" id overrides (amountArg amount).

Definition unstakeLQTY (amount : Decimalish) (overrides : option TxOverrides) : result PopulatedTx :=
  simple "lqtyStaking" "unstake" id overrides (amountArg amount).

Definition withdrawGainsFromStaking (overrides : option TxOverrides) : result PopulatedTx :=
  unstakeLQTY Decimal.ZERO overrides.

Definition registerFrontend (kickbackRate : Decimalish) (overrides : option TxOverrides) :
    result PopulatedTx :=
  simple "stabilityPool" "registerFrontEnd" id overrides (amountArg kickbackRate).

Definition _mintUniToken (amount : Decimalish) (address : option string)
    (overrides : option TxOverrides) : result PopulatedTx :=
  let* address := match address with Some a => Ok a | None => requireSender connection overrides end in
  simple "uniToken" "mint" id overrides
    (if uniTokenIsMock then let* args := amountArg amount in Ok (Address address :: args)
     else Err (JsError "_mintUniToken() unavailable on this deployment of Liquity")).

Definition approveUniTokens (allowance : option Decimalish) (overrides : option TxOverrides) :
    result PopulatedTx :=
  simple "uniToken" "approve" id overrides
    (let* args := amountArg (default (FromDecimal Decimal.INFINITY) allowance) in
     Ok (Address (unipool_address contracts) :: args)).

Definition stakeUniTokens (amount : Decimalish) (overrides : option TxOverrides) : result PopulatedTx :=
  simple "unipool" "stake" addGasForUnipoolRewardUpdate overrides (amountArg amount).

Definition unstakeUniTokens (amount : Decimalish) (overrides : option TxOverrides) : result PopulatedTx :=
  simple "unipool" "withdraw" addGasForUnipoolRewardUpdate overrides (amountArg amount).

Definition withdrawLQTYRewardFromLiquidityMining (overrides : option TxOverrides) : result PopulatedTx :=
  simple "unipool" "claimReward" addGasForUnipoolRewardUpdate overrides (Ok []).

Definition exitLiquidityMining (overrides : option TxOverrides) : result PopulatedTx :=
  simple "unipool" "withdrawAndClaim" addGasForUnipoolRewardUpdate overrides (Ok []).

Local Notation adjust := (adjustTrove contracts connection hints randomSeed estimateGas).

Definition depositCollateral (amount : Decimalish) (overrides : option TxOverrides) : result PopulatedTx :=
  adjust [("depositCollateral", Some amount)] NoParams overrides.

Definition withdrawCollateral (amount : Decimalish) (overrides : option TxOverrides) : result PopulatedTx :=
  adjust [("withdrawCollateral", Some amount)] NoParams overrides.

Definition borrowLUSD (amount : Decimalish) (maxBorrowingRate : option Decimalish)
    (overrides : option TxOverrides) : result PopulatedTx :=
  adjust [("borrowLUSD", Some amount)]
    (match maxBorrowingRate with Some rate => MaxRate rate | None => NoParams end) overrides.

Definition repayLUSD (amount : Decimalish) (overrides : option TxOverrides) : result PopulatedTx :=
  adjust [("repayLUSD", Some amount)] NoParams overrides.
End methods.
End PopulatableEthersLiquity.

(** ** Every operation *)

(** The transactions a client can ask for, but for the redemption, which has more to return. *)
Inductive Operation :=
| OpenTrove (params : list (string * option Decimalish)) (optional : BorrowingParams)
| CloseTrove
| AdjustTrove (params : list (string * option Decimalish)) (optional : BorrowingParams)
| DepositCollateral' (amount : Decimalish) | WithdrawCollateral' (amount : Decimalish)
| BorrowLUSD' (amount : Decimalish) (maxBorrowingRate : option Decimalish)
| RepayLUSD' (amount : Decimalish)
| ClaimCollateralSurplus | SetPrice (price : Decimalish)
| Liquidate (address : string + list string) | LiquidateUpTo (maximum : Z)
| DepositInStabilityPool (amount : Decimalish) (frontendTag : option string)
| WithdrawFromStabilityPool (amount : Decimalish) | WithdrawStabilityGains | TransferGainToTrove
| SendLUSD (toAddress : string) (amount : Decimalish) | SendLQTY (toAddress : string) (amount : Decimalish)
| StakeLQTY (amount : Decimalish) | UnstakeLQTY (amount : Decimalish) | WithdrawStakingGains
| RegisterFrontend (kickbackRate : Decimalish)
| MintUniToken (amount : Decimalish) (address : option string)
| ApproveUniTokens (allowance : option Decimalish)
| StakeUniTokens (amount : Decimalish) | UnstakeUniTokens (amount : Decimalish)
| WithdrawMiningReward | ExitMining.

Section theorems.
Context `{BNL : BigNumberLaws} (contracts : Contracts) (connection : Connection).
Context (hints : HintContracts) (randomSeed : Z) (estimateGas : RawTx -> result Z).
Context (priceFeedIsTestnet uniTokenIsMock : bool).

Import PopulatableEthersLiquity.

Definition populate (op : Operation) (overrides : option TxOverrides) : result PopulatedTx :=
  match op with
  | OpenTrove params optional => openTrove contracts connection hints randomSeed estimateGas params optional overrides
  | CloseTrove => closeTrove connection estimateGas overrides
  | AdjustTrove params optional => adjustTrove contracts connection hints randomSeed estimateGas params optional overrides
  | DepositCollateral' amount => depositCollateral contracts connection hints randomSeed estimateGas amount overrides
  | WithdrawCollateral' amount => withdrawCollateral contracts connection hints randomSeed estimateGas amount overrides
  | BorrowLUSD' amount rate => borrowLUSD contracts connection hints randomSeed estimateGas amount rate overrides
  | RepayLUSD' amount => repayLUSD contracts connection hints randomSeed estimateGas amount overrides
  | ClaimCollateralSurplus => claimCollateralSurplus connection estimateGas overrides
  | SetPrice price => setPrice connection estimateGas priceFeedIsTestnet price overrides
  | Liquidate address => liquidate connection estimateGas address overrides
  | LiquidateUpTo maximum => liquidateUpTo connection estimateGas maximum overrides
  | DepositInStabilityPool amount tag => depositLUSDInStabilityPool connection estimateGas amount tag overrides
  | WithdrawFromStabilityPool amount => withdrawLUSDFromStabilityPool connection estimateGas amount overrides
  | WithdrawStabilityGains => withdrawGainsFromStabilityPool connection estimateGas overrides
  | TransferGainToTrove => transferCollateralGainToTrove contracts connection hints randomSeed estimateGas overrides
  | SendLUSD a amount => sendLUSD connection estimateGas a amount overrides
  | SendLQTY a amount => sendLQTY connection estimateGas a amount overrides
  | StakeLQTY amount => stakeLQTY connection estimateGas amount overrides
  | UnstakeLQTY amount => unstakeLQTY connection estimateGas amount overrides
  | WithdrawStakingGains => withdrawGainsFromStaking connection estimateGas overrides
  | RegisterFrontend rate => registerFrontend connection estimateGas rate overrides
  | MintUniToken amount address => _mintUniToken connection estimateGas uniTokenIsMock amount address overrides
  | ApproveUniTokens allowance => approveUniTokens contracts connection estimateGas allowance overrides
  | StakeUniTokens amount => stakeUniTokens connection estimateGas amount overrides
  | UnstakeUniTokens amount => unstakeUniTokens connection estimateGas amount overrides
  | WithdrawMiningReward => withdrawLQTYRewardFromLiquidityMining connection estimateGas overrides
  | ExitMining => exitLiquidityMining connection estimateGas overrides
  end.

(** The request with other overrides. *)
Definition withOverrides (tx : RawTx) (overrides : TxOverrides) : RawTx :=
  mkTx (tx_contract tx) (tx_function tx) (tx_args tx) (tx_value tx) overrides.

(** A transaction is sent from the address asked for, or else from the user's; it keeps a gas
    limit asked for, and otherwise has one that is at least the estimate for the very same
    request. *)
Definition well_prepared (overrides : option TxOverrides) (tx : RawTx) : Prop :=
  exists from, requireSender connection overrides = Ok from /\ tx_from (tx_overrides tx) = Some from /\
    match overrides ≫= tx_gasLimit with
    | Some gasLimit => tx_gasLimit (tx_overrides tx) = Some gasLimit
    | None => exists estimate gasLimit,
        estimateGas (withOverrides tx (mkTxOverrides (Some from) None)) = Ok estimate /\
        tx_gasLimit (tx_overrides tx) = Some gasLimit /\ estimate <= gasLimit
    end.

Lemma prepareOverrides_inv overrides o :
  _prepareOverrides connection overrides = Ok o ->
  exists from, requireSender connection overrides = Ok from /\ o = mkTxOverrides (Some from) (overrides ≫= tx_gasLimit).
Proof.
  unfold _prepareOverrides. destruct (requireSender _ _) as [from|]; cbn [bind]; [|done].
  intros [= <-]. eauto.
Qed.

Lemma estimateAndPopulate_prepared contract fn overrides o adjust args tx :
  (forall g, g <= adjust g) ->
  _prepareOverrides connection overrides = Ok o ->
  estimateAndPopulate estimateGas contract fn o adjust args = Ok tx ->
  well_prepared overrides (rawPopulatedTransaction tx).
Proof.
  intros Hadj (from & Hfrom & ->)%prepareOverrides_inv. unfold estimateAndPopulate, well_prepared. cbn.
  destruct (overrides ≫= tx_gasLimit) as [g|]; cbn.
  - intros [= <-]. exists from. by split_and!.
  - destruct (estimateGas _) as [e|] eqn:He; cbn [bind]; [|done]. intros [= <-].
    exists from. split_and!; [done..|]. exists e, (adjust e). cbn. split_and!; [done | done | apply Hadj].
Qed.

(** The gas adjustments only add. *)
Lemma adjust_id g : g <= id g. Proof. done. Qed.
Lemma adjust_issuance g : g <= addGasForLQTYIssuance g.
Proof. unfold addGasForLQTYIssuance. autorewrite with bn. lia. Qed.
Lemma adjust_unipool g : g <= addGasForUnipoolRewardUpdate g.
Proof. unfold addGasForUnipoolRewardUpdate. autorewrite with bn. lia. Qed.
Lemma adjust_traversal g : g <= compose addGasForPotentialListTraversal addGasForLQTYIssuance g.
Proof. unfold compose, addGasForPotentialListTraversal, addGasForLQTYIssuance. autorewrite with bn. lia. Qed.
Lemma adjust_baseRate minutes g : g + 10000 <= addGasForBaseRateUpdate minutes g.
Proof. unfold addGasForBaseRateUpdate. autorewrite with bn. pose proof (Z.log2_up_nonneg (minutes + 1)). lia. Qed.

Lemma bigNumberMax_spec a b :
  a <= bigNumberMax a b /\ forall c, b = Some c -> c <= bigNumberMax a b.
Proof.
  unfold bigNumberMax. destruct b as [b|]; [|split; [lia | done]].
  autorewrite with bn. destruct (Z.ltb_spec a b); split; try lia; intros c [= <-]; lia.
Qed.

Lemma simple_prepared contract fn adjust overrides args tx :
  (forall g, g <= adjust g) ->
  simple connection estimateGas contract fn adjust overrides args = Ok tx ->
  well_prepared overrides (rawPopulatedTransaction tx).
Proof.
  intros Hadj. unfold simple. destruct (_prepareOverrides _ _) as [o|] eqn:Ho; cbn [bind]; [|done].
  destruct args as [l|]; cbn [bind]; [|done]. by apply estimateAndPopulate_prepared.
Qed.

(** The borrowing rate that the contracts will charge so many seconds after the latest block, as
    the SDK reckons it from what they hold now. *)
Definition chargedAfter (seconds : Z) (rate : Decimal) : Prop :=
  exists fees blockTimestamp total price recoveryMode f,
    ReadableEthersLiquity._getFeesFactory contracts None = Ok fees /\
    ReadableEthersLiquity._getBlockTimestamp contracts None = Ok blockTimestamp /\
    ReadableEthersLiquity.getTotal contracts None = Ok total /\
    ReadableEthersLiquity.getPrice contracts None = Ok price /\
    Trove.collateralRatioIsBelowCritical total price = Ok recoveryMode /\
    FeesFactory_call fees (blockTimestamp + seconds) recoveryMode = Ok f /\
    Fees.borrowingRate f None = Ok rate.

(** The minutes that the borrowing fee may go on decaying for: ten unless they are given. *)
Definition toleratedMinutes (optional : BorrowingParams) : Z :=
  match optional with Params _ (Some minutes) => minutes | _ => 10 end.

Lemma normalize_minutes optional cur maxRate minutes :
  normalizeBorrowingOperationOptionalParams optional cur = Ok (maxRate, minutes) ->
  minutes = toleratedMinutes optional.
Proof.
  destruct optional as [|r|r [m|]]; cbn; intros H; inv_ok; by simplify_eq.
Qed.

(** What [openTrove] has found when it returns a transaction. *)
Lemma openTrove_inv params optional overrides tx :
  openTrove contracts connection hints randomSeed estimateGas params optional overrides = Ok tx ->
  exists from p cur newTrove pair maxRate,
    requireSender connection overrides = Ok from /\ Trove._normalizeTroveCreation params = Ok p /\
    chargedAfter 0 cur /\ Trove.create (normalizedCreation p) cur = Ok newTrove /\
    findHints contracts hints randomSeed newTrove None = Ok pair /\
    let minutes := toleratedMinutes optional in
    normalizeBorrowingOperationOptionalParams optional (Some cur) = Ok (maxRate, minutes) /\
    let request borrow gas := openTroveTx maxRate (c_depositCollateral p) borrow pair
                                (mkTxOverrides (Some from) gas) in
    match overrides ≫= tx_gasLimit with
    | Some g => tx = mkPopulated (request (c_borrowLUSD p) (Some g)) None
    | None => exists rate decayed simulated gasNow gasLater,
        chargedAfter (60 * minutes) rate /\
        Trove.create (normalizedCreation p) rate = Ok decayed /\
        Trove.recreate decayed cur = Ok simulated /\
        Decimal.ltD (debt decayed) LUSD_MINIMUM_DEBT = false /\
        estimateGas (request (c_borrowLUSD p) None) = Ok gasNow /\
        estimateGas (request (c_borrowLUSD simulated) None) = Ok gasLater /\
        let limit := openTroveGasLimit minutes gasNow gasLater in
        tx = mkPopulated (request (c_borrowLUSD p) (Some limit)) (Some (limit - gasNow))
    end.
Proof.
  unfold openTrove. destruct (_prepareOverrides _ _) as [o|] eqn:Ho; cbn [bind]; [|done].
  apply prepareOverrides_inv in Ho as (from & Hfrom & ->).
  destruct (Trove._normalizeTroveCreation params) as [p|] eqn:Hp; cbn [bind]; [|done].
  destruct (ReadableEthersLiquity._getFeesFactory _ _) as [fees|] eqn:Hfees; cbn [bind]; [|done].
  destruct (ReadableEthersLiquity._getBlockTimestamp _ _) as [ts|] eqn:Hts; cbn [bind]; [|done].
  destruct (ReadableEthersLiquity.getTotal _ _) as [total|] eqn:Htotal; cbn [bind]; [|done].
  destruct (ReadableEthersLiquity.getPrice _ _) as [price|] eqn:Hprice; cbn [bind]; [|done].
  destruct (Trove.collateralRatioIsBelowCritical _ _) as [recovery|] eqn:Hrec; cbn [bind]; [|done].
  destruct (FeesFactory_call fees (ts + 0) recovery) as [f|] eqn:Hf; cbn [bind]; [|done].
  destruct (Fees.borrowingRate f None) as [cur|] eqn:Hcur; cbn [bind]; [|done].
  destruct (Trove.create _ cur) as [newTrove|] eqn:Hnew; cbn [bind]; [|done].
  destruct (findHints _ _ _ _ _) as [pair|] eqn:Hpair; cbn [bind]; [|done].
  destruct (normalizeBorrowingOperationOptionalParams _ _) as [[maxRate minutes]|] eqn:Hopt; cbn [bind]; [|done].
  pose proof (normalize_minutes _ _ _ _ Hopt) as ->.
  intros Htx. exists from, p, cur, newTrove, pair, maxRate.
  split; [done|]. split; [done|]. split; [by exists fees, ts, total, price, recovery, f|].
  split; [done|]. split; [done|]. split; [done|]. revert Htx. cbn [tx_gasLimit].
  destruct (overrides ≫= tx_gasLimit) as [g|]; cbn [bind]; [by intros [= <-]|].
  destruct (FeesFactory_call fees (ts + 60 * _) recovery) as [later|] eqn:Hlater; cbn [bind]; [|done].
  destruct (Fees.borrowingRate later None) as [rate|] eqn:Hrate; cbn [bind]; [|done].
  destruct (Trove.create _ rate) as [decayed|] eqn:Hdec; cbn [bind]; [|done].
  destruct (Trove.recreate _ _) as [simulated|] eqn:Hsim; cbn [bind]; [|done].
  destruct (Decimal.ltD _ _) eqn:Hlt.
  { by destruct (debtWarning _). }
  destruct (estimateGas (openTroveTx _ _ (c_borrowLUSD p) _ _)) as [gasNow|] eqn:Hnow; cbn [bind]; [|done].
  destruct (estimateGas (openTroveTx _ _ (c_borrowLUSD simulated) _ _)) as [gasLater|] eqn:Hl; cbn [bind]; [|done].
  rewrite bn_toNumberE, bn_subE. destruct (_ <? _); cbn [bind]; [|done]. intros [= <-].
  exists rate, decayed, simulated, gasNow, gasLater.
  split; [by exists fees, ts, total, price, recovery, later|]. by split_and!.
Qed.

(** The gas limit leaves room for the update of the base rate, on top of either estimate. *)
Lemma openTrove_room minutes gasNow gasLater :
  let room := 10000 + 1414 * Z.log2_up (minutes + 1) in
  gasNow + 80000 + room <= openTroveGasLimit minutes gasNow gasLater /\
  gasLater + room <= openTroveGasLimit minutes gasNow gasLater.
Proof.
  intros room. unfold openTroveGasLimit, addGasForBaseRateUpdate, room.
  destruct (bigNumberMax_spec (addGasForPotentialListTraversal gasNow) (Some gasLater)) as [H1 H2].
  specialize (H2 gasLater eq_refl). unfold addGasForPotentialListTraversal in *.
  autorewrite with bn in *. lia.
Qed.

Lemma openTrove_gas minutes gasNow gasLater :
  gasNow + 90000 <= openTroveGasLimit minutes gasNow gasLater /\
  gasLater + 10000 <= openTroveGasLimit minutes gasNow gasLater.
Proof.
  destruct (openTrove_room minutes gasNow gasLater). pose proof (Z.log2_up_nonneg (minutes + 1)). lia.
Qed.

Lemma adjustTrove_gas borrowing minutes gasNow gasLater :
  gasNow + 80000 <= adjustTroveGasLimit borrowing minutes gasNow gasLater.
Proof.
  unfold adjustTroveGasLimit.
  destruct (bigNumberMax_spec (addGasForPotentialListTraversal gasNow) gasLater) as [H _].
  unfold addGasForPotentialListTraversal in *. autorewrite with bn in *.
  destruct borrowing; [|lia].
  pose proof (adjust_baseRate minutes (bigNumberMax (gasNow + 80000) gasLater)). lia.
Qed.

Lemma openTrove_prepared params optional overrides tx :
  openTrove contracts connection hints randomSeed estimateGas params optional overrides = Ok tx ->
  well_prepared overrides (rawPopulatedTransaction tx).
Proof.
  intros (from & p & cur & newTrove & pair & maxRate & Hfrom & _ & _ & _ & _ & _ & Htx)%openTrove_inv.
  exists from. split; [done|]. cbv zeta in Htx. destruct (overrides ≫= tx_gasLimit) as [g|]; [by subst tx|].
  destruct Htx as (rate & decayed & simulated & gasNow & gasLater & _ & _ & _ & _ & Hnow & _ & ->).
  split; [done|]. eexists _, _. split_and!; [exact Hnow | done |].
  pose proof (openTrove_gas (toleratedMinutes optional) gasNow gasLater). lia.
Qed.

Lemma adjustTrove_prepared params optional overrides tx :
  adjustTrove contracts connection hints randomSeed estimateGas params optional overrides = Ok tx ->
  well_prepared overrides (rawPopulatedTransaction tx).
Proof.
  unfold adjustTrove. destruct (_prepareOverrides _ _) as [o|] eqn:Ho; cbn [bind]; [|done].
  apply prepareOverrides_inv in Ho as (from & Hfrom & ->). cbn [tx_gasLimit].
  destruct (Trove._normalizeTroveAdjustment params) as [p|]; cbn [bind]; [|done].
  destruct (ReadableEthersLiquity.getTrove _ _ _ _) as [trove|]; cbn [bind]; [|done].
  destruct (match Trove.borrowLUSD p with Some _ => _ | None => _ end) as [vars|]; cbn [bind]; [|done].
  destruct (decayBorrowingRate vars 0) as [cur|]; cbn [bind]; [|done].
  destruct (Trove.adjust _ _ (orMinimumRate cur)) as [adjusted|]; cbn [bind]; [|done].
  destruct (findHints _ _ _ _ _) as [pair|]; cbn [bind]; [|done].
  destruct (normalizeBorrowingOperationOptionalParams _ _) as [[maxRate minutes]|]; cbn [bind]; [|done].
  intros Htx. exists from. split; [done|]. revert Htx.
  destruct (overrides ≫= tx_gasLimit) as [g|]; cbn [bind]; [by intros [= <-]|].
  destruct (decayBorrowingRate vars (60 * minutes)) as [rate|]; cbn [bind]; [|done].
  destruct (Trove.adjust _ _ (orMinimumRate rate)) as [decayed|]; cbn [bind]; [|done].
  destruct (Trove.adjustTo _ _ _) as [simulated|]; cbn [bind]; [|done].
  destruct (Decimal.ltD _ _); [by destruct (debtWarning _)|].
  destruct (estimateGas _) as [gasNow|] eqn:Hnow; cbn [bind]; [|done].
  destruct (match Trove.borrowLUSD p with Some _ => _ | None => _ end) as [gasLater|]; cbn [bind]; [|done].
  destruct (bn_toNumber _); cbn [bind]; [|done]. intros [= <-].
  split; [done|]. eexists _, _. split_and!; [exact Hnow | done |].
  pose proof (adjustTrove_gas (if Trove.borrowLUSD p is Some _ then true else false) minutes gasNow gasLater). lia.
Qed.

Lemma transfer_prepared overrides tx :
  transferCollateralGainToTrove contracts connection hints randomSeed estimateGas overrides = Ok tx ->
  well_prepared overrides (rawPopulatedTransaction tx).
Proof.
  unfold transferCollateralGainToTrove.
  destruct (_prepareOverrides _ _) as [o|] eqn:Ho; cbn [bind]; [|done].
  destruct (ReadableEthersLiquity.getTrove _ _ _ _); cbn [bind]; [|done].
  destruct (ReadableEthersLiquity.getStabilityDeposit _ _ _ _); cbn [bind]; [|done].
  destruct (Trove.addCollateral _ _); cbn [bind]; [|done].
  destruct (findHints _ _ _ _ _); cbn [bind]; [|done].
  by apply estimateAndPopulate_prepared; [apply adjust_traversal|].
Qed.

Lemma mint_prepared amount address overrides tx :
  _mintUniToken connection estimateGas uniTokenIsMock amount address overrides = Ok tx ->
  well_prepared overrides (rawPopulatedTransaction tx).
Proof.
  unfold _mintUniToken. destruct (match address with Some _ => _ | None => _ end); cbn [bind]; [|done].
  apply simple_prepared, adjust_id.
Qed.

Lemma close_prepared overrides tx :
  closeTrove connection estimateGas overrides = Ok tx ->
  well_prepared overrides (rawPopulatedTransaction tx).
Proof.
  unfold closeTrove. destruct (_prepareOverrides _ _) as [o|] eqn:Ho; cbn [bind]; [|done].
  by apply estimateAndPopulate_prepared; [apply adjust_id|].
Qed.

(** Whatever the operation, a transaction that is prepared is sent from the address asked
    for, or else from the user's; it keeps a gas limit asked for, and otherwise has one that is
    at least the node's estimate for the very request that is sent. *)
Theorem transactions_keep_sender_and_gas op overrides tx :
  populate op overrides = Ok tx -> well_prepared overrides (rawPopulatedTransaction tx).
Proof.
  destruct op; cbn [populate];
    first [ apply openTrove_prepared | apply close_prepared | apply adjustTrove_prepared
          | apply transfer_prepared | apply mint_prepared
          | apply simple_prepared; first [apply adjust_id | apply adjust_issuance | apply adjust_unipool]
          | destruct address; apply simple_prepared, adjust_issuance ].
Qed.

Lemma borrowingRate_max f when rate :
  Fees.borrowingRate f when = Ok rate -> big rate <= big MAXIMUM_BORROWING_RATE.
Proof.
  destruct (_recoveryMode f) eqn:Hrec.
  - unfold Fees.borrowingRate. rewrite Hrec. intros [= <-]. done.
  - destruct (Fees.baseRate f when) as [base|] eqn:Hb.
    + destruct (borrowingRate_bounds f when base Hb) as (b & Hr & Hbounds).
      rewrite Hr. intros [= <-]. rewrite Hrec in Hbounds. apply Hbounds.
    + unfold Fees.borrowingRate. by rewrite Hrec, Hb.
Qed.

Lemma chargedAfter_max seconds rate : chargedAfter seconds rate -> big rate <= big MAXIMUM_BORROWING_RATE.
Proof. intros (fees & ts & total & price & rec & f & _ & _ & _ & _ & _ & _ & Hr). by eapply borrowingRate_max. Qed.

(** C22. A Trove is only opened, unless a gas limit is given, if its debt would not be less
    than the minimum even with the borrowing fee as it will be, by the base rate's decay, after
    the minutes to tolerate (sixty seconds each, counted from the latest block; ten unless they
    are given).  The request carries the hints of the Trove it opens now.  The gas limit covers
    the estimate for that request and for the same request with the amount that gives the
    decayed Trove at the current rate, the former with room for a longer traversal and both
    with room for the update of the base rate after those minutes. *)
Theorem openTrove_covers_decay params optional overrides tx :
  openTrove contracts connection hints randomSeed estimateGas params optional overrides = Ok tx ->
  overrides ≫= tx_gasLimit = None ->
  let minutes := toleratedMinutes optional in
  let room := 10000 + 1414 * Z.log2_up (minutes + 1) in
  exists (from : string) (p simulated : Trove.TroveCreationParams Decimal) (cur rate maxRate : Decimal)
      (newTrove decayed decayed' : Trove) (pair : string * string) (gasNow gasLater limit : Z),
    let request borrow gas := openTroveTx maxRate (c_depositCollateral p) borrow pair
                                (mkTxOverrides (Some from) gas) in
    requireSender connection overrides = Ok from /\
    Trove._normalizeTroveCreation params = Ok p /\
    chargedAfter 0 cur /\ chargedAfter (60 * minutes) rate /\
    normalizeBorrowingOperationOptionalParams optional (Some cur) = Ok (maxRate, minutes) /\
    Trove.create (normalizedCreation p) cur = Ok newTrove /\
    findHints contracts hints randomSeed newTrove None = Ok pair /\
    Trove.create (normalizedCreation p) rate = Ok decayed /\
    big LUSD_MINIMUM_DEBT <= big (debt decayed) /\
    Trove.recreate decayed cur = Ok simulated /\
    Trove.create (normalizedCreation simulated) cur = Ok decayed' /\ roughly cur decayed decayed' /\
    rawPopulatedTransaction tx = request (c_borrowLUSD p) (Some limit) /\
    estimateGas (request (c_borrowLUSD p) None) = Ok gasNow /\
    estimateGas (request (c_borrowLUSD simulated) None) = Ok gasLater /\
    gasHeadroom tx = Some (limit - gasNow) /\
    gasNow + 80000 + room <= limit /\ gasLater + room <= limit.
Proof.
  intros (from & p & cur & newTrove & pair & maxRate & Hfrom & Hp & Hcur & Hnew & Hpair & Hopt & Htx)%openTrove_inv
    Hnone minutes room.
  cbv zeta in Htx. rewrite Hnone in Htx.
  destruct Htx as (rate & decayed & simulated & gasNow & gasLater & Hrate & Hdec & Hsim & Hmin & Hnow & Hlater & ->).
  apply chargedAfter_max in Hcur as Hmax.
  rewrite ltDE in Hmin. apply Z.ltb_ge in Hmin.
  destruct (recreate_leads_to decayed cur) as (q & decayed' & Hq & Hcreate & Hrough).
  { eapply Z.le_lt_trans; [exact Hmax | done]. }
  { etrans; [|exact Hmin]. done. }
  rewrite Hsim in Hq. injection Hq as <-.
  exists from, p, simulated, cur, rate, maxRate, newTrove, decayed, decayed', pair.
  exists gasNow, gasLater, (openTroveGasLimit minutes gasNow gasLater).
  destruct (openTrove_room minutes gasNow gasLater). by split_and!.
Qed.

(** *** Redemptions *)

Lemma populateRedemption_inv overrides fees total first attempted maxRate amount partial r :
  populateRedemption estimateGas overrides fees total first attempted maxRate amount partial = Ok r ->
  exists rate,
    (match maxRate with
     | Some m => Decimal.from m = Ok rate
     | None => defaultMaxRedemptionRate fees total amount = Ok rate
     end) /\
    tx_args (rawPopulatedTransaction (redemptionTx r)) = redemptionArgs amount first partial rate /\
    attemptedLUSDAmount r = attempted /\ redeemableLUSDAmount r = amount /\
    isTruncated r = (big amount <? big attempted) /\
    _increaseAmountByMinimumNetDebt r =
      (if big amount <? big attempted
       then Some (dec (big amount + big LUSD_MINIMUM_NET_DEBT), maxRate) else None).
Proof.
  unfold populateRedemption.
  destruct (match maxRate with Some _ => _ | None => _ end) as [rate|] eqn:Hrate; cbn [bind]; [|done].
  destruct (estimateAndPopulate _ _ _ _ _ _) as [tx|] eqn:Htx; cbn [bind]; [|done].
  rewrite ltDE, addE. unfold rmap. intros Hr. exists rate.
  assert (tx_args (rawPopulatedTransaction tx) = redemptionArgs amount first partial rate) as Hargs.
  { revert Htx. unfold estimateAndPopulate.
    destruct (match tx_gasLimit overrides with Some _ => _ | None => _ end); cbn [bind]; [|done].
    by intros [= <-]. }
  destruct (big amount <? big attempted); cbn [bind] in Hr; injection Hr as <-; cbn.
  all: split_and!; try done; by destruct maxRate.
Qed.

(** A redemption is prepared for a positive amount, the one the hints allow; it is
    truncated exactly when that is less than what was asked for, and then, and only then, it
    can be increased: to the truncated amount plus the minimum net debt, in a redemption that
    is not truncated and cannot be increased again. *)
Theorem redemption_truncation amount maxRate overrides r c :
  redeemLUSD contracts connection hints randomSeed estimateGas amount maxRate overrides = Ok (r, c) ->
  exists attempted, Decimal.from amount = Ok attempted /\ attemptedLUSDAmount r = attempted /\
    0 < big (redeemableLUSDAmount r) /\
    isTruncated r = (big (redeemableLUSDAmount r) <? big attempted) /\
    (isTruncated r = false -> forall m, exists message,
       increaseAmountByMinimumNetDebt estimateGas c r m = Err (JsError message)) /\
    (isTruncated r = true -> forall m r', increaseAmountByMinimumNetDebt estimateGas c r m = Ok r' ->
       big (redeemableLUSDAmount r') = big (redeemableLUSDAmount r) + big LUSD_MINIMUM_NET_DEBT /\
       attemptedLUSDAmount r' = redeemableLUSDAmount r' /\ isTruncated r' = false /\
       forall m', exists message,
         increaseAmountByMinimumNetDebt estimateGas c r' m' = Err (JsError message)).
Proof.
  unfold redeemLUSD.
  destruct (_prepareOverrides _ _) as [o|]; cbn [bind]; [|done].
  destruct (Decimal.from amount) as [attempted|] eqn:Ha; cbn [bind]; [|done].
  destruct (ReadableEthersLiquity.getFees _ _) as [fees|]; cbn [bind]; [|done].
  destruct (ReadableEthersLiquity.getTotal _ _) as [total|]; cbn [bind]; [|done].
  destruct (_findRedemptionHints _ _ _ _ _) as [[[truncated first] partial]|]; cbn [bind]; [|done].
  destruct (Decimal.isZero truncated) eqn:Hz; [by destruct (Decimal.toString _ _)|].
  destruct (populateRedemption _ _ _ _ _ _ _ _ _) as [r0|] eqn:Hr0; cbn [bind]; [|done].
  intros [= <- <-]. apply populateRedemption_inv in Hr0 as (rate & _ & _ & Hatt & Hred & Htr & Hinc).
  exists attempted. split; [done|]. split; [done|]. rewrite Htr, Hred.
  split. { unfold Decimal.isZero in Hz. rewrite bn_isZeroE in Hz. apply Z.eqb_neq in Hz. blia. }
  split; [done|]. unfold increaseAmountByMinimumNetDebt. rewrite Hinc. split.
  - intros ->. eauto.
  - intros Hlt. rewrite Hlt. intros m r' Hr'.
    apply populateRedemption_inv in Hr' as (rate' & _ & _ & Hatt' & Hred' & Htr' & Hinc').
    rewrite Z.ltb_irrefl in Htr', Hinc'. rewrite Hred', Hatt', Htr'. rewrite big_dec by (pose proof (big_nonneg truncated); done || (unfold LUSD_MINIMUM_NET_DEBT; blia)).
    split_and!; [done..|]. rewrite Hinc'. eauto.
Qed.
End theorems.

(** ** Instances *)

Section sample.
#[local] Existing Instance ZBN.
#[local] Existing Instance ZBN_laws.

Definition sampleEstimate (tx : RawTx) : result Z := Ok 200000.
Definition sampleCreation : list (string * option Decimalish) :=
  [("depositCollateral", Some (FromDecimal (dec (30 * 10 ^ 18))));
   ("borrowLUSD", Some (FromDecimal (dec (3000 * 10 ^ 18))))].

Lemma transactions_keep_sender_and_gas_witness :
  exists tx, openTrove sampleContracts sampleConnection sampleHints 1 sampleEstimate sampleCreation
      NoParams None = Ok tx /\
    well_prepared sampleConnection sampleEstimate None (rawPopulatedTransaction tx).
Proof.
  destruct (openTrove sampleContracts sampleConnection sampleHints 1 sampleEstimate sampleCreation
    NoParams None) as [tx|e] eqn:H; [|vm_compute in H; discriminate H].
  exists tx. split; [done|].
  exact (transactions_keep_sender_and_gas sampleContracts sampleConnection sampleHints 1 sampleEstimate
    true true (OpenTrove sampleCreation NoParams) None tx H).
Defined.

Lemma openTrove_covers_decay_witness :
  exists tx headroom rate, openTrove sampleContracts sampleConnection sampleHints 1 sampleEstimate
      sampleCreation NoParams None = Ok tx /\ chargedAfter sampleContracts 600 rate /\
    gasHeadroom tx = Some headroom /\ 90000 <= headroom.
Proof.
  destruct (openTrove sampleContracts sampleConnection sampleHints 1 sampleEstimate sampleCreation
    NoParams None) as [tx|e] eqn:H; [|vm_compute in H; discriminate H].
  destruct (openTrove_covers_decay sampleContracts sampleConnection sampleHints 1 sampleEstimate
    sampleCreation NoParams None tx H eq_refl)
    as (from & p & simulated & cur & rate & maxRate & newTrove & decayed & decayed' & pair & gasNow & gasLater & limit &
        _ & _ & _ & Hrate & _ & _ & _ & _ & _ & _ & _ & _ & _ & _ & _ & Hroom & Hlim & _).
  exists tx, (limit - gasNow), rate. split; [done|]. split; [exact Hrate|]. split; [exact Hroom|].
  cbv zeta in Hlim. change (Z.log2_up (toleratedMinutes NoParams + 1)) with 4 in Hlim. lia.
Defined.

(** Half of what is asked for can be redeemed. *)
Definition halfRedeemable : HintContracts :=
  mkHintContracts (fun _ _ seed => Ok (mkApprox "0xa" 0 seed))
    (fun amount _ _ => Ok (mkRedemptionHints "0xc" 0 (big amount / 2)))
    (Ok "0xa") (fun _ => Ok AddressZero) (fun _ => Ok AddressZero)
    (fun _ _ _ => Ok (AddressZero, AddressZero)).

Definition sampleAmount : Decimalish := FromDecimal (dec (20 * 10 ^ 18)).

Lemma redemption_truncation_witness :
  exists r c r', redeemLUSD sampleContracts sampleConnection halfRedeemable 1 sampleEstimate
      sampleAmount None None = Ok (r, c) /\ isTruncated r = true /\
    increaseAmountByMinimumNetDebt sampleEstimate c r None = Ok r' /\ isTruncated r' = false.
Proof.
  destruct (redeemLUSD sampleContracts sampleConnection halfRedeemable 1 sampleEstimate
    sampleAmount None None) as [[r c]|e] eqn:H; [|vm_compute in H; discriminate H].
  assert (isTruncated r = true /\
    exists r', increaseAmountByMinimumNetDebt sampleEstimate c r None = Ok r') as [Ht [r' Hr]]
    by (vm_compute in H; injection H as <- <-; split; [reflexivity | eexists; vm_compute; reflexivity]).
  destruct (redemption_truncation sampleContracts sampleConnection halfRedeemable 1 sampleEstimate
    sampleAmount None None r c H) as (attempted & _ & _ & _ & _ & _ & Hinc).
  exists r, c, r'. split; [done|]. split; [done|]. split; [done|].
  exact (proj1 (proj2 (proj2 (Hinc Ht None r' Hr)))).
Defined.
End sample.
