(* ===== verification/Receipts.v ===== *)
(** * Receipts

    What the ethers back end makes of a transaction receipt: [extractEvents] of
    [packages/lib-ethers/src/contracts.ts], the functions [_wrap...] of
    [PopulatableEthersLiquity.ts] that extract the details of each operation, and
    [logsToString] of [parseLogs.ts].

    Decoding a log is the ethers library's: a [Contract] is an address with the [parseLog] of
    its interface, which may throw.  The arguments of a decoded event are the entries of its
    result object, in order. *)

From S2P Require Import Prelude JsString BigNumber Decimal DecimalText Constants Trove StabilityDeposit EthersReadable PolledStore Population.
From Stdlib Require Import Ascii String.

Local Open Scope string_scope.
Local Open Scope Z_scope.

(** ** Logs *)

Record Log := mkLog { log_address : string; log_topics : list string; log_data : string }.

Inductive EventArg := ArgNumber (n : Z) | ArgString (s : string) | ArgOther (shown : string).

Record LogDescription := mkDescription { name : string; args : list (string * EventArg) }.

Record Contract := mkContract { address : string; parseLog : Log -> result LogDescription }.

Record TransactionReceipt := mkReceipt {
  r_from : string; r_transactionHash : string; r_status : option Z; r_logs : list Log
}.

(** [extractEvents]: a log of the contract that its interface does not know makes it throw. *)
Definition extractEvents (contract : Contract) (logs : list Log) (eventName : string) :
    result (list LogDescription) :=
  let* descriptions :=
    traverse (parseLog contract)
      (List.filter (fun log => String.eqb (log_address log) (address contract)) logs) in
  Ok (List.filter (fun e => String.eqb (name e) eventName) descriptions).

(** A property of [args]. *)
Definition argument (key : string) (e : LogDescription) : option EventArg :=
  snd <$> List.find (fun entry => String.eqb (fst entry) key) (args e).

Definition undefinedError : error := JsError "undefined has no properties".

Section details.
Context `{BN : BigNumber}.

(** [decimalify(args[key])] *)
Definition decimalArg (key : string) (e : LogDescription) : result Decimal :=
  match argument key e with Some (ArgNumber n) => decimalify n | _ => Err undefinedError end.

(** [args[key] === s] *)
Definition argIs (key s : string) (e : LogDescription) : bool :=
  match argument key e with Some (ArgString t) => String.eqb t s | _ => false end.

Definition troveArg (coll debt : string) (e : LogDescription) : result Trove :=
  let* c := decimalArg coll e in
  let* d := decimalArg debt e in
  Ok (mkTrove c d).

(** [contract.extractEvents(logs, eventName).filter(keep).map(f)] *)
Definition mapEvents {A} (contract : Contract) (eventName : string) (keep : LogDescription -> bool)
    (f : LogDescription -> result A) (logs : list Log) : result (list A) :=
  let* events := extractEvents contract logs eventName in
  traverse f (List.filter keep events).

Definition always {A} (_ : A) : bool := true.

(** ** Details *)

Inductive ChangeParams :=
| CreationParams (params : TroveCreationParams Decimal)
| AdjustmentParams (params : TroveAdjustmentParams Decimal).

Record TotalLiquidated := mkTotals {
  collateralGasCompensation : Decimal; lusdGasCompensation : Decimal; totalLiquidated : Trove
}.

Record GainsDetails := mkGains {
  lusdLoss : Decimal;
  newLUSDDeposit : option Decimal;
  collateralGain : Decimal;
  lqtyReward : option Decimal
}.

Record RedemptionDetails := mkRedemptionDetails {
  d_attemptedLUSDAmount : Decimal;
  actualLUSDAmount : Decimal;
  collateralTaken : Decimal;
  redemptionFee : Decimal
}.

(** A property that the code destructures from an empty array is [undefined]. *)
Inductive Details :=
| NoDetails
| TroveChangeDetails (params : ChangeParams) (newTrove : option Trove) (fee : option Decimal)
| ClosureDetails (withdrawCollateral repayLUSD : option Decimal)
| LiquidationDetails (liquidatedAddresses : list (option EventArg)) (totals : option TotalLiquidated)
| GainsWithdrawal (gains : GainsDetails)
| DepositChange (gains : GainsDetails) (change : StabilityDepositChange (option Decimal))
| GainTransfer (gains : GainsDetails) (newTrove : option Trove)
| Redemption (details : option RedemptionDetails).

(** The contracts whose events are read. *)
Record EventContracts := mkEventContracts {
  borrowerOperations : Contract;
  troveManager : Contract;
  stabilityPool : Contract;
  lusdToken : Contract;
  activePool : Contract
}.

Context (contracts : EventContracts).

Definition noDetails (receipt : TransactionReceipt) : result Details := Ok NoDetails.

Definition _wrapTroveChangeWithFees (params : ChangeParams) (receipt : TransactionReceipt) :
    result Details :=
  let* troves := mapEvents (borrowerOperations contracts) "TroveUpdated" always
                   (troveArg "_coll" "_debt") (r_logs receipt) in
  let* fees := mapEvents (borrowerOperations contracts) "LUSDBorrowingFeePaid" always
                 (decimalArg "_LUSDFee") (r_logs receipt) in
  Ok (TroveChangeDetails params (head troves) (head fees)).

Definition _wrapTroveClosure (receipt : TransactionReceipt) : result Details :=
  let* repaid := mapEvents (lusdToken contracts) "Transfer"
                   (fun e => argIs "from" (r_from receipt) e && argIs "to" AddressZero e)
                   (decimalArg "value") (r_logs receipt) in
  let* withdrawn := mapEvents (activePool contracts) "EtherSent" (argIs "_to" (r_from receipt))
                      (decimalArg "_amount") (r_logs receipt) in
  match head repaid with
  | None => Err undefinedError
  | Some repayLUSD => Ok (ClosureDetails (head withdrawn) (Decimal.nonZero repayLUSD))
  end.

Definition _wrapLiquidation (receipt : TransactionReceipt) : result Details :=
  let* liquidatedAddresses := mapEvents (troveManager contracts) "TroveLiquidated" always
                                (fun e => Ok (argument "_borrower" e)) (r_logs receipt) in
  let* totals := mapEvents (troveManager contracts) "Liquidation" always
    (fun e =>
       let* collateralGasCompensation := decimalArg "_collGasCompensation" e in
       let* lusdGasCompensation := decimalArg "_LUSDGasCompensation" e in
       let* totalLiquidated := troveArg "_liquidatedColl" "_liquidatedDebt" e in
       Ok (mkTotals collateralGasCompensation lusdGasCompensation totalLiquidated))
    (r_logs receipt) in
  Ok (LiquidationDetails liquidatedAddresses (head totals)).

(** A missing [ETHGainWithdrawn] makes the nested destructuring throw. *)
Definition _extractStabilityPoolGainsWithdrawalDetails (logs : list Log) : result GainsDetails :=
  let* deposits := mapEvents (stabilityPool contracts) "UserDepositChanged" always
                     (decimalArg "_newDeposit") logs in
  let* gains := mapEvents (stabilityPool contracts) "ETHGainWithdrawn" always
    (fun e =>
       let* gain := decimalArg "_ETH" e in
       let* loss := decimalArg "_LUSDLoss" e in
       Ok (gain, loss)) logs in
  match head gains with
  | None => Err undefinedError
  | Some (collateralGain, lusdLoss) =>
      let* rewards := mapEvents (stabilityPool contracts) "LQTYPaidToDepositor" always
                        (decimalArg "_LQTY") logs in
      Ok (mkGains lusdLoss (head deposits) collateralGain (head rewards))
  end.

Definition _wrapStabilityPoolGainsWithdrawal (receipt : TransactionReceipt) : result Details :=
  let* gains := _extractStabilityPoolGainsWithdrawalDetails (r_logs receipt) in
  Ok (GainsWithdrawal gains).

Definition _wrapStabilityDepositTopup (depositLUSD : Decimal) (receipt : TransactionReceipt) :
    result Details :=
  let* gains := _extractStabilityPoolGainsWithdrawalDetails (r_logs receipt) in
  Ok (DepositChange gains (DepositLUSD (Some depositLUSD))).

Definition _wrapStabilityDepositWithdrawal (receipt : TransactionReceipt) : result Details :=
  let* gains := _extractStabilityPoolGainsWithdrawalDetails (r_logs receipt) in
  let* withdrawn := mapEvents (lusdToken contracts) "Transfer"
    (fun e => argIs "from" (address (stabilityPool contracts)) e && argIs "to" (r_from receipt) e)
    (decimalArg "value") (r_logs receipt) in
  match newLUSDDeposit gains with
  | None => Err undefinedError
  | Some deposit => Ok (DepositChange gains (WithdrawLUSD (head withdrawn) (Decimal.isZero deposit)))
  end.

Definition _wrapCollateralGainTransfer (receipt : TransactionReceipt) : result Details :=
  let* troves := mapEvents (borrowerOperations contracts) "TroveUpdated" always
                   (troveArg "_coll" "_debt") (r_logs receipt) in
  let* gains := _extractStabilityPoolGainsWithdrawalDetails (r_logs receipt) in
  Ok (GainTransfer gains (head troves)).

(** The parser that the constructor of [PopulatedEthersRedemption] hands on. *)
Definition parseRedemption (receipt : TransactionReceipt) : result Details :=
  let* redemptions := mapEvents (troveManager contracts) "Redemption" always
    (fun e =>
       let* attempted := decimalArg "_attemptedLUSDAmount" e in
       let* actual := decimalArg "_actualLUSDAmount" e in
       let* taken := decimalArg "_ETHSent" e in
       let* fee := decimalArg "_ETHFee" e in
       Ok (mkRedemptionDetails attempted actual taken fee)) (r_logs receipt) in
  Ok (Redemption (head redemptions)).
End details.

(** ** Printing logs *)

Section logs.
Context `{BN : BigNumber}.

(** [Object.fromEntries(entries)[key]]: the last entry with the key counts. *)
Definition lookupLast {A} (entries : list (string * A)) (key : string) : option A :=
  snd <$> last (List.filter (fun entry => String.eqb (fst entry) key) entries).

Definition interfaceLookupFrom (contracts : list (string * Contract)) :
    list (string * (Log -> result LogDescription)) :=
  map (fun entry => (address (snd entry), parseLog (snd entry))) contracts.

Definition nameLookupFrom (contracts : list (string * Contract)) : list (string * string) :=
  map (fun entry => (address (snd entry), fst entry)) contracts.

(** An interface that throws leaves the log unparsed. *)
Definition tryToParseLog (log : Log) (interfaces : list (string * (Log -> result LogDescription))) :
    option (string * LogDescription) :=
  match lookupLast interfaces (log_address log) with
  | Some parseLog =>
      match parseLog log with Ok description => Some (log_address log, description) | Err _ => None end
  | None => None
  end.

Definition parseLogs (logs : list Log) (interfaces : list (string * (Log -> result LogDescription))) :
    list (string * LogDescription) * list Log :=
  fold_left (fun '(parsed, unparsed) log =>
    match tryToParseLog log interfaces with
    | Some parsedLog => ((parsed ++ [parsedLog])%list, unparsed)
    | None => (parsed, (unparsed ++ [log])%list)
    end) logs ([], []).

Definition VERY_BIG : Z := 10 ^ 9.

Definition prettify (arg : EventArg) (names : list (string * string)) : result string :=
  match arg with
  | ArgNumber n =>
      if bn_gte n VERY_BIG then
        let* d := decimalify n in
        let* s := Decimal.toString d None in
        Ok (s +:+ "e18")
      else Ok (bn_toString n)
  | ArgString s =>
      Ok (if String.eqb s AddressZero then "address(0)" else default s (lookupLast names s))
  | ArgOther shown => Ok shown
  end.

(** [key.match(/^[0-9]/)] *)
Definition startsWithDigit (key : string) : bool :=
  match key with
  | String c _ => (48 <=? Z.of_N (N_of_ascii c)) && (Z.of_N (N_of_ascii c) <=? 57)
  | "" => false
  end.

Definition logDescriptionToString (e : LogDescription) (names : list (string * string)) :
    result string :=
  let* prettyEntries :=
    traverse (fun entry =>
        let* shown := prettify (snd entry) names in Ok (fst entry +:+ ": " +:+ shown))
      (List.filter (fun entry => negb (startsWithDigit (fst entry))) (args e)) in
  Ok (name e +:+ "({ " +:+ String.concat ", " prettyEntries +:+ " })").

(** A line of the listing. *)
Definition logLine (contractNames names : list (string * string)) (p : string * LogDescription) :
    result string :=
  let* shown := logDescriptionToString (snd p) names in
  Ok ("  " +:+ default "undefined" (lookupLast contractNames (fst p)) +:+ "." +:+ shown).

Definition newline : string := String (ascii_of_nat 10) "".

Definition logsToString (receipt : TransactionReceipt) (contracts : list (string * Contract)) :
    result string :=
  let contractNames := nameLookupFrom contracts in
  let names := ((r_from receipt, "user") :: contractNames)%list in
  let '(parsedLogs, _) := parseLogs (r_logs receipt) (interfaceLookupFrom contracts) in
  match parsedLogs with
  | [] => Ok ("No logs were parsed in tx " +:+ r_transactionHash receipt)
  | _ =>
      let* lines := traverse (logLine contractNames names) parsedLogs in
      Ok ("Logs of tx " +:+ r_transactionHash receipt +:+ ":" +:+ newline +:+
          String.concat newline lines)
  end.
End logs.

(** ** The events that count *)

Definition eventAddresses (contracts : EventContracts) : list string :=
  [ address (borrowerOperations contracts); address (troveManager contracts);
    address (stabilityPool contracts); address (lusdToken contracts); address (activePool contracts) ].

(** The logs that the contracts themselves have emitted. *)
Definition ownLogs (contracts : EventContracts) (logs : list Log) : list Log :=
  List.filter (fun log => existsb (String.eqb (log_address log)) (eventAddresses contracts)) logs.

(** Two receipts that differ only in what other contracts have emitted, or in their hashes
    and statuses. *)
Definition sameOwnEvents (contracts : EventContracts) (r r' : TransactionReceipt) : Prop :=
  r_from r = r_from r' /\ ownLogs contracts (r_logs r) = ownLogs contracts (r_logs r').

Section own.
Context `{BN : BigNumber} (contracts : EventContracts).

Lemma filter_implied {A} (p q : A -> bool) l :
  (forall a, p a = true -> q a = true) -> List.filter p (List.filter q l) = List.filter p l.
Proof.
  intros Himp. induction l as [|a l IH]; cbn; [done|].
  destruct (q a) eqn:Hq; cbn; rewrite IH; [done|].
  destruct (p a) eqn:Hp; [|done]. by rewrite (Himp a Hp) in Hq.
Qed.

Lemma extractEvents_own contract logs eventName :
  In (address contract) (eventAddresses contracts) ->
  extractEvents contract (ownLogs contracts logs) eventName = extractEvents contract logs eventName.
Proof.
  intros Hin. unfold extractEvents, ownLogs. rewrite filter_implied; [done|].
  intros log ->%String.eqb_eq. apply existsb_exists. exists (address contract).
  split; [done | apply String.eqb_refl].
Qed.

Lemma mapEvents_own {A} contract eventName keep (f : LogDescription -> result A) logs logs' :
  ownLogs contracts logs = ownLogs contracts logs' ->
  In (address contract) (eventAddresses contracts) ->
  mapEvents contract eventName keep f logs = mapEvents contract eventName keep f logs'.
Proof.
  intros E Hin. unfold mapEvents.
  by rewrite <- (extractEvents_own _ logs), <- (extractEvents_own _ logs'), E.
Qed.

Lemma gains_own logs logs' :
  ownLogs contracts logs = ownLogs contracts logs' ->
  _extractStabilityPoolGainsWithdrawalDetails contracts logs =
  _extractStabilityPoolGainsWithdrawalDetails contracts logs'.
Proof.
  intros E. unfold _extractStabilityPoolGainsWithdrawalDetails.
  assert (In (address (stabilityPool contracts)) (eventAddresses contracts)) by (cbn; tauto).
  by rewrite !(mapEvents_own (stabilityPool contracts) _ _ _ logs logs') by done.
Qed.

(** What a parser makes of a receipt depends on the protocol's own events alone. *)
Definition readsOwnEvents (parser : TransactionReceipt -> result Details) : Prop :=
  forall r r', sameOwnEvents contracts r r' -> parser r = parser r'.

Ltac own_events :=
  let E := fresh "E" in let F := fresh "F" in
  intros r r' [F E];
  cbv [_wrapTroveChangeWithFees _wrapTroveClosure _wrapLiquidation _wrapStabilityPoolGainsWithdrawal
       _wrapStabilityDepositTopup _wrapStabilityDepositWithdrawal _wrapCollateralGainTransfer
       parseRedemption];
  rewrite ?F, ?(gains_own _ _ E);
  rewrite ?(mapEvents_own (borrowerOperations contracts) _ _ _ _ _ E) by (cbn; tauto);
  rewrite ?(mapEvents_own (troveManager contracts) _ _ _ _ _ E) by (cbn; tauto);
  rewrite ?(mapEvents_own (lusdToken contracts) _ _ _ _ _ E) by (cbn; tauto);
  rewrite ?(mapEvents_own (activePool contracts) _ _ _ _ _ E) by (cbn; tauto);
  reflexivity.

Lemma change_own params : readsOwnEvents (_wrapTroveChangeWithFees contracts params).
Proof. own_events. Qed.
Lemma closure_own : readsOwnEvents (_wrapTroveClosure contracts).
Proof. own_events. Qed.
Lemma liquidation_own : readsOwnEvents (_wrapLiquidation contracts).
Proof. own_events. Qed.
Lemma withdrawal_own : readsOwnEvents (_wrapStabilityPoolGainsWithdrawal contracts).
Proof. own_events. Qed.
Lemma topup_own amount : readsOwnEvents (_wrapStabilityDepositTopup contracts amount).
Proof. own_events. Qed.
Lemma depositWithdrawal_own : readsOwnEvents (_wrapStabilityDepositWithdrawal contracts).
Proof. own_events. Qed.
Lemma transfer_own : readsOwnEvents (_wrapCollateralGainTransfer contracts).
Proof. own_events. Qed.
Lemma redemption_own : readsOwnEvents (parseRedemption contracts).
Proof. own_events. Qed.
Lemma none_own : readsOwnEvents noDetails.
Proof. done. Qed.
End own.

#[export] Hint Resolve change_own closure_own liquidation_own withdrawal_own topup_own
  depositWithdrawal_own transfer_own redemption_own none_own : liquity.

(** ** Printed logs *)

Section printed.
Context `{BNL : BigNumberLaws}.

Lemma parseLogs_acc logs interfaces parsed unparsed :
  fold_left (fun '(parsed, unparsed) log =>
    match tryToParseLog log interfaces with
    | Some parsedLog => ((parsed ++ [parsedLog])%list, unparsed)
    | None => (parsed, (unparsed ++ [log])%list)
    end) logs (parsed, unparsed) =
  ((parsed ++ omap (fun log => tryToParseLog log interfaces) logs)%list,
   (unparsed ++
    List.filter (fun log => negb (bool_decide (is_Some (tryToParseLog log interfaces)))) logs)%list).
Proof.
  revert parsed unparsed.
  induction logs as [|log logs IH]; intros parsed unparsed; cbn; [by rewrite !app_nil_r|].
  destruct (tryToParseLog log interfaces) as [p|]; cbn; rewrite IH, <- app_assoc; done.
Qed.

(** Every log is parsed or left over, and the order is kept. *)
Lemma parseLogs_spec logs interfaces :
  parseLogs logs interfaces =
  (omap (fun log => tryToParseLog log interfaces) logs,
   List.filter (fun log => negb (bool_decide (is_Some (tryToParseLog log interfaces)))) logs).
Proof. apply parseLogs_acc. Qed.

(** Every argument of an event is printed: amounts are not negative. *)
Definition printable (e : LogDescription) : Prop :=
  Forall (fun entry => match snd entry with ArgNumber n => 0 <= n | _ => True end) (args e).

Lemma prettify_total arg names :
  match arg with ArgNumber n => 0 <= n | _ => True end -> exists s, prettify arg names = Ok s.
Proof.
  destruct arg as [n|s|s]; cbn; eauto. intros Hn.
  destruct (bn_gte n VERY_BIG); [|eauto]. rewrite decimalifyE by done. cbn.
  destruct (toString_total (mkDecimal (Z.to_N n))) as [s ->]. cbn. eauto.
Qed.

Lemma traverse_total {A B} (f : A -> result B) (P : A -> Prop) l :
  (forall a, P a -> exists b, f a = Ok b) -> Forall P l -> exists bs, traverse f l = Ok bs.
Proof.
  intros Hf. induction 1 as [|a l Ha _ [bs IH]]; cbn; [eauto|].
  destruct (Hf a Ha) as [b ->]. rewrite IH. cbn. eauto.
Qed.

Lemma logDescriptionToString_total e names :
  printable e -> exists s, logDescriptionToString e names = Ok s.
Proof.
  intros He. unfold logDescriptionToString.
  match goal with |- context [traverse ?f ?l] => destruct (traverse_total f
    (fun entry => match snd entry with ArgNumber n => 0 <= n | _ => True end) l) as [bs Hbs] end.
  - intros entry Hp. destruct (prettify_total (snd entry) names Hp) as [s ->]. cbn. eauto.
  - apply List.Forall_forall. intros entry [Hin _]%filter_In.
    exact (proj1 (List.Forall_forall _ _) He entry Hin).
  - rewrite Hbs. cbn. eauto.
Qed.

(** Printing a receipt does not fail, and prints one line for each log that the contracts can
    parse, in order. *)
Lemma logsToString_lines receipt contracts :
  let parsed := omap (fun log => tryToParseLog log (interfaceLookupFrom contracts)) (r_logs receipt) in
  Forall (fun p => printable (snd p)) parsed ->
  exists lines, List.length lines = List.length parsed /\
    logsToString receipt contracts =
    Ok (match lines with
        | [] => "No logs were parsed in tx " +:+ r_transactionHash receipt
        | _ => "Logs of tx " +:+ r_transactionHash receipt +:+ ":" +:+ newline +:+
               String.concat newline lines
        end).
Proof.
  intros parsed Hall. unfold logsToString. rewrite parseLogs_spec. fold parsed.
  destruct (traverse_total (logLine (nameLookupFrom contracts)
    ((r_from receipt, "user") :: nameLookupFrom contracts)%list) (fun p => printable (snd p)) parsed)
    as [lines Hl]; [|exact Hall|].
  { intros p Hp. unfold logLine.
    destruct (logDescriptionToString_total (snd p)
      ((r_from receipt, "user") :: nameLookupFrom contracts)%list Hp) as [s ->]. cbn. eauto. }
  exists lines. pose proof Hl as Hlen%traverse_Ok%Forall2_length. split; [by symmetry|].
  destruct parsed as [|p ps], lines as [|line lines]; try done. by rewrite Hl.
Qed.
End printed.
