(* ===== verification/Transactions.v ===== *)
(** * Sending transactions

    [SentEthersLiquityTransaction] and [PopulatedEthersLiquityTransaction.send] of
    [packages/lib-ethers/src/PopulatableEthersLiquity.ts], [SendableEthersLiquity.ts], and the
    class [EthersLiquity] of [EthersLiquity.ts], whose operations send a transaction and wait
    for it to succeed.

    The signer, which returns the response to a sent request, and the response's [wait] are the
    ethers library's and parameters here: [wait] resolves to a receipt (or [null]) or rejects
    with an error, whose properties are read one by one. *)

From S2P Require Import Prelude JsString BigNumber Decimal Constants Trove StabilityDeposit ReadableLiquity EthersReadable PolledStore PolledStoreTheory Hints Population Receipts.
From Stdlib Require Import Ascii String.

Local Open Scope string_scope.
Local Open Scope Z_scope.

(** ** Errors of [wait] *)

(** What is read of a value that [wait] rejects with: whether it is an [Error], and its
    properties where it has them. *)
Record RawError := mkRawError {
  isError : bool;
  e_code : option string;
  e_reason : option string;
  e_cancelled : bool;
  e_receipt : option TransactionReceipt
}.

Inductive WaitOutcome := Mined (receipt : option TransactionReceipt) | Rejects (e : RawError).

Definition TRANSACTION_FAILED : string := "transaction failed".
Definition TRANSACTION_CANCELLED : string := "cancelled".
Definition TRANSACTION_REPLACED : string := "replaced".
Definition TRANSACTION_REPRICED : string := "repriced".

Definition transactionReplacementReasons : list string :=
  [TRANSACTION_CANCELLED; TRANSACTION_REPLACED; TRANSACTION_REPRICED].

Definition isTransactionFailedError (e : RawError) : bool :=
  bool_decide (e_code e = Some "CALL_EXCEPTION") && bool_decide (e_reason e = Some TRANSACTION_FAILED).

Definition isTransactionReplacedError (e : RawError) : bool :=
  bool_decide (e_code e = Some "TRANSACTION_REPLACED") &&
  match e_reason e with
  | Some reason => existsb (String.eqb reason) transactionReplacementReasons
  | None => false
  end.

(** What an operation can end with instead of a value. *)
Inductive Failure :=
| Thrown (e : error)
| Rethrown (e : RawError)
| EthersTransactionCancelledError (message : string) (rawReplacementReceipt : option TransactionReceipt)
| EthersTransactionFailedError (message : string) (failedReceipt : TransactionReceipt).

Definition Outcome (A : Type) : Type := A + Failure.

Definition lift {A} (m : result A) : Outcome A :=
  match m with Ok a => inl a | Err e => inr (Thrown e) end.

Definition andThen {A B} (m : Outcome A) (k : A -> Outcome B) : Outcome B :=
  match m with inl a => k a | inr f => inr f end.

(** [new EthersTransactionCancelledError(rawError)] *)
Definition newCancelledError (e : RawError) : Failure :=
  if bool_decide (e_reason e = Some TRANSACTION_REPRICED) then Thrown AssertionError
  else EthersTransactionCancelledError ("Transaction " +:+ default "undefined" (e_reason e)) (e_receipt e).

(** ** A sent transaction *)

Inductive LiquityReceipt :=
| PendingReceipt
| FailedReceipt (rawReceipt : TransactionReceipt)
| SuccessfulReceipt (rawReceipt : TransactionReceipt) (details : Details).

Record SentEthersLiquityTransaction := mkSent {
  wait : option Z -> WaitOutcome;
  parse : TransactionReceipt -> result Details
}.

Definition truthyStatus (receipt : TransactionReceipt) : bool :=
  match r_status receipt with Some status => negb (status =? 0) | None => false end.

Definition _receiptFrom (tx : SentEthersLiquityTransaction) (rawReceipt : option TransactionReceipt) :
    result LiquityReceipt :=
  match rawReceipt with
  | Some receipt =>
      if truthyStatus receipt then
        let* details := parse tx receipt in Ok (SuccessfulReceipt receipt details)
      else Ok (FailedReceipt receipt)
  | None => Ok PendingReceipt
  end.

Definition _waitForRawReceipt (tx : SentEthersLiquityTransaction) (confirmations : option Z) :
    Outcome (option TransactionReceipt) :=
  match wait tx confirmations with
  | Mined receipt => inl receipt
  | Rejects e =>
      if isError e then
        if isTransactionFailedError e then inl (e_receipt e)
        else if isTransactionReplacedError e then
          if e_cancelled e then inr (newCancelledError e) else inl (e_receipt e)
        else inr (Rethrown e)
      else inr (Rethrown e)
  end.

Definition getReceipt (tx : SentEthersLiquityTransaction) : Outcome LiquityReceipt :=
  andThen (_waitForRawReceipt tx (Some 0)) (fun rawReceipt => lift (_receiptFrom tx rawReceipt)).

Definition waitForReceipt (tx : SentEthersLiquityTransaction) : Outcome LiquityReceipt :=
  andThen (_waitForRawReceipt tx None) (fun rawReceipt =>
    andThen (lift (_receiptFrom tx rawReceipt)) (fun receipt =>
      match receipt with PendingReceipt => inr (Thrown AssertionError) | _ => inl receipt end)).

(** [waitForSuccess] of [EthersLiquity.ts]: a pending receipt cannot reach it. *)
Definition waitForSuccess (tx : SentEthersLiquityTransaction) : Outcome Details :=
  andThen (waitForReceipt tx) (fun receipt =>
    match receipt with
    | SuccessfulReceipt _ details => inl details
    | FailedReceipt rawReceipt => inr (EthersTransactionFailedError "Transaction failed" rawReceipt)
    | PendingReceipt => inr (Thrown AssertionError)
    end).

(** ** Sending *)

(** [PopulatedEthersLiquityTransaction] *)
Record PopulatedEthersLiquityTransaction := mkPopulatedTransaction {
  populated : PopulatedTx; parseReceipt : TransactionReceipt -> result Details
}.

Section sending.
Context `{BN : BigNumber} (contracts : Contracts) (connection : Connection).
Context (hints : HintContracts) (randomSeed : Z) (estimateGas : RawTx -> result Z).
Context (priceFeedIsTestnet uniTokenIsMock : bool) (events : EventContracts).
Context (signer : option (RawTx -> result (option Z -> WaitOutcome))).

(** [PopulatedEthersLiquityTransaction.send] *)
Definition send (tx : PopulatedEthersLiquityTransaction) : result SentEthersLiquityTransaction :=
  match signer with
  | None => Err (JsError "Must be connected through a Signer")
  | Some sendTransaction =>
      let* response := sendTransaction (rawPopulatedTransaction (populated tx)) in
      Ok (mkSent response (parseReceipt tx))
  end.

(** The transaction an operation populates, with the parser of its details. *)
Definition wrap (tx : result PopulatedTx) (parser : result (TransactionReceipt -> result Details)) :
    result PopulatedEthersLiquityTransaction :=
  let* tx := tx in
  let* parser := parser in
  Ok (mkPopulatedTransaction tx parser).

Definition creationParser (params : list (string * option Decimalish)) :
    result (TransactionReceipt -> result Details) :=
  rmap (fun p => _wrapTroveChangeWithFees events (CreationParams p)) (_normalizeTroveCreation params).

Definition adjustmentParser (params : list (string * option Decimalish)) :
    result (TransactionReceipt -> result Details) :=
  rmap (fun p => _wrapTroveChangeWithFees events (AdjustmentParams p)) (_normalizeTroveAdjustment params).

(** The parser of an operation's receipts. *)
Definition parserOf (op : Operation) : result (TransactionReceipt -> result Details) :=
  match op with
  | OpenTrove params _ => creationParser params
  | CloseTrove => Ok (_wrapTroveClosure events)
  | AdjustTrove params _ => adjustmentParser params
  | DepositCollateral' amount => adjustmentParser [("depositCollateral", Some amount)]
  | WithdrawCollateral' amount => adjustmentParser [("withdrawCollateral", Some amount)]
  | BorrowLUSD' amount _ => adjustmentParser [("borrowLUSD", Some amount)]
  | RepayLUSD' amount => adjustmentParser [("repayLUSD", Some amount)]
  | Liquidate _ | LiquidateUpTo _ => Ok (_wrapLiquidation events)
  | DepositInStabilityPool amount _ => rmap (_wrapStabilityDepositTopup events) (Decimal.from amount)
  | WithdrawFromStabilityPool _ => Ok (_wrapStabilityDepositWithdrawal events)
  | WithdrawStabilityGains => Ok (_wrapStabilityPoolGainsWithdrawal events)
  | TransferGainToTrove => Ok (_wrapCollateralGainTransfer events)
  | _ => Ok noDetails
  end.

Definition populateOperation (op : Operation) (overrides : option TxOverrides) :
    result PopulatedEthersLiquityTransaction :=
  wrap (populate contracts connection hints randomSeed estimateGas priceFeedIsTestnet uniTokenIsMock
          op overrides) (parserOf op).

Definition populateRedeem (amount : Decimalish) (maxRedemptionRate : option Decimalish)
    (overrides : option TxOverrides) : result PopulatedEthersLiquityTransaction :=
  wrap (rmap (fun r => redemptionTx (fst r))
          (redeemLUSD contracts connection hints randomSeed estimateGas amount maxRedemptionRate overrides))
    (Ok (parseRedemption events)).

(** [.then(sendTransaction)] *)
Definition sendTransaction (tx : result PopulatedEthersLiquityTransaction) :
    result SentEthersLiquityTransaction := let* tx := tx in send tx.
End sending.

(** ** [SendableEthersLiquity] *)

Module SendableEthersLiquity.
Section SendableEthersLiquity.
Context `{BN : BigNumber} (contracts : Contracts) (connection : Connection).
Context (hints : HintContracts) (randomSeed : Z) (estimateGas : RawTx -> result Z).
Context (priceFeedIsTestnet uniTokenIsMock : bool) (events : EventContracts).
Context (signer : option (RawTx -> result (option Z -> WaitOutcome))).

Local Notation sent op overrides :=
  (sendTransaction signer (populateOperation contracts connection hints randomSeed estimateGas
     priceFeedIsTestnet uniTokenIsMock events op overrides)).
Definition openTrove (params : list (string * option Decimalish)) (optional : BorrowingParams)
    (overrides : option TxOverrides) : result SentEthersLiquityTransaction :=
  sent (OpenTrove params optional) overrides.
Definition closeTrove (overrides : option TxOverrides) : result SentEthersLiquityTransaction :=
  sent CloseTrove overrides.
Definition adjustTrove (params : list (string * option Decimalish)) (optional : BorrowingParams)
    (overrides : option TxOverrides) : result SentEthersLiquityTransaction :=
  sent (AdjustTrove params optional) overrides.
Definition depositCollateral (amount : Decimalish)
    (overrides : option TxOverrides) : result SentEthersLiquityTransaction :=
  sent (DepositCollateral' amount) overrides.
Definition withdrawCollateral (amount : Decimalish)
    (overrides : option TxOverrides) : result SentEthersLiquityTransaction :=
  sent (WithdrawCollateral' amount) overrides.
Definition borrowLUSD (amount : Decimalish) (maxBorrowingRate : option Decimalish)
    (overrides : option TxOverrides) : result SentEthersLiquityTransaction :=
  sent (BorrowLUSD' amount maxBorrowingRate) overrides.
Definition repayLUSD (amount : Decimalish)
    (overrides : option TxOverrides) : result SentEthersLiquityTransaction :=
  sent (RepayLUSD' amount) overrides.
Definition setPrice (price : Decimalish)
    (overrides : option TxOverrides) : result SentEthersLiquityTransaction :=
  sent (SetPrice price) overrides.
Definition liquidate (address : string + list string)
    (overrides : option TxOverrides) : result SentEthersLiquityTransaction :=
  sent (Liquidate address) overrides.
Definition liquidateUpTo (maximum : Z)
    (overrides : option TxOverrides) : result SentEthersLiquityTransaction :=
  sent (LiquidateUpTo maximum) overrides.
Definition depositLUSDInStabilityPool (amount : Decimalish) (frontendTag : option string)
    (overrides : option TxOverrides) : result SentEthersLiquityTransaction :=
  sent (DepositInStabilityPool amount frontendTag) overrides.
Definition withdrawLUSDFromStabilityPool (amount : Decimalish)
    (overrides : option TxOverrides) : result SentEthersLiquityTransaction :=
  sent (WithdrawFromStabilityPool amount) overrides.
Definition withdrawGainsFromStabilityPool
    (overrides : option TxOverrides) : result SentEthersLiquityTransaction :=
  sent WithdrawStabilityGains overrides.
Definition transferCollateralGainToTrove
    (overrides : option TxOverrides) : result SentEthersLiquityTransaction :=
  sent TransferGainToTrove overrides.
Definition sendLUSD (toAddress : string) (amount : Decimalish)
    (overrides : option TxOverrides) : result SentEthersLiquityTransaction :=
  sent (SendLUSD toAddress amount) overrides.
Definition sendLQTY (toAddress : string) (amount : Decimalish)
    (overrides : option TxOverrides) : result SentEthersLiquityTransaction :=
  sent (SendLQTY toAddress amount) overrides.
Definition redeemLUSD (amount : Decimalish) (maxRedemptionRate : option Decimalish)
    (overrides : option TxOverrides) : result SentEthersLiquityTransaction :=
  sendTransaction signer (populateRedeem contracts connection hints randomSeed estimateGas events
    amount maxRedemptionRate overrides).
Definition claimCollateralSurplus
    (overrides : option TxOverrides) : result SentEthersLiquityTransaction :=
  sent ClaimCollateralSurplus overrides.
Definition stakeLQTY (amount : Decimalish)
    (overrides : option TxOverrides) : result SentEthersLiquityTransaction :=
  sent (StakeLQTY amount) overrides.
Definition unstakeLQTY (amount : Decimalish)
    (overrides : option TxOverrides) : result SentEthersLiquityTransaction :=
  sent (UnstakeLQTY amount) overrides.
Definition withdrawGainsFromStaking
    (overrides : option TxOverrides) : result SentEthersLiquityTransaction :=
  sent WithdrawStakingGains overrides.
Definition registerFrontend (kickbackRate : Decimalish)
    (overrides : option TxOverrides) : result SentEthersLiquityTransaction :=
  sent (RegisterFrontend kickbackRate) overrides.
Definition _mintUniToken (amount : Decimalish) (address : option string)
    (overrides : option TxOverrides) : result SentEthersLiquityTransaction :=
  sent (MintUniToken amount address) overrides.
Definition approveUniTokens (allowance : option Decimalish)
    (overrides : option TxOverrides) : result SentEthersLiquityTransaction :=
  sent (ApproveUniTokens allowance) overrides.
Definition stakeUniTokens (amount : Decimalish)
    (overrides : option TxOverrides) : result SentEthersLiquityTransaction :=
  sent (StakeUniTokens amount) overrides.
Definition unstakeUniTokens (amount : Decimalish)
    (overrides : option TxOverrides) : result SentEthersLiquityTransaction :=
  sent (UnstakeUniTokens amount) overrides.
Definition withdrawLQTYRewardFromLiquidityMining
    (overrides : option TxOverrides) : result SentEthersLiquityTransaction :=
  sent WithdrawMiningReward overrides.
Definition exitLiquidityMining (overrides : option TxOverrides) : result SentEthersLiquityTransaction :=
  sent ExitMining overrides.
End SendableEthersLiquity.
End SendableEthersLiquity.

(** ** [EthersLiquity] *)

Module EthersLiquity.
Section EthersLiquity.
Context `{BN : BigNumber} (contracts : Contracts) (connection : Connection).
Context (hints : HintContracts) (randomSeed : Z) (estimateGas : RawTx -> result Z).
Context (priceFeedIsTestnet uniTokenIsMock : bool) (events : EventContracts).
Context (signer : option (RawTx -> result (option Z -> WaitOutcome))).

Local Notation sending f := (f contracts connection hints randomSeed estimateGas priceFeedIsTestnet
                               uniTokenIsMock events signer).
Local Notation success m := (andThen (lift m) waitForSuccess).

Definition openTrove (params : list (string * option Decimalish)) (optional : BorrowingParams)
    (overrides : option TxOverrides) : Outcome Details :=
  success (sending SendableEthersLiquity.openTrove params optional overrides).
Definition closeTrove (overrides : option TxOverrides) : Outcome Details :=
  success (sending SendableEthersLiquity.closeTrove overrides).
Definition adjustTrove (params : list (string * option Decimalish)) (optional : BorrowingParams)
    (overrides : option TxOverrides) : Outcome Details :=
  success (sending SendableEthersLiquity.adjustTrove params optional overrides).
Definition depositCollateral (amount : Decimalish) (overrides : option TxOverrides) : Outcome Details :=
  success (sending SendableEthersLiquity.depositCollateral amount overrides).
Definition withdrawCollateral (amount : Decimalish)
    (overrides : option TxOverrides) : Outcome Details :=
  success (sending SendableEthersLiquity.withdrawCollateral amount overrides).
Definition borrowLUSD (amount : Decimalish) (maxBorrowingRate : option Decimalish)
    (overrides : option TxOverrides) : Outcome Details :=
  success (sending SendableEthersLiquity.borrowLUSD amount maxBorrowingRate overrides).
Definition repayLUSD (amount : Decimalish) (overrides : option TxOverrides) : Outcome Details :=
  success (sending SendableEthersLiquity.repayLUSD amount overrides).
Definition setPrice (price : Decimalish) (overrides : option TxOverrides) : Outcome Details :=
  success (sending SendableEthersLiquity.setPrice price overrides).
Definition liquidate (address : string + list string)
    (overrides : option TxOverrides) : Outcome Details :=
  success (sending SendableEthersLiquity.liquidate address overrides).
Definition liquidateUpTo (maximum : Z) (overrides : option TxOverrides) : Outcome Details :=
  success (sending SendableEthersLiquity.liquidateUpTo maximum overrides).
Definition depositLUSDInStabilityPool (amount : Decimalish) (frontendTag : option string)
    (overrides : option TxOverrides) : Outcome Details :=
  success (sending SendableEthersLiquity.depositLUSDInStabilityPool amount frontendTag overrides).
Definition withdrawLUSDFromStabilityPool (amount : Decimalish)
    (overrides : option TxOverrides) : Outcome Details :=
  success (sending SendableEthersLiquity.withdrawLUSDFromStabilityPool amount overrides).
Definition withdrawGainsFromStabilityPool (overrides : option TxOverrides) : Outcome Details :=
  success (sending SendableEthersLiquity.withdrawGainsFromStabilityPool overrides).
Definition transferCollateralGainToTrove (overrides : option TxOverrides) : Outcome Details :=
  success (sending SendableEthersLiquity.transferCollateralGainToTrove overrides).
Definition sendLUSD (toAddress : string) (amount : Decimalish)
    (overrides : option TxOverrides) : Outcome Details :=
  success (sending SendableEthersLiquity.sendLUSD toAddress amount overrides).
Definition sendLQTY (toAddress : string) (amount : Decimalish)
    (overrides : option TxOverrides) : Outcome Details :=
  success (sending SendableEthersLiquity.sendLQTY toAddress amount overrides).
Definition redeemLUSD (amount : Decimalish) (maxRedemptionRate : option Decimalish)
    (overrides : option TxOverrides) : Outcome Details :=
  success (SendableEthersLiquity.redeemLUSD contracts connection hints randomSeed estimateGas
    events signer amount maxRedemptionRate overrides).
Definition claimCollateralSurplus (overrides : option TxOverrides) : Outcome Details :=
  success (sending SendableEthersLiquity.claimCollateralSurplus overrides).
Definition stakeLQTY (amount : Decimalish) (overrides : option TxOverrides) : Outcome Details :=
  success (sending SendableEthersLiquity.stakeLQTY amount overrides).
Definition unstakeLQTY (amount : Decimalish) (overrides : option TxOverrides) : Outcome Details :=
  success (sending SendableEthersLiquity.unstakeLQTY amount overrides).
Definition withdrawGainsFromStaking (overrides : option TxOverrides) : Outcome Details :=
  success (sending SendableEthersLiquity.withdrawGainsFromStaking overrides).
Definition registerFrontend (kickbackRate : Decimalish)
    (overrides : option TxOverrides) : Outcome Details :=
  success (sending SendableEthersLiquity.registerFrontend kickbackRate overrides).
Definition _mintUniToken (amount : Decimalish) (address : option string)
    (overrides : option TxOverrides) : Outcome Details :=
  success (sending SendableEthersLiquity._mintUniToken amount address overrides).
Definition approveUniTokens (allowance : option Decimalish)
    (overrides : option TxOverrides) : Outcome Details :=
  success (sending SendableEthersLiquity.approveUniTokens allowance overrides).
Definition stakeUniTokens (amount : Decimalish) (overrides : option TxOverrides) : Outcome Details :=
  success (sending SendableEthersLiquity.stakeUniTokens amount overrides).
Definition unstakeUniTokens (amount : Decimalish) (overrides : option TxOverrides) : Outcome Details :=
  success (sending SendableEthersLiquity.unstakeUniTokens amount overrides).
Definition withdrawLQTYRewardFromLiquidityMining (overrides : option TxOverrides) : Outcome Details :=
  success (sending SendableEthersLiquity.withdrawLQTYRewardFromLiquidityMining overrides).
Definition exitLiquidityMining (overrides : option TxOverrides) : Outcome Details :=
  success (sending SendableEthersLiquity.exitLiquidityMining overrides).

(** The getters, which delegate to the reader. *)
Definition readable (r : _ReadableLiquityWithExtraParams (option Overrides)) :
    _ReadableLiquityWithExtraParams (option Overrides) := mkReadable (F := result)
  (fun overrides => getTotalRedistributed r overrides)
  (fun address overrides => getTroveBeforeRedistribution r address overrides)
  (fun address overrides => getTrove r address overrides)
  (fun overrides => getNumberOfTroves r overrides)
  (fun overrides => getPrice r overrides)
  (fun overrides => getTotal r overrides)
  (fun address overrides => getStabilityDeposit r address overrides)
  (fun overrides => getRemainingStabilityPoolLQTYReward r overrides)
  (fun overrides => getLUSDInStabilityPool r overrides)
  (fun address overrides => getLUSDBalance r address overrides)
  (fun address overrides => getLQTYBalance r address overrides)
  (fun address overrides => getUniTokenBalance r address overrides)
  (fun address overrides => getUniTokenAllowance r address overrides)
  (fun overrides => getRemainingLiquidityMiningLQTYReward r overrides)
  (fun address overrides => getLiquidityMiningStake r address overrides)
  (fun overrides => getTotalStakedUniTokens r overrides)
  (fun address overrides => getLiquidityMiningLQTYReward r address overrides)
  (fun address overrides => getCollateralSurplusBalance r address overrides)
  (fun params overrides => getTroves r params overrides)
  (fun overrides => getFees r overrides)
  (fun address overrides => getLQTYStake r address overrides)
  (fun overrides => getTotalStakedLQTY r overrides)
  (fun address overrides => getFrontendStatus r address overrides).
End EthersLiquity.
End EthersLiquity.

(** ** Calls *)

(** A call of one of the operations. *)
Inductive Call :=
| Operate (op : Operation)
| Redeem (amount : Decimalish) (maxRedemptionRate : option Decimalish).

Section calls.
Context `{BN : BigNumber} (contracts : Contracts) (connection : Connection).
Context (hints : HintContracts) (randomSeed : Z) (estimateGas : RawTx -> result Z).
Context (priceFeedIsTestnet uniTokenIsMock : bool) (events : EventContracts).
Context (signer : option (RawTx -> result (option Z -> WaitOutcome))).

Local Notation ethers f := (f contracts connection hints randomSeed estimateGas priceFeedIsTestnet
                              uniTokenIsMock events signer).

(** The method of [EthersLiquity] for a call. *)
Definition execute (c : Call) (overrides : option TxOverrides) : Outcome Details :=
  match c with
  | Redeem amount rate =>
      EthersLiquity.redeemLUSD contracts connection hints randomSeed estimateGas events signer
        amount rate overrides
  | Operate op =>
      match op with
      | OpenTrove params optional => ethers EthersLiquity.openTrove params optional overrides
      | CloseTrove => ethers EthersLiquity.closeTrove overrides
      | AdjustTrove params optional => ethers EthersLiquity.adjustTrove params optional overrides
      | DepositCollateral' amount => ethers EthersLiquity.depositCollateral amount overrides
      | WithdrawCollateral' amount => ethers EthersLiquity.withdrawCollateral amount overrides
      | BorrowLUSD' amount maxBorrowingRate => ethers EthersLiquity.borrowLUSD amount maxBorrowingRate overrides
      | RepayLUSD' amount => ethers EthersLiquity.repayLUSD amount overrides
      | SetPrice price => ethers EthersLiquity.setPrice price overrides
      | Liquidate address => ethers EthersLiquity.liquidate address overrides
      | LiquidateUpTo maximum => ethers EthersLiquity.liquidateUpTo maximum overrides
      | DepositInStabilityPool amount frontendTag => ethers EthersLiquity.depositLUSDInStabilityPool amount frontendTag overrides
      | WithdrawFromStabilityPool amount => ethers EthersLiquity.withdrawLUSDFromStabilityPool amount overrides
      | WithdrawStabilityGains => ethers EthersLiquity.withdrawGainsFromStabilityPool overrides
      | TransferGainToTrove => ethers EthersLiquity.transferCollateralGainToTrove overrides
      | SendLUSD toAddress amount => ethers EthersLiquity.sendLUSD toAddress amount overrides
      | SendLQTY toAddress amount => ethers EthersLiquity.sendLQTY toAddress amount overrides
      | ClaimCollateralSurplus => ethers EthersLiquity.claimCollateralSurplus overrides
      | StakeLQTY amount => ethers EthersLiquity.stakeLQTY amount overrides
      | UnstakeLQTY amount => ethers EthersLiquity.unstakeLQTY amount overrides
      | WithdrawStakingGains => ethers EthersLiquity.withdrawGainsFromStaking overrides
      | RegisterFrontend kickbackRate => ethers EthersLiquity.registerFrontend kickbackRate overrides
      | MintUniToken amount address => ethers EthersLiquity._mintUniToken amount address overrides
      | ApproveUniTokens allowance => ethers EthersLiquity.approveUniTokens allowance overrides
      | StakeUniTokens amount => ethers EthersLiquity.stakeUniTokens amount overrides
      | UnstakeUniTokens amount => ethers EthersLiquity.unstakeUniTokens amount overrides
      | WithdrawMiningReward => ethers EthersLiquity.withdrawLQTYRewardFromLiquidityMining overrides
      | ExitMining => ethers EthersLiquity.exitLiquidityMining overrides
      end
  end.

(** The transaction that a call populates. *)
Definition prepared (c : Call) (overrides : option TxOverrides) :
    result PopulatedEthersLiquityTransaction :=
  match c with
  | Operate op => populateOperation contracts connection hints randomSeed estimateGas
                    priceFeedIsTestnet uniTokenIsMock events op overrides
  | Redeem amount rate => populateRedeem contracts connection hints randomSeed estimateGas events
                            amount rate overrides
  end.
End calls.

(** ** How a call ends *)

(** A transaction settles with a receipt when it is mined, when it fails, and when another
    transaction takes its place that the library does not regard as a cancellation. *)
Inductive settles : WaitOutcome -> TransactionReceipt -> Prop :=
| settles_mined receipt : settles (Mined (Some receipt)) receipt
| settles_failed e receipt :
    isError e = true -> e_code e = Some "CALL_EXCEPTION" ->
    e_reason e = Some "transaction failed" -> e_receipt e = Some receipt ->
    settles (Rejects e) receipt
| settles_replaced e reason receipt :
    isError e = true -> e_code e = Some "TRANSACTION_REPLACED" -> e_reason e = Some reason ->
    In reason ["cancelled"; "replaced"; "repriced"] -> e_cancelled e = false ->
    e_receipt e = Some receipt -> settles (Rejects e) receipt.

(** A transaction is cancelled when another one takes its place, other than itself at another
    price. *)
Inductive cancels : WaitOutcome -> string -> option TransactionReceipt -> Prop :=
| cancels_replaced e reason :
    isError e = true -> e_code e = Some "TRANSACTION_REPLACED" -> e_reason e = Some reason ->
    In reason ["cancelled"; "replaced"] -> e_cancelled e = true ->
    cancels (Rejects e) ("Transaction " +:+ reason) (e_receipt e).

Lemma failedErrorE e :
  isTransactionFailedError e = true <->
  e_code e = Some "CALL_EXCEPTION" /\ e_reason e = Some "transaction failed".
Proof. unfold isTransactionFailedError. by rewrite andb_true_iff, !bool_decide_eq_true. Qed.

Lemma replacedErrorE e :
  isTransactionReplacedError e = true <->
  e_code e = Some "TRANSACTION_REPLACED" /\
  exists reason, e_reason e = Some reason /\ In reason ["cancelled"; "replaced"; "repriced"].
Proof.
  unfold isTransactionReplacedError. rewrite andb_true_iff, bool_decide_eq_true.
  destruct (e_reason e) as [reason|]; [|naive_solver].
  rewrite existsb_exists. split.
  - intros [Hc (x & Hx & ->%String.eqb_eq)]. eauto.
  - intros [Hc (x & [= ->] & Hx)]. split; [done|]. exists x. split; [done | apply String.eqb_refl].
Qed.

Lemma failed_not_replaced e :
  isTransactionFailedError e = true -> isTransactionReplacedError e = true -> False.
Proof. intros [Hc _]%failedErrorE [Hc' _]%replacedErrorE. congruence. Qed.

(** [_waitForRawReceipt] resolves to a receipt exactly when the transaction settles with it. *)
Lemma waitForRawReceipt_settles tx n receipt :
  _waitForRawReceipt tx n = inl (Some receipt) <-> settles (wait tx n) receipt.
Proof.
  unfold _waitForRawReceipt. destruct (wait tx n) as [[r|]|e]; split.
  - intros [= ->]. constructor.
  - inversion 1; by subst.
  - done.
  - inversion 1.
  - destruct (isError e) eqn:He; [|done].
    destruct (isTransactionFailedError e) eqn:Hf.
    + intros [= Hr]. apply failedErrorE in Hf as [Hc Hs]. by apply settles_failed.
    + destruct (isTransactionReplacedError e) eqn:Hp; [|done].
      apply replacedErrorE in Hp as (Hc & reason & Hs & Hin).
      destruct (e_cancelled e) eqn:Hx; [done|]. intros [= Hr]. by eapply settles_replaced.
  - inversion 1 as [|? ? He Hc Hs Hr|? reason ? He Hc Hs Hin Hx Hr]; subst; rewrite He.
    + by rewrite (proj2 (failedErrorE e)), Hr.
    + assert (isTransactionReplacedError e = true) as Hp by (apply replacedErrorE; eauto).
      destruct (isTransactionFailedError e) eqn:Hf; [by destruct (failed_not_replaced e)|].
      by rewrite Hp, Hx, Hr.
Qed.

Lemma waitForRawReceipt_cancels tx n message receipt :
  _waitForRawReceipt tx n = inr (EthersTransactionCancelledError message receipt) <->
  cancels (wait tx n) message receipt.
Proof.
  unfold _waitForRawReceipt. destruct (wait tx n) as [r|e]; [by split; [done | inversion 1]|]. split.
  - destruct (isError e) eqn:He; [|done].
    destruct (isTransactionFailedError e) eqn:Hf; [done|].
    destruct (isTransactionReplacedError e) eqn:Hp; [|done].
    destruct (e_cancelled e) eqn:Hx; [|done].
    apply replacedErrorE in Hp as (Hc & reason & Hs & Hin). unfold newCancelledError. rewrite Hs.
    case_bool_decide as Hd; [done|]. intros [= <- <-]. apply cancels_replaced; try done.
    destruct Hin as [<-|[<-|[<-|[]]]]; [by left | by right; left | done].
  - inversion 1 as [? reason He Hc Hs Hin Hx]; subst. rewrite He.
    assert (isTransactionReplacedError e = true) as Hp
      by (apply replacedErrorE; split; [done|]; exists reason; split; [done|]; cbn in *; tauto).
    destruct (isTransactionFailedError e) eqn:Hf; [by destruct (failed_not_replaced e)|].
    rewrite Hp, Hx. unfold newCancelledError. rewrite Hs.
    case_bool_decide as Hd; [|done]. injection Hd as ->. cbn in Hin. naive_solver.
Qed.

Lemma raw_failure tx n f :
  _waitForRawReceipt tx n = inr f ->
  (exists e, f = Thrown e) \/ (exists e, f = Rethrown e) \/
  exists m r, f = EthersTransactionCancelledError m r.
Proof.
  unfold _waitForRawReceipt, newCancelledError. destruct (wait tx n) as [r|e]; [done|].
  destruct (isError e), (isTransactionFailedError e), (isTransactionReplacedError e), (e_cancelled e);
    try case_bool_decide; intros [= <-]; eauto.
Qed.

(** [waitForSuccess], by the receipt the transaction settles with. *)
Lemma waitForSuccessE tx :
  waitForSuccess tx =
  match _waitForRawReceipt tx None with
  | inl (Some receipt) =>
      if truthyStatus receipt then lift (parse tx receipt)
      else inr (EthersTransactionFailedError "Transaction failed" receipt)
  | inl None => inr (Thrown AssertionError)
  | inr f => inr f
  end.
Proof.
  unfold waitForSuccess, waitForReceipt.
  destruct (_waitForRawReceipt tx None) as [[receipt|]|f]; cbn; [|done..].
  destruct (truthyStatus receipt); [|done]. by destruct (parse tx receipt).
Qed.

Lemma waitForSuccess_details tx d :
  waitForSuccess tx = inl d <->
  exists receipt, settles (wait tx None) receipt /\ truthyStatus receipt = true /\
    parse tx receipt = Ok d.
Proof.
  rewrite waitForSuccessE. setoid_rewrite <- waitForRawReceipt_settles.
  destruct (_waitForRawReceipt tx None) as [[r|]|f]; [|by split; [|intros (? & [=] & _)]..].
  destruct (truthyStatus r) eqn:Ht.
  - split.
    + destruct (parse tx r) as [d'|] eqn:Hp; [|done]. intros [= ->]. by exists r.
    + intros (? & [= <-] & _ & ->). done.
  - split; [done|]. intros (? & [= <-] & Ht' & _). congruence.
Qed.

Lemma waitForSuccess_failed tx m r :
  waitForSuccess tx = inr (EthersTransactionFailedError m r) <->
  m = "Transaction failed" /\ settles (wait tx None) r /\ truthyStatus r = false.
Proof.
  rewrite waitForSuccessE, <- waitForRawReceipt_settles.
  destruct (_waitForRawReceipt tx None) as [[receipt|]|f] eqn:Hw; [|naive_solver|].
  - destruct (truthyStatus receipt) eqn:Ht.
    + split; [by destruct (parse tx receipt)|]. intros (_ & [= ->] & Ht'). congruence.
    + split; [by intros [= <- <-]|]. by intros (-> & [= ->] & _).
  - destruct (raw_failure tx None f Hw) as [(e & ->)|[(e & ->)|(m' & r' & ->)]]; naive_solver.
Qed.

Lemma waitForSuccess_cancelled tx m r :
  waitForSuccess tx = inr (EthersTransactionCancelledError m r) <-> cancels (wait tx None) m r.
Proof.
  rewrite waitForSuccessE, <- waitForRawReceipt_cancels.
  destruct (_waitForRawReceipt tx None) as [[receipt|]|f]; [|by split|by split; intros [= ->]].
  destruct (truthyStatus receipt); [destruct (parse tx receipt)|]; by split.
Qed.

Section calls.
Context `{BN : BigNumber} (contracts : Contracts) (connection : Connection).
Context (hints : HintContracts) (randomSeed : Z) (estimateGas : RawTx -> result Z).
Context (priceFeedIsTestnet uniTokenIsMock : bool) (events : EventContracts).
Context (signer : option (RawTx -> result (option Z -> WaitOutcome))).

Local Notation execute := (execute contracts connection hints randomSeed estimateGas
  priceFeedIsTestnet uniTokenIsMock events signer).
Local Notation prepared := (prepared contracts connection hints randomSeed estimateGas
  priceFeedIsTestnet uniTokenIsMock events).

Lemma executeE c overrides :
  execute c overrides = andThen (lift (sendTransaction signer (prepared c overrides))) waitForSuccess.
Proof. by destruct c as [[]|]. Qed.

(** The signer took the request of a prepared transaction and responded. *)
Definition responds (c : Call) (overrides : option TxOverrides)
    (tx : PopulatedEthersLiquityTransaction) (response : option Z -> WaitOutcome) : Prop :=
  prepared c overrides = Ok tx /\
  exists sendIt, signer = Some sendIt /\ sendIt (rawPopulatedTransaction (populated tx)) = Ok response.

Lemma sent_responds c overrides sent :
  sendTransaction signer (prepared c overrides) = Ok sent <->
  exists tx response, responds c overrides tx response /\ sent = mkSent response (parseReceipt tx).
Proof.
  unfold sendTransaction, send, responds. split.
  - intros (tx & Htx & H)%bind_Ok. destruct signer as [sendIt|]; [|done].
    apply bind_Ok in H as (response & Hr & [= <-]). by eauto 10.
  - intros (tx & response & (-> & sendIt & -> & Hr) & ->). cbn. by rewrite Hr.
Qed.

Lemma execute_ends c overrides (ends : Outcome Details) :
  (forall e, ends <> inr (Thrown e)) ->
  execute c overrides = ends <->
  exists tx response, responds c overrides tx response /\
    waitForSuccess (mkSent response (parseReceipt tx)) = ends.
Proof.
  intros Hne. rewrite executeE. pose proof (sent_responds c overrides) as Hr.
  destruct (sendTransaction signer (prepared c overrides)) as [sent|e]; cbn.
  - destruct (proj1 (Hr sent) eq_refl) as (tx & response & Hresp & ->). split.
    + intros <-. eauto.
    + intros (tx' & response' & Hresp' & <-). f_equal.
      assert (Ok (mkSent response (parseReceipt tx)) = Ok (mkSent response' (parseReceipt tx')))
        as [= -> ->] by (apply Hr; eauto). done.
  - split; [by intros <-; destruct (Hne e)|]. intros (tx & response & Hresp & _).
    assert (Err e = Ok (mkSent response (parseReceipt tx))) as [=] by (apply Hr; eauto).
Qed.

(** C14. A call of [EthersLiquity] returns details exactly when the transaction it prepared was
    taken by the signer and settled with a receipt of success, and they are the details of that
    very receipt; it throws [EthersTransactionFailedError] exactly when the receipt says that the
    transaction failed, and [EthersTransactionCancelledError] exactly when another transaction
    replaced it. *)
Theorem calls_report_their_receipt c overrides :
  (forall d, execute c overrides = inl d <->
     exists tx response receipt, responds c overrides tx response /\
       settles (response None) receipt /\ truthyStatus receipt = true /\
       parseReceipt tx receipt = Ok d) /\
  (forall m receipt, execute c overrides = inr (EthersTransactionFailedError m receipt) <->
     exists tx response, responds c overrides tx response /\ m = "Transaction failed" /\
       settles (response None) receipt /\ truthyStatus receipt = false) /\
  (forall m receipt, execute c overrides = inr (EthersTransactionCancelledError m receipt) <->
     exists tx response, responds c overrides tx response /\ cancels (response None) m receipt).
Proof.
  split_and!; intros; rewrite execute_ends by done.
  - setoid_rewrite waitForSuccess_details. cbn. naive_solver.
  - by setoid_rewrite waitForSuccess_failed.
  - by setoid_rewrite waitForSuccess_cancelled.
Qed.

Lemma parserOf_own op parser :
  parserOf events op = Ok parser -> readsOwnEvents events parser.
Proof.
  destruct op; cbn; unfold creationParser, adjustmentParser, rmap; intros H; inv_ok;
    repeat case_match; simplify_eq; eauto with liquity.
Qed.

(** The details that a call reports are made of what the protocol's own contracts have
    emitted: logs of other contracts, whatever their topics and data, change nothing. *)
Theorem details_from_own_events c overrides tx receipt receipt' :
  prepared c overrides = Ok tx -> sameOwnEvents events receipt receipt' ->
  parseReceipt tx receipt = parseReceipt tx receipt'.
Proof.
  intros Hp Hs. destruct c as [op|amount rate]; cbn in Hp; unfold populateOperation, populateRedeem, wrap in Hp;
    inv_ok; cbn.
  - by eapply parserOf_own.
  - by eapply redemption_own.
Qed.
End calls.

(** ** An instance *)

Section sample.
#[local] Existing Instance ZBN.

(** Contracts whose logs carry the name of the event and one amount each. *)
Definition sampleContract (a : string) : Contract :=
  mkContract a (fun log =>
    match log_topics log with
    | ["Transfer"; from; to] =>
        Ok (mkDescription "Transfer"
              [("from", ArgString from); ("to", ArgString to); ("value", ArgNumber (2000 * 10 ^ 18))])
    | ["EtherSent"; to] =>
        Ok (mkDescription "EtherSent" [("_to", ArgString to); ("_amount", ArgNumber (30 * 10 ^ 18))])
    | _ => Err (JsError "no matching event")
    end).

Definition sampleEvents : EventContracts :=
  mkEventContracts (sampleContract "0xb0") (sampleContract "0x70") (sampleContract "0x50")
    (sampleContract "0x1d") (sampleContract "0xa0").

Definition sampleLogs : list Log :=
  [mkLog "0x1d" ["Transfer"; "0x1"; AddressZero] ""; mkLog "0xa0" ["EtherSent"; "0x1"] ""].

(** A foreign contract pretends that the user has repaid something, and another one emits an
    event that none of the interfaces knows. *)
Definition sampleForeign : list Log :=
  [mkLog "0xbad" ["Transfer"; "0x1"; AddressZero] ""] ++ sampleLogs ++ [mkLog "0xbad" ["Noise"] ""].

Definition sampleReceipt (logs : list Log) : TransactionReceipt := mkReceipt "0x1" "0xh" (Some 1) logs.

Lemma details_from_own_events_witness :
  exists tx, prepared sampleContracts sampleConnection sampleHints 1 sampleEstimate true true
      sampleEvents (Operate CloseTrove) None = Ok tx /\
    parseReceipt tx (sampleReceipt sampleForeign) =
      Ok (ClosureDetails (Some (dec (30 * 10 ^ 18))) (Some (dec (2000 * 10 ^ 18)))).
Proof.
  assert (rmap (fun tx => parseReceipt tx (sampleReceipt sampleLogs))
      (prepared sampleContracts sampleConnection sampleHints 1 sampleEstimate true true
         sampleEvents (Operate CloseTrove) None) =
    Ok (Ok (ClosureDetails (Some (dec (30 * 10 ^ 18))) (Some (dec (2000 * 10 ^ 18)))))) as Hr
    by (vm_compute; reflexivity).
  apply bind_Ok in Hr as (tx & H & [= Hr]). exists tx. split; [exact H|].
  rewrite (details_from_own_events sampleContracts sampleConnection sampleHints 1 sampleEstimate true
    true sampleEvents (Operate CloseTrove) None tx (sampleReceipt sampleForeign)
    (sampleReceipt sampleLogs) H) by (split; reflexivity).
  exact Hr.
Defined.
End sample.
