(* ===== verification/Batching.v ===== *)
(** * Batched calls

    [packages/providers/src/BatchedProvider.ts]: the provider that collects the calls made
    within a short delay and sends them as one call to the Multicall contract.

    The provider it extends and the Multicall contract are third-party: what the node answers to
    a call at a block is an argument of the event by which the answer arrives, and [aggregate]
    is a parameter, with what the contract documents as its law.  A call has two halves, before
    and after its arguments have resolved, and other turns may come between them. *)

From S2P Require Import Prelude EthersReadable.
From stdpp Require Import gmap sets.
From Stdlib Require Import Ascii String.

Local Open Scope string_scope.
Local Open Scope Z_scope.

(** ** Requests *)

(** [ResolvedTransactionRequest] *)
Record Request := mkRequest {
  to : option string; from : option string; nonce : option Z;
  gasLimit : option Z; gasPrice : option Z;
  data : option string; value : option Z; chainId : option Z
}.

Record CallRequest := mkCall { target : option string; callData : option string }.

(** What is kept of a request that is batched: neither its [from] nor its [nonce]. *)
Definition callOf (request : Request) : CallRequest := mkCall (to request) (data request).

Definition multicallAddress (chainId : Z) : option string :=
  if chainId =? 1 then Some "0xeefBa1e63905eF1D7ACbA5a8513c70307C1cE441"
  else if chainId =? 3 then Some "0x53C43764255c17BD724F74c4eF150724AC50a3ed"
  else if chainId =? 4 then Some "0x42Ad527de7d4e9d9d011aC45B31D8551f8Fe9821"
  else if chainId =? 5 then Some "0x77dCa2C955b15e9dE4dbBCf1246B4B85b651e50e"
  else if chainId =? 42 then Some "0x2cc8688C5f75E365aaEEb4ea8D6a480405A48D2A"
  else None.

Definition batchableCall (request : Request) : bool :=
  match gasLimit request, gasPrice request, value request with
  | None, None, None => true
  | _, _, _ => false
  end.

(** A call of [aggregate], which carries a batch itself. *)
Definition batchedCall (request : Request) (multicall : string) : bool :=
  bool_decide (to request = Some multicall) &&
  match data request with Some data => String.prefix "0x252dba42" data | None => false end.

(** ** The provider *)

(** A callback is the promise it settles, by number. *)
Record BatchedCalls := mkBatch {
  calls : list CallRequest; callbacks : list nat; b_blockTag : option BlockTag
}.

Definition emptyBatch : BatchedCalls := mkBatch [] [] None.

(** [asked] is the history of the calls that were batched, by promise, with their block tags;
    [settled] that of the promises that were resolved or rejected. *)
Record Provider := mkProvider {
  _chainId : Z;
  _multicall : option string;
  _timeoutId : option nat;
  timers : gset nat;
  nextTimer : nat;
  _batched : BatchedCalls;
  inFlight : list BatchedCalls;
  _numberOfBatchedCalls : Z;
  _numberOfActualCalls : Z;
  _timeOfLastRatioCheck : option Z;
  asked : list (Request * option BlockTag);
  settled : list (nat * result (option string))
}.

Definition setCounters (batched actual : Z) (time : option Z) (p : Provider) : Provider :=
  mkProvider (_chainId p) (_multicall p) (_timeoutId p) (timers p) (nextTimer p) (_batched p)
    (inFlight p) batched actual time (asked p) (settled p).

(** The setter of [chainId]. *)
Definition setChainId (chainId : Z) (p : Provider) : result Provider :=
  match _multicall p with
  | Some _ => Err (JsError "can only set chainId once")
  | None =>
      Ok (mkProvider chainId (multicallAddress chainId) (_timeoutId p) (timers p) (nextTimer p)
            (_batched p) (inFlight p) (_numberOfBatchedCalls p) (_numberOfActualCalls p)
            (_timeOfLastRatioCheck p) (asked p) (settled p))
  end.

(** [blockTag ?? "latest"] *)
Definition orLatest (blockTag : option BlockTag) : BlockTag := default (BlockName "latest") blockTag.

Definition _alreadyBatchedCallsConflictWith (blockTag : option BlockTag) (p : Provider) : bool :=
  match calls (_batched p) with
  | [] => false
  | _ => bool_decide (orLatest blockTag <> orLatest (b_blockTag (_batched p)))
  end.

(** [_enqueueCall], of the request that is asked at [blockTag]: the promise is the number of
    calls that were batched before. *)
Definition _enqueueCall (request : Request) (blockTag : option BlockTag) (p : Provider) : Provider :=
  let cleared := match _timeoutId p with Some id => timers p ∖ {[ id ]} | None => timers p end in
  let b := _batched p in
  mkProvider (_chainId p) (_multicall p) (Some (nextTimer p)) (cleared ∪ {[ nextTimer p ]})
    (S (nextTimer p))
    (mkBatch (calls b ++ [callOf request])%list (callbacks b ++ [List.length (asked p)])%list
       (b_blockTag b))
    (inFlight p) (_numberOfBatchedCalls p) (_numberOfActualCalls p) (_timeOfLastRatioCheck p)
    (asked p ++ [(request, blockTag)])%list (settled p).

(** [call] up to the point where it waits for its arguments: the bookkeeping of the ratio. *)
Definition callBegins (now : Z) (p : Provider) : Provider :=
  match _multicall p with
  | None => p
  | Some _ =>
      match _timeOfLastRatioCheck p with
      | None => setCounters (_numberOfBatchedCalls p) (_numberOfActualCalls p) (Some now) p
      | Some last =>
          if (10000 <=? now - last) && negb (_numberOfActualCalls p =? 0)
          then setCounters 0 0 (Some now) p
          else p
      end
  end.

(** The rest of [call]: the call is passed on, or batched. *)
Definition callResolved (request : Request) (blockTag : option BlockTag) (p : Provider) : Provider :=
  match _multicall p with
  | None => p
  | Some multicall =>
      if batchedCall request multicall || negb (batchableCall request)
         || _alreadyBatchedCallsConflictWith blockTag p
      then setCounters (_numberOfBatchedCalls p) (_numberOfActualCalls p + 1) (_timeOfLastRatioCheck p) p
      else
        let p := setCounters (_numberOfBatchedCalls p + 1) (_numberOfActualCalls p)
                   (_timeOfLastRatioCheck p) p in
        let b := _batched p in
        let b := match calls b with [] => mkBatch [] (callbacks b) blockTag | _ => b end in
        _enqueueCall request blockTag
          (mkProvider (_chainId p) (_multicall p) (_timeoutId p) (timers p) (nextTimer p) b (inFlight p)
             (_numberOfBatchedCalls p) (_numberOfActualCalls p) (_timeOfLastRatioCheck p) (asked p)
             (settled p))
  end.

(** [_dispatchCalls], when its timer fires: the batch is sent and a new one begun. *)
Definition _dispatchCalls (id : nat) (p : Provider) : Provider :=
  mkProvider (_chainId p) (_multicall p) (_timeoutId p) (timers p ∖ {[ id ]}) (nextTimer p) emptyBatch
    (inFlight p ++ [_batched p])%list (_numberOfBatchedCalls p) (_numberOfActualCalls p)
    (_timeOfLastRatioCheck p) (asked p) (settled p).

(** What the node answers to a call, from the address that makes it ([msg.sender]), if any, and at
    a block. *)
Definition Node : Type := option string -> CallRequest -> option BlockTag -> result string.

Section answers.
Context (aggregate : (CallRequest -> result string) -> list CallRequest -> result (list string)).

(** What a batch gets, when the node answers by [answer]: a single call is made from no address,
    several are made by the Multicall contract, all at the batch's block. *)
Definition batchResults (answer : Node) (multicall : option string) (b : BatchedCalls) :
    result (list string) :=
  match calls b with
  | [] => Err (JsError "undefined has no properties")
  | [call] => let* result := answer None call (b_blockTag b) in Ok [result]
  | calls =>
      match multicall with
      | Some _ => aggregate (fun call => answer multicall call (b_blockTag b)) calls
      | None => Err (JsError "undefined has no properties")
      end
  end.

(** [callbacks.forEach(([resolve], i) => resolve(results[i]))], or [reject(error)] for all: a
    result that is missing resolves its promise to [undefined]. *)
Definition settle (results : result (list string)) (callbacks : list nat) :
    list (nat * result (option string)) :=
  match results with
  | Ok results => imap (fun i callback => (callback, Ok (results !! i))) callbacks
  | Err e => map (fun callback => (callback, Err e)) callbacks
  end.

(** The answer to a batch in flight. *)
Definition answered (i : nat) (answer : Node) (p : Provider) : Provider :=
  match inFlight p !! i with
  | None => p
  | Some b =>
      mkProvider (_chainId p) (_multicall p) (_timeoutId p) (timers p) (nextTimer p) (_batched p)
        (delete i (inFlight p)) (_numberOfBatchedCalls p) (_numberOfActualCalls p)
        (_timeOfLastRatioCheck p) (asked p)
        (settled p ++ settle (batchResults answer (_multicall p) b) (callbacks b))%list
  end.

Inductive Event :=
| CallBegins (now : Z)
| CallResolved (request : Request) (blockTag : option BlockTag)
| TimerFires (id : nat)
| Answered (i : nat) (answer : Node).

Definition turn (p : Provider) (e : Event) : Provider :=
  match e with
  | CallBegins now => callBegins now p
  | CallResolved request blockTag => callResolved request blockTag p
  | TimerFires id => if decide (id ∈ timers p) then _dispatchCalls id p else p
  | Answered i answer => answered i answer p
  end.

Definition run (p : Provider) (events : list Event) : Provider := fold_left turn events p.
End answers.

(** [getBalance]: through the Multicall contract, where there is one, for addresses. *)
Definition getBalance (isAddress : string -> bool)
    (superGetBalance getEthBalance : string -> option BlockTag -> result Z)
    (addressOrName : string) (blockTag : option BlockTag) (p : Provider) : result Z :=
  match _multicall p with
  | Some _ => if isAddress addressOrName then getEthBalance addressOrName blockTag
              else superGetBalance addressOrName blockTag
  | None => superGetBalance addressOrName blockTag
  end.

(** ** Every call gets its own answer *)

(** What the Multicall contract documents: the call fails unless all calls succeed, and returns
    their results in the order of the calls. *)
Class AggregateLaws (aggregate : (CallRequest -> result string) -> list CallRequest -> result (list string)) :
    Prop := {
  aggregate_results f l results :
    aggregate f l = Ok results -> Forall2 (fun call result => f call = Ok result) l results
}.

(** A provider before its first call. *)
Definition fresh (p : Provider) : Prop :=
  _batched p = emptyBatch /\ inFlight p = [] /\ asked p = [] /\ settled p = [] /\ timers p = ∅.

Section theory.
Context `{AggregateLaws aggregate}.
Local Notation turn := (turn aggregate).
Local Notation run := (run aggregate).

(** The calls of a batch are those of its promises, asked at the batch's block. *)
Definition fits (asked : list (Request * option BlockTag)) (b : BatchedCalls) : Prop :=
  Forall2 (fun call promise => exists request tag, asked !! promise = Some (request, tag) /\
      callOf request = call /\ orLatest tag = orLatest (b_blockTag b))
    (calls b) (callbacks b).

(** A promise was resolved with what the node has answered to its own call, as made by an address
    that the call may be made from. *)
Definition answeredFrom (senders : Request -> list (option string)) (events : list Event)
    (asked : list (Request * option BlockTag)) (promise : nat) (v : option string) : Prop :=
  exists request tag tag' sender i answer result, asked !! promise = Some (request, tag) /\
    orLatest tag' = orLatest tag /\ In (Answered i answer) events /\ In sender (senders request) /\
    v = Some result /\ answer sender (callOf request) tag' = Ok result.

(** Whatever its [from], a batched call is made from nowhere or by the Multicall contract. *)
Definition answeredRight (multicall : option string) : list Event -> list (Request * option BlockTag) ->
    nat -> option string -> Prop := answeredFrom (fun _ => [None; multicall]).

(** The answer to the request as it was made. *)
Definition answeredAsAsked : list Event -> list (Request * option BlockTag) ->
    nat -> option string -> Prop := answeredFrom (fun request => [from request]).

(** The node's answers do not depend on who calls. *)
Definition senderless (events : list Event) : Prop :=
  forall i (answer : Node), In (Answered i answer) events ->
  forall sender sender' call tag, answer sender call tag = answer sender' call tag.

Record invariant (events : list Event) (p : Provider) : Prop := {
  inv_batched : fits (asked p) (_batched p);
  inv_inFlight : Forall (fits (asked p)) (inFlight p);
  inv_once : (settled p).*1 ++ List.concat (map callbacks (inFlight p)) ++ callbacks (_batched p)
               ≡ₚ seq 0 (List.length (asked p));
  inv_right promise v : (promise, Ok v) ∈ settled p -> answeredRight (_multicall p) events (asked p) promise v;
  inv_timers id : id ∈ timers p -> _timeoutId p = Some id;
  inv_pending : calls (_batched p) <> [] -> exists id, _timeoutId p = Some id /\ id ∈ timers p
}.

Lemma fits_more asked more b : fits asked b -> fits (asked ++ more) b.
Proof.
  intros Hf. eapply Forall2_impl; [exact Hf|]. intros call promise (request & tag & Hl & Hc & Ht).
  exists request, tag. split; [by apply lookup_app_l_Some | done].
Qed.

Lemma answeredRight_more m events e asked more promise v :
  answeredRight m events asked promise v ->
  answeredRight m (events ++ [e]) (asked ++ more) promise v.
Proof.
  intros (request & tag & tag' & sender & i & answer & r & Hl & Ht & Hin & Hs & Hv & Ha).
  exists request, tag, tag', sender, i, answer, r. split_and!; try done.
  - by apply lookup_app_l_Some.
  - apply in_or_app. by left.
Qed.

Lemma settle_fst results callbacks : (settle results callbacks).*1 = callbacks.
Proof.
  destruct results as [l|e]; cbn.
  - rewrite fmap_imap. apply list_eq. intros i. rewrite list_lookup_imap.
    by destruct (callbacks !! i).
  - induction callbacks as [|c callbacks IH]; cbn; [done|]. by f_equal.
Qed.

Lemma batchResults_each answer m b results :
  batchResults aggregate answer m b = Ok results ->
  exists sender, In sender [None; m] /\
    Forall2 (fun call result => answer sender call (b_blockTag b) = Ok result) (calls b) results.
Proof.
  unfold batchResults. destruct (calls b) as [|call [|call' l]] eqn:Hc; [done | |].
  - intros (r & Hr & [= <-])%bind_Ok. exists None. split; [by left | by repeat constructor].
  - destruct m as [multicall|]; [|done]. intros Hr%aggregate_results.
    exists (Some multicall). split; [right; by left | done].
Qed.

Lemma settle_right i answer m b asked promise v events :
  fits asked b -> In (Answered i answer) events ->
  (promise, Ok v) ∈ settle (batchResults aggregate answer m b) (callbacks b) ->
  answeredRight m events asked promise v.
Proof.
  intros Hf Hin Hs. destruct (batchResults aggregate answer m b) as [results|e] eqn:Hr; cbn in Hs.
  - apply elem_of_lookup_imap in Hs as (k & c & [= -> ->] & Hk).
    destruct (Forall2_lookup_r _ _ _ _ _ Hf Hk) as (call & Hcall & request & tag & Hl & Hc & Ht).
    destruct (batchResults_each _ _ _ _ Hr) as (sender & Hsender & Heach).
    destruct (Forall2_lookup_l _ _ _ _ _ Heach Hcall) as (r & Hres & Ha).
    exists request, tag, (b_blockTag b), sender, i, answer, r. rewrite Hc. by split_and!.
  - apply list_elem_of_In, in_map_iff in Hs as (? & [=] & _).
Qed.

Lemma invariant_mono events e p : invariant events p -> invariant (events ++ [e]) p.
Proof.
  intros [Hb Hi Ho Hr Ht Hp]. constructor; try done. intros promise v Hs%Hr.
  rewrite <- (app_nil_r (asked p)). by apply answeredRight_more.
Qed.

(** Enqueueing keeps the invariant when the block of the batch is the call's. *)
Lemma enqueue_invariant events request tag p :
  invariant events p -> orLatest tag = orLatest (b_blockTag (_batched p)) ->
  invariant events (_enqueueCall request tag p).
Proof.
  intros [Hb Hi Ho Hr Ht Hp] Htag. constructor; cbn.
  - apply Forall2_app; cbn; [by apply fits_more|]. constructor; [|constructor].
    exists request, tag. split; [|done]. by rewrite list_lookup_middle.
  - eapply Forall_impl; [exact Hi | intros b; apply fits_more].
  - rewrite !app_assoc, length_app, seq_app. cbn. rewrite <- !app_assoc. rewrite <- Ho.
    by rewrite <- !app_assoc.
  - intros promise v (request' & tag0 & tag' & sender & i & answer & r & Hl & H')%Hr.
    exists request', tag0, tag', sender, i, answer, r. split; [by apply lookup_app_l_Some | done].
  - intros id. rewrite elem_of_union, elem_of_singleton. intros [Hid| ->]; [|done].
    destruct (_timeoutId p) as [old|]; [|by apply Ht in Hid].
    apply elem_of_difference in Hid as [Hid Hne]. apply Ht in Hid as [= ->]. set_solver.
  - intros _. exists (nextTimer p). set_solver.
Qed.

Lemma counters_invariant events b a t p : invariant events p -> invariant events (setCounters b a t p).
Proof. by intros []. Qed.

Lemma resolved_invariant events request tag p :
  invariant events p -> invariant events (callResolved request tag p).
Proof.
  intros Hinv. unfold callResolved. destruct (_multicall p) as [multicall|]; [|done].
  destruct (_ || _) eqn:Hpass; [by apply counters_invariant|].
  apply orb_false_iff in Hpass as [_ Hconflict]. unfold _alreadyBatchedCallsConflictWith in Hconflict.
  apply enqueue_invariant; cbn.
  - destruct Hinv as [Hb Hi Ho Hr Ht Hp]. constructor; cbn; try done.
    + destruct (calls (_batched p)) eqn:Hc; [|done]. unfold fits in *. cbn. rewrite Hc in Hb.
      apply Forall2_nil_inv_l in Hb as ->. constructor.
    + by destruct (calls (_batched p)).
    + destruct (calls (_batched p)) eqn:Hc; [done|]. intros _. by apply Hp.
  - destruct (calls (_batched p)); [done|].
    apply bool_decide_eq_false in Hconflict. destruct (decide (orLatest tag = orLatest (b_blockTag (_batched p)))); tauto.
Qed.

Lemma dispatch_invariant events id p :
  invariant events p -> id ∈ timers p -> invariant events (_dispatchCalls id p).
Proof.
  intros [Hb Hi Ho Hr Ht Hp] Hid. constructor; cbn; try done.
  - constructor.
  - apply Forall_app. by repeat constructor.
  - by rewrite map_app, concat_app, app_nil_r in *; cbn; rewrite app_nil_r.
  - intros id' [Hid' _]%elem_of_difference. by apply Ht.
Qed.

Lemma answered_invariant events i answer p :
  invariant events p -> invariant (events ++ [Answered i answer]) (answered aggregate i answer p).
Proof.
  intros Hinv. apply (invariant_mono _ (Answered i answer)) in Hinv. unfold answered.
  destruct (inFlight p !! i) as [b|] eqn:Hb; [|done]. destruct Hinv as [Hbat Hi Ho Hr Ht Hp].
  pose proof (delete_Permutation _ _ _ Hb) as Hperm.
  rewrite Hperm in Hi. apply Forall_cons in Hi as [Hfit Hi].
  constructor; cbn; try done.
  - rewrite fmap_app, settle_fst, <- Ho, <- !app_assoc. apply Permutation_app_head.
    rewrite app_assoc. apply Permutation_app_tail.
    change (callbacks b ++ List.concat (map callbacks (delete i (inFlight p))))%list
      with (List.concat (map callbacks (b :: delete i (inFlight p)))).
    rewrite <- !flat_map_concat_map. by apply Permutation_flat_map.
  - intros promise v [Hs|Hs]%elem_of_app; [by apply Hr|].
    eapply settle_right; [exact Hfit | apply in_or_app; right; by left | exact Hs].
Qed.

Lemma turn_invariant events e p : invariant events p -> invariant (events ++ [e]) (turn p e).
Proof.
  intros Hinv. pose proof (invariant_mono _ e _ Hinv) as Hinv'. destruct e as [now|request tag|id|i answer]; cbn.
  - unfold callBegins. destruct (_multicall p), (_timeOfLastRatioCheck p); try done;
      [destruct (_ && _)|]; by try apply counters_invariant.
  - by apply resolved_invariant.
  - case_decide; [by apply dispatch_invariant | done].
  - by apply answered_invariant.
Qed.

Lemma run_invariant' events p : fresh p -> invariant events (run p events).
Proof.
  intros (Hb & Hi & Ha & Hs & Ht). induction events as [|e events IH] using rev_ind.
  - constructor; cbn; rewrite ?Hb, ?Hi, ?Ha, ?Hs, ?Ht; try done; constructor || set_solver.
  - unfold Batching.run. rewrite fold_left_app. by apply turn_invariant.
Qed.

Lemma turn_multicall p e : _multicall (turn p e) = _multicall p.
Proof.
  destruct e as [now|request tag|id|i answer]; cbn; [unfold callBegins | unfold callResolved | |];
    [destruct (_multicall p) eqn:Hm; [|done]..| |].
  - destruct (_timeOfLastRatioCheck p); [destruct (_ && _)|]; done.
  - by destruct (_ || _).
  - by case_decide.
  - unfold answered. by destruct (inFlight p !! i).
Qed.

Lemma run_multicall events p : _multicall (run p events) = _multicall p.
Proof.
  revert p. induction events as [|e events IH]; intros p; [done|].
  change (run p (e :: events)) with (run (turn p e) events). by rewrite IH, turn_multicall.
Qed.

(** C13. Whatever the order in which calls are made, timers fire and answers arrive: every
    call that was batched is settled once, or still waits in one place, a batch in flight or the
    batch being collected; one that is resolved gets what the node answered to its own call (its
    target and data) at its own block, but made from no address or by the Multicall contract and
    not from the request's [from]; it is the answer to the request as it was made where the
    node's answers do not depend on the caller; and while calls are being collected, exactly one
    timer is pending that will send them. *)
Theorem batched_calls_get_their_answers p events :
  fresh p ->
  let s := run p events in
  (settled s).*1 ++ List.concat (map callbacks (inFlight s)) ++ callbacks (_batched s)
    ≡ₚ seq 0 (List.length (asked s)) /\
  (forall promise v, (promise, Ok v) ∈ settled s ->
     answeredRight (_multicall p) events (asked s) promise v /\
     (senderless events -> answeredAsAsked events (asked s) promise v)) /\
  (calls (_batched s) <> [] -> exists id, forall id', id' ∈ timers s <-> id' = id).
Proof.
  intros Hf s. destruct (run_invariant' events p Hf) as [_ _ Ho Hr Ht Hp].
  rewrite run_multicall in Hr. split_and!; [done| |].
  - intros promise v Hv%Hr. split; [done|]. intros Hs.
    destruct Hv as (request & tag & tag' & sender & i & answer & r & Hl & Htag & Hin & _ & Hv & Ha).
    exists request, tag, tag', (from request), i, answer, r. split_and!; try done; [by left|].
    rewrite <- Ha. by eapply Hs.
  - intros (id & Hid & Hin)%Hp. exists id. intros id'. split; [|by intros ->].
    intros E%Ht. assert (Some id = Some id') as [= ->] by (etrans; [symmetry; exact Hid | exact E]). done.
Qed.
End theory.

(** ** An instance *)

Section sample.

#[local] Instance traverse_laws : AggregateLaws traverse.
Proof. constructor. intros f l results. apply traverse_Ok. Qed.

Definition sampleProvider : Provider :=
  mkProvider 1 (multicallAddress 1) None ∅ 0 emptyBatch [] 0 0 None [] [].

Definition sampleRequest (a : string) : Request :=
  mkRequest (Some a) (Some "0xuser") None None None (Some "0x") None None.

(** Nodes that answer with the address called, and with the address that calls. *)
Definition echo : Node := fun sender call tag => Ok (default "" (target call)).
Definition whoami : Node := fun sender call tag => Ok (default "" sender).

(** A batched call does not have its own [from]: two calls of a user are made by the Multicall
    contract, and a single one by nobody. *)
Example batched_from_is_dropped :
  settled (run traverse sampleProvider
    [CallResolved (sampleRequest "0xa") None; CallResolved (sampleRequest "0xb") None;
     TimerFires 1; Answered 0 whoami; CallResolved (sampleRequest "0xa") None; TimerFires 2;
     Answered 0 whoami]) =
  [(0%nat, Ok (multicallAddress 1)); (1%nat, Ok (multicallAddress 1)); (2%nat, Ok (Some ""))].
Proof. reflexivity. Qed.

(** Two calls are sent as one; a third at another block is passed on. *)
Definition sampleEvents : list Event :=
  [CallBegins 0; CallResolved (sampleRequest "0xa") None; CallResolved (sampleRequest "0xb") None;
   CallResolved (sampleRequest "0xc") (Some (BlockNumber 7)); TimerFires 1; Answered 0 echo].

Lemma batched_calls_get_their_answers_witness :
  let s := run traverse sampleProvider sampleEvents in
  settled s = [(0%nat, Ok (Some "0xa")); (1%nat, Ok (Some "0xb"))] /\
  (settled s).*1 ≡ₚ [0; 1]%nat /\ answeredAsAsked sampleEvents (asked s) 1 (Some "0xb").
Proof.
  pose proof (batched_calls_get_their_answers sampleProvider sampleEvents ltac:(repeat split))
    as (Hperm & Hright & _).
  split; [vm_compute; reflexivity|]. split; [exact Hperm|].
  apply Hright; [apply list_elem_of_In; vm_compute; right; left; reflexivity|].
  intros i answer Hin. repeat destruct Hin as [[=]|Hin]; [|destruct Hin]. subst. reflexivity.
Defined.
End sample.
