(* ===== verification/GraphStore.v ===== *)
(** * The subgraph: entities and their store

    The entities of [packages/subgraph/schema.graphql] and the store the mappings load them
    from and save them to.  Loading gives a copy of the saved entity, which only [save]
    writes back.  A field that a mapping reads before it is set is an [option].

    The runtime of the mappings (graph-ts and graph-node) is not part of the repository:
    [BigDecimal] is a parameter, with its documented behaviour as laws, and so is what the
    ERC-20 contract answers.  [BigInt] is [Z], and [i32] values wrap around. *)

From S2P Require Import Prelude JsString.
From stdpp Require Import pretty.
From Stdlib Require Import Ascii String.
From Stdlib Require QArith_base Qreduction.

Local Open Scope string_scope.
Local Open Scope Z_scope.

(** ** Numbers *)

(** Reduction to 32-bit two's complement. *)
Definition i32 (z : Z) : Z := (z + 2 ^ 31) mod 2 ^ 32 - 2 ^ 31.

(** [BigInt.toI32] *)
Definition toI32 (z : Z) : result Z :=
  if (- 2 ^ 31 <=? z) && (z <? 2 ^ 31) then Ok z else Err Trap.

(** [BigInt.div]: truncating, and fails on zero. *)
Definition bigDiv (x y : Z) : result Z := if y =? 0 then Err Trap else Ok (Z.quot x y).

Class BigDecimal := {
  bd : Type;
  bd_fromString : string -> bd;
  bd_plus : bd -> bd -> bd;
  bd_minus : bd -> bd -> bd;
  bd_times : bd -> bd -> bd;
  bd_div : bd -> bd -> result bd;
  bd_truncate : bd -> Z -> bd;
  bd_eqb : bd -> bd -> bool;
  bd_gt : bd -> bd -> bool;
  bd_lte : bd -> bd -> bool;
  (** [BigInt.divDecimal] *)
  bd_divDecimal : Z -> bd -> bd
}.

(** Addresses are the strings [toHexString] prints. *)
Notation Address := string (only parsing).

(** [packages/subgraph/src/utils/constants.ts] *)
Definition ZERO_ADDRESS : Address := "0x" +:+ repeat_char "0" 40.

(** What the handlers read of an [ethereum.Event]. *)
Record Event := mkEvent {
  address : Address;
  transaction_hash : string;
  transaction_from : Address;
  block_number : Z;
  block_timestamp : Z
}.

(** ** Entities *)

(** The integer fields of [Global]; [increaseCounter] is given their names. *)
Inductive Counter :=
| systemStateCount | transactionCount | changeCount | liquidationCount | redemptionCount
| numberOfOpenTroves | numberOfLiquidatedTroves | numberOfRedeemedTroves
| numberOfTrovesClosedByOwner | totalNumberOfTroves
| totalNumberOfLQTYStakes | numberOfActiveLQTYStakes.

Scheme Equality for Counter.

Section entities.
Context `{BD : BigDecimal}.

Record Global := mkGlobal {
  counter : Counter -> Z;
  totalBorrowingFeesPaid : bd;
  totalRedemptionFeesPaid : bd;
  rawTotalRedistributedCollateral : Z;
  rawTotalRedistributedDebt : Z;
  currentSystemState : option string;
  currentLiquidation : option string;
  currentRedemption : option string;
  tmpDepositUpdate : option Z
}.

Record SystemStateEntity := mkSystemState {
  ss_id : string;
  ss_sequenceNumber : Z;
  ss_price : option bd;
  totalCollateral : bd;
  totalDebt : bd;
  totalCollateralRatio : option bd;
  tokensInStabilityPool : bd;
  collSurplusPoolBalance : bd;
  totalLQTYTokensStaked : bd
}.

Record UserEntity := mkUser {
  u_id : string;
  u_trove : option string;
  u_stabilityDeposit : option string;
  u_stake : option string;
  u_frontend : option string;
  collSurplus : bd
}.

(** The raw fields are not set until the first [updateTrove] completes. *)
Record TroveEntity := mkTroveEntity {
  t_id : string;
  t_owner : string;
  t_status : string;
  t_collateral : bd;
  t_debt : bd;
  rawCollateral : option Z;
  rawDebt : option Z;
  rawStake : option Z;
  rawSnapshotOfTotalRedistributedCollateral : option Z;
  rawSnapshotOfTotalRedistributedDebt : option Z;
  collateralRatioSortKey : option Z
}.

Record StabilityDepositEntity := mkDepositEntity {
  d_id : string;
  d_owner : string;
  depositedAmount : bd;
  d_frontend : option string
}.

Record TransactionEntity := mkTransaction {
  tx_id : string;
  tx_sequenceNumber : Z;
  blockNumber : Z;
  timestamp : Z
}.

(** The interface [Change]; [systemStateAfter] is set when the change is finished. *)
Record ChangeHeader := mkHeader {
  ch_sequenceNumber : Z;
  ch_transaction : string;
  systemStateBefore : string;
  systemStateAfter : option string
}.

Record TroveChange := mkTroveChange {
  tc_id : string;
  tc_header : ChangeHeader;
  tc_trove : string;
  troveOperation : string;
  collateralBefore : bd;
  collateralChange : bd;
  collateralAfter : bd;
  debtBefore : bd;
  debtChange : bd;
  debtAfter : bd;
  borrowingFee : option bd;
  collateralRatioBefore : option bd;
  collateralRatioAfter : option bd;
  tc_liquidation : option string;
  tc_redemption : option string
}.

Record StabilityDepositChangeEntity := mkDepositChange {
  dc_id : string;
  dc_header : ChangeHeader;
  dc_stabilityDeposit : string;
  stabilityDepositOperation : string;
  depositedAmountBefore : bd;
  depositedAmountChange : bd;
  depositedAmountAfter : bd;
  collateralGain : option bd
}.

Record PriceChange := mkPriceChange {
  pc_id : string;
  pc_header : ChangeHeader;
  priceChange : bd
}.

Record LiquidationEntity := mkLiquidation {
  l_id : string;
  l_sequenceNumber : Z;
  l_transaction : string;
  liquidator : string;
  liquidatedDebt : bd;
  liquidatedCollateral : bd;
  collGasCompensation : bd;
  tokenGasCompensation : bd
}.

Record RedemptionEntity := mkRedemption {
  r_id : string;
  r_sequenceNumber : Z;
  r_transaction : string;
  redeemer : string;
  tokensAttemptedToRedeem : bd;
  tokensActuallyRedeemed : bd;
  collateralRedeemed : bd;
  partial : bool;
  fee : bd
}.

Record CollSurplusChange := mkCollSurplusChange {
  cs_id : string;
  cs_header : ChangeHeader;
  cs_user : string;
  collSurplusBefore : bd;
  collSurplusChange : bd;
  collSurplusAfter : bd
}.

Record LqtyStakeEntity := mkStakeEntity {
  s_id : string;
  s_owner : string;
  amount : bd
}.

Record LqtyStakeChange := mkStakeChange {
  sc_id : string;
  sc_header : ChangeHeader;
  sc_stake : string;
  stakeOperation : string;
  stakedAmountBefore : bd;
  stakedAmountChange : bd;
  stakedAmountAfter : bd;
  issuanceGain : bd;
  redemptionGain : bd
}.

Record TokenEntity := mkToken {
  tk_id : string;
  tk_name : string;
  tk_symbol : string;
  totalSupply : Z
}.

Record TokenBalanceEntity := mkBalance {
  tb_id : string;
  tb_token : string;
  tb_owner : string;
  balance : Z
}.

Record TokenAllowanceEntity := mkAllowance {
  ta_id : string;
  ta_token : string;
  ta_owner : string;
  ta_spender : string;
  ta_value : Z
}.

Record FrontendEntity := mkFrontend {
  f_id : string;
  f_owner : string;
  kickbackRate : bd
}.

(** ** The store *)

Record Store := mkStore {
  global : option Global;
  systemStates : gmap string SystemStateEntity;
  users : gmap string UserEntity;
  troves : gmap string TroveEntity;
  deposits : gmap string StabilityDepositEntity;
  transactions : gmap string TransactionEntity;
  troveChanges : gmap string TroveChange;
  depositChanges : gmap string StabilityDepositChangeEntity;
  priceChanges : gmap string PriceChange;
  liquidations : gmap string LiquidationEntity;
  redemptions : gmap string RedemptionEntity;
  collSurplusChanges : gmap string CollSurplusChange;
  stakes : gmap string LqtyStakeEntity;
  stakeChanges : gmap string LqtyStakeChange;
  tokens : gmap string TokenEntity;
  balances : gmap string TokenBalanceEntity;
  allowances : gmap string TokenAllowanceEntity;
  frontends : gmap string FrontendEntity
}.

Definition emptyStore : Store :=
  mkStore None ∅ ∅ ∅ ∅ ∅ ∅ ∅ ∅ ∅ ∅ ∅ ∅ ∅ ∅ ∅ ∅ ∅.

(** The mappings trap as a whole: a failed handler leaves no trace. *)
Definition M (A : Type) : Type := Store -> result (A * Store).

#[export] Instance M_ret : MRet M := fun A a s => Ok (a, s).
#[export] Instance M_bind : MBind M := fun A B k m s =>
  match m s with Ok (a, s) => k a s | Err e => Err e end.

Definition lift {A} (r : result A) : M A := fun s => match r with Ok a => Ok (a, s) | Err e => Err e end.

(** A value that must not be null. *)
Definition required {A} (o : option A) : M A :=
  lift (match o with Some a => Ok a | None => Err Trap end).

(** An entity type: its table and the identifier it is saved under. *)
Class EntityType (E : Type) := {
  entityId : E -> string;
  table : Store -> gmap string E;
  setTable : gmap string E -> Store -> Store
}.

Definition setGlobal (m : option Global) (s : Store) : Store :=
  mkStore m (systemStates s) (users s) (troves s) (deposits s)
    (transactions s) (troveChanges s) (depositChanges s) (priceChanges s) (liquidations s)
    (redemptions s) (collSurplusChanges s) (stakes s) (stakeChanges s) (tokens s) (balances s)
    (allowances s) (frontends s).

#[export] Instance SystemStateEntity_type : EntityType SystemStateEntity := {|
  entityId := ss_id;
  table := systemStates;
  setTable m s :=
    mkStore (global s) m (users s) (troves s) (deposits s) (transactions s) (troveChanges s)
      (depositChanges s) (priceChanges s) (liquidations s) (redemptions s)
      (collSurplusChanges s) (stakes s) (stakeChanges s) (tokens s) (balances s) (allowances
      s) (frontends s)
|}.

#[export] Instance UserEntity_type : EntityType UserEntity := {|
  entityId := u_id;
  table := users;
  setTable m s :=
    mkStore (global s) (systemStates s) m (troves s) (deposits s) (transactions s)
      (troveChanges s) (depositChanges s) (priceChanges s) (liquidations s) (redemptions s)
      (collSurplusChanges s) (stakes s) (stakeChanges s) (tokens s) (balances s) (allowances
      s) (frontends s)
|}.

#[export] Instance TroveEntity_type : EntityType TroveEntity := {|
  entityId := t_id;
  table := troves;
  setTable m s :=
    mkStore (global s) (systemStates s) (users s) m (deposits s) (transactions s)
      (troveChanges s) (depositChanges s) (priceChanges s) (liquidations s) (redemptions s)
      (collSurplusChanges s) (stakes s) (stakeChanges s) (tokens s) (balances s) (allowances
      s) (frontends s)
|}.

#[export] Instance StabilityDepositEntity_type : EntityType StabilityDepositEntity := {|
  entityId := d_id;
  table := deposits;
  setTable m s :=
    mkStore (global s) (systemStates s) (users s) (troves s) m (transactions s)
      (troveChanges s) (depositChanges s) (priceChanges s) (liquidations s) (redemptions s)
      (collSurplusChanges s) (stakes s) (stakeChanges s) (tokens s) (balances s) (allowances
      s) (frontends s)
|}.

#[export] Instance TransactionEntity_type : EntityType TransactionEntity := {|
  entityId := tx_id;
  table := transactions;
  setTable m s :=
    mkStore (global s) (systemStates s) (users s) (troves s) (deposits s) m (troveChanges s)
      (depositChanges s) (priceChanges s) (liquidations s) (redemptions s)
      (collSurplusChanges s) (stakes s) (stakeChanges s) (tokens s) (balances s) (allowances
      s) (frontends s)
|}.

#[export] Instance TroveChange_type : EntityType TroveChange := {|
  entityId := tc_id;
  table := troveChanges;
  setTable m s :=
    mkStore (global s) (systemStates s) (users s) (troves s) (deposits s) (transactions s) m
      (depositChanges s) (priceChanges s) (liquidations s) (redemptions s)
      (collSurplusChanges s) (stakes s) (stakeChanges s) (tokens s) (balances s) (allowances
      s) (frontends s)
|}.

#[export] Instance StabilityDepositChangeEntity_type : EntityType StabilityDepositChangeEntity := {|
  entityId := dc_id;
  table := depositChanges;
  setTable m s :=
    mkStore (global s) (systemStates s) (users s) (troves s) (deposits s) (transactions s)
      (troveChanges s) m (priceChanges s) (liquidations s) (redemptions s)
      (collSurplusChanges s) (stakes s) (stakeChanges s) (tokens s) (balances s) (allowances
      s) (frontends s)
|}.

#[export] Instance PriceChange_type : EntityType PriceChange := {|
  entityId := pc_id;
  table := priceChanges;
  setTable m s :=
    mkStore (global s) (systemStates s) (users s) (troves s) (deposits s) (transactions s)
      (troveChanges s) (depositChanges s) m (liquidations s) (redemptions s)
      (collSurplusChanges s) (stakes s) (stakeChanges s) (tokens s) (balances s) (allowances
      s) (frontends s)
|}.

#[export] Instance LiquidationEntity_type : EntityType LiquidationEntity := {|
  entityId := l_id;
  table := liquidations;
  setTable m s :=
    mkStore (global s) (systemStates s) (users s) (troves s) (deposits s) (transactions s)
      (troveChanges s) (depositChanges s) (priceChanges s) m (redemptions s)
      (collSurplusChanges s) (stakes s) (stakeChanges s) (tokens s) (balances s) (allowances
      s) (frontends s)
|}.

#[export] Instance RedemptionEntity_type : EntityType RedemptionEntity := {|
  entityId := r_id;
  table := redemptions;
  setTable m s :=
    mkStore (global s) (systemStates s) (users s) (troves s) (deposits s) (transactions s)
      (troveChanges s) (depositChanges s) (priceChanges s) (liquidations s) m
      (collSurplusChanges s) (stakes s) (stakeChanges s) (tokens s) (balances s) (allowances
      s) (frontends s)
|}.

#[export] Instance CollSurplusChange_type : EntityType CollSurplusChange := {|
  entityId := cs_id;
  table := collSurplusChanges;
  setTable m s :=
    mkStore (global s) (systemStates s) (users s) (troves s) (deposits s) (transactions s)
      (troveChanges s) (depositChanges s) (priceChanges s) (liquidations s) (redemptions s)
      m (stakes s) (stakeChanges s) (tokens s) (balances s) (allowances s) (frontends s)
|}.

#[export] Instance LqtyStakeEntity_type : EntityType LqtyStakeEntity := {|
  entityId := s_id;
  table := stakes;
  setTable m s :=
    mkStore (global s) (systemStates s) (users s) (troves s) (deposits s) (transactions s)
      (troveChanges s) (depositChanges s) (priceChanges s) (liquidations s) (redemptions s)
      (collSurplusChanges s) m (stakeChanges s) (tokens s) (balances s) (allowances s)
      (frontends s)
|}.

#[export] Instance LqtyStakeChange_type : EntityType LqtyStakeChange := {|
  entityId := sc_id;
  table := stakeChanges;
  setTable m s :=
    mkStore (global s) (systemStates s) (users s) (troves s) (deposits s) (transactions s)
      (troveChanges s) (depositChanges s) (priceChanges s) (liquidations s) (redemptions s)
      (collSurplusChanges s) (stakes s) m (tokens s) (balances s) (allowances s) (frontends
      s)
|}.

#[export] Instance TokenEntity_type : EntityType TokenEntity := {|
  entityId := tk_id;
  table := tokens;
  setTable m s :=
    mkStore (global s) (systemStates s) (users s) (troves s) (deposits s) (transactions s)
      (troveChanges s) (depositChanges s) (priceChanges s) (liquidations s) (redemptions s)
      (collSurplusChanges s) (stakes s) (stakeChanges s) m (balances s) (allowances s)
      (frontends s)
|}.

#[export] Instance TokenBalanceEntity_type : EntityType TokenBalanceEntity := {|
  entityId := tb_id;
  table := balances;
  setTable m s :=
    mkStore (global s) (systemStates s) (users s) (troves s) (deposits s) (transactions s)
      (troveChanges s) (depositChanges s) (priceChanges s) (liquidations s) (redemptions s)
      (collSurplusChanges s) (stakes s) (stakeChanges s) (tokens s) m (allowances s)
      (frontends s)
|}.

#[export] Instance TokenAllowanceEntity_type : EntityType TokenAllowanceEntity := {|
  entityId := ta_id;
  table := allowances;
  setTable m s :=
    mkStore (global s) (systemStates s) (users s) (troves s) (deposits s) (transactions s)
      (troveChanges s) (depositChanges s) (priceChanges s) (liquidations s) (redemptions s)
      (collSurplusChanges s) (stakes s) (stakeChanges s) (tokens s) (balances s) m
      (frontends s)
|}.

#[export] Instance FrontendEntity_type : EntityType FrontendEntity := {|
  entityId := f_id;
  table := frontends;
  setTable m s :=
    mkStore (global s) (systemStates s) (users s) (troves s) (deposits s) (transactions s)
      (troveChanges s) (depositChanges s) (priceChanges s) (liquidations s) (redemptions s)
      (collSurplusChanges s) (stakes s) (stakeChanges s) (tokens s) (balances s) (allowances
      s) m
|}.

Definition load {E} `{EntityType E} (id : string) : M (option E) :=
  fun s => Ok (table s !! id, s).

Definition save {E} `{EntityType E} (e : E) : M unit :=
  fun s => Ok (tt, setTable (<[entityId e := e]> (table s)) s).

(** [Entity.load] given a null identifier finds nothing. *)
Definition loadOptional {E} `{EntityType E} (id : option string) : M (option E) :=
  match id with Some id => load id | None => mret None end.

Definition saveGlobal (g : Global) : M unit := fun s => Ok (tt, setGlobal (Some g) s).

End entities.

(** ** An instance of the decimals

    Rational numbers in lowest terms, of which [bd_fromString] reads the integers the mappings write. *)

Module QDecimal.
Definition Q : Type := QArith_base.Q.

Definition fromString (s : string) : Q := QArith_base.inject_Z (numeral_val 10 s).

Definition div (x y : Q) : result Q :=
  if QArith_base.Qeq_bool y (QArith_base.inject_Z 0) then Err Trap
  else Ok (Qreduction.Qred (QArith_base.Qdiv x y)).

Definition truncate (x : Q) (digits : Z) : Q :=
  Qreduction.Qred (QArith_base.Qdiv
    (QArith_base.inject_Z (Z.quot (QArith_base.Qnum x * 10 ^ digits) (Zpos (QArith_base.Qden x))))
    (QArith_base.inject_Z (10 ^ digits))).
End QDecimal.

Definition QBD : BigDecimal := {|
  bd := QDecimal.Q;
  bd_fromString := QDecimal.fromString;
  bd_plus := Qreduction.Qplus'; bd_minus := Qreduction.Qminus'; bd_times := Qreduction.Qmult';
  bd_div := QDecimal.div; bd_truncate := QDecimal.truncate;
  bd_eqb := QArith_base.Qeq_bool;
  bd_gt x y := negb (QArith_base.Qle_bool x y); bd_lte := QArith_base.Qle_bool;
  bd_divDecimal z x := Qreduction.Qred (QArith_base.Qdiv (QArith_base.inject_Z z) x)
|}.

(** The state a run reaches, to evaluate runs with: [d] when it fails. *)
Definition stateAfter {S} (d : S) (r : result (unit * S)) : S :=
  match r with Ok (_, s) => s | Err _ => d end.

Lemma stateAfter_ok {S} (d : S) r :
  match r with Ok _ => true | Err _ => false end = true -> r = Ok (tt, stateAfter d r).
Proof. by destruct r as [[[] s]|]. Qed.

Lemma stateAfter_eq {S} (d : S) r s : r = Ok (tt, s) -> s = stateAfter d r.
Proof. by intros ->. Qed.
