(* ===== verification/GraphEntities.v ===== *)
(** * The subgraph: updating entities

    [packages/subgraph/src/entities/*.ts], [types/TroveOperation.ts] and [utils/*.ts]: the
    functions with which the event handlers read and update the store. *)

From S2P Require Import Prelude JsString GraphStore.
From stdpp Require Import pretty.
From Stdlib Require Import Ascii String.

Local Open Scope string_scope.
Local Open Scope Z_scope.

(** ** types/TroveOperation.ts

    An operation is the [uint8] of the event. *)

Definition getTroveOperationFromBorrowerOperation (operation : Z) : string :=
  match operation with
  | 0 => "openTrove"
  | 1 => "closeTrove"
  | 2 => "adjustTrove"
  | _ => "unreached"
  end.

Definition isBorrowerOperation (troveOperation : string) : bool :=
  String.eqb troveOperation "openTrove" || String.eqb troveOperation "closeTrove" ||
  String.eqb troveOperation "adjustTrove".

Definition getTroveOperationFromTroveManagerOperation (operation : Z) : string :=
  match operation with
  | 0 => "accrueRewards"
  | 1 => "liquidateInNormalMode"
  | 2 => "liquidateInRecoveryMode"
  | 3 => "redeemCollateral"
  | _ => "unreached"
  end.

Definition isLiquidation (troveOperation : string) : bool :=
  String.eqb troveOperation "liquidateInNormalMode" ||
  String.eqb troveOperation "liquidateInRecoveryMode".

Definition isRecoveryModeLiquidation (troveOperation : string) : bool :=
  String.eqb troveOperation "liquidateInRecoveryMode".

Definition isRedemption (troveOperation : string) : bool :=
  String.eqb troveOperation "redeemCollateral".

Section entities.
Context `{BD : BigDecimal}.

(** ** utils/bignumbers.ts and utils/collateralRatio.ts *)

Definition DECIMAL_PRECISION : Z := 18.
Definition DECIMAL_SCALING_FACTOR : bd := bd_fromString "1000000000000000000".
Definition BIGINT_SCALING_FACTOR : Z := 10 ^ 18.
Definition DECIMAL_ZERO : bd := bd_fromString "0".
Definition DECIMAL_ONE : bd := bd_fromString "1".
Definition DECIMAL_COLLATERAL_GAS_COMPENSATION_DIVISOR : bd := bd_fromString "200".
Definition BIGINT_ZERO : Z := 0.

Definition decimalize (bigInt : Z) : bd := bd_divDecimal bigInt DECIMAL_SCALING_FACTOR.

Definition calculateCollateralRatio (collateral debt price : bd) : result (option bd) :=
  if bd_eqb debt DECIMAL_ZERO then Ok None
  else
    let* q := bd_div (bd_times collateral price) debt in
    Ok (Some (bd_truncate q DECIMAL_PRECISION)).

(** ** entities/Global.ts *)

Definition setCounter (k : Counter) (v : Z) (g : Global) : Global :=
  mkGlobal (fun k' => if Counter_beq k' k then v else counter g k')
    (totalBorrowingFeesPaid g) (totalRedemptionFeesPaid g) (rawTotalRedistributedCollateral g)
    (rawTotalRedistributedDebt g) (currentSystemState g) (currentLiquidation g)
    (currentRedemption g) (tmpDepositUpdate g).

(** [global.k++] and [global.k--] on an [i32]. *)
Definition incr (k : Counter) (g : Global) : Global := setCounter k (i32 (counter g k + 1)) g.
Definition decr (k : Counter) (g : Global) : Global := setCounter k (i32 (counter g k - 1)) g.

Definition newGlobal : Global :=
  mkGlobal (fun _ => 0) DECIMAL_ZERO DECIMAL_ZERO BIGINT_ZERO BIGINT_ZERO None None None None.

Definition getGlobal : M Global := fun s => Ok (default newGlobal (global s), s).

(** Load, change, save. *)
Definition updateGlobal (f : Global -> Global) : M unit := g ← getGlobal; saveGlobal (f g).

Definition increaseCounter (key : Counter) : M Z :=
  global ← getGlobal;
  let count := counter global key in
  saveGlobal (setCounter key (i32 (count + 1)) global) ;;
  mret count.

Definition getSystemStateSequenceNumber : M Z := increaseCounter systemStateCount.
Definition getTransactionSequenceNumber : M Z := increaseCounter transactionCount.
Definition getChangeSequenceNumber : M Z := increaseCounter changeCount.

Definition getLastChangeSequenceNumber : M Z :=
  global ← getGlobal; mret (i32 (counter global changeCount - 1)).

Definition getLiquidationSequenceNumber : M Z := increaseCounter liquidationCount.
Definition getRedemptionSequenceNumber : M Z := increaseCounter redemptionCount.

Definition updateTotalRedistributed (L_ETH L_LUSDDebt : Z) : M unit :=
  updateGlobal (fun g => mkGlobal (counter g) (totalBorrowingFeesPaid g) (totalRedemptionFeesPaid g)
    L_ETH L_LUSDDebt (currentSystemState g) (currentLiquidation g) (currentRedemption g)
    (tmpDepositUpdate g)).

Definition increaseNumberOfOpenTroves : M unit :=
  updateGlobal (fun g => incr totalNumberOfTroves (incr numberOfOpenTroves g)).
Definition increaseNumberOfLiquidatedTroves : M unit :=
  updateGlobal (fun g => decr numberOfOpenTroves (incr numberOfLiquidatedTroves g)).
Definition decreaseNumberOfLiquidatedTroves : M unit :=
  updateGlobal (fun g => incr numberOfOpenTroves (decr numberOfLiquidatedTroves g)).
Definition increaseNumberOfRedeemedTroves : M unit :=
  updateGlobal (fun g => decr numberOfOpenTroves (incr numberOfRedeemedTroves g)).
Definition decreaseNumberOfRedeemedTroves : M unit :=
  updateGlobal (fun g => incr numberOfOpenTroves (decr numberOfRedeemedTroves g)).
Definition increaseNumberOfTrovesClosedByOwner : M unit :=
  updateGlobal (fun g => decr numberOfOpenTroves (incr numberOfTrovesClosedByOwner g)).
Definition decreaseNumberOfTrovesClosedByOwner : M unit :=
  updateGlobal (fun g => incr numberOfOpenTroves (decr numberOfTrovesClosedByOwner g)).
Definition increaseTotalNumberOfLQTYStakes : M unit :=
  updateGlobal (fun g => incr numberOfActiveLQTYStakes (incr totalNumberOfLQTYStakes g)).
Definition increaseNumberOfActiveLQTYStakes : M unit := updateGlobal (incr numberOfActiveLQTYStakes).
Definition decreaseNumberOfActiveLQTYStakes : M unit := updateGlobal (decr numberOfActiveLQTYStakes).

Definition increaseTotalBorrowingFeesPaid (_LUSDFee : Z) : M unit :=
  updateGlobal (fun g => mkGlobal (counter g)
    (bd_plus (totalBorrowingFeesPaid g) (decimalize _LUSDFee)) (totalRedemptionFeesPaid g)
    (rawTotalRedistributedCollateral g) (rawTotalRedistributedDebt g) (currentSystemState g)
    (currentLiquidation g) (currentRedemption g) (tmpDepositUpdate g)).

(** Assignments to the other fields of [Global]. *)
Definition setCurrentSystemState (id : string) (g : Global) : Global :=
  mkGlobal (counter g) (totalBorrowingFeesPaid g) (totalRedemptionFeesPaid g)
    (rawTotalRedistributedCollateral g) (rawTotalRedistributedDebt g) (Some id)
    (currentLiquidation g) (currentRedemption g) (tmpDepositUpdate g).
Definition setCurrentLiquidation (id : option string) (g : Global) : Global :=
  mkGlobal (counter g) (totalBorrowingFeesPaid g) (totalRedemptionFeesPaid g)
    (rawTotalRedistributedCollateral g) (rawTotalRedistributedDebt g) (currentSystemState g)
    id (currentRedemption g) (tmpDepositUpdate g).
Definition setCurrentRedemption (id : option string) (g : Global) : Global :=
  mkGlobal (counter g) (totalBorrowingFeesPaid g) (totalRedemptionFeesPaid g)
    (rawTotalRedistributedCollateral g) (rawTotalRedistributedDebt g) (currentSystemState g)
    (currentLiquidation g) id (tmpDepositUpdate g).
Definition addRedemptionFee (fee : bd) (g : Global) : Global :=
  mkGlobal (counter g) (totalBorrowingFeesPaid g) (bd_plus (totalRedemptionFeesPaid g) fee)
    (rawTotalRedistributedCollateral g) (rawTotalRedistributedDebt g) (currentSystemState g)
    (currentLiquidation g) (currentRedemption g) (tmpDepositUpdate g).
Definition setTmpDepositUpdate (v : option Z) (g : Global) : Global :=
  mkGlobal (counter g) (totalBorrowingFeesPaid g) (totalRedemptionFeesPaid g)
    (rawTotalRedistributedCollateral g) (rawTotalRedistributedDebt g) (currentSystemState g)
    (currentLiquidation g) (currentRedemption g) v.

(** ** entities/Transaction.ts *)

Definition getTransaction (event : Event) : M TransactionEntity :=
  let transactionId := transaction_hash event in
  transactionOrNull ← load transactionId;
  match transactionOrNull with
  | Some transaction => mret transaction
  | None =>
      sequenceNumber ← getTransactionSequenceNumber;
      blockNumber ← lift (toI32 (block_number event));
      timestamp ← lift (toI32 (block_timestamp event));
      let newTransaction := mkTransaction transactionId sequenceNumber blockNumber timestamp in
      save newTransaction ;;
      mret newTransaction
  end.

(** ** entities/SystemState.ts *)

Definition getCurrentSystemState : M SystemStateEntity :=
  global ← getGlobal;
  currentSystemStateOrNull ← loadOptional (currentSystemState global);
  match currentSystemStateOrNull with
  | Some currentSystemState => mret currentSystemState
  | None =>
      sequenceNumber ← getSystemStateSequenceNumber;
      let newSystemState :=
        mkSystemState (pretty sequenceNumber) sequenceNumber None DECIMAL_ZERO DECIMAL_ZERO None
          DECIMAL_ZERO DECIMAL_ZERO DECIMAL_ZERO in
      save newSystemState ;;
      updateGlobal (setCurrentSystemState (ss_id newSystemState)) ;;
      mret newSystemState
  end.

Definition bumpSystemState (systemState : SystemStateEntity) : M unit :=
  sequenceNumber ← getSystemStateSequenceNumber;
  let systemState :=
    mkSystemState (pretty sequenceNumber) sequenceNumber (ss_price systemState)
      (totalCollateral systemState) (totalDebt systemState) (totalCollateralRatio systemState)
      (tokensInStabilityPool systemState) (collSurplusPoolBalance systemState)
      (totalLQTYTokensStaked systemState) in
  save systemState ;;
  updateGlobal (setCurrentSystemState (ss_id systemState)).

Definition getCurrentPrice : M bd :=
  currentSystemState ← getCurrentSystemState;
  required (ss_price currentSystemState).

(** Assignments to the fields of a [SystemState]. *)
Definition setPrice (price : bd) (s : SystemStateEntity) : SystemStateEntity :=
  mkSystemState (ss_id s) (ss_sequenceNumber s) (Some price) (totalCollateral s) (totalDebt s)
    (totalCollateralRatio s) (tokensInStabilityPool s) (collSurplusPoolBalance s)
    (totalLQTYTokensStaked s).
Definition setTotals (collateral debt pool : bd) (s : SystemStateEntity) : SystemStateEntity :=
  mkSystemState (ss_id s) (ss_sequenceNumber s) (ss_price s) collateral debt
    (totalCollateralRatio s) pool (collSurplusPoolBalance s) (totalLQTYTokensStaked s).
Definition setRatio (ratio : option bd) (s : SystemStateEntity) : SystemStateEntity :=
  mkSystemState (ss_id s) (ss_sequenceNumber s) (ss_price s) (totalCollateral s) (totalDebt s)
    ratio (tokensInStabilityPool s) (collSurplusPoolBalance s) (totalLQTYTokensStaked s).
Definition setSurplus (balance : bd) (s : SystemStateEntity) : SystemStateEntity :=
  mkSystemState (ss_id s) (ss_sequenceNumber s) (ss_price s) (totalCollateral s) (totalDebt s)
    (totalCollateralRatio s) (tokensInStabilityPool s) balance (totalLQTYTokensStaked s).
Definition setStaked (staked : bd) (s : SystemStateEntity) : SystemStateEntity :=
  mkSystemState (ss_id s) (ss_sequenceNumber s) (ss_price s) (totalCollateral s) (totalDebt s)
    (totalCollateralRatio s) (tokensInStabilityPool s) (collSurplusPoolBalance s) staked.

(** ** entities/Change.ts *)

Definition beginChange : M Z := getChangeSequenceNumber.

Definition initChange (event : Event) (sequenceNumber : Z) : M ChangeHeader :=
  transaction ← getTransaction event;
  systemStateBefore ← getCurrentSystemState;
  mret (mkHeader sequenceNumber (tx_id transaction) (ss_id systemStateBefore) None).

Definition finishChange (change : ChangeHeader) : M ChangeHeader :=
  systemStateAfter ← getCurrentSystemState;
  mret (mkHeader (ch_sequenceNumber change) (ch_transaction change) (systemStateBefore change)
          (Some (ss_id systemStateAfter))).

(** [beginChange], the entity named after the sequence number, and [initChange]: the
    [create...Change] function that each kind of change has. *)
Definition createChange (event : Event) : M (string * ChangeHeader) :=
  sequenceNumber ← beginChange;
  header ← initChange event sequenceNumber;
  mret (pretty sequenceNumber, header).

(** *** The price (entities/SystemState.ts) *)

Definition createPriceChange : Event -> M (string * ChangeHeader) := createChange.

Definition finishPriceChange (p : PriceChange) : M unit :=
  header ← finishChange (pc_header p);
  save (mkPriceChange (pc_id p) header (priceChange p)).

Definition updatePrice (event : Event) (_lastGoodPrice : Z) : M unit :=
  systemState ← getCurrentSystemState;
  let newPrice := decimalize _lastGoodPrice in
  match ss_price systemState with
  | None => save (setPrice newPrice systemState)
  | Some oldPrice =>
      if negb (bd_eqb newPrice oldPrice) then
        change ← createPriceChange event;
        bumpSystemState (setPrice newPrice systemState) ;;
        finishPriceChange (mkPriceChange change.1 change.2 (bd_minus newPrice oldPrice))
      else mret tt
  end.

Definition tryToOffsetWithTokensFromStabilityPool (systemState : SystemStateEntity)
    (collateralToLiquidate debtToLiquidate : bd) : result SystemStateEntity :=
  let pool := tokensInStabilityPool systemState in
  if bd_lte debtToLiquidate pool then
    Ok (setTotals (bd_minus (totalCollateral systemState) collateralToLiquidate)
          (bd_minus (totalDebt systemState) debtToLiquidate)
          (bd_minus pool debtToLiquidate) systemState)
  else if bd_gt pool DECIMAL_ZERO then
    let* q := bd_div (bd_times collateralToLiquidate pool) debtToLiquidate in
    Ok (setTotals (bd_minus (totalCollateral systemState) (bd_truncate q DECIMAL_PRECISION))
          (bd_minus (totalDebt systemState) pool) DECIMAL_ZERO systemState)
  else Ok systemState.

(** The totals after a Trove change. *)
Definition applyTroveChange (systemState : SystemStateEntity) (c : TroveChange) :
    result SystemStateEntity :=
  let operation := troveOperation c in
  if isBorrowerOperation operation || isRedemption operation then
    Ok (setTotals (bd_plus (totalCollateral systemState) (collateralChange c))
          (bd_plus (totalDebt systemState) (debtChange c))
          (tokensInStabilityPool systemState) systemState)
  else if isLiquidation operation then
    let collateral := collateralBefore c in
    let debt := debtBefore c in
    let* q := bd_div collateral DECIMAL_COLLATERAL_GAS_COMPENSATION_DIVISOR in
    let collateralGasCompensation := bd_truncate q DECIMAL_PRECISION in
    let systemState :=
      setTotals (bd_minus (totalCollateral systemState) collateralGasCompensation)
        (totalDebt systemState) (tokensInStabilityPool systemState) systemState in
    let* offset :=
      if negb (isRecoveryModeLiquidation operation) then Ok true
      else match collateralRatioBefore c with
           | Some ratio => Ok (bd_gt ratio DECIMAL_ONE)
           | None => Err Trap
           end in
    if offset
    then tryToOffsetWithTokensFromStabilityPool systemState
           (bd_minus collateral collateralGasCompensation) debt
    else Ok systemState
  else Ok systemState.

Definition updateSystemStateByTroveChange (troveChange : TroveChange) : M unit :=
  systemState ← getCurrentSystemState;
  systemState ← lift (applyTroveChange systemState troveChange);
  price ← required (ss_price systemState);
  ratio ← lift (calculateCollateralRatio (totalCollateral systemState) (totalDebt systemState) price);
  bumpSystemState (setRatio ratio systemState).

Definition updateSystemStateByStabilityDepositChange (c : StabilityDepositChangeEntity) : M unit :=
  systemState ← getCurrentSystemState;
  let operation := stabilityDepositOperation c in
  let systemState :=
    if String.eqb operation "depositTokens" || String.eqb operation "withdrawTokens"
    then setTotals (totalCollateral systemState) (totalDebt systemState)
           (bd_plus (tokensInStabilityPool systemState) (depositedAmountChange c)) systemState
    else systemState in
  bumpSystemState systemState.

Definition updateSystemStateByCollSurplusChange (c : CollSurplusChange) : M unit :=
  systemState ← getCurrentSystemState;
  bumpSystemState
    (setSurplus (bd_plus (collSurplusPoolBalance systemState) (collSurplusChange c)) systemState).

Definition updateSystemStateByLqtyStakeChange (stakeChange : LqtyStakeChange) : M unit :=
  systemState ← getCurrentSystemState;
  bumpSystemState
    (setStaked (bd_plus (totalLQTYTokensStaked systemState) (stakedAmountChange stakeChange))
       systemState).

(** ** entities/User.ts *)

Definition getUser (_user : Address) : M UserEntity :=
  userOrNull ← load _user;
  match userOrNull with
  | Some user => mret user
  | None =>
      let newUser := mkUser _user None None None None DECIMAL_ZERO in
      save newUser ;; mret newUser
  end.

Definition createCollSurplusChange : Event -> M (string * ChangeHeader) := createChange.

Definition finishCollSurplusChange (c : CollSurplusChange) : M unit :=
  header ← finishChange (cs_header c);
  save (mkCollSurplusChange (cs_id c) header (cs_user c) (collSurplusBefore c)
          (collSurplusChange c) (collSurplusAfter c)).

Definition updateUserClaimColl (event : Event) (_borrower : Address) (_collSurplus : Z) : M unit :=
  user ← getUser _borrower;
  let newCollSurplus := decimalize _collSurplus in
  if bd_eqb newCollSurplus (collSurplus user) then mret tt
  else
    change ← createCollSurplusChange event;
    let c := mkCollSurplusChange change.1 change.2 (u_id user) (collSurplus user)
               (bd_minus newCollSurplus (collSurplus user)) newCollSurplus in
    updateSystemStateByCollSurplusChange c ;;
    finishCollSurplusChange c ;;
    save (mkUser (u_id user) (u_trove user) (u_stabilityDeposit user) (u_stake user)
            (u_frontend user) newCollSurplus).

(** ** entities/Liquidation.ts *)

Definition getCurrentLiquidation (event : Event) : M LiquidationEntity :=
  global ← getGlobal;
  currentLiquidationOrNull ← loadOptional (currentLiquidation global);
  match currentLiquidationOrNull with
  | Some currentLiquidation => mret currentLiquidation
  | None =>
      sequenceNumber ← getLiquidationSequenceNumber;
      transaction ← getTransaction event;
      liquidator ← getUser (transaction_from event);
      let newLiquidation :=
        mkLiquidation (pretty sequenceNumber) sequenceNumber (tx_id transaction) (u_id liquidator)
          DECIMAL_ZERO DECIMAL_ZERO DECIMAL_ZERO DECIMAL_ZERO in
      save newLiquidation ;;
      updateGlobal (setCurrentLiquidation (Some (l_id newLiquidation))) ;;
      mret newLiquidation
  end.

Definition finishCurrentLiquidation (event : Event)
    (_liquidatedColl _liquidatedDebt _collGasCompensation _LUSDGasCompensation : Z) : M unit :=
  l ← getCurrentLiquidation event;
  save (mkLiquidation (l_id l) (l_sequenceNumber l) (l_transaction l) (liquidator l)
          (decimalize _liquidatedDebt) (decimalize _liquidatedColl)
          (decimalize _collGasCompensation) (decimalize _LUSDGasCompensation)) ;;
  updateGlobal (setCurrentLiquidation None).

(** ** entities/Redemption.ts *)

Definition getCurrentRedemption (event : Event) : M RedemptionEntity :=
  global ← getGlobal;
  currentRedemptionOrNull ← loadOptional (currentRedemption global);
  match currentRedemptionOrNull with
  | Some currentRedemption => mret currentRedemption
  | None =>
      sequenceNumber ← getRedemptionSequenceNumber;
      transaction ← getTransaction event;
      redeemer ← getUser (transaction_from event);
      let newRedemption :=
        mkRedemption (pretty sequenceNumber) sequenceNumber (tx_id transaction) (u_id redeemer)
          DECIMAL_ZERO DECIMAL_ZERO DECIMAL_ZERO false DECIMAL_ZERO in
      save newRedemption ;;
      updateGlobal (setCurrentRedemption (Some (r_id newRedemption))) ;;
      mret newRedemption
  end.

Definition finishCurrentRedemption (event : Event)
    (_attemptedLUSDAmount _actualLUSDAmount _ETHSent _ETHFee : Z) : M unit :=
  let fee := decimalize _ETHFee in
  r ← getCurrentRedemption event;
  save (mkRedemption (r_id r) (r_sequenceNumber r) (r_transaction r) (redeemer r)
          (decimalize _attemptedLUSDAmount) (decimalize _actualLUSDAmount) (decimalize _ETHSent)
          (_actualLUSDAmount <? _attemptedLUSDAmount) fee) ;;
  updateGlobal (fun g => addRedemptionFee fee (setCurrentRedemption None g)).

(** ** entities/Frontend.ts *)

Definition registerFrontend (ownerAddress : Address) (kickbackRate : Z) : M unit :=
  owner ← getUser ownerAddress;
  save (mkFrontend (u_id owner) (u_id owner) (decimalize kickbackRate)).

Definition assignFrontendToDepositor (depositorAddress frontendAddress : Address) : M unit :=
  frontend ← load frontendAddress;
  match frontend with
  | Some frontend =>
      depositor ← getUser depositorAddress;
      save (mkUser (u_id depositor) (u_trove depositor) (u_stabilityDeposit depositor)
              (u_stake depositor) (Some (f_id frontend)) (collSurplus depositor))
  | None => mret tt
  end.

(** ** entities/Token.ts

    [name] and [symbol] are the calls to the ERC-20 contract at the token's address. *)

Context (erc20_name erc20_symbol : Address -> result string).

Definition createToken (address : Address) (name symbol : string) : M TokenEntity :=
  let token := mkToken address name symbol BIGINT_ZERO in
  save token ;; mret token.

Definition getToken (_token : Address) : M TokenEntity :=
  tokenOrNull ← load _token;
  match tokenOrNull with
  | Some token => mret token
  | None =>
      name ← lift (erc20_name _token);
      symbol ← lift (erc20_symbol _token);
      createToken _token name symbol
  end.

(** ** entities/TokenBalance.ts *)

Definition getTokenBalance (_token _owner : Address) : M TokenBalanceEntity :=
  let id := _token +:+ "-" +:+ _owner in
  user ← getUser _owner;
  balanceOrNull ← load id;
  match balanceOrNull with
  | Some balance => mret balance
  | None =>
      let newBalance := mkBalance id _token (u_id user) BIGINT_ZERO in
      save newBalance ;; mret newBalance
  end.

Definition addToSupply (token : TokenEntity) (v : Z) : TokenEntity :=
  mkToken (tk_id token) (tk_name token) (tk_symbol token) (totalSupply token + v).

Definition addToBalance (b : TokenBalanceEntity) (v : Z) : TokenBalanceEntity :=
  mkBalance (tb_id b) (tb_token b) (tb_owner b) (balance b + v).

Definition updateBalance (_event : Event) (_from _to : Address) (_value : Z) : M unit :=
  let tokenAddress := address _event in
  token ← getToken tokenAddress;
  token ←
    (if String.eqb _from ZERO_ADDRESS then
       let token := addToSupply token _value in
       save token ;; mret token
     else
       tokenBalanceFrom ← getTokenBalance tokenAddress _from;
       save (addToBalance tokenBalanceFrom (- _value)) ;; mret token);
  if String.eqb _to ZERO_ADDRESS then save (addToSupply token (- _value))
  else
    tokenBalanceTo ← getTokenBalance tokenAddress _to;
    save (addToBalance tokenBalanceTo _value).

(** ** entities/TokenAllowance.ts *)

Definition getTokenAllowance (_token _owner _spender : Address) : M TokenAllowanceEntity :=
  let id := _token +:+ "-" +:+ _owner +:+ "-" +:+ _spender in
  owner ← getUser _owner;
  spender ← getUser _spender;
  allowanceOrNull ← load id;
  match allowanceOrNull with
  | Some allowance => mret allowance
  | None =>
      let newAllowance := mkAllowance id _token (u_id owner) (u_id spender) BIGINT_ZERO in
      save newAllowance ;; mret newAllowance
  end.

Definition updateAllowance (_event : Event) (_owner _spender : Address) (_value : Z) : M unit :=
  let tokenAddress := address _event in
  a ← getTokenAllowance tokenAddress _owner _spender;
  save (mkAllowance (ta_id a) (ta_token a) (ta_owner a) (ta_spender a) _value).

(** ** entities/Trove.ts *)

Definition getTrove (_user : Address) : M TroveEntity :=
  troveOrNull ← load _user;
  match troveOrNull with
  | Some trove => mret trove
  | None =>
      owner ← getUser _user;
      let newTrove :=
        mkTroveEntity _user (u_id owner) "open" DECIMAL_ZERO DECIMAL_ZERO
          None None None None None None in
      increaseNumberOfOpenTroves ;;
      save (mkUser (u_id owner) (Some (t_id newTrove)) (u_stabilityDeposit owner) (u_stake owner)
              (u_frontend owner) (collSurplus owner)) ;;
      mret newTrove
  end.

(** The calls of [setTroveStatus], which then assigns [status] to the Trove. *)
Definition setTroveStatus (statusBefore status : string) : M unit :=
  if negb (String.eqb status statusBefore) then
    if String.eqb status "open" then
      if String.eqb statusBefore "closedByOwner" then decreaseNumberOfTrovesClosedByOwner
      else if String.eqb statusBefore "closedByLiquidation" then decreaseNumberOfLiquidatedTroves
      else if String.eqb statusBefore "closedByRedemption" then decreaseNumberOfRedeemedTroves
      else mret tt
    else if String.eqb status "closedByOwner" then increaseNumberOfTrovesClosedByOwner
    else if String.eqb status "closedByLiquidation" then increaseNumberOfLiquidatedTroves
    else if String.eqb status "closedByRedemption" then increaseNumberOfRedeemedTroves
    else mret tt
  else mret tt.

Definition createTroveChange : Event -> M (string * ChangeHeader) := createChange.

Definition withHeader (c : TroveChange) (header : ChangeHeader) : TroveChange :=
  mkTroveChange (tc_id c) header (tc_trove c) (troveOperation c)
    (collateralBefore c) (collateralChange c) (collateralAfter c)
    (debtBefore c) (debtChange c) (debtAfter c) (borrowingFee c)
    (collateralRatioBefore c) (collateralRatioAfter c) (tc_liquidation c) (tc_redemption c).

Definition finishTroveChange (troveChange : TroveChange) : M unit :=
  header ← finishChange (tc_header troveChange);
  save (withHeader troveChange header).

(** The status a Trove is left in by an operation. *)
Definition statusAfter (operation : string) (_coll : Z) : string :=
  if _coll =? BIGINT_ZERO then
    if isLiquidation operation then "closedByLiquidation"
    else if isRedemption operation then "closedByRedemption"
    else "closedByOwner"
  else "open".

(** The raw fields: collateral, debt, stake, both snapshots and the sort key. *)
Definition updatedTrove (trove : TroveEntity) (global : Global) (status : string)
    (_coll _debt stake : Z) : result TroveEntity :=
  let trove snapshotColl snapshotDebt key :=
    mkTroveEntity (t_id trove) (t_owner trove) status (decimalize _coll) (decimalize _debt)
      (Some _coll) (Some _debt) (Some stake) (Some snapshotColl) (Some snapshotDebt) key in
  if negb (stake =? BIGINT_ZERO) then
    let* q := bigDiv (_debt * BIGINT_SCALING_FACTOR) stake in
    Ok (trove (rawTotalRedistributedCollateral global) (rawTotalRedistributedDebt global)
          (Some (q - rawTotalRedistributedDebt global)))
  else Ok (trove BIGINT_ZERO BIGINT_ZERO None).

Definition updateTrove (event : Event) (operation : string) (_borrower : Address)
    (_coll _debt stake : Z) : M unit :=
  global ← getGlobal;
  trove ← getTrove _borrower;
  let newCollateral := decimalize _coll in
  let newDebt := decimalize _debt in
  if bd_eqb newCollateral (t_collateral trove) && bd_eqb newDebt (t_debt trove) then mret tt
  else
    change ← createTroveChange event;
    price ← getCurrentPrice;
    ratioBefore ← lift (calculateCollateralRatio (t_collateral trove) (t_debt trove) price);
    ratioAfter ← lift (calculateCollateralRatio newCollateral newDebt price);
    liquidation ←
      (if isLiquidation operation then
         l ← getCurrentLiquidation event; mret (Some (l_id l))
       else mret None);
    redemption ←
      (if isRedemption operation then
         r ← getCurrentRedemption event; mret (Some (r_id r))
       else mret None);
    let troveChange :=
      mkTroveChange change.1 change.2 (t_id trove) operation
        (t_collateral trove) (bd_minus newCollateral (t_collateral trove)) newCollateral
        (t_debt trove) (bd_minus newDebt (t_debt trove)) newDebt
        None ratioBefore ratioAfter liquidation redemption in
    updateSystemStateByTroveChange troveChange ;;
    finishTroveChange troveChange ;;
    let status := statusAfter operation _coll in
    trove' ← lift (updatedTrove trove global status _coll _debt stake);
    setTroveStatus (t_status trove) status ;;
    save trove'.

Definition setBorrowingFeeOfLastTroveChange (_LUSDFee : Z) : M unit :=
  lastChangeSequenceNumber ← getLastChangeSequenceNumber;
  lastTroveChange ← load (pretty lastChangeSequenceNumber);
  c ← required lastTroveChange;
  save (mkTroveChange (tc_id c) (tc_header c) (tc_trove c) (troveOperation c)
          (collateralBefore c) (collateralChange c) (collateralAfter c)
          (debtBefore c) (debtChange c) (debtAfter c) (Some (decimalize _LUSDFee))
          (collateralRatioBefore c) (collateralRatioAfter c) (tc_liquidation c) (tc_redemption c)).

Definition applyRedistributionToTroveBeforeLiquidation (event : Event) (_borrower : Address) :
    M unit :=
  global ← getGlobal;
  trove ← getTrove _borrower;
  snapshotColl ← required (rawSnapshotOfTotalRedistributedCollateral trove);
  stake ← required (rawStake trove);
  redistributedCollateral ← lift
    (bigDiv ((rawTotalRedistributedCollateral global - snapshotColl) * stake) BIGINT_SCALING_FACTOR);
  snapshotDebt ← required (rawSnapshotOfTotalRedistributedDebt trove);
  redistributedDebt ← lift
    (bigDiv ((rawTotalRedistributedDebt global - snapshotDebt) * stake) BIGINT_SCALING_FACTOR);
  coll ← required (rawCollateral trove);
  debt ← required (rawDebt trove);
  updateTrove event "accrueRewards" _borrower
    (coll + redistributedCollateral) (debt + redistributedDebt) BIGINT_ZERO.

(** ** entities/StabilityDeposit.ts *)

Definition getStabilityDeposit (_user : Address) : M StabilityDepositEntity :=
  stabilityDepositOrNull ← load _user;
  match stabilityDepositOrNull with
  | Some stabilityDeposit => mret stabilityDeposit
  | None =>
      owner ← getUser _user;
      let newStabilityDeposit := mkDepositEntity _user (u_id owner) DECIMAL_ZERO None in
      save (mkUser (u_id owner) (u_trove owner) (Some (d_id newStabilityDeposit)) (u_stake owner)
              (u_frontend owner) (collSurplus owner)) ;;
      mret newStabilityDeposit
  end.

Definition createStabilityDepositChange : Event -> M (string * ChangeHeader) := createChange.

Definition finishStabilityDepositChange (c : StabilityDepositChangeEntity) : M unit :=
  header ← finishChange (dc_header c);
  save (mkDepositChange (dc_id c) header (dc_stabilityDeposit c) (stabilityDepositOperation c)
          (depositedAmountBefore c) (depositedAmountChange c) (depositedAmountAfter c)
          (collateralGain c)).

(** Returns the deposit with its new amount; the caller saves it. *)
Definition updateStabilityDepositByOperation (event : Event) (d : StabilityDepositEntity)
    (operation : string) (newDepositedAmount : bd) (collateralGain : option bd) :
    M StabilityDepositEntity :=
  change ← createStabilityDepositChange event;
  let c := mkDepositChange change.1 change.2 (d_id d) operation (depositedAmount d)
             (bd_minus newDepositedAmount (depositedAmount d)) newDepositedAmount collateralGain in
  updateSystemStateByStabilityDepositChange c ;;
  finishStabilityDepositChange c ;;
  mret (mkDepositEntity (d_id d) (d_owner d) newDepositedAmount (d_frontend d)).

Definition updateStabilityDeposit (event : Event) (_user : Address) (_amount : Z) : M unit :=
  d ← getStabilityDeposit _user;
  let newDepositedAmount := decimalize _amount in
  owner ← getUser _user;
  if bd_eqb newDepositedAmount (depositedAmount d) then mret tt
  else
    let d := if decide (u_frontend owner = d_frontend d) then d
             else mkDepositEntity (d_id d) (d_owner d) (depositedAmount d) (u_frontend owner) in
    d ← updateStabilityDepositByOperation event d
          (if bd_gt newDepositedAmount (depositedAmount d) then "depositTokens" else "withdrawTokens")
          newDepositedAmount None;
    save d.

Definition withdrawCollateralGainFromStabilityDeposit (event : Event) (_user : Address)
    (_ETH _LUSDLoss : Z) : M unit :=
  if (_ETH =? BIGINT_ZERO) && (_LUSDLoss =? BIGINT_ZERO) then mret tt
  else
    d ← getStabilityDeposit _user;
    let depositLoss := decimalize _LUSDLoss in
    let newDepositedAmount := bd_minus (depositedAmount d) depositLoss in
    d ← updateStabilityDepositByOperation event d "withdrawCollateralGain" newDepositedAmount
          (Some (decimalize _ETH));
    save d.

(** ** entities/LqtyStake.ts *)

Definition startLQTYStakeChange : Event -> M (string * ChangeHeader) := createChange.

Definition finishLQTYStakeChange (c : LqtyStakeChange) : M unit :=
  header ← finishChange (sc_header c);
  save (mkStakeChange (sc_id c) header (sc_stake c) (stakeOperation c) (stakedAmountBefore c)
          (stakedAmountChange c) (stakedAmountAfter c) (issuanceGain c) (redemptionGain c)).

Definition getUserStake (address : Address) : M (option LqtyStakeEntity) :=
  user ← getUser address;
  loadOptional (u_stake user).

Definition createStake (address : Address) : M LqtyStakeEntity :=
  user ← getUser address;
  let stake := mkStakeEntity address (u_id user) DECIMAL_ZERO in
  save (mkUser (u_id user) (u_trove user) (u_stabilityDeposit user) (Some (s_id stake))
          (u_frontend user) (collSurplus user)) ;;
  mret stake.

Definition getOperationType (stake : LqtyStakeEntity) (nextStakeAmount : bd) : string :=
  if bd_eqb (amount stake) DECIMAL_ZERO && bd_gt nextStakeAmount DECIMAL_ZERO then "stakeCreated"
  else if bd_gt nextStakeAmount (amount stake) then "stakeIncreased"
  else if bd_eqb nextStakeAmount DECIMAL_ZERO then "stakeRemoved"
  else "stakeDecreased".

Definition updateStake (event : Event) (address : Address) (newStake : Z) : M unit :=
  stakeOrNull ← getUserStake address;
  let isUserFirstStake := match stakeOrNull with None => true | Some _ => false end in
  stake ← match stakeOrNull with Some stake => mret stake | None => createStake address end;
  let nextStakeAmount := decimalize newStake in
  change ← startLQTYStakeChange event;
  let operation := getOperationType stake nextStakeAmount in
  let c := mkStakeChange change.1 change.2 (s_id stake) operation (amount stake)
             (bd_minus nextStakeAmount (amount stake)) nextStakeAmount DECIMAL_ZERO DECIMAL_ZERO in
  (if String.eqb operation "stakeCreated" then
     if isUserFirstStake then increaseTotalNumberOfLQTYStakes else increaseNumberOfActiveLQTYStakes
   else if String.eqb operation "stakeRemoved" then decreaseNumberOfActiveLQTYStakes
   else mret tt) ;;
  updateSystemStateByLqtyStakeChange c ;;
  finishLQTYStakeChange c ;;
  save (mkStakeEntity (s_id stake) (s_owner stake) nextStakeAmount).

Definition withdrawStakeGains (event : Event) (address : Address) (LUSDGain ETHGain : Z) : M unit :=
  if (LUSDGain =? BIGINT_ZERO) && (ETHGain =? BIGINT_ZERO) then mret tt
  else
    stakeOrNull ← getUserStake address;
    stake ← match stakeOrNull with Some stake => mret stake | None => createStake address end;
    change ← startLQTYStakeChange event;
    let c := mkStakeChange change.1 change.2 (s_id stake) "gainsWithdrawn" (amount stake)
               DECIMAL_ZERO (amount stake) (decimalize LUSDGain) (decimalize ETHGain) in
    updateSystemStateByLqtyStakeChange c ;;
    finishLQTYStakeChange c ;;
    save stake.

End entities.
