(* ===== verification/GraphMappings.v ===== *)
(** * The subgraph: event handlers

    [packages/subgraph/src/mappings/*.ts]: what each contract event does to the store, and the
    run of a sequence of events, in the order of the chain.  A handler that traps fails the
    subgraph: [run] stops at it. *)

From S2P Require Import Prelude JsString GraphStore GraphEntities.
From Stdlib Require Import Ascii String.

Local Open Scope string_scope.
Local Open Scope Z_scope.

(** The events the manifest subscribes to, with their parameters. *)
Inductive EventParams :=
| BorrowerTroveUpdated (_borrower : Address) (_coll _debt stake operation : Z)
| LUSDBorrowingFeePaid (_LUSDFee : Z)
| CollBalanceUpdated (_account : Address) (_newBalance : Z)
| StakeChanged (staker : Address) (newStake : Z)
| StakingGainsWithdrawn (staker : Address) (LUSDGain ETHGain : Z)
| LastGoodPriceUpdated (_lastGoodPrice : Z)
| UserDepositChanged (_depositor : Address) (_newDeposit : Z)
| ETHGainWithdrawn (_depositor : Address) (_ETH _LUSDLoss : Z)
| FrontEndRegistered (_frontEnd : Address) (_kickbackRate : Z)
| FrontEndTagSet (_depositor _frontEnd : Address)
| Transfer (from to : Address) (value : Z)
| Approval (owner spender : Address) (value : Z)
| ManagerTroveUpdated (_borrower : Address) (_coll _debt _stake _operation : Z)
| TroveLiquidated (_borrower : Address)
| Liquidation (_liquidatedDebt _liquidatedColl _collGasCompensation _LUSDGasCompensation : Z)
| Redemption (_attemptedLUSDAmount _actualLUSDAmount _ETHSent _ETHFee : Z)
| LTermsUpdated (_L_ETH _L_LUSDDebt : Z).

Section mappings.
Context `{BD : BigDecimal} (erc20_name erc20_symbol : Address -> result string).

(** *** BorrowerOperations.ts, CollSurplusPool.ts, LqtyStake.ts, PriceFeed.ts *)

Definition BorrowerOperations_handleTroveUpdated (event : Event) (_borrower : Address)
    (_coll _debt stake operation : Z) : M unit :=
  updateTrove event (getTroveOperationFromBorrowerOperation operation) _borrower _coll _debt stake.

Definition handleLUSDBorrowingFeePaid (_LUSDFee : Z) : M unit :=
  setBorrowingFeeOfLastTroveChange _LUSDFee ;;
  increaseTotalBorrowingFeesPaid _LUSDFee.

Definition handleCollSurplusBalanceUpdated (event : Event) (_account : Address) (_newBalance : Z) :
    M unit :=
  updateUserClaimColl event _account _newBalance.

Definition handleStakeChanged (event : Event) (staker : Address) (newStake : Z) : M unit :=
  updateStake event staker newStake.

Definition handleStakeGainsWithdrawn (event : Event) (staker : Address) (LUSDGain ETHGain : Z) :
    M unit :=
  withdrawStakeGains event staker LUSDGain ETHGain.

Definition handleLastGoodPriceUpdated (event : Event) (_lastGoodPrice : Z) : M unit :=
  updatePrice event _lastGoodPrice.

(** *** StabilityPool.ts *)

Definition swapTmpDepositUpdate (valueToSetIfNull : Z) : M (option Z) :=
  global ← getGlobal;
  let tmp := tmpDepositUpdate global in
  saveGlobal (setTmpDepositUpdate
    (match tmp with None => Some valueToSetIfNull | Some _ => None end) global) ;;
  mret tmp.

Definition handleUserDepositChanged (event : Event) (_depositor : Address) (_newDeposit : Z) :
    M unit :=
  ethGainWithdrawn ← swapTmpDepositUpdate _newDeposit;
  match ethGainWithdrawn with
  | Some _ => updateStabilityDeposit event _depositor _newDeposit
  | None => mret tt
  end.

Definition handleETHGainWithdrawn (event : Event) (_depositor : Address) (_ETH _LUSDLoss : Z) :
    M unit :=
  depositUpdate ← swapTmpDepositUpdate BIGINT_ZERO;
  withdrawCollateralGainFromStabilityDeposit event _depositor _ETH _LUSDLoss ;;
  match depositUpdate with
  | Some depositUpdate => updateStabilityDeposit event _depositor depositUpdate
  | None => mret tt
  end.

Definition handleFrontendRegistered (_frontEnd : Address) (_kickbackRate : Z) : M unit :=
  registerFrontend _frontEnd _kickbackRate.

Definition handleFrontendTagSet (_depositor _frontEnd : Address) : M unit :=
  assignFrontendToDepositor _depositor _frontEnd.

(** *** Token.ts *)

Definition handleTokenTransfer (event : Event) (from to : Address) (value : Z) : M unit :=
  updateBalance erc20_name erc20_symbol event from to value.

Definition handleTokenApproval (event : Event) (owner spender : Address) (value : Z) : M unit :=
  updateAllowance event owner spender value.

(** *** TroveManager.ts *)

Definition TroveManager_handleTroveUpdated (event : Event) (_borrower : Address)
    (_coll _debt _stake _operation : Z) : M unit :=
  updateTrove event (getTroveOperationFromTroveManagerOperation _operation) _borrower
    _coll _debt _stake.

Definition handleTroveLiquidated (event : Event) (_borrower : Address) : M unit :=
  applyRedistributionToTroveBeforeLiquidation event _borrower.

Definition handleLiquidation (event : Event)
    (_liquidatedColl _liquidatedDebt _collGasCompensation _LUSDGasCompensation : Z) : M unit :=
  finishCurrentLiquidation event _liquidatedColl _liquidatedDebt _collGasCompensation
    _LUSDGasCompensation.

Definition handleRedemption (event : Event)
    (_attemptedLUSDAmount _actualLUSDAmount _ETHSent _ETHFee : Z) : M unit :=
  finishCurrentRedemption event _attemptedLUSDAmount _actualLUSDAmount _ETHSent _ETHFee.

Definition handleLTermsUpdated (_L_ETH _L_LUSDDebt : Z) : M unit :=
  updateTotalRedistributed _L_ETH _L_LUSDDebt.

(** The handler of each event, as the manifest assigns them. *)
Definition handle (e : Event * EventParams) : M unit :=
  let event := e.1 in
  match e.2 with
  | BorrowerTroveUpdated b c d s op => BorrowerOperations_handleTroveUpdated event b c d s op
  | LUSDBorrowingFeePaid f => handleLUSDBorrowingFeePaid f
  | CollBalanceUpdated a b => handleCollSurplusBalanceUpdated event a b
  | StakeChanged a n => handleStakeChanged event a n
  | StakingGainsWithdrawn a l g => handleStakeGainsWithdrawn event a l g
  | LastGoodPriceUpdated p => handleLastGoodPriceUpdated event p
  | UserDepositChanged a n => handleUserDepositChanged event a n
  | ETHGainWithdrawn a g l => handleETHGainWithdrawn event a g l
  | FrontEndRegistered a k => handleFrontendRegistered a k
  | FrontEndTagSet d f => handleFrontendTagSet d f
  | Transfer f t v => handleTokenTransfer event f t v
  | Approval o s v => handleTokenApproval event o s v
  | ManagerTroveUpdated b c d s op => TroveManager_handleTroveUpdated event b c d s op
  | TroveLiquidated b => handleTroveLiquidated event b
  | Liquidation d c g l => handleLiquidation event c d g l
  | Redemption a b c d => handleRedemption event a b c d
  | LTermsUpdated e d => handleLTermsUpdated e d
  end.

Fixpoint run (events : list (Event * EventParams)) : M unit :=
  match events with
  | [] => mret tt
  | e :: events => handle e ;; run events
  end.

End mappings.
