(* ===== verification/GraphLogic.v ===== *)
(** * The subgraph: reasoning about handlers

    Partial correctness of a handler ([wp]: a handler that traps fails the subgraph, so only
    its successful runs matter), what a handler leaves alone ([frames]), and the tactics that
    prove both by following the code. *)

From S2P Require Import Prelude JsString GraphStore GraphEntities GraphMappings.
From stdpp Require Import pretty.
From Stdlib Require Import Ascii String.

Local Open Scope string_scope.
Local Open Scope Z_scope.

Section logic.
Context `{BD : BigDecimal}.

Definition globalOf (s : Store) : Global := default newGlobal (global s).

(** [Q] holds of the result and the store, if the run succeeds. *)
Definition wp {A} (m : M A) (Q : A -> Store -> Prop) (s : Store) : Prop :=
  match m s with Ok (a, s') => Q a s' | Err _ => True end.

Lemma wp_mono {A} (m : M A) (Q Q' : A -> Store -> Prop) s :
  wp m Q s -> (forall a s', Q a s' -> Q' a s') -> wp m Q' s.
Proof. unfold wp. destruct (m s) as [[a s']|]; auto. Qed.

Lemma wp_bind {A B} (m : M A) (k : A -> M B) Q s :
  wp m (fun a s' => wp (k a) Q s') s -> wp (m ≫= k) Q s.
Proof. unfold wp, mbind, M_bind. by destruct (m s) as [[a s']|]. Qed.

Lemma wp_assoc {A B C} (m : M A) (f : A -> M B) (g : B -> M C) Q s :
  wp ((m ≫= f) ≫= g) Q s -> wp (m ≫= (fun a => f a ≫= g)) Q s.
Proof. unfold wp, mbind, M_bind. by destruct (m s) as [[a s']|]. Qed.

Lemma wp_ret {A} (a : A) Q s : Q a s -> wp (mret a) Q s.
Proof. done. Qed.

Lemma wp_lift {A} (r : result A) Q s : (forall a, r = Ok a -> Q a s) -> wp (lift r) Q s.
Proof. unfold wp, lift. destruct r; auto. Qed.

Lemma wp_required {A} (o : option A) Q s : (forall a, o = Some a -> Q a s) -> wp (required o) Q s.
Proof. intros H. apply wp_lift. destruct o; naive_solver. Qed.

Lemma wp_load {E} `{!EntityType E} id Q s : Q (table s !! id) s -> wp (load (E := E) id) Q s.
Proof. done. Qed.

Lemma wp_loadOptional {E} `{!EntityType E} o Q s :
  Q (id ← o; table s !! id) s -> wp (loadOptional (E := E) o) Q s.
Proof. by destruct o. Qed.

Lemma wp_save {E} `{!EntityType E} (e : E) Q s :
  Q tt (setTable (<[entityId e := e]> (table s)) s) -> wp (save e) Q s.
Proof. done. Qed.

Lemma wp_getGlobal Q s : Q (globalOf s) s -> wp getGlobal Q s.
Proof. done. Qed.

Lemma wp_saveGlobal g Q s : Q tt (setGlobal (Some g) s) -> wp (saveGlobal g) Q s.
Proof. done. Qed.

Lemma wp_updateGlobal f Q s : Q tt (setGlobal (Some (f (globalOf s))) s) -> wp (updateGlobal f) Q s.
Proof. done. Qed.

Lemma wp_increaseCounter k Q s :
  Q (counter (globalOf s) k)
    (setGlobal (Some (setCounter k (i32 (counter (globalOf s) k + 1)) (globalOf s))) s) ->
  wp (increaseCounter k) Q s.
Proof. done. Qed.

Lemma wp_run {A} (m : M A) Q s a s' : wp m Q s -> m s = Ok (a, s') -> Q a s'.
Proof. unfold wp. intros H Heq. by rewrite Heq in H. Qed.

(** ** Frames *)

(** [m] leaves the part [P] of the store as it is. *)
Definition frames {X A} (P : Store -> X) (m : M A) : Prop :=
  forall s, wp m (fun _ s' => P s' = P s) s.

Section frames.
Context {X : Type} (P : Store -> X).

Lemma frames_bind {A B} (m : M A) (k : A -> M B) :
  frames P m -> (forall a, frames P (k a)) -> frames P (m ≫= k).
Proof.
  intros Hm Hk s. apply wp_bind. eapply wp_mono; [apply Hm|]. intros a s1 H1.
  eapply wp_mono; [apply Hk|]. intros b s2 H2. cbn in *. congruence.
Qed.

Lemma frames_ret {A} (a : A) : frames P (mret a).
Proof. by intros s. Qed.

Lemma frames_lift {A} (r : result A) : frames P (lift r).
Proof. intros s. by apply wp_lift. Qed.

Lemma frames_required {A} (o : option A) : frames P (required o).
Proof. intros s. by apply wp_required. Qed.

Lemma frames_load {E} `{!EntityType E} id : frames P (load (E := E) id).
Proof. by intros s. Qed.

Lemma frames_loadOptional {E} `{!EntityType E} o : frames P (loadOptional (E := E) o).
Proof. by intros s; destruct o. Qed.

Lemma frames_getGlobal : frames P getGlobal.
Proof. by intros s. Qed.

Lemma frames_save {E} `{!EntityType E} (e : E) :
  (forall m s, P (setTable m s) = P s) -> frames P (save e).
Proof. intros H s. apply wp_save, H. Qed.

Lemma frames_updateGlobal f :
  (forall s, P (setGlobal (Some (f (globalOf s))) s) = P s) -> frames P (updateGlobal f).
Proof. intros H s. apply wp_updateGlobal, H. Qed.

Lemma frames_increaseCounter k :
  (forall s, P (setGlobal (Some (setCounter k (i32 (counter (globalOf s) k + 1)) (globalOf s))) s) = P s) ->
  frames P (increaseCounter k).
Proof. intros H s. apply wp_increaseCounter, H. Qed.

Lemma frames_swap v :
  (forall s t, P (setGlobal (Some (setTmpDepositUpdate t (globalOf s))) s) = P s) ->
  frames P (swapTmpDepositUpdate v).
Proof. intros H s. unfold swapTmpDepositUpdate. apply wp_bind, wp_getGlobal, wp_bind, wp_saveGlobal, wp_ret, H. Qed.

(** A frame carries over any property of the part. *)
Lemma frames_wp {A} (m : M A) (Q : X -> Prop) s :
  frames P m -> Q (P s) -> wp m (fun _ s' => Q (P s')) s.
Proof. intros Hm HQ. eapply wp_mono; [apply Hm|]. cbn. by intros ? ? ->. Qed.
End frames.
End logic.

Create HintDb graph_functions.
#[export] Hint Unfold getSystemStateSequenceNumber getTransactionSequenceNumber getChangeSequenceNumber
  getLastChangeSequenceNumber getLiquidationSequenceNumber getRedemptionSequenceNumber
  updateTotalRedistributed increaseNumberOfOpenTroves increaseNumberOfLiquidatedTroves
  decreaseNumberOfLiquidatedTroves increaseNumberOfRedeemedTroves decreaseNumberOfRedeemedTroves
  increaseNumberOfTrovesClosedByOwner decreaseNumberOfTrovesClosedByOwner
  increaseTotalNumberOfLQTYStakes increaseNumberOfActiveLQTYStakes decreaseNumberOfActiveLQTYStakes
  increaseTotalBorrowingFeesPaid getTransaction getCurrentSystemState bumpSystemState
  getCurrentPrice beginChange initChange finishChange createChange createPriceChange
  finishPriceChange updatePrice updateSystemStateByTroveChange
  updateSystemStateByStabilityDepositChange updateSystemStateByCollSurplusChange
  updateSystemStateByLqtyStakeChange getUser createCollSurplusChange finishCollSurplusChange
  updateUserClaimColl getCurrentLiquidation finishCurrentLiquidation getCurrentRedemption
  finishCurrentRedemption registerFrontend assignFrontendToDepositor createToken getToken
  getTokenBalance updateBalance getTokenAllowance updateAllowance getTrove setTroveStatus
  createTroveChange finishTroveChange updateTrove setBorrowingFeeOfLastTroveChange
  applyRedistributionToTroveBeforeLiquidation getStabilityDeposit createStabilityDepositChange
  finishStabilityDepositChange updateStabilityDepositByOperation updateStabilityDeposit
  withdrawCollateralGainFromStabilityDeposit startLQTYStakeChange finishLQTYStakeChange
  getUserStake createStake updateStake withdrawStakeGains BorrowerOperations_handleTroveUpdated
  handleLUSDBorrowingFeePaid handleCollSurplusBalanceUpdated handleStakeChanged
  handleStakeGainsWithdrawn handleLastGoodPriceUpdated handleUserDepositChanged
  handleETHGainWithdrawn handleFrontendRegistered handleFrontendTagSet handleTokenTransfer
  handleTokenApproval TroveManager_handleTroveUpdated handleTroveLiquidated handleLiquidation
  handleRedemption handleLTermsUpdated : graph_functions.

(** Proves [frames P m] by following the code of [m]; the writes must be outside [P]. *)
Ltac frame_step :=
  first
  [ assumption
  | apply frames_ret | apply frames_lift | apply frames_required | apply frames_load
  | apply frames_loadOptional | apply frames_getGlobal
  | apply frames_save; intros; reflexivity
  | apply frames_updateGlobal; intros; reflexivity
  | apply frames_increaseCounter; intros; reflexivity
  | apply frames_swap; intros; reflexivity
  | apply frames_bind; [| intros ?]
  | match goal with
    | |- frames _ (match ?x with _ => _ end) => destruct x
    | |- frames _ (if ?x then _ else _) => destruct x
    end
  | progress cbn beta zeta iota
  | progress autounfold with graph_functions ].
Ltac frame := repeat frame_step.

(** Splits a handler's run: the goal becomes what must hold after its first action. *)
Ltac wp_bind := apply wp_bind.
