(* ===== verification/GraphTokens.v ===== *)
(** * The subgraph: token balances

    The balances and the total supply that [entities/TokenBalance.ts] and [entities/Token.ts]
    keep from [Transfer] events agree, whatever the events. *)

From S2P Require Import Prelude JsString GraphStore GraphEntities GraphMappings GraphLogic.
From stdpp Require Import pretty fin_maps.
From Stdlib Require Import Ascii String.

Local Open Scope string_scope.
Local Open Scope Z_scope.

Section tokens.
Context `{BD : BigDecimal} (erc20_name erc20_symbol : Address -> result string).

(** The sum of the balances of a token. *)
Definition ofToken (t : Address) (b : TokenBalanceEntity) : Z :=
  if String.eqb (tb_token b) t then balance b else 0.

Definition sumOfBalances (t : Address) (m : gmap string TokenBalanceEntity) : Z :=
  map_fold (fun _ b acc => ofToken t b + acc) 0 m.

Definition supplyOf (t : Address) (m : gmap string TokenEntity) : Z :=
  match m !! t with Some tk => totalSupply tk | None => 0 end.

(** Printed addresses hold no dash, so that the parts of an identifier can be told apart. *)
Definition dashless (a : Address) : Prop := includes "-" a = false.

Lemma sum_insert_new t m id b :
  m !! id = None -> sumOfBalances t (<[id := b]> m) = ofToken t b + sumOfBalances t m.
Proof. intros. unfold sumOfBalances. rewrite map_fold_insert_L; [done | intros; lia | done]. Qed.

Lemma sum_insert t m id b :
  sumOfBalances t (<[id := b]> m) =
  ofToken t b - match m !! id with Some b' => ofToken t b' | None => 0 end + sumOfBalances t m.
Proof.
  destruct (m !! id) as [b'|] eqn:Hid.
  - rewrite <- (insert_delete_id m id b' Hid) at 2.
    rewrite <- insert_delete_eq.
    rewrite !sum_insert_new by apply lookup_delete_eq. lia.
  - rewrite sum_insert_new by done. lia.
Qed.

(** Identifiers of balances: two of them are equal only for the same token. *)
Lemma balance_id_inj t o t' o' :
  dashless t -> dashless t' -> t +:+ "-" +:+ o = t' +:+ "-" +:+ o' -> t = t'.
Proof.
  unfold dashless. intros Ht Ht' Heq%(f_equal (JsString.split "-")).
  change ("-" +:+ o) with (String "-" o) in Heq. change ("-" +:+ o') with (String "-" o') in Heq.
  rewrite !split_app in Heq by done. by injection Heq.
Qed.

(** The part of the store that the claim is about, and its invariant. *)
Definition P_tokens (s : Store) := (tokens s, balances s).

Record tokensOk (p : gmap string TokenEntity * gmap string TokenBalanceEntity) : Prop := {
  to_sum t : dashless t -> sumOfBalances t p.2 = supplyOf t p.1;
  to_token t tk : p.1 !! t = Some tk -> tk_id tk = t;
  to_balance id b : p.2 !! id = Some b ->
    tb_id b = id /\ dashless (tb_token b) /\ exists o, id = tb_token b +:+ "-" +:+ o
}.

Lemma getUser_frame a : frames P_tokens (getUser a).
Proof. frame. Qed.

Lemma getToken_spec t s :
  tokensOk (P_tokens s) ->
  wp (getToken erc20_name erc20_symbol t)
    (fun tk s' => tokensOk (P_tokens s') /\ tokens s' !! t = Some tk /\ tk_id tk = t) s.
Proof.
  intros Hok. unfold getToken. apply wp_bind, wp_load. cbn [table TokenEntity_type].
  destruct (tokens s !! t) as [tk|] eqn:Ht.
  - apply wp_ret. split_and!; [done | done | by apply (to_token _ Hok)].
  - apply wp_bind, wp_lift. intros name _. apply wp_bind, wp_lift. intros symbol _.
    unfold createToken. apply wp_bind, wp_save, wp_ret. cbn.
    split_and!; [|by rewrite lookup_insert_eq|done].
    destruct Hok as [Hsum Htk Hb]. constructor; cbn in *; [ | | done].
    + intros t' Hd. rewrite Hsum by done. unfold supplyOf. destruct (decide (t' = t)) as [->|].
      * by rewrite lookup_insert_eq, Ht.
      * by rewrite lookup_insert_ne.
    + intros t' tk [[<- <-]|[_ ?]]%lookup_insert_Some; [done | auto].
Qed.

(** Reading a balance, and writing it back changed by [v], changes the sum of its token by [v]. *)
Lemma changeBalance_spec t o v s :
  dashless t ->
  (forall id b, balances s !! id = Some b ->
    tb_id b = id /\ dashless (tb_token b) /\ exists o, id = tb_token b +:+ "-" +:+ o) ->
  wp (b ← getTokenBalance t o; save (addToBalance b v))
    (fun _ s' => tokens s' = tokens s /\
       (forall id b, balances s' !! id = Some b ->
          tb_id b = id /\ dashless (tb_token b) /\ exists o, id = tb_token b +:+ "-" +:+ o) /\
       forall t', sumOfBalances t' (balances s') =
         sumOfBalances t' (balances s) + (if String.eqb t t' then v else 0)) s.
Proof.
  intros Hd Hb. unfold getTokenBalance. apply wp_bind, wp_bind.
  eapply wp_mono; [apply getUser_frame|]. intros user s1 H1.
  injection H1 as Ht1 Hb1. rewrite <- Ht1, <- Hb1 in *. clear Ht1 Hb1.
  apply wp_bind, wp_load. cbn [table TokenBalanceEntity_type].
  set (id := t +:+ "-" +:+ o).
  destruct (balances s1 !! id) as [b|] eqn:Hid.
  - apply wp_ret, wp_save. cbn. destruct (Hb id b Hid) as (Hbid & Hdb & o' & Heq).
    assert (tb_token b = t) as Htok by (symmetry; by eapply balance_id_inj).
    rewrite Hbid. split_and!; [done | |].
    + intros id' b' [[<- <-]|[_ ?]]%lookup_insert_Some; [|auto]. cbn. eauto.
    + intros t'. rewrite sum_insert, Hid. unfold ofToken; cbn. rewrite Htok.
      destruct (String.eqb t t'); lia.
  - apply wp_bind, wp_save, wp_ret, wp_save. cbn. split_and!; [done | |].
    + intros id' b' [[<- <-]|[_ [[<- <-]|[_ ?]]%lookup_insert_Some]]%lookup_insert_Some;
        cbn; [by eauto using ex_intro | by eauto using ex_intro | auto].
    + intros t'. rewrite sum_insert, lookup_insert_eq, sum_insert, Hid. unfold ofToken, BIGINT_ZERO; cbn.
      destruct (String.eqb t t'); lia.
Qed.

Lemma updateBalance_ok event from to v s :
  dashless (address event) -> tokensOk (P_tokens s) ->
  wp (updateBalance erc20_name erc20_symbol event from to v) (fun _ s' => tokensOk (P_tokens s')) s.
Proof.
  intros Hd Hok. unfold updateBalance. set (t := address event) in *. clearbody t.
  apply wp_bind.
  eapply wp_mono; [by apply getToken_spec|]. clear s Hok. intros tk s (Hok & Htk & Hid).
  destruct Hok as [Hsum Htok Hbal]. cbn [fst snd P_tokens] in *.
  (* after the first half, [tk'] is the token as saved and [v] is missing from the balances *)
  assert (wp (if String.eqb from ZERO_ADDRESS
              then save (addToSupply tk v) ;; mret (addToSupply tk v)
              else tokenBalanceFrom ← getTokenBalance t from;
                   save (addToBalance tokenBalanceFrom (- v)) ;; mret tk)
    (fun tk' s1 => tokens s1 = <[t := tk']> (tokens s) /\ tk_id tk' = t /\
      (forall id b, balances s1 !! id = Some b ->
         tb_id b = id /\ dashless (tb_token b) /\ exists o, id = tb_token b +:+ "-" +:+ o) /\
      forall t', dashless t' -> sumOfBalances t' (balances s1) + (if String.eqb t t' then v else 0) =
        supplyOf t' (tokens s1)) s) as Hfirst.
  { destruct (String.eqb from ZERO_ADDRESS).
    - apply wp_bind, wp_save, wp_ret. cbn. rewrite Hid. split_and!; [done | done | done |].
      intros t' Hd'. rewrite Hsum by done. unfold supplyOf.
      destruct (String.eqb_spec t t') as [->|].
      + by rewrite lookup_insert_eq, Htk.
      + rewrite lookup_insert_ne by done. lia.
    - apply (wp_assoc (getTokenBalance t from) (fun b => save (addToBalance b (- v)))).
      apply wp_bind. eapply wp_mono; [by apply changeBalance_spec|]. cbn.
      intros _ s1 (Ht1 & Hb1 & Hs1). rewrite Ht1. split_and!; [by rewrite insert_id | done | done |].
      intros t' Hd'. rewrite Hs1, Hsum by done. destruct (String.eqb t t'); lia. }
  apply wp_bind. eapply wp_mono; [exact Hfirst|]. clear Hfirst Hsum.
  intros tk' s1 (Ht1 & Hid' & Hb1 & Hs1). cbn beta.
  assert (forall t' k, <[t := tk']> (tokens s) !! t' = Some k -> tk_id k = t') as Htok1.
  { intros t' k [[<- <-]|[_ ?]]%lookup_insert_Some; [done | auto]. }
  destruct (String.eqb to ZERO_ADDRESS).
  - apply wp_save. cbn. rewrite Hid', Ht1. constructor; cbn; [ | | done].
    + intros t' Hd'. rewrite insert_insert_eq. specialize (Hs1 t' Hd'). rewrite Ht1 in Hs1.
      unfold supplyOf in *. destruct (String.eqb_spec t t') as [->|].
      * rewrite !lookup_insert_eq in *. cbn. lia.
      * rewrite !lookup_insert_ne in * by done. lia.
    + intros t' k. rewrite insert_insert_eq. intros [[<- <-]|[_ ?]]%lookup_insert_Some; [done | auto].
  - eapply wp_mono; [by apply changeBalance_spec|]. cbn. intros _ s2 (Ht2 & Hb2 & Hs2).
    constructor; cbn; [ | | done].
    + intros t' Hd'. rewrite Hs2, Ht2. by apply Hs1.
    + rewrite Ht2, Ht1. exact Htok1.
Qed.

(** Every other handler leaves tokens and balances alone. *)
Lemma handle_tokens_frame event params :
  (forall f t v, params <> Transfer f t v) ->
  frames P_tokens (handle erc20_name erc20_symbol (event, params)).
Proof. intros Hnot. destruct params; cbn; try (frame; fail). by destruct (Hnot from to value). Qed.

Lemma handle_tokensOk e s :
  dashless (address e.1) -> tokensOk (P_tokens s) ->
  wp (handle erc20_name erc20_symbol e) (fun _ s' => tokensOk (P_tokens s')) s.
Proof.
  intros Hd Hok. destruct e as [event params]. cbn in Hd.
  destruct params as [ | | | | | | | | | | from to v | | | | | | ].
  11: by apply updateBalance_ok.
  all: apply (frames_wp P_tokens _ tokensOk); [by apply handle_tokens_frame | done].
Qed.

Lemma run_tokensOk events s :
  Forall (fun e => dashless (address e.1)) events -> tokensOk (P_tokens s) ->
  wp (run erc20_name erc20_symbol events) (fun _ s' => tokensOk (P_tokens s')) s.
Proof.
  intros Hd. revert s. induction Hd as [|e events Hde _ IH]; intros s Hok; [done|]. simpl.
  apply wp_bind. eapply wp_mono; [by apply handle_tokensOk|]. cbn. auto.
Qed.

Lemma emptyStore_tokensOk : tokensOk (P_tokens emptyStore).
Proof. constructor; cbn; intros *; by rewrite ?lookup_empty. Qed.

(** C4. After any sequence of events the handlers process, transfers of a token to oneself,
    mints and burns included, the balances recorded for a token add up to its recorded total
    supply, and every balance is stored under its own identifier. *)
Theorem supply_is_sum_of_balances events s :
  Forall (fun e => dashless (address e.1)) events ->
  run erc20_name erc20_symbol events emptyStore = Ok (tt, s) ->
  (forall t, dashless t -> sumOfBalances t (balances s) = supplyOf t (tokens s)) /\
  (forall id b, balances s !! id = Some b -> tb_id b = id).
Proof.
  intros Hd Hrun.
  destruct (wp_run _ _ _ _ _ (run_tokensOk events _ Hd emptyStore_tokensOk) Hrun) as [Hsum _ Hb].
  split; [exact Hsum | intros id b H; apply (Hb id b H)].
Qed.
End tokens.

(** ** An instance *)

Definition sampleName (a : Address) : result string := Ok "LUSD".

(** A token that is minted and moved. *)
Definition sampleTransfers : list (Event * EventParams) :=
  let e := mkEvent "0x7" "0xabc" "0x1" 1 1 in
  [(e, Transfer ZERO_ADDRESS "0x1" 100); (e, Transfer "0x1" "0x2" 40)].

Definition afterTransfers : Store (BD := QBD) :=
  stateAfter (emptyStore (BD := QBD)) (run (BD := QBD) sampleName sampleName sampleTransfers (emptyStore (BD := QBD))).

Lemma supply_is_sum_of_balances_witness :
  sumOfBalances "0x7" (balances afterTransfers) = supplyOf "0x7" (tokens afterTransfers) /\
  supplyOf "0x7" (tokens afterTransfers) = 100.
Proof.
  split; [|vm_compute; reflexivity].
  apply (supply_is_sum_of_balances (BD := QBD) sampleName sampleName sampleTransfers afterTransfers).
  - repeat constructor.
  - apply stateAfter_ok. vm_compute. reflexivity.
  - reflexivity.
Defined.
