(* ===== verification/GraphChanges.v ===== *)
(** * The subgraph: the chain of changes

    Every change recorded by the handlers leads from one system state to the next:
    [entities/Change.ts], [entities/SystemState.ts] and the changes of prices, Troves, deposits,
    surplus and stakes.  [Chain] is the part of the store that the claim is about; the
    predicates below describe it between changes ([settled]), after [createChange]
    ([opened]) and after [bumpSystemState] ([bumped]). *)

From S2P Require Import Prelude JsString GraphStore GraphEntities GraphMappings GraphLogic.
From stdpp Require Import pretty fin_maps.
From Stdlib Require Import Ascii String.

Local Open Scope string_scope.
Local Open Scope Z_scope.

Lemma i32_id z : - 2 ^ 31 <= z < 2 ^ 31 -> i32 z = z.
Proof. intros. unfold i32. rewrite Z.mod_small; lia. Qed.

Section changes.
Context `{BD : BigDecimal}.

Record Chain := mkChain {
  k_states : gmap string SystemStateEntity;
  k_troves : gmap string TroveChange;
  k_deposits : gmap string StabilityDepositChangeEntity;
  k_prices : gmap string PriceChange;
  k_surplus : gmap string CollSurplusChange;
  k_stakes : gmap string LqtyStakeChange;
  k_changeCount : Z;
  k_stateCount : Z;
  k_current : option string
}.

Definition chainOf (s : Store) : Chain :=
  mkChain (systemStates s) (troveChanges s) (depositChanges s) (priceChanges s)
    (collSurplusChanges s) (stakeChanges s) (counter (globalOf s) changeCount)
    (counter (globalOf s) systemStateCount) (currentSystemState (globalOf s)).

(** The headers of the changes with an identifier, of all five kinds. *)
Definition headers (c : Chain) (id : string) : list ChangeHeader :=
  (option_list (tc_header <$> k_troves c !! id) ++ option_list (dc_header <$> k_deposits c !! id) ++
   option_list (pc_header <$> k_prices c !! id) ++ option_list (cs_header <$> k_surplus c !! id) ++
   option_list (sc_header <$> k_stakes c !! id))%list.

(** Change number [n] leads from state [n] to state [n + 1]. *)
Definition links (n : Z) (h : ChangeHeader) : Prop :=
  ch_sequenceNumber h = n /\ systemStateBefore h = pretty n /\
  systemStateAfter h = Some (pretty (n + 1)).

(** Trove changes are stored under their identifiers. *)
Definition stored (c : Chain) : Prop := forall id t, k_troves c !! id = Some t -> tc_id t = id.

(** The first [n] changes are recorded once each, and no other. *)
Definition recorded (n : Z) (c : Chain) : Prop :=
  (forall i, 0 <= i < n -> exists h, headers c (pretty i) = [h] /\ links i h) /\
  (forall i, n <= i -> headers c (pretty i) = []) /\ stored c.

(** State number [n] is the current one and the last one created. *)
Definition current (n : Z) (c : Chain) : Prop :=
  k_stateCount c = n + 1 /\ k_current c = Some (pretty n) /\
  exists st, k_states c !! (pretty n : string) = Some st /\ ss_id st = pretty n.

Definition settled (n : Z) (c : Chain) : Prop :=
  0 <= n /\ k_changeCount c = n /\ recorded n c /\
  (current n c \/ n = 0 /\ k_stateCount c = 0 /\ k_current c = None).

Definition opened (n : Z) (c : Chain) : Prop :=
  0 <= n /\ k_changeCount c = n + 1 /\ recorded n c /\ current n c.

Definition bumped (n : Z) (c : Chain) : Prop :=
  0 <= n /\ k_changeCount c = n + 1 /\ recorded n c /\ current (n + 1) c.

Definition maxChanges : Z := 2 ^ 31 - 2.

Lemma pretty_Z_inj (i j : Z) : @pretty Z _ i = pretty j -> i = j.
Proof. apply (inj pretty). Qed.

(** *** Reading and creating the current state *)

Lemma getCurrent_current n s :
  current n (chainOf s) ->
  wp getCurrentSystemState (fun st s' => s' = s /\ ss_id st = pretty n) s.
Proof.
  intros (Hc & Hcur & st & Hst & Hid). unfold getCurrentSystemState.
  apply wp_bind, wp_getGlobal, wp_bind. cbn in Hcur. rewrite Hcur. apply wp_load.
  cbn in *. rewrite Hst. by apply wp_ret.
Qed.

(** Whatever the store, the current state exists afterwards; nothing else changes. *)
Lemma getCurrent_settled n s :
  settled n (chainOf s) -> n <= maxChanges ->
  wp getCurrentSystemState (fun st s' => settled n (chainOf s') /\ current n (chainOf s') /\
    ss_id st = pretty n) s.
Proof.
  intros (Hn & Hcc & Hrec & Hcur) Hmax. destruct Hcur as [Hcur|(-> & Hsc & Hcur)].
  - eapply wp_mono; [by apply getCurrent_current|]. cbn. intros st s' [-> Hid].
    split_and!; [|done|done]. split_and!; auto.
  - unfold getCurrentSystemState. apply wp_bind, wp_getGlobal, wp_bind. cbn in Hcur. rewrite Hcur.
    apply wp_loadOptional. cbn [mbind option_bind]. apply wp_bind, wp_increaseCounter. cbn in Hsc.
    rewrite Hsc. apply wp_bind, wp_save, wp_bind, wp_updateGlobal, wp_ret.
    assert (current 0 (chainOf (setGlobal (Some (setCurrentSystemState (pretty 0)
      (globalOf (setGlobal (Some (setCounter systemStateCount (i32 (0 + 1)) (globalOf s))) s))))
      (setTable (<[(pretty 0 : string) := mkSystemState (pretty 0) 0 None DECIMAL_ZERO DECIMAL_ZERO
         None DECIMAL_ZERO DECIMAL_ZERO DECIMAL_ZERO]> (systemStates s)) s)))) as Hcurrent.
    { split_and!; [done | done |]. eexists. cbn. by rewrite lookup_insert_eq. }
    split_and!; [|exact Hcurrent|done]. split_and!; [done | done | exact Hrec | by left].
Qed.

Lemma getTransaction_frame event : frames chainOf (getTransaction event).
Proof. frame. Qed.

Lemma createChange_spec event n s :
  settled n (chainOf s) -> n < maxChanges ->
  wp (createChange event) (fun change s' => opened n (chainOf s') /\ change.1 = pretty n /\
    ch_sequenceNumber change.2 = n /\ systemStateBefore change.2 = pretty n /\
    systemStateAfter change.2 = None) s.
Proof.
  intros (Hn & Hcc & Hrec & Hcur) Hmax. unfold createChange, initChange.
  apply wp_bind. unfold beginChange, getChangeSequenceNumber. apply wp_increaseCounter.
  cbn in Hcc. rewrite Hcc, i32_id by (unfold maxChanges in *; lia).
  set (s1 := setGlobal _ s).
  (* the counter is ahead of the record until the change is saved *)
  assert (forall s2, chainOf s2 = chainOf s1 ->
    wp getCurrentSystemState (fun st s' => opened n (chainOf s') /\ ss_id st = pretty n) s2) as Hget.
  { intros s2 Hs2.
    assert (chainOf s1 = mkChain (systemStates s) (troveChanges s) (depositChanges s)
      (priceChanges s) (collSurplusChanges s) (stakeChanges s) (n + 1)
      (counter (globalOf s) systemStateCount) (currentSystemState (globalOf s))) as Hs1 by done.
    rewrite Hs1 in Hs2. clear s1 Hs1.
    destruct Hcur as [(Hsc & Hk & st & Hst & Hid)|(-> & Hsc & Hk)]; cbn in *.
    - eapply wp_mono; [apply (getCurrent_current n); rewrite Hs2; by split_and!; eauto|].
      cbn. intros st' s' [-> ?]. split; [|done]. rewrite Hs2. split_and!; [done..|].
      by split_and!; eauto.
    - injection Hs2 as Hm Ht Hd Hp Hc Hsk Hcc2 Hsc2 Hcur2. rewrite Hk in Hcur2. rewrite Hsc in Hsc2.
      unfold getCurrentSystemState. apply wp_bind, wp_getGlobal, wp_bind. rewrite Hcur2.
      apply wp_loadOptional. cbn [mbind option_bind]. apply wp_bind, wp_increaseCounter. rewrite Hsc2.
      apply wp_bind, wp_save, wp_bind, wp_updateGlobal, wp_ret. cbn. split; [|done].
      split_and!; [done | by cbn; rewrite Hcc2 | | ].
      + destruct Hrec as (_ & Hempty & Hst). split_and!; [lia | | unfold stored; cbn; by rewrite Ht].
        intros i Hi. rewrite <- (Hempty i Hi). unfold headers; cbn. by rewrite Ht, Hd, Hp, Hc, Hsk.
      + split_and!; [done | done |]. eexists. cbn. by rewrite lookup_insert_eq. }
  apply wp_bind, wp_bind. eapply wp_mono; [apply getTransaction_frame|]. cbn. intros tx s2 Hs2.
  apply wp_bind. eapply wp_mono; [by apply Hget|]. cbn. intros st s3 [Hop Hid].
  by rewrite Hid.
Qed.

Lemma bump_spec st n s :
  opened n (chainOf s) -> n < maxChanges ->
  wp (bumpSystemState st) (fun _ s' => bumped n (chainOf s')) s.
Proof.
  intros (Hn & Hcc & Hrec & Hsc & Hk & _) Hmax. unfold bumpSystemState.
  apply wp_bind, wp_increaseCounter. cbn in Hsc. rewrite Hsc.
  rewrite i32_id by (unfold maxChanges in *; lia).
  apply wp_bind, wp_save, wp_updateGlobal. cbn. split_and!; [done | done | exact Hrec |].
  split_and!; [done | done |]. eexists. cbn. by rewrite lookup_insert_eq.
Qed.

Lemma finishChange_spec h n s :
  bumped n (chainOf s) ->
  ch_sequenceNumber h = n -> systemStateBefore h = pretty n ->
  wp (finishChange h) (fun h' s' => s' = s /\ links n h') s.
Proof.
  intros (_ & _ & _ & Hcur) Hseq Hbefore. unfold finishChange. apply wp_bind.
  eapply wp_mono; [by apply getCurrent_current|]. intros st s' [-> Hid]. apply wp_ret. split; [done|]. split_and!; cbn; [done | done | by rewrite Hid].
Qed.

(** Saving the finished change settles the chain. *)
Lemma settle n (c c' : Chain) h :
  bumped n c -> links n h ->
  k_changeCount c' = k_changeCount c -> k_stateCount c' = k_stateCount c ->
  k_current c' = k_current c -> k_states c' = k_states c ->
  stored c' ->
  (forall id, headers c' id = if decide (id = pretty n) then [h] else headers c id) ->
  settled (n + 1) c'.
Proof.
  intros (Hn & Hcc & (Hrec & Hempty & _) & Hsc & Hk & st & Hst & Hid) Hl Hcc' Hsc' Hk' Hs' Hstored Hh.
  split_and!; [lia | congruence | |].
  - split_and!; [..|done]; intros i Hi; rewrite Hh.
    + case_decide as Hd; [apply pretty_Z_inj in Hd as ->; by eauto|].
      apply Hrec. assert (i <> n) by congruence. lia.
    + rewrite decide_False; [apply Hempty; lia|]. intros ?%pretty_Z_inj. lia.
  - left. split_and!; [lia | congruence |]. exists st. by rewrite Hs'.
Qed.

Lemma headers_nil c id : headers c id = [] ->
  k_troves c !! id = None /\ k_deposits c !! id = None /\ k_prices c !! id = None /\
  k_surplus c !! id = None /\ k_stakes c !! id = None.
Proof.
  unfold headers.
  destruct (k_troves c !! id), (k_deposits c !! id), (k_prices c !! id), (k_surplus c !! id),
    (k_stakes c !! id); naive_solver.
Qed.

Lemma bumped_nil n c : bumped n c -> headers c (pretty n) = [].
Proof. intros (_ & _ & (_ & Hempty & _) & _). apply Hempty. lia. Qed.

Lemma bumped_stored n c : bumped n c -> stored c.
Proof. intros (_ & _ & (_ & _ & Hst) & _). exact Hst. Qed.

(** A header as [createChange] makes it for change [n]. *)
Definition fresh (n : Z) (h : ChangeHeader) : Prop :=
  ch_sequenceNumber h = n /\ systemStateBefore h = pretty n.

(** The five [finish...Change] functions: finish the header and save the change. *)
Ltac finish Hb Hid Hf :=
  apply wp_bind; destruct Hf;
  eapply wp_mono; [by apply finishChange_spec|];
  intros h s' [-> Hl]; apply wp_save; cbn; rewrite Hid;
  eapply (settle _ _ _ h Hb Hl); try done;
  [intros ? ?; cbn; rewrite ?lookup_insert_Some; pose proof (bumped_stored _ _ Hb); naive_solver|];
  let id := fresh "id" in
  intros id; unfold headers; cbn;
  destruct (headers_nil _ _ (bumped_nil _ _ Hb)) as (H1 & H2 & H3 & H4 & H5); cbn in *;
  case_decide as Hd; [subst id; rewrite lookup_insert_eq, ?H1, ?H2, ?H3, ?H4, ?H5; done
                     | rewrite lookup_insert_ne by done; done].

Section finish.
Context (n : Z) (s : Store) (Hb : bumped n (chainOf s)).

Lemma finishPrice_spec p : pc_id p = pretty n -> fresh n (pc_header p) ->
  wp (finishPriceChange p) (fun _ s' => settled (n + 1) (chainOf s')) s.
Proof using Hb. intros Hid Hf. unfold finishPriceChange. finish Hb Hid Hf. Qed.

Lemma finishTrove_spec t : tc_id t = pretty n -> fresh n (tc_header t) ->
  wp (finishTroveChange t) (fun _ s' => settled (n + 1) (chainOf s')) s.
Proof using Hb. intros Hid Hf. unfold finishTroveChange, withHeader. finish Hb Hid Hf. Qed.

Lemma finishDeposit_spec d : dc_id d = pretty n -> fresh n (dc_header d) ->
  wp (finishStabilityDepositChange d) (fun _ s' => settled (n + 1) (chainOf s')) s.
Proof using Hb. intros Hid Hf. unfold finishStabilityDepositChange. finish Hb Hid Hf. Qed.

Lemma finishSurplus_spec c : cs_id c = pretty n -> fresh n (cs_header c) ->
  wp (finishCollSurplusChange c) (fun _ s' => settled (n + 1) (chainOf s')) s.
Proof using Hb. intros Hid Hf. unfold finishCollSurplusChange. finish Hb Hid Hf. Qed.

Lemma finishStake_spec c : sc_id c = pretty n -> fresh n (sc_header c) ->
  wp (finishLQTYStakeChange c) (fun _ s' => settled (n + 1) (chainOf s')) s.
Proof using Hb. intros Hid Hf. unfold finishLQTYStakeChange. finish Hb Hid Hf. Qed.
End finish.

(** The four functions that bump the state for a change. *)

Section update.
Context (n : Z) (s : Store) (Hop : opened n (chainOf s)) (Hmax : n < maxChanges).

Lemma opened_current : current n (chainOf s).
Proof using Hop. apply Hop. Qed.

Lemma updateByTrove_spec t :
  wp (updateSystemStateByTroveChange t) (fun _ s' => bumped n (chainOf s')) s.
Proof using Hop Hmax.
  unfold updateSystemStateByTroveChange. apply wp_bind.
  eapply wp_mono; [apply getCurrent_current, opened_current|]. intros st s' [-> _].
  apply wp_bind, wp_lift. intros st' _. apply wp_bind, wp_required. intros price _.
  apply wp_bind, wp_lift. intros ratio _. by apply bump_spec.
Qed.

Lemma updateByDeposit_spec d :
  wp (updateSystemStateByStabilityDepositChange d) (fun _ s' => bumped n (chainOf s')) s.
Proof using Hop Hmax.
  unfold updateSystemStateByStabilityDepositChange. apply wp_bind.
  eapply wp_mono; [apply getCurrent_current, opened_current|]. intros st s' [-> _].
  by apply bump_spec.
Qed.

Lemma updateBySurplus_spec c :
  wp (updateSystemStateByCollSurplusChange c) (fun _ s' => bumped n (chainOf s')) s.
Proof using Hop Hmax.
  unfold updateSystemStateByCollSurplusChange. apply wp_bind.
  eapply wp_mono; [apply getCurrent_current, opened_current|]. intros st s' [-> _].
  by apply bump_spec.
Qed.

Lemma updateByStake_spec c :
  wp (updateSystemStateByLqtyStakeChange c) (fun _ s' => bumped n (chainOf s')) s.
Proof using Hop Hmax.
  unfold updateSystemStateByLqtyStakeChange. apply wp_bind.
  eapply wp_mono; [apply getCurrent_current, opened_current|]. intros st s' [-> _].
  by apply bump_spec.
Qed.
End update.

(** *** The operations that record a change

    Each records at most one change: [within k n] says that the chain is settled at [n] or at
    most [k] changes later. *)

Definition within (k n : Z) (c : Chain) : Prop := exists m, n <= m <= n + k /\ settled m c.

Lemma within_here k n c : 0 <= k -> settled n c -> within k n c.
Proof. intros. exists n. split; [lia | done]. Qed.

Lemma within_next n c : settled (n + 1) c -> within 1 n c.
Proof. intros. exists (n + 1). split; [lia | done]. Qed.

(** Actions that leave the chain alone, in the middle of a change. *)
Lemma skip {A B} (m : M A) (k : A -> M B) Q s :
  frames chainOf m -> (forall a s', chainOf s' = chainOf s -> wp (k a) Q s') -> wp (m ≫= k) Q s.
Proof. intros Hm Hk. apply wp_bind. eapply wp_mono; [apply Hm|]. auto. Qed.

Lemma tail_frame {A B} (m : M A) (k : A -> M B) n s :
  wp m (fun _ s' => settled (n + 1) (chainOf s')) s -> (forall a, frames chainOf (k a)) ->
  wp (m ≫= k) (fun _ s' => within 1 n (chainOf s')) s.
Proof.
  intros Hm Hk. apply wp_bind. eapply wp_mono; [exact Hm|]. intros a s' Hs. cbn beta in *.
  apply (frames_wp chainOf (k a) (within 1 n)); [apply Hk | by apply within_next].
Qed.

Ltac open_change Hs Hmax :=
  apply wp_bind; eapply wp_mono; [eapply (createChange_spec _ _ _ Hs Hmax)|];
  intros [cid ch] ? (Hop & Hid & Hseq & Hbefore & _); cbn [fst snd] in Hid, Hseq, Hbefore;
  cbn [fst snd].

Lemma updatePrice_chain event p n s :
  settled n (chainOf s) -> n < maxChanges ->
  wp (updatePrice event p) (fun _ s' => within 1 n (chainOf s')) s.
Proof.
  intros Hs Hmax. unfold updatePrice. apply wp_bind.
  eapply wp_mono; [apply getCurrent_settled; [done | lia]|]. clear s Hs.
  intros st s (Hs & Hcur & Hid0). destruct (ss_price st) as [old|].
  - destruct (negb _); [|apply wp_ret; apply within_here; [lia | done]].
    unfold createPriceChange. open_change Hs Hmax. apply wp_bind.
    eapply wp_mono; [by apply (bump_spec _ n)|]. intros ? s2 Hb. cbn beta in Hb.
    eapply wp_mono; [by apply (finishPrice_spec n)|]. intros ? s3. apply within_next.
  - apply wp_save. apply within_here; [lia|]. destruct Hs as (Hn & Hcc & Hrec & _).
    destruct Hcur as (Hsc & Hk & st' & Hst' & Hid').
    split_and!; [done | done | exact Hrec | left]. split_and!; [done | done |].
    eexists. cbn. rewrite Hid0. by rewrite lookup_insert_eq.
Qed.

Lemma updateUserClaimColl_chain event b v n s :
  settled n (chainOf s) -> n < maxChanges ->
  wp (updateUserClaimColl event b v) (fun _ s' => within 1 n (chainOf s')) s.
Proof.
  intros Hs Hmax. unfold updateUserClaimColl. apply skip; [frame|]. intros u s1 Heq.
  rewrite <- Heq in Hs. clear s Heq.
  destruct (bd_eqb _ _); [apply wp_ret; apply within_here; [lia | done]|].
  unfold createCollSurplusChange. open_change Hs Hmax. apply wp_bind.
  eapply wp_mono; [by apply (updateBySurplus_spec n)|]. intros ? s2 Hb. cbn beta in Hb.
  apply tail_frame; [by apply finishSurplus_spec | intros; frame].
Qed.

Lemma opened_frame {A B} (m : M A) (k : A -> M B) n Q s :
  frames chainOf m -> opened n (chainOf s) ->
  (forall a s', opened n (chainOf s') -> wp (k a) Q s') -> wp (m ≫= k) Q s.
Proof.
  intros Hm Hop Hk. apply skip; [done|]. intros a s' Heq. apply Hk. by rewrite Heq.
Qed.

Lemma opened_price n Q s :
  opened n (chainOf s) -> (forall price, Q price s) -> wp getCurrentPrice Q s.
Proof.
  intros Hop HQ. unfold getCurrentPrice. apply wp_bind.
  eapply wp_mono; [by apply getCurrent_current, opened_current|]. intros st s' [-> _].
  apply wp_required. auto.
Qed.

Lemma updateTrove_chain event op b c d stake n s :
  settled n (chainOf s) -> n < maxChanges ->
  wp (updateTrove event op b c d stake) (fun _ s' => within 1 n (chainOf s')) s.
Proof.
  intros Hs Hmax. unfold updateTrove. apply skip; [frame|]. intros g s1 H1.
  apply skip; [frame|]. intros t s2 H2. rewrite <- H1, <- H2 in Hs. clear s H1 s1 H2.
  destruct (_ && _); [apply wp_ret; apply within_here; [lia | done]|].
  unfold createTroveChange. open_change Hs Hmax.
  apply wp_bind, (opened_price n); [done|]. intros price.
  apply wp_bind, wp_lift. intros rb _. apply wp_bind, wp_lift. intros ra _.
  apply (opened_frame _ _ n); [frame | done |]. intros l s4 Hop4.
  apply (opened_frame _ _ n); [frame | done |]. intros r s5 Hop5.
  apply wp_bind. eapply wp_mono; [by apply (updateByTrove_spec n)|]. intros ? s6 Hb. cbn beta in Hb.
  apply tail_frame; [by apply finishTrove_spec | intros ?; frame].
Qed.

Lemma depositByOperation_chain event d op v g n s :
  settled n (chainOf s) -> n < maxChanges ->
  wp (updateStabilityDepositByOperation event d op v g) (fun _ s' => within 1 n (chainOf s')) s.
Proof.
  intros Hs Hmax. unfold updateStabilityDepositByOperation, createStabilityDepositChange.
  open_change Hs Hmax. apply wp_bind.
  eapply wp_mono; [by apply (updateByDeposit_spec n)|]. intros ? s2 Hb. cbn beta in Hb.
  apply tail_frame; [by apply finishDeposit_spec | intros ?; frame].
Qed.

Lemma within_frame {A B} (m : M A) (k : A -> M B) j n s :
  wp m (fun _ s' => within j n (chainOf s')) s -> (forall a, frames chainOf (k a)) ->
  wp (m ≫= k) (fun _ s' => within j n (chainOf s')) s.
Proof.
  intros Hm Hk. apply wp_bind. eapply wp_mono; [exact Hm|]. intros a s' Hs. cbn beta in *.
  by apply (frames_wp chainOf (k a) (within j n)).
Qed.

Lemma updateStabilityDeposit_chain event u v n s :
  settled n (chainOf s) -> n < maxChanges ->
  wp (updateStabilityDeposit event u v) (fun _ s' => within 1 n (chainOf s')) s.
Proof.
  intros Hs Hmax. unfold updateStabilityDeposit. apply skip; [frame|]. intros d s1 H1.
  apply skip; [frame|]. intros o s2 H2. rewrite <- H1, <- H2 in Hs. clear s H1 s1 H2.
  destruct (bd_eqb _ _); [apply wp_ret; apply within_here; [lia | done]|].
  apply within_frame; [by apply depositByOperation_chain | intros ?; frame].
Qed.

Lemma withdrawGain_chain event u g l n s :
  settled n (chainOf s) -> n < maxChanges ->
  wp (withdrawCollateralGainFromStabilityDeposit event u g l)
    (fun _ s' => within 1 n (chainOf s')) s.
Proof.
  intros Hs Hmax. unfold withdrawCollateralGainFromStabilityDeposit.
  destruct (_ && _); [apply wp_ret; apply within_here; [lia | done]|].
  apply skip; [frame|]. intros d s1 H1. rewrite <- H1 in Hs. clear s H1.
  apply within_frame; [by apply depositByOperation_chain | intros ?; frame].
Qed.

Lemma updateStake_chain event a v n s :
  settled n (chainOf s) -> n < maxChanges ->
  wp (updateStake event a v) (fun _ s' => within 1 n (chainOf s')) s.
Proof.
  intros Hs Hmax. unfold updateStake. apply skip; [frame|]. intros o s1 H1.
  apply skip; [frame|]. intros st s2 H2. rewrite <- H1, <- H2 in Hs. clear s H1 s1 H2.
  unfold startLQTYStakeChange. open_change Hs Hmax.
  apply (opened_frame _ _ n); [frame | done |]. intros ? s3 Hop3.
  apply wp_bind. eapply wp_mono; [by apply (updateByStake_spec n)|]. intros ? s4 Hb. cbn beta in Hb.
  apply tail_frame; [by apply finishStake_spec | intros ?; frame].
Qed.

Lemma withdrawStakeGains_chain event a l g n s :
  settled n (chainOf s) -> n < maxChanges ->
  wp (withdrawStakeGains event a l g) (fun _ s' => within 1 n (chainOf s')) s.
Proof.
  intros Hs Hmax. unfold withdrawStakeGains.
  destruct (_ && _); [apply wp_ret; apply within_here; [lia | done]|].
  apply skip; [frame|]. intros o s1 H1.
  apply skip; [frame|]. intros st s2 H2. rewrite <- H1, <- H2 in Hs. clear s H1 s1 H2.
  unfold startLQTYStakeChange. open_change Hs Hmax.
  apply wp_bind. eapply wp_mono; [by apply (updateByStake_spec n)|]. intros ? s4 Hb. cbn beta in Hb.
  apply tail_frame; [by apply finishStake_spec | intros ?; frame].
Qed.

(** The borrowing fee is added to a change that is already recorded. *)
Lemma setBorrowingFee_chain fee n s :
  settled n (chainOf s) ->
  wp (setBorrowingFeeOfLastTroveChange fee) (fun _ s' => settled n (chainOf s')) s.
Proof.
  intros Hs. unfold setBorrowingFeeOfLastTroveChange.
  apply skip; [frame|]. intros k s1 H1. rewrite <- H1 in Hs. clear s H1.
  apply wp_bind, wp_load, wp_bind, wp_required. intros c Hc. apply wp_save. cbn in Hc |- *.
  set (c' := mkTroveChange _ _ _ _ _ _ _ _ _ _ _ _ _ _ _).
  destruct Hs as (Hn & Hcc & (Hrec & Hempty & Hst) & Hcur).
  assert (tc_id c = pretty k) as Hid by (by apply Hst).
  assert (forall id, headers (chainOf (setTable (<[tc_id c := c']> (troveChanges s1)) s1)) id =
    headers (chainOf s1) id) as Hh.
  { intros id. unfold headers; cbn. rewrite Hid. destruct (decide (id = pretty k)) as [->|].
    - by rewrite lookup_insert_eq, Hc.
    - by rewrite lookup_insert_ne. }
  split_and!; [done | done | | done]. split_and!.
  - intros i. setoid_rewrite Hh. apply Hrec.
  - intros i. setoid_rewrite Hh. apply Hempty.
  - intros id t. cbn. rewrite lookup_insert_Some. intros [[<- <-]|[_ Ht]]; [done | by apply Hst].
Qed.

Section handlers.
Context (erc20_name erc20_symbol : string -> result string).

Lemma tmp_frame v : frames chainOf (swapTmpDepositUpdate v).
Proof. frame. Qed.

(** A handler records at most two changes. *)
Lemma handle_chain e n s :
  settled n (chainOf s) -> n + 1 < maxChanges ->
  wp (handle erc20_name erc20_symbol e) (fun _ s' => within 2 n (chainOf s')) s.
Proof.
  intros Hs Hmax. destruct e as [event params].
  assert (forall j (m : M unit), j <= 2 -> wp m (fun _ s' => within j n (chainOf s')) s ->
    wp m (fun _ s' => within 2 n (chainOf s')) s) as Hweak.
  { intros j m Hj Hm. eapply wp_mono; [exact Hm|]. intros ? s' (k & Hk & ?). exists k. split; [lia | done]. }
  assert (forall m : M unit, frames chainOf m -> wp m (fun _ s' => within 2 n (chainOf s')) s) as Hframe.
  { intros m Hm. apply (frames_wp chainOf m (within 2 n)); [done | by apply within_here]. }
  destruct params; cbn.
  - apply (Hweak 1); [lia|]. by apply updateTrove_chain; [|lia].
  - apply wp_bind. eapply wp_mono; [by apply setBorrowingFee_chain|]. intros ? s' Hs'. cbn beta in Hs'.
    apply (frames_wp chainOf _ (within 2 n)); [frame | by apply within_here].
  - apply (Hweak 1); [lia|]. by apply updateUserClaimColl_chain; [|lia].
  - apply (Hweak 1); [lia|]. by apply updateStake_chain; [|lia].
  - apply (Hweak 1); [lia|]. by apply withdrawStakeGains_chain; [|lia].
  - apply (Hweak 1); [lia|]. by apply updatePrice_chain; [|lia].
  - apply (Hweak 1); [lia|]. unfold handleUserDepositChanged. apply skip; [frame|].
    intros o s' Heq. rewrite <- Heq in Hs. destruct o.
    + by apply updateStabilityDeposit_chain; [|lia].
    + apply wp_ret, within_here; [lia | done].
  - unfold handleETHGainWithdrawn. apply skip; [frame|]. intros o s' Heq. rewrite <- Heq in Hs.
    clear Hweak Hframe. apply wp_bind.
    eapply wp_mono; [by apply (withdrawGain_chain _ _ _ _ n); [|lia]|]. intros ? s2 (k & Hk & Hs2).
    destruct o; [|apply wp_ret; exists k; split; [lia | done]].
    eapply wp_mono; [by apply (updateStabilityDeposit_chain _ _ _ k); [|lia]|].
    intros ? s3 (k' & Hk' & Hs3). exists k'. split; [lia | done].
  - apply Hframe. frame.
  - apply Hframe. frame.
  - apply Hframe. frame.
  - apply Hframe. frame.
  - apply (Hweak 1); [lia|]. by apply updateTrove_chain; [|lia].
  - apply (Hweak 1); [lia|]. unfold handleTroveLiquidated, applyRedistributionToTroveBeforeLiquidation.
    apply skip; [frame|]. intros g s1 H1. apply skip; [frame|]. intros t s2 H2.
    rewrite <- H1, <- H2 in Hs. clear Hweak Hframe H1 H2.
    repeat (apply wp_bind; first [apply wp_required | apply wp_lift]; intros ? _).
    by apply updateTrove_chain; [|lia].
  - apply Hframe. frame.
  - apply Hframe. frame.
  - apply Hframe. frame.
Qed.

Lemma run_chain events n s :
  settled n (chainOf s) -> n + 2 * Z.of_nat (List.length events) < maxChanges ->
  wp (run erc20_name erc20_symbol events)
    (fun _ s' => exists m, n <= m /\ settled m (chainOf s')) s.
Proof.
  revert n s. induction events as [|e events IH]; intros n s Hs Hmax; cbn [List.length] in Hmax.
  - apply wp_ret. exists n. split; [lia | done].
  - simpl. apply wp_bind. eapply wp_mono; [apply (handle_chain e n); [done | lia]|].
    intros ? s' (k & Hk & Hs'). eapply wp_mono; [apply (IH k); [done | lia]|].
    intros ? s'' (m & Hm & ?). exists m. split; [lia | done].
Qed.

Lemma emptyStore_settled : settled 0 (chainOf emptyStore).
Proof.
  split_and!; [done | done | | by right]. split_and!.
  - intros i Hi. lia.
  - intros i _. unfold headers; cbn. by rewrite !lookup_empty.
  - intros id t. cbn. by rewrite lookup_empty.
Qed.

(** C5. Whatever the events (fewer than a billion of them), the changes recorded are numbered
    from zero without a gap, each is of exactly one kind, and change [i] leads from system state
    [i] to system state [i + 1]; the current system state is the one the last change led to,
    and exactly one more state than changes has been numbered. *)
Theorem changes_form_a_chain events s :
  Z.of_nat (List.length events) < 1000000000 ->
  run erc20_name erc20_symbol events emptyStore = Ok (tt, s) ->
  let n := counter (globalOf s) changeCount in
  0 <= n /\
  (forall i, 0 <= i < n -> exists h, headers (chainOf s) (pretty i) = [h] /\
     ch_sequenceNumber h = i /\ systemStateBefore h = pretty i /\
     systemStateAfter h = Some (pretty (i + 1))) /\
  (forall i, n <= i -> headers (chainOf s) (pretty i) = []) /\
  (0 < n -> currentSystemState (globalOf s) = Some (pretty n) /\
            counter (globalOf s) systemStateCount = n + 1 /\
            is_Some (systemStates s !! (pretty n : string))).
Proof.
  intros Hlen Hrun n.
  destruct (wp_run _ _ _ _ _ (run_chain events 0 emptyStore emptyStore_settled ltac:(unfold maxChanges; lia)) Hrun)
    as (m & _ & Hm & Hcc & (Hrec & Hempty & _) & Hcur).
  assert (n = m) as -> by done. split_and!; [done | exact Hrec | exact Hempty |].
  intros Hpos. destruct Hcur as [(Hsc & Hk & st & Hst & _)|(-> & _)]; [|lia].
  split_and!; [done | done | by eexists].
Qed.
End handlers.
End changes.

(** ** An instance *)

(** Two Troves that are opened, after a price. *)
Definition sampleOpenings : list (Event * EventParams) :=
  let e := mkEvent "0x7" "0xabc" "0x1" 1 1 in
  [(e, LastGoodPriceUpdated 200000000000000000000);
   (e, BorrowerTroveUpdated "0x1" 1000000000000000000 105000000000000000000 1000000000000000000 0);
   (e, BorrowerTroveUpdated "0x2" 2000000000000000000 205000000000000000000 2000000000000000000 0)].

Definition noName (a : string) : result string := Err Trap.

Definition afterOpenings : Store (BD := QBD) :=
  stateAfter (emptyStore (BD := QBD)) (run (BD := QBD) noName noName sampleOpenings (emptyStore (BD := QBD))).

Lemma changes_form_a_chain_witness :
  counter (globalOf afterOpenings) changeCount = 2 /\
  currentSystemState (globalOf afterOpenings) = Some (pretty 2).
Proof.
  assert (counter (globalOf afterOpenings) changeCount = 2) as E by (vm_compute; reflexivity).
  destruct (changes_form_a_chain (BD := QBD) noName noName sampleOpenings afterOpenings)
    as (_ & _ & _ & H); [reflexivity | apply stateAfter_ok; vm_compute; reflexivity |].
  rewrite E in H. split; [exact E|]. by apply H.
Defined.
