(* ===== verification/GraphTroves.v ===== *)
(** * The subgraph: Trove counters

    The counters of [entities/Global.ts] against the statuses of the Troves that
    [entities/Trove.ts] saves. *)

From S2P Require Import Prelude JsString GraphStore GraphEntities GraphMappings GraphLogic.
From stdpp Require Import pretty fin_maps.
From Stdlib Require Import Ascii String.

Local Open Scope string_scope.
Local Open Scope Z_scope.

#[local] Arguments i32 : simpl never.

Section troves.
Context `{BD : BigDecimal}.

(** The number of saved Troves with a status. *)
Definition withStatus (st : string) (m : gmap string TroveEntity) : Z :=
  map_fold (fun _ t acc => (if String.eqb (t_status t) st then 1 else 0) + acc) 0 m.

Definition isStatus (st : string) (t : TroveEntity) : Z :=
  if String.eqb (t_status t) st then 1 else 0.

Lemma withStatus_insert st m id t :
  withStatus st (<[id := t]> m) =
  isStatus st t - match m !! id with Some t' => isStatus st t' | None => 0 end + withStatus st m.
Proof.
  assert (forall m id t, m !! id = None ->
    withStatus st (<[id := t]> m) = isStatus st t + withStatus st m) as Hnew.
  { intros m' id' t' Hn. unfold withStatus. by rewrite map_fold_insert_L; [|intros; lia|]. }
  destruct (m !! id) as [t'|] eqn:Hid.
  - rewrite <- (insert_delete_id m id t' Hid) at 2. rewrite <- insert_delete_eq.
    rewrite !Hnew by apply lookup_delete_eq. lia.
  - rewrite Hnew by done. lia.
Qed.

(** The part of the store that the claim is about. *)
Record Tally := mkTally {
  y_troves : gmap string TroveEntity;
  y_open : Z; y_liquidated : Z; y_redeemed : Z; y_byOwner : Z; y_total : Z
}.

Definition tallyOf (s : Store) : Tally :=
  mkTally (troves s) (counter (globalOf s) numberOfOpenTroves)
    (counter (globalOf s) numberOfLiquidatedTroves) (counter (globalOf s) numberOfRedeemedTroves)
    (counter (globalOf s) numberOfTrovesClosedByOwner) (counter (globalOf s) totalNumberOfTroves).

Definition statuses : list string :=
  ["open"; "closedByOwner"; "closedByLiquidation"; "closedByRedemption"].

(** The counter of a status. *)
Definition tracked (st : string) (y : Tally) : Z :=
  if String.eqb st "open" then y_open y
  else if String.eqb st "closedByLiquidation" then y_liquidated y
  else if String.eqb st "closedByRedemption" then y_redeemed y
  else y_byOwner y.

(** The counters, as [i32]s, up to [o] Troves counted as open and not saved yet. *)
Record counts (o : Z) (y : Tally) : Prop := {
  c_status : forall st, st ∈ statuses ->
    tracked st y = i32 (withStatus st (y_troves y) + if String.eqb st "open" then o else 0);
  c_total : y_total y = i32 (Z.of_nat (size (y_troves y)) + o);
  c_stored : forall id t, y_troves y !! id = Some t -> t_id t = id /\ t_status t ∈ statuses;
  c_closed : forall id t, y_troves y !! id = Some t -> t_status t <> "open" ->
    t_collateral t = decimalize 0 /\ t_debt t = decimalize 0
}.

Lemma i32_add z d : i32 (i32 z + d) = i32 (z + d).
Proof.
  unfold i32. f_equal.
  replace ((z + 2 ^ 31) mod 2 ^ 32 - 2 ^ 31 + d + 2 ^ 31) with ((z + 2 ^ 31) mod 2 ^ 32 + d) by lia.
  rewrite Zplus_mod_idemp_l. f_equal. lia.
Qed.

Lemma i32_sub z d : i32 (i32 z - d) = i32 (z - d).
Proof. apply (i32_add z (- d)). Qed.

Lemma getUser_tally a : frames tallyOf (getUser a).
Proof. frame. Qed.

(** *** Creation *)

(** [getTrove] finds the saved Trove, or counts a new open one that is not saved yet. *)
Lemma getTrove_spec b s :
  counts 0 (tallyOf s) ->
  wp (getTrove b) (fun t s' => troves s' = troves s /\ t_id t = b /\
    match troves s !! b with
    | Some t' => t = t' /\ counts 0 (tallyOf s')
    | None => t_status t = "open" /\ t_collateral t = DECIMAL_ZERO /\ t_debt t = DECIMAL_ZERO /\
              rawStake t = None /\ counts 1 (tallyOf s')
    end) s.
Proof.
  intros Hc. unfold getTrove. apply wp_bind, wp_load. cbn [table TroveEntity_type].
  destruct (troves s !! b) as [t|] eqn:Hb.
  - apply wp_ret. split_and!; [done | by apply (c_stored _ _ Hc) | done | done].
  - apply wp_bind. eapply wp_mono; [by apply getUser_tally|]. cbn beta.
    intros u s1 H1. rewrite <- H1 in Hc. assert (troves s1 = troves s) as Ht by (by injection H1).
    clear H1. apply wp_bind, wp_updateGlobal, wp_bind, wp_save, wp_ret. cbn.
    split_and!; [done | done | done | done | done | done |].
    destruct Hc as [H1 H5 H6 H7]. constructor; [| |done..].
    + intros st Hst. specialize (H1 st Hst). unfold tracked in *; cbn in *.
      destruct (String.eqb st "open"); [|exact H1]. by rewrite H1, Z.add_0_r, i32_add.
    + cbn in *. by rewrite H5, Z.add_0_r, i32_add.
Qed.

(** *** Changes of status *)

Definition one (b : bool) : Z := if b then 1 else 0.

Lemma setTroveStatus_spec before after s :
  before ∈ statuses -> after ∈ statuses -> before = "open" \/ after = "open" ->
  wp (setTroveStatus before after) (fun _ s' => troves s' = troves s /\
    y_total (tallyOf s') = y_total (tallyOf s) /\
    forall st x, st ∈ statuses -> tracked st (tallyOf s) = i32 x ->
      tracked st (tallyOf s') = i32 (x + one (String.eqb after st) - one (String.eqb before st))) s.
Proof.
  unfold statuses. intros Hbefore Hafter Hor. rewrite !elem_of_cons, elem_of_nil in Hbefore, Hafter.
  destruct Hbefore as [->|[->|[->|[->|[]]]]], Hafter as [->|[->|[->|[->|[]]]]];
    (destruct Hor as [Hor|Hor]; try discriminate Hor); unfold setTroveStatus; cbn [negb String.eqb Ascii.eqb Bool.eqb andb];
    first [apply wp_ret | apply wp_updateGlobal]; (split; [done|]; split; [done|]);
    intros st x Hst; rewrite !elem_of_cons, elem_of_nil in Hst;
    destruct Hst as [->|[->|[->|[->|[]]]]]; unfold tracked, one, tallyOf, globalOf; cbn; intros Hx; rewrite ?Hx;
    rewrite ?i32_add, ?i32_sub; try done; f_equal; ring.
Qed.

(** A Trove counted with status [before] (saved, or created just now) is saved with
    status [after]. *)
Lemma saveTrove_spec t t' before after o s :
  counts o (tallyOf s) -> before ∈ statuses -> after ∈ statuses ->
  before = "open" \/ after = "open" -> t_id t' = t -> t_status t' = after ->
  (after <> "open" -> t_collateral t' = decimalize 0 /\ t_debt t' = decimalize 0) ->
  match troves s !! t with
  | Some t0 => t_status t0 = before /\ o = 0
  | None => before = "open" /\ o = 1
  end ->
  wp (setTroveStatus before after ;; save t') (fun _ s' => counts 0 (tallyOf s')) s.
Proof.
  intros [H1 H2 H3 H4] Hbefore Hafter Hor Hid Hst Hclosed Hprev. apply wp_bind.
  eapply wp_mono; [by apply setTroveStatus_spec|]. intros ? s' (Ht & Htot & Hcount).
  apply wp_save. cbn [entityId table setTable TroveEntity_type]. rewrite Hid, Ht.
  assert (forall st, withStatus st (<[t := t']> (troves s)) = withStatus st (troves s) +
      one (String.eqb after st) - one (String.eqb before st) + (if String.eqb st "open" then o else 0)) as Hws.
  { intros st. rewrite withStatus_insert. unfold isStatus, one. rewrite Hst.
    destruct (troves s !! t) as [t0|]; destruct Hprev as [Hb ->]; cbn beta iota.
    - rewrite Hb. destruct (String.eqb st "open"); lia.
    - rewrite Hb, (String.eqb_sym "open" st). destruct (String.eqb st "open"); lia. }
  constructor; cbn.
  - intros st Hin. rewrite Hws. specialize (Hcount st _ Hin (H1 st Hin)). cbn in Hcount.
    change (tracked st (tallyOf s') = i32 (withStatus st (troves s) + one (String.eqb after st)
      - one (String.eqb before st) + (if String.eqb st "open" then o else 0)
      + (if String.eqb st "open" then 0 else 0))).
    rewrite Hcount. f_equal. destruct (String.eqb st "open"); ring.
  - change (y_total (tallyOf s') = i32 (Z.of_nat (size (<[t := t']> (troves s))) + 0)).
    rewrite Htot, H2. change (y_troves (tallyOf s)) with (troves s). f_equal.
    destruct (troves s !! t) as [t0|] eqn:Hts; destruct Hprev as [_ ->].
    + rewrite map_size_insert_Some by eauto. ring.
    + rewrite map_size_insert_None by done. lia.
  - intros id x [[<- <-]|[_ ?]]%lookup_insert_Some; [by rewrite Hst | by apply H3].
  - intros id x [[<- <-]|[_ Hx]]%lookup_insert_Some; [by rewrite Hst | by apply (H4 id x Hx)].
Qed.

(** *** Handlers *)

(** What graph-ts documents of decimals: equality is reflexive, and no integer but zero is
    scaled to zero. *)
Class BigDecimalLaws : Prop := {
  bd_eqb_refl x : bd_eqb x x = true;
  decimalize_nonzero z : z <> 0 -> bd_eqb (decimalize z) DECIMAL_ZERO = false
}.

Context `{BDL : BigDecimalLaws}.

(** What the contracts guarantee of a [TroveUpdated] event: only a Trove that exists is
    closed, and then without debt. *)
Definition closesExisting (s : Store) (b : string) (coll debt : Z) : Prop :=
  coll = 0 -> debt = 0 /\ is_Some (troves s !! b).

Lemma statusAfter_statuses op c : statusAfter op c ∈ statuses.
Proof. unfold statusAfter, statuses. destruct (_ =? _), (isLiquidation op), (isRedemption op); set_solver. Qed.

Lemma statusAfter_open op c : c <> 0 -> statusAfter op c = "open".
Proof. intros. unfold statusAfter, BIGINT_ZERO. by destruct (Z.eqb_spec c 0). Qed.

Lemma updatedTrove_fields t g st c d k t' :
  updatedTrove t g st c d k = Ok t' ->
  t_id t' = t_id t /\ t_status t' = st /\ t_collateral t' = decimalize c /\ t_debt t' = decimalize d.
Proof.
  unfold updatedTrove. destruct (negb _); intros H; [apply bind_Ok in H as (q & _ & H)|];
    by injection H as <-.
Qed.

Lemma skip_tally {A B} (m : M A) (k : A -> M B) Q s :
  frames tallyOf m -> (forall a s', tallyOf s' = tallyOf s -> wp (k a) Q s') -> wp (m ≫= k) Q s.
Proof using. intros Hm Hk. apply wp_bind. eapply wp_mono; [apply Hm|]. auto. Qed.

Lemma updateTrove_counts event op b c d k s :
  counts 0 (tallyOf s) -> closesExisting s b c d ->
  wp (updateTrove event op b c d k) (fun _ s' => counts 0 (tallyOf s')) s.
Proof using BDL.
  intros Hc Hclose. unfold closesExisting in Hclose. unfold updateTrove.
  apply wp_bind, wp_getGlobal, wp_bind.
  eapply wp_mono; [by apply getTrove_spec|]. intros t s1 (Ht & Hid & Hcase).
  destruct (_ && _) eqn:Hsame.
  { apply wp_ret. destruct (troves s !! b) as [t0|]; [by destruct Hcase|].
    destruct Hcase as (_ & Hcoll & _). apply andb_true_iff in Hsame as [Hsame _]. rewrite Hcoll in Hsame.
    destruct (Z.eq_dec c 0) as [->|Hnz]; [|by rewrite decimalize_nonzero in Hsame].
    destruct (Hclose eq_refl) as [_ [x ?]]. done. }
  unfold createTroveChange.
  do 6 (apply skip_tally; [frame|]; intros ? ? ?). do 2 (apply skip_tally; [frame|]; intros ? ? ?).
  apply wp_bind, wp_lift. intros t' Hupd. apply updatedTrove_fields in Hupd as (Hid' & Hst' & Hc' & Hd').
  match goal with |- wp _ _ ?s9 => assert (tallyOf s9 = tallyOf s1) as Heq by congruence; generalize dependent s9 end.
  clear - Hcase Hc Ht Hid Hid' Hst' Hc' Hd' Hclose Hsame BDL. intros s2 _ Heq.
  assert (troves s2 = troves s) as Ht2 by (rewrite <- Ht; exact (f_equal y_troves Heq)).
  assert (t_status t ∈ statuses) as Hbefore.
  { destruct (troves s !! b) as [t0|] eqn:Hb.
    - destruct Hcase as [-> _]. by apply (c_stored _ _ Hc b).
    - destruct Hcase as [-> _]. unfold statuses. set_solver. }
  apply (saveTrove_spec b t' _ _ (match troves s !! b with Some _ => 0 | None => 1 end)).
  - rewrite Heq. destruct (troves s !! b); [by apply Hcase | by apply Hcase].
  - done.
  - apply statusAfter_statuses.
  - destruct (Z.eq_dec c 0) as [->|Hnz]; [left | right; by apply statusAfter_open].
    destruct (Hclose eq_refl) as [-> [t0 Hb]]. rewrite Hb in Hcase. destruct Hcase as [-> _].
    destruct (decide (t_status t0 = "open")) as [|Hno]; [done|].
    destruct (c_closed _ _ Hc b t0 Hb Hno) as [Hc0 Hd0].
    by rewrite Hc0, Hd0, !bd_eqb_refl in Hsame.
  - congruence.
  - done.
  - intros Hno. destruct (Z.eq_dec c 0) as [->|Hnz].
    + destruct (Hclose eq_refl) as [-> _]. done.
    + destruct Hno. by apply statusAfter_open.
  - rewrite Ht2. destruct (troves s !! b); [by destruct Hcase as [-> _] | by destruct Hcase as [-> _]].
Qed.

(** What the contracts guarantee of a [TroveLiquidated] event: the Trove has collateral, and
    the redistributed total has not decreased since its snapshot. *)
Definition liquidatesActive (s : Store) (b : string) : Prop :=
  forall t c k snapshot, troves s !! b = Some t ->
    rawCollateral t = Some c -> rawStake t = Some k ->
    rawSnapshotOfTotalRedistributedCollateral t = Some snapshot ->
    0 < c /\ 0 <= k /\ snapshot <= rawTotalRedistributedCollateral (globalOf s).

Lemma liquidated_counts event b s :
  counts 0 (tallyOf s) -> liquidatesActive s b ->
  wp (applyRedistributionToTroveBeforeLiquidation event b) (fun _ s' => counts 0 (tallyOf s')) s.
Proof using BDL.
  intros Hc Hactive. unfold applyRedistributionToTroveBeforeLiquidation.
  apply wp_bind, wp_getGlobal, wp_bind. eapply wp_mono; [by apply getTrove_spec|].
  intros t s1 (Ht & Hid & Hcase).
  apply wp_bind, wp_required. intros snap Hsnap. apply wp_bind, wp_required. intros k Hk.
  apply wp_bind, wp_lift. intros rc Hrc. apply wp_bind, wp_required. intros snapd _.
  apply wp_bind, wp_lift. intros rd _. apply wp_bind, wp_required. intros c Hcoll.
  apply wp_bind, wp_required. intros d _.
  destruct (troves s !! b) as [t0|] eqn:Hb.
  - destruct Hcase as [-> Hc1]. destruct (Hactive t0 c k snap Hb Hcoll Hk Hsnap) as (Hpos & Hk0 & Hsnap0).
    apply updateTrove_counts; [done|]. intros Hzero. exfalso.
    injection Hrc as <-. change BIGINT_SCALING_FACTOR with 1000000000000000000 in Hzero.
    pose proof (Z.quot_pos ((rawTotalRedistributedCollateral (globalOf s) - snap) * k)
      1000000000000000000 ltac:(nia) ltac:(lia)). lia.
  - destruct Hcase as (_ & _ & _ & Hnone & _). congruence.
Qed.

Context (erc20_name erc20_symbol : string -> result string).

(** What the contracts guarantee of an event, at the store where it is handled. *)
Definition plausible (s : Store) (e : Event * EventParams) : Prop :=
  match e.2 with
  | BorrowerTroveUpdated b c d _ _ | ManagerTroveUpdated b c d _ _ => closesExisting s b c d
  | TroveLiquidated b => liquidatesActive s b
  | _ => True
  end.

(** Every event of a run is plausible where it is handled. *)
Fixpoint plausibleRun (s : Store) (events : list (Event * EventParams)) : Prop :=
  match events with
  | [] => True
  | e :: events => plausible s e /\
      forall s', handle erc20_name erc20_symbol e s = Ok (tt, s') -> plausibleRun s' events
  end.

Lemma handle_counts e s :
  counts 0 (tallyOf s) -> plausible s e ->
  wp (handle erc20_name erc20_symbol e) (fun _ s' => counts 0 (tallyOf s')) s.
Proof using BDL.
  intros Hc Hp. destruct e as [event params].
  assert (forall m : M unit, frames tallyOf m -> wp m (fun _ s' => counts 0 (tallyOf s')) s) as Hframe.
  { intros m Hm. by apply (frames_wp tallyOf m (counts 0)). }
  destruct params; cbn in Hp |- *;
    first [by apply updateTrove_counts | by apply liquidated_counts | apply Hframe; frame; fail].
Qed.

Lemma run_counts events s :
  counts 0 (tallyOf s) -> plausibleRun s events ->
  wp (run erc20_name erc20_symbol events) (fun _ s' => counts 0 (tallyOf s')) s.
Proof using BDL.
  revert s. induction events as [|e events IH]; intros s Hc Hp; [done|]. cbn [run plausibleRun] in *.
  destruct Hp as [He Hes]. pose proof (handle_counts e s Hc He) as Hwp. apply wp_bind. unfold wp in Hwp |- * at 1.
  destruct (handle erc20_name erc20_symbol e s) as [[[] s']|]; [|done]. by apply IH; [|apply Hes].
Qed.

Lemma emptyStore_counts : counts 0 (tallyOf emptyStore).
Proof using.
  constructor; cbn.
  - intros st Hst. unfold tracked; cbn. destruct (String.eqb st "open"), (String.eqb st "closedByLiquidation"),
      (String.eqb st "closedByRedemption"); done.
  - done.
  - intros id t. by rewrite lookup_empty.
  - intros id t. by rewrite lookup_empty.
Qed.

(** C3. For every sequence of events as the contracts emit them, the counters of the Global
    entity are those of the Troves that are saved: open, closed by liquidation, by
    redemption and by their owner, and in total (as 32-bit integers); and a closed Trove has
    neither collateral nor debt. *)
Theorem trove_counters_exact events s :
  plausibleRun emptyStore events ->
  run erc20_name erc20_symbol events emptyStore = Ok (tt, s) ->
  let g := globalOf s in
  counter g numberOfOpenTroves = i32 (withStatus "open" (troves s)) /\
  counter g numberOfLiquidatedTroves = i32 (withStatus "closedByLiquidation" (troves s)) /\
  counter g numberOfRedeemedTroves = i32 (withStatus "closedByRedemption" (troves s)) /\
  counter g numberOfTrovesClosedByOwner = i32 (withStatus "closedByOwner" (troves s)) /\
  counter g totalNumberOfTroves = i32 (Z.of_nat (size (troves s))) /\
  forall id t, troves s !! id = Some t -> t_status t <> "open" ->
    t_collateral t = decimalize 0 /\ t_debt t = decimalize 0.
Proof using BDL.
  intros Hp Hrun g. destruct (wp_run _ _ _ _ _ (run_counts events _ emptyStore_counts Hp) Hrun) as [Hs Ht _ Hcl].
  assert (forall st, st ∈ statuses -> tracked st (tallyOf s) =
    i32 (withStatus st (troves s) + (if String.eqb st "open" then 0 else 0))) as Hst by exact Hs.
  split_and!; [..| |exact Hcl].
  - change (counter g numberOfOpenTroves) with (tracked "open" (tallyOf s)).
    rewrite Hst by (unfold statuses; set_solver). f_equal. cbn; lia.
  - change (counter g numberOfLiquidatedTroves) with (tracked "closedByLiquidation" (tallyOf s)).
    rewrite Hst by (unfold statuses; set_solver). f_equal. cbn; lia.
  - change (counter g numberOfRedeemedTroves) with (tracked "closedByRedemption" (tallyOf s)).
    rewrite Hst by (unfold statuses; set_solver). f_equal. cbn; lia.
  - change (counter g numberOfTrovesClosedByOwner) with (tracked "closedByOwner" (tallyOf s)).
    rewrite Hst by (unfold statuses; set_solver). f_equal. cbn; lia.
  - change (counter g totalNumberOfTroves) with (y_total (tallyOf s)). rewrite Ht. f_equal. cbn; lia.
Qed.
End troves.

(** ** An instance *)

Definition QBD_laws : BigDecimalLaws (BD := QBD).
Proof.
  split.
  - intros x. apply QArith_base.Qeq_bool_iff, QArith_base.Qeq_refl.
  - intros z Hz. apply not_true_is_false. intros H%QArith_base.Qeq_bool_iff. apply Hz.
    assert (DECIMAL_SCALING_FACTOR (BD := QBD) = QArith_base.Qmake 1000000000000000000 1) as E
      by (vm_compute; reflexivity).
    assert (DECIMAL_ZERO (BD := QBD) = QArith_base.Qmake 0 1) as E0 by (vm_compute; reflexivity).
    unfold decimalize in H. rewrite E, E0 in H. cbn [bd_divDecimal QBD] in H.
    rewrite Qreduction.Qred_correct in H. unfold QArith_base.Qeq in H.
    cbn -[Z.mul Pos.mul] in H. lia.
Defined.

(** A Trove that is opened and closed, and one that stays open. *)
Definition sampleTroveEvents : list (Event * EventParams) :=
  let e := mkEvent "0x7" "0xabc" "0x1" 1 1 in
  [(e, LastGoodPriceUpdated 200000000000000000000);
   (e, BorrowerTroveUpdated "0x1" 1000000000000000000 105000000000000000000 1000000000000000000 0);
   (e, BorrowerTroveUpdated "0x2" 2000000000000000000 205000000000000000000 2000000000000000000 0);
   (e, BorrowerTroveUpdated "0x1" 0 0 0 1)].

Definition noToken (a : string) : result string := Err Trap.

Definition afterTroveEvents : Store (BD := QBD) :=
  stateAfter (emptyStore (BD := QBD)) (run (BD := QBD) noToken noToken sampleTroveEvents (emptyStore (BD := QBD))).

Lemma trove_counters_exact_witness :
  counter (globalOf afterTroveEvents) numberOfOpenTroves = 1 /\
  i32 (withStatus "open" (troves afterTroveEvents)) = 1.
Proof.
  assert (counter (globalOf afterTroveEvents) numberOfOpenTroves = 1) as H by (vm_compute; reflexivity).
  split; [exact H|]. rewrite <-H. symmetry.
  refine (proj1 (trove_counters_exact (BD := QBD) (BDL := QBD_laws) noToken noToken sampleTroveEvents
    afterTroveEvents _ _)).
  - repeat (split; [simpl; unfold closesExisting; try (intros E; discriminate E); try exact I |
      intros ? ->%(stateAfter_eq (emptyStore (BD := QBD)))]); [|exact I].
    intros _. split; [reflexivity|]. apply (bool_decide_unpack (is_Some _)). vm_compute. exact I.
  - apply stateAfter_ok. vm_compute. reflexivity.
Defined.
