(* ===== verification/GraphDeposits.v ===== *)
(** * The subgraph: pairing the events of a stability deposit

    The Stability Pool emits [UserDepositChanged] and [ETHGainWithdrawn] in one order or the
    other, depending on the operation.  [mappings/StabilityPool.ts] pairs them through
    [tmpDepositUpdate]; the order makes no difference. *)

From S2P Require Import Prelude JsString GraphStore GraphEntities GraphMappings GraphLogic.
From stdpp Require Import pretty.
From Stdlib Require Import Ascii String.

Local Open Scope string_scope.
Local Open Scope Z_scope.

Section deposits.
Context `{BD : BigDecimal}.

(** The store with another pending update. *)
Definition withTmp (v : option Z) (s : Store) : Store :=
  setGlobal (Some (setTmpDepositUpdate v (globalOf s))) s.

(** [m] neither reads nor writes the pending update. *)
Definition blind {A} (m : M A) : Prop :=
  forall v s, m (withTmp v s) = match m s with Ok (a, s') => Ok (a, withTmp v s') | Err e => Err e end.

Lemma blind_bind {A B} (m : M A) (k : A -> M B) : blind m -> (forall a, blind (k a)) -> blind (m ≫= k).
Proof.
  intros Hm Hk v s. unfold mbind, M_bind. rewrite Hm. destruct (m s) as [[a s']|]; [apply Hk | done].
Qed.

Lemma blind_ret {A} (a : A) : blind (mret a).
Proof. done. Qed.

Lemma blind_lift {A} (r : result A) : blind (lift r).
Proof. intros v s. by destruct r. Qed.

Lemma blind_required {A} (o : option A) : blind (required o).
Proof. apply blind_lift. Qed.

Lemma blind_load {E} `{!EntityType E} id :
  (forall v s, table (withTmp v s) = table s) -> blind (load (E := E) id).
Proof. intros H v s. unfold load. by rewrite H. Qed.

Lemma blind_loadOptional {E} `{!EntityType E} o :
  (forall v s, table (withTmp v s) = table s) -> blind (loadOptional (E := E) o).
Proof. intros H. destruct o; [by apply blind_load | apply blind_ret]. Qed.

Lemma blind_save {E} `{!EntityType E} (e : E) :
  (forall v s, table (withTmp v s) = table s) ->
  (forall m v s, setTable m (withTmp v s) = withTmp v (setTable m s)) -> blind (save e).
Proof. intros H1 H2 v s. unfold save. by rewrite H1, H2. Qed.

Lemma blind_getGlobal {A} (k : Global -> M A) :
  (forall v g, k (setTmpDepositUpdate v g) = k g) -> (forall g, blind (k g)) ->
  blind (getGlobal ≫= k).
Proof.
  intros H Hk v s. unfold mbind, M_bind, getGlobal.
  change (default newGlobal (global (withTmp v s))) with (setTmpDepositUpdate v (globalOf s)).
  rewrite H. apply Hk.
Qed.

Lemma blind_updateGlobal f :
  (forall v g, f (setTmpDepositUpdate v g) = setTmpDepositUpdate v (f g)) -> blind (updateGlobal f).
Proof.
  intros H v s. unfold updateGlobal, mbind, M_bind, getGlobal, saveGlobal.
  change (default newGlobal (global (withTmp v s))) with (setTmpDepositUpdate v (globalOf s)).
  by rewrite H.
Qed.

Lemma blind_increaseCounter k : blind (increaseCounter k).
Proof. by intros v s. Qed.
End deposits.

(** Proves [blind m] by following the code of [m]. *)
Ltac blind_step :=
  first
  [ apply blind_ret | apply blind_lift | apply blind_required
  | apply blind_load; reflexivity | apply blind_loadOptional; reflexivity
  | apply blind_save; reflexivity
  | apply blind_updateGlobal; reflexivity | apply blind_increaseCounter
  | apply blind_getGlobal; [reflexivity | intros ?]
  | apply blind_bind; [| intros ?]
  | match goal with
    | |- blind (match ?x with _ => _ end) => destruct x
    | |- blind (if ?x then _ else _) => destruct x
    end
  | progress cbn beta zeta iota
  | progress autounfold with graph_functions ].

Section pairing.
Context `{BD : BigDecimal}.

Lemma withdraw_blind event u g l : blind (withdrawCollateralGainFromStabilityDeposit event u g l).
Proof. repeat blind_step. Qed.

(** What both orders of the events amount to. *)
Definition pairedUpdate (event : Event) (u : string) (newDeposit eth loss : Z) : M unit :=
  withdrawCollateralGainFromStabilityDeposit event u eth loss ;;
  updateStabilityDeposit event u newDeposit.

Lemma paired_tmp event u d g l s :
  wp (pairedUpdate event u d g l) (fun _ s' => tmpDepositUpdate (globalOf s') = None) (withTmp None s).
Proof.
  apply (frames_wp (fun s => tmpDepositUpdate (globalOf s)) _ (fun t => t = None)); [|done].
  unfold pairedUpdate. frame.
Qed.

Lemma withTmp_twice v w s : withTmp v (withTmp w s) = withTmp v s.
Proof. done. Qed.

Lemma swap_None v s : tmpDepositUpdate (globalOf s) = None ->
  swapTmpDepositUpdate v s = Ok (None, withTmp (Some v) s).
Proof.
  intros H. unfold swapTmpDepositUpdate, mbind, M_bind, getGlobal, saveGlobal, mret, M_ret.
  change (default newGlobal (global s)) with (globalOf s). by rewrite H.
Qed.

Lemma swap_Some v w s : tmpDepositUpdate (globalOf s) = Some w ->
  swapTmpDepositUpdate v s = Ok (Some w, withTmp None s).
Proof.
  intros H. unfold swapTmpDepositUpdate, mbind, M_bind, getGlobal, saveGlobal, mret, M_ret.
  change (default newGlobal (global s)) with (globalOf s). by rewrite H.
Qed.

(** When no update is pending, handling [UserDepositChanged] and [ETHGainWithdrawn] of one
    operation has the same effect in either order: the gain is withdrawn first and then the
    deposit is updated to the new amount, and no update is pending afterwards. *)
Theorem deposit_events_commute event u newDeposit eth loss s :
  tmpDepositUpdate (globalOf s) = None ->
  let changed := handleUserDepositChanged event u newDeposit in
  let withdrawn := handleETHGainWithdrawn event u eth loss in
  (changed ;; withdrawn) s = (withdrawn ;; changed) s /\
  (changed ;; withdrawn) s = pairedUpdate event u newDeposit eth loss (withTmp None s) /\
  forall s', (changed ;; withdrawn) s = Ok (tt, s') -> tmpDepositUpdate (globalOf s') = None.
Proof.
  intros Hnone changed withdrawn.
  assert ((changed ;; withdrawn) s = pairedUpdate event u newDeposit eth loss (withTmp None s)) as H1.
  { unfold changed, withdrawn, handleUserDepositChanged, handleETHGainWithdrawn, pairedUpdate, mbind, M_bind.
    rewrite swap_None by done. cbn [mret M_ret].
    by rewrite (swap_Some _ newDeposit) by done. }
  split; [|split; [exact H1|]].
  2: { intros s' Hrun. rewrite H1 in Hrun. exact (wp_run _ _ _ _ _ (paired_tmp _ _ _ _ _ _) Hrun). }
  rewrite H1.
  unfold changed, withdrawn, handleUserDepositChanged, handleETHGainWithdrawn, pairedUpdate, mbind, M_bind.
  rewrite swap_None by done. rewrite !withdraw_blind.
  destruct (withdrawCollateralGainFromStabilityDeposit event u eth loss s) as [[[] s']|e]; [|done].
  cbn [mret M_ret]. by rewrite (swap_Some _ BIGINT_ZERO) by done.
Qed.
End pairing.

(** ** An instance *)

Lemma deposit_events_commute_witness :
  let e := mkEvent "0x7" "0xabc" "0x1" 1 1 in
  let changed := handleUserDepositChanged (BD := QBD) e "0x1" 50 in
  let withdrawn := handleETHGainWithdrawn (BD := QBD) e "0x1" 1 2 in
  (changed ;; withdrawn) (emptyStore (BD := QBD)) = (withdrawn ;; changed) (emptyStore (BD := QBD)).
Proof.
  intros e changed withdrawn.
  destruct (deposit_events_commute (BD := QBD) e "0x1" 50 1 2 (emptyStore (BD := QBD))) as [H _];
    [reflexivity | exact H].
Defined.
