(* ===== verification/Validation.v ===== *)
(** * Validation of changes in the frontend

    [packages/dev-frontend/src/components/Trove/validation/validateTroveChange.tsx] and
    [components/Stability/validation/validateStabilityDepositChange.tsx]: what the frontend
    accepts before it offers to send a transaction.  A description is what the element to show
    says, with the amounts in it; its rendering as JSX is left out. *)

From S2P Require Import Prelude JsString BigNumber Decimal DecimalArith Constants Trove TroveTheory StabilityDeposit.
From Stdlib Require Import Ascii String.

Local Open Scope string_scope.
Local Open Scope Z_scope.

(** ** Troves *)

(** The sentences of [TroveChangeDescription]. *)
Inductive TroveChangeSentence :=
| DepositAndReceive (deposit borrow : Decimal)
| PayAndReceive (repay withdraw : Decimal)
| DepositAndPay (deposit repay : Decimal)
| ReceiveBoth (withdraw borrow : Decimal)
| DepositOnly (deposit : Decimal)
| ReceiveCollateral (withdraw : Decimal)
| ReceiveLUSD (borrow : Decimal)
| Pay (repay : option Decimal).

Inductive TroveDescription :=
| TotalDebtAtLeast (minimum : Decimal)
| MustBorrowAtLeast (minimum : Decimal)
| OpeningBelowCriticalInRecoveryMode
| CollateralRatioAtLeastMinimum
| OpeningWouldTriggerRecoveryMode
| DepositExceedsBalanceBy (excess : Decimal)
| WithdrawalDuringRecoveryMode
| BorrowingBelowCriticalInRecoveryMode
| DecreasingRatioInRecoveryMode
| AdjustmentWouldTriggerRecoveryMode
| RepaymentExceedsBalanceBy (excess : Decimal)
| ClosingLastTrove
| ClosingDuringRecoveryMode
| NeedsMoreToClose (missing : Decimal)
| ClosingWouldTriggerRecoveryMode
| ChangeDescription (sentence : TroveChangeSentence).

(** [selectForTroveChangeValidation] *)
Record TroveSelectedState := mkSelected {
  sel_price : Decimal;
  sel_total : Trove;
  sel_accountBalance : Decimal;
  sel_lusdBalance : Decimal;
  sel_numberOfTroves : Z
}.

Record TroveValidationContext := mkContext {
  selected : TroveSelectedState;
  originalTrove : Trove;
  resultingTrove : Trove;
  recoveryMode : bool;
  wouldTriggerRecoveryMode : bool
}.

Section validate.
Context `{BN : BigNumber}.

(** [params] as the optional properties it is destructured into. *)
Definition describe (depositCollateral withdrawCollateral borrowLUSD repayLUSD : option Decimal) :
    TroveChangeSentence :=
  match depositCollateral, withdrawCollateral, borrowLUSD, repayLUSD with
  | Some d, _, Some b, _ => DepositAndReceive d b
  | _, Some w, _, Some r => PayAndReceive r w
  | Some d, _, _, Some r => DepositAndPay d r
  | _, Some w, Some b, _ => ReceiveBoth w b
  | Some d, _, _, _ => DepositOnly d
  | _, Some w, _, _ => ReceiveCollateral w
  | _, _, Some b, _ => ReceiveLUSD b
  | _, _, _, r => Pay r
  end.

Definition describeChange (change : TroveChange Decimal) : TroveChangeSentence :=
  match change with
  | Creation p => describe (Some (c_depositCollateral p)) None (Some (c_borrowLUSD p)) None
  | Closure p => describe None (Some (x_withdrawCollateral p)) None (x_repayLUSD p)
  | Adjustment p _ =>
      describe (depositCollateral p) (withdrawCollateral p) (borrowLUSD p) (repayLUSD p)
  | InvalidCreation _ _ => Pay None
  end.

Definition validateTroveCreation (params : TroveCreationParams Decimal)
    (context : TroveValidationContext) : result (option TroveDescription) :=
  let price := sel_price (selected context) in
  let accountBalance := sel_accountBalance (selected context) in
  if Decimal.ltD (c_borrowLUSD params) LUSD_MINIMUM_NET_DEBT
  then Ok (Some (MustBorrowAtLeast LUSD_MINIMUM_NET_DEBT))
  else
    let* inMode :=
      if recoveryMode context then
        let* openable := Trove.isOpenableInRecoveryMode (resultingTrove context) price in
        Ok (if negb openable then Some OpeningBelowCriticalInRecoveryMode else None)
      else
        let* below := Trove.collateralRatioIsBelowMinimum (resultingTrove context) price in
        Ok (if below then Some CollateralRatioAtLeastMinimum
            else if wouldTriggerRecoveryMode context then Some OpeningWouldTriggerRecoveryMode
            else None) in
    match inMode with
    | Some description => Ok (Some description)
    | None =>
        if Decimal.gtD (c_depositCollateral params) accountBalance then
          let* excess := Decimal.sub (c_depositCollateral params) accountBalance in
          Ok (Some (DepositExceedsBalanceBy excess))
        else Ok None
    end.

Definition validateTroveAdjustment (params : TroveAdjustmentParams Decimal)
    (context : TroveValidationContext) : result (option TroveDescription) :=
  let price := sel_price (selected context) in
  let accountBalance := sel_accountBalance (selected context) in
  let lusdBalance := sel_lusdBalance (selected context) in
  let* inMode :=
    if recoveryMode context then
      match withdrawCollateral params with
      | Some _ => Ok (Some WithdrawalDuringRecoveryMode)
      | None =>
          match borrowLUSD params with
          | Some _ =>
              let* below := Trove.collateralRatioIsBelowCritical (resultingTrove context) price in
              if below then Ok (Some BorrowingBelowCriticalInRecoveryMode)
              else
                let* new := Trove.collateralRatio (resultingTrove context) price in
                let* old := Trove.collateralRatio (originalTrove context) price in
                Ok (if Decimal.ltD new old then Some DecreasingRatioInRecoveryMode else None)
          | None => Ok None
          end
      end
    else
      let* below := Trove.collateralRatioIsBelowMinimum (resultingTrove context) price in
      Ok (if below then Some CollateralRatioAtLeastMinimum
          else if wouldTriggerRecoveryMode context then Some AdjustmentWouldTriggerRecoveryMode
          else None) in
  match inMode with
  | Some description => Ok (Some description)
  | None =>
      let* repayment :=
        match repayLUSD params with
        | Some repay =>
            if Decimal.ltD (debt (resultingTrove context)) LUSD_MINIMUM_DEBT
            then Ok (Some (TotalDebtAtLeast LUSD_MINIMUM_DEBT))
            else if Decimal.gtD repay lusdBalance then
              let* excess := Decimal.sub repay lusdBalance in
              Ok (Some (RepaymentExceedsBalanceBy excess))
            else Ok None
        | None => Ok None
        end in
      match repayment with
      | Some description => Ok (Some description)
      | None =>
          match depositCollateral params with
          | Some deposit =>
              if Decimal.gtD deposit accountBalance then
                let* excess := Decimal.sub deposit accountBalance in
                Ok (Some (DepositExceedsBalanceBy excess))
              else Ok None
          | None => Ok None
          end
      end
  end.

Definition validateTroveClosure (params : TroveClosureParams Decimal)
    (context : TroveValidationContext) : result (option TroveDescription) :=
  let lusdBalance := sel_lusdBalance (selected context) in
  if sel_numberOfTroves (selected context) =? 1 then Ok (Some ClosingLastTrove)
  else if recoveryMode context then Ok (Some ClosingDuringRecoveryMode)
  else
    let* funds :=
      match x_repayLUSD params with
      | Some repay =>
          if Decimal.gtD repay lusdBalance then
            let* missing := Decimal.sub repay lusdBalance in
            Ok (Some (NeedsMoreToClose missing))
          else Ok None
      | None => Ok None
      end in
    match funds with
    | Some description => Ok (Some description)
    | None =>
        Ok (if wouldTriggerRecoveryMode context then Some ClosingWouldTriggerRecoveryMode else None)
    end.

(** The context in which a change is validated: the change is reapplied, for the exact state
    the Trove will end up in. *)
Definition validationContext (originalTrove : Trove) (change : TroveChange Decimal)
    (borrowingRate : Decimal) (selectedState : TroveSelectedState) : result TroveValidationContext :=
  let total := sel_total selectedState in
  let price := sel_price selectedState in
  let* resultingTrove := Trove.apply originalTrove (Some change) borrowingRate in
  let* recoveryMode := Trove.collateralRatioIsBelowCritical total price in
  let* rest := Trove.subtract total originalTrove in
  let* newTotal := Trove.add rest resultingTrove in
  let* wouldTriggerRecoveryMode := Trove.collateralRatioIsBelowCritical newTotal price in
  Ok (mkContext selectedState originalTrove resultingTrove recoveryMode wouldTriggerRecoveryMode).

Definition validateTroveChange (originalTrove adjustedTrove : Trove) (borrowingRate : Decimal)
    (selectedState : TroveSelectedState) :
    result (option (TroveChange Decimal) * option TroveDescription) :=
  let* change := Trove.whatChanged originalTrove adjustedTrove borrowingRate in
  match change with
  | None => Ok (None, None)
  | Some change =>
      let* context := validationContext originalTrove change borrowingRate selectedState in
      match change with
      | InvalidCreation _ _ => Ok (None, Some (TotalDebtAtLeast LUSD_MINIMUM_DEBT))
      | _ =>
          let* errorDescription :=
            match change with
            | Creation params => validateTroveCreation params context
            | Closure params => validateTroveClosure params context
            | Adjustment params _ => validateTroveAdjustment params context
            | InvalidCreation _ _ => Ok None
            end in
          match errorDescription with
          | Some _ => Ok (None, errorDescription)
          | None => Ok (Some change, Some (ChangeDescription (describeChange change)))
          end
      end
  end.

(** ** Stability deposits *)

Inductive DepositDescription :=
| FrontendsCannotDeposit
| DepositExceedsLUSDBalanceBy (excess : Decimal)
| WithdrawalWithUndercollateralizedTroves
| StabilityActionDescription (originalDeposit : StabilityDeposit)
    (change : StabilityDepositChange Decimal).

(** [selectForStabilityDepositChangeValidation], of which [trove] is not used. *)
Record DepositSelectedState := mkDepositSelected {
  lusdBalance : Decimal;
  haveOwnFrontend : bool;
  haveUndercollateralizedTroves : bool
}.

Definition validateStabilityDepositChange (originalDeposit : StabilityDeposit)
    (editedLUSD : Decimal) (selectedState : DepositSelectedState) :
    result (option (StabilityDepositChange Decimal) * option DepositDescription) :=
  let* change := StabilityDeposit.whatChanged originalDeposit editedLUSD in
  if haveOwnFrontend selectedState then Ok (None, Some FrontendsCannotDeposit)
  else
    match change with
    | None => Ok (None, None)
    | Some change =>
        let* exceeding :=
          match change with
          | DepositLUSD d =>
              if Decimal.gtD d (lusdBalance selectedState) then
                let* excess := Decimal.sub d (lusdBalance selectedState) in
                Ok (Some (DepositExceedsLUSDBalanceBy excess))
              else Ok None
          | WithdrawLUSD _ _ => Ok None
          end in
        match exceeding, change with
        | Some description, _ => Ok (None, Some description)
        | None, WithdrawLUSD _ _ =>
            if haveUndercollateralizedTroves selectedState
            then Ok (None, Some WithdrawalWithUndercollateralizedTroves)
            else Ok (Some change, Some (StabilityActionDescription originalDeposit change))
        | None, DepositLUSD _ =>
            Ok (Some change, Some (StabilityActionDescription originalDeposit change))
        end
    end.
End validate.

(** ** What is accepted *)

Section theorems.
Context `{BNL : BigNumberLaws}.
Implicit Types t : Trove.

(** The totals when a Trove is replaced by another. *)
Definition totalAfter (total old new : Trove) : Trove :=
  mkTrove (dec (Z.max 0 (big (collateral total) - big (collateral old)) + big (collateral new)))
    (dec (Z.max 0 (big (debt total) - big (debt old)) + big (debt new))).

(** What the form requires of a change, as ratios and amounts: [Offers] says what it is good for,
    and [BorrowingAgreement] compares it with what the contracts require. *)
Definition acceptable (sel : TroveSelectedState) (old new : Trove) (change : TroveChange Decimal) : Prop :=
  let price := sel_price sel in
  let recovery := ratio (sel_total sel) price < big CRITICAL_COLLATERAL_RATIO in
  let newTCR := ratio (totalAfter (sel_total sel) old new) price in
  let normalMode := ~ recovery ->
    big MINIMUM_COLLATERAL_RATIO <= ratio new price /\ big CRITICAL_COLLATERAL_RATIO <= newTCR in
  match change with
  | Creation p =>
      big LUSD_MINIMUM_NET_DEBT <= big (c_borrowLUSD p) /\
      (recovery -> big CRITICAL_COLLATERAL_RATIO <= ratio new price) /\ normalMode /\
      big (c_depositCollateral p) <= big (sel_accountBalance sel)
  | Adjustment p _ =>
      (recovery -> withdrawCollateral p = None /\
         (borrowLUSD p <> None ->
            big CRITICAL_COLLATERAL_RATIO <= ratio new price /\ ratio old price <= ratio new price)) /\
      normalMode /\
      (forall r, repayLUSD p = Some r ->
         big LUSD_MINIMUM_DEBT <= big (debt new) /\ big r <= big (sel_lusdBalance sel)) /\
      (forall d, depositCollateral p = Some d -> big d <= big (sel_accountBalance sel))
  | Closure p =>
      sel_numberOfTroves sel <> 1 /\ ~ recovery /\ big CRITICAL_COLLATERAL_RATIO <= newTCR /\
      (forall r, x_repayLUSD p = Some r -> big r <= big (sel_lusdBalance sel))
  | InvalidCreation _ _ => False
  end.

Lemma validationContextE old change (rate : Decimal) (sel : TroveSelectedState) new :
  Trove.apply old (Some change) rate = Ok new ->
  validationContext old change rate sel =
  Ok (mkContext sel old new
        (ratio (sel_total sel) (sel_price sel) <? big CRITICAL_COLLATERAL_RATIO)
        (ratio (totalAfter (sel_total sel) old new) (sel_price sel) <? big CRITICAL_COLLATERAL_RATIO)).
Proof.
  intros H. unfold validationContext. rewrite H. cbn [bind]. rewrite belowCriticalE. cbn [bind].
  rewrite subtract_troveE. cbn [bind]. rewrite add_troveE. cbn [bind].
  rewrite belowCriticalE. cbn [bind collateral debt]. rewrite !big_dec by lia. done.
Qed.

(** An error is reported exactly when the requirements are not met. *)
Definition decides (r : result (option TroveDescription)) (P : Prop) : Prop :=
  exists o, r = Ok o /\ (o = None <-> P).

(** Case analysis on the integer and option tests of a validation, and the comparison of its
    outcome with the requirements. *)
Ltac decide_cases :=
  repeat match goal with
  | |- context [if Z.ltb ?a ?b then _ else _] => destruct (Z.ltb_spec a b); cbn [bind negb]
  | |- context [if negb (Z.leb ?a ?b) then _ else _] => destruct (Z.leb_spec a b); cbn [bind negb]
  | |- context [match ?o with Some _ => _ | None => _ end] =>
      lazymatch type of o with option Decimal => destruct o eqn:?; cbn [bind] end
  | |- context [Decimal.sub ?a ?b] => rewrite subE by lia; cbn [bind]
  end;
  eexists; (split; [reflexivity|]); split; intros ?;
  try done; try (repeat split; intros; simplify_eq; first [done | lia | congruence]);
  exfalso; destruct_and?;
  repeat match goal with
  | H : _ /\ _ |- _ => destruct H
  | H : forall r, Some ?x = Some r -> _ |- _ => specialize (H x eq_refl)
  | H : Some ?x <> None -> ?Q |- _ => assert Q by (apply H; discriminate); clear H
  | H : ?P -> _, H' : ?P |- _ => lazymatch type of P with Prop => specialize (H H') end
  | H : ~ ?a < ?b -> _ |- _ => specialize (H ltac:(lia))
  end; first [lia | congruence].

Lemma creation_decides p old new (sel : TroveSelectedState) :
  let price := sel_price sel in
  decides (validateTroveCreation p
      (mkContext sel old new (ratio (sel_total sel) price <? big CRITICAL_COLLATERAL_RATIO)
         (ratio (totalAfter (sel_total sel) old new) price <? big CRITICAL_COLLATERAL_RATIO)))
    (acceptable sel old new (Creation p)).
Proof.
  unfold decides, validateTroveCreation, acceptable; cbn [selected resultingTrove recoveryMode wouldTriggerRecoveryMode].
  rewrite ltDE, gtDE, openableE, belowMinimumE. cbn [bind].
  decide_cases.
Qed.

Lemma closure_decides p old new (sel : TroveSelectedState) :
  let price := sel_price sel in
  decides (validateTroveClosure p
      (mkContext sel old new (ratio (sel_total sel) price <? big CRITICAL_COLLATERAL_RATIO)
         (ratio (totalAfter (sel_total sel) old new) price <? big CRITICAL_COLLATERAL_RATIO)))
    (acceptable sel old new (Closure p)).
Proof.
  unfold decides, validateTroveClosure, acceptable; cbn [selected resultingTrove recoveryMode wouldTriggerRecoveryMode].
  destruct (Z.eqb_spec (sel_numberOfTroves sel) 1); [eexists; split; [done|]; naive_solver|].
  destruct (x_repayLUSD p) as [r|]; [rewrite gtDE|]; decide_cases.
Qed.

(** The mode-dependent part of the validation of an adjustment. *)
Lemma adjustment_decides p old new (sel : TroveSelectedState) z :
  let price := sel_price sel in
  decides (validateTroveAdjustment p
      (mkContext sel old new (ratio (sel_total sel) price <? big CRITICAL_COLLATERAL_RATIO)
         (ratio (totalAfter (sel_total sel) old new) price <? big CRITICAL_COLLATERAL_RATIO)))
    (acceptable sel old new (Adjustment p z)).
Proof.
  unfold decides, validateTroveAdjustment, acceptable;
    cbn [selected originalTrove resultingTrove recoveryMode wouldTriggerRecoveryMode].
  rewrite belowMinimumE, belowCriticalE, !collateralRatioE. cbn [bind]. rewrite ltDE.
  rewrite !big_dec by apply ratio_nonneg.
  destruct p as [[[d|w]|] [[b|r]|]];
    cbn [withdrawCollateral borrowLUSD repayLUSD depositCollateral a_collateral a_debt];
    rewrite ?ltDE, ?gtDE; decide_cases.
Qed.

(** The verdict on a change, and what becomes of it. *)
Lemma validation_verdict old adjusted (rate : Decimal) (sel : TroveSelectedState) change new :
  Trove.whatChanged old adjusted rate = Ok (Some change) ->
  Trove.apply old (Some change) rate = Ok new ->
  exists o, (o = None <-> acceptable sel old new change) /\
    validateTroveChange old adjusted rate sel
    = Ok (match o with
          | None => (Some change, Some (ChangeDescription (describeChange change)))
          | Some _ => (None, o)
          end).
Proof.
  intros Hchange Happly. unfold validateTroveChange. rewrite Hchange. cbn [bind].
  rewrite (validationContextE _ _ _ _ new) by done. cbn [bind].
  pose proof (creation_decides) as H1. pose proof closure_decides as H2.
  pose proof adjustment_decides as H3. cbv zeta in H1, H2, H3. unfold decides in H1, H2, H3.
  destruct change as [inv e|p|p|p z].
  - exists (Some (TotalDebtAtLeast LUSD_MINIMUM_DEBT)). done.
  - destruct (H1 p old new sel) as (o & -> & Ho). exists o. split; [done|]. by destruct o.
  - destruct (H2 p old new sel) as (o & -> & Ho). exists o. split; [done|]. by destruct o.
  - destruct (H3 p old new sel z) as (o & -> & Ho). exists o. split; [done|]. by destruct o.
Qed.

(** The validation of an edited deposit offers the change exactly when the wallet is not
    a registered frontend, the amount differs, a deposit is covered by the balance and a
    withdrawal finds no undercollateralized Trove; what it offers leads to the edited
    amount, and the excess it reports is the positive amount missing. *)
Theorem validateDeposit_decides (deposit : StabilityDeposit) (edited : Decimal) (sel : DepositSelectedState) :
  exists valid description,
    validateStabilityDepositChange deposit edited sel = Ok (valid, description) /\
    (is_Some valid <->
       haveOwnFrontend sel = false /\ edited <> currentLUSD deposit /\
       (big (currentLUSD deposit) < big edited ->
          big edited - big (currentLUSD deposit) <= big (lusdBalance sel)) /\
       (big edited < big (currentLUSD deposit) -> haveUndercollateralizedTroves sel = false)) /\
    (forall change, valid = Some change ->
       StabilityDeposit.apply deposit (Some (StabilityDeposit.asDecimalish change)) = Ok edited) /\
    (forall excess, description = Some (DepositExceedsLUSDBalanceBy excess) ->
       0 < big excess /\ big excess = big edited - big (currentLUSD deposit) - big (lusdBalance sel)).
Proof.
  unfold validateStabilityDepositChange.
  destruct (deposit_change_cases deposit edited) as (change & Hchange & Happly & Hmoves).
  rewrite Hchange. cbn [bind].
  destruct (haveOwnFrontend sel); [by eexists _, _; split; [done|]; naive_solver|].
  destruct change as [[d|w all]|].
  - destruct Hmoves as (Hpos & Hd). rewrite gtDE. zcase.
    + rewrite subE by lia. eexists _, _; split; [done|]. split; [naive_solver lia|].
      split; [done|]. intros ? [= <-]. rewrite big_dec; lia.
    + eexists _, _; split; [done|]. split; [|naive_solver].
      split; [|naive_solver]. intros _.
      repeat split; try done; try lia; intros ->; lia.
  - destruct Hmoves as (Hpos & Hd & _). cbn [bind]. destruct (haveUndercollateralizedTroves sel) eqn:?.
    + eexists _, _; split; [done|]. naive_solver lia.
    + eexists _, _; split; [done|]. split; [|naive_solver].
      split; [|naive_solver]. intros _.
      repeat split; try done; try lia; intros ->; lia.
  - subst edited. eexists _, _; split; [done|]. naive_solver.
Qed.
End theorems.

(** ** Instances *)

(** Opening a Trove of 1 BTC and 105 LUSD of debt at a price of 200, in a system of 10 BTC and
    1,000 LUSD. *)
Definition sampleSelected : TroveSelectedState :=
  mkSelected (dec 200000000000000000000)
    (mkTrove (dec 10000000000000000000) (dec 1000000000000000000000))
    (dec 1000000000000000000) Decimal.ZERO 3.
