(* ===== verification/Managers.v ===== *)
(** * Editors of the frontend

    [packages/dev-frontend/src/components/Trove/TroveManager.tsx],
    [Stability/StabilityDepositManager.tsx] and [Staking/StakingManager.tsx]: the reducers that
    keep what the user is editing while the store keeps changing underneath.  Of a store update
    an action carries what the reducers read. *)

From S2P Require Import Prelude JsString BigNumber Decimal DecimalArith Constants Trove TroveTheory StabilityDeposit LQTYStake.
From Stdlib Require Import Ascii String.

Local Open Scope string_scope.
Local Open Scope Z_scope.

(** ** Troves *)

Module TroveManager.
Section TroveManager.
Context `{BN : BigNumber}.

Record TroveManagerState := mkState {
  original : UserTrove;
  edited : Trove;
  changePending : bool;
  debtDirty : bool;
  addedMinimumDebt : bool
}.

(** The actions; of a [LiquityStoreUpdate], the new Trove and whether
    [troveBeforeRedistribution] is among the changes. *)
Inductive TroveManagerAction :=
| startChange | finishChange | revert | addMinimumDebt | removeMinimumDebt
| setCollateral (newValue : Decimalish)
| setDebt (newValue : Decimalish)
| updateStore (trove : UserTrove) (changeCommitted : bool).

(** [new Trove(trove.collateral, trove.debt)] *)
Definition copyTrove (u : UserTrove) : Trove :=
  mkTrove (collateral (ut_trove u)) (debt (ut_trove u)).

Definition init (trove : UserTrove) : TroveManagerState :=
  mkState trove (copyTrove trove) false false false.

Definition withEdited (state : TroveManagerState) (t : Trove) : TroveManagerState :=
  mkState (original state) t (changePending state) (debtDirty state) (addedMinimumDebt state).

(** The branches of [reduce] that others go through, as [addMinimumDebt],
    [removeMinimumDebt], [finishChange] and [revert] do with [reduceWith]. *)
Definition reduceAddMinimumDebt (state : TroveManagerState) : result TroveManagerState :=
  let* t := Trove.setDebt (edited state) LUSD_MINIMUM_DEBT in
  Ok (mkState (original state) t (changePending state) (debtDirty state) true).

Definition reduceRemoveMinimumDebt (state : TroveManagerState) : result TroveManagerState :=
  let* t := Trove.setDebt (edited state) Decimal.ZERO in
  Ok (mkState (original state) t (changePending state) (debtDirty state) false).

Definition reduceFinishChange (state : TroveManagerState) : TroveManagerState :=
  mkState (original state) (edited state) false (debtDirty state) (addedMinimumDebt state).

Definition reduceRevert (state : TroveManagerState) : TroveManagerState :=
  mkState (original state) (copyTrove (original state)) (changePending state) false false.

Definition reduce (state : TroveManagerState) (action : TroveManagerAction) :
    result TroveManagerState :=
  match action with
  | startChange =>
      Ok (mkState (original state) (edited state) true (debtDirty state) (addedMinimumDebt state))
  | finishChange => Ok (reduceFinishChange state)
  | setCollateral newValue =>
      let* newCollateral := Decimal.from newValue in
      let* t := Trove.setCollateral (edited state) newCollateral in
      let newState := withEdited state t in
      if debtDirty state then Ok newState
      else if Trove.isEmpty (edited state) && negb (Decimal.isZero newCollateral)
      then reduceAddMinimumDebt newState
      else if addedMinimumDebt state && Decimal.isZero newCollateral
      then reduceRemoveMinimumDebt newState
      else Ok newState
  | setDebt newValue =>
      let* t := Trove.setDebt (edited state) newValue in
      Ok (mkState (original state) t (changePending state) true (addedMinimumDebt state))
  | addMinimumDebt => reduceAddMinimumDebt state
  | removeMinimumDebt => reduceRemoveMinimumDebt state
  | revert => Ok (reduceRevert state)
  | updateStore trove changeCommitted =>
      let newState := mkState trove (edited state) (changePending state) (debtDirty state)
                        (addedMinimumDebt state) in
      if changePending state && changeCommitted then Ok (reduceFinishChange (reduceRevert newState))
      else
        let* change := Trove.whatChanged (ut_trove (original state)) (edited state) Decimal.ZERO in
        let reapply :=
          let* t := Trove.apply (ut_trove trove) change Decimal.ZERO in
          Ok (withEdited newState t) in
        match change with
        | Some (Creation _) =>
            if negb (Trove.isEmpty (ut_trove trove)) then Ok (reduceRevert newState) else reapply
        | Some (Closure _) =>
            if Trove.isEmpty (ut_trove trove) then Ok (reduceRevert newState) else reapply
        | _ => reapply
        end
  end.

(** The fee shown for an edit. *)
Definition feeFrom (original edited : Trove) (borrowingRate : Decimal) : result Decimal :=
  let* change := Trove.whatChanged original edited borrowingRate in
  match change with
  | Some (Creation p) => Decimal.mul (c_borrowLUSD p) borrowingRate
  | Some (Adjustment p _) =>
      match borrowLUSD p with
      | Some b => Decimal.mul b borrowingRate
      | None => Ok Decimal.ZERO
      end
  | _ => Ok Decimal.ZERO
  end.
End TroveManager.
End TroveManager.

(** ** Stability deposits *)

Module DepositManager.
Section DepositManager.
Context `{BN : BigNumber}.

Record StabilityDepositManagerState := mkState {
  originalDeposit : StabilityDeposit;
  editedLUSD : Decimal;
  changePending : bool
}.

Inductive StabilityDepositManagerAction :=
| startChange | finishChange | revert
| setDeposit (newValue : Decimalish)
| updateStore (updatedDeposit : option StabilityDeposit).

Definition init (deposit : StabilityDeposit) : StabilityDepositManagerState :=
  mkState deposit (currentLUSD deposit) false.

Definition reduceFinishChange (state : StabilityDepositManagerState) :=
  mkState (originalDeposit state) (editedLUSD state) false.

Definition reduceRevert (state : StabilityDepositManagerState) :=
  mkState (originalDeposit state) (currentLUSD (originalDeposit state)) (changePending state).

(** The condition under which the user's transaction, and not the pool's, changed the deposit. *)
Definition changeCommitted (original updated : StabilityDeposit) : bool :=
  negb (Decimal.eqD (initialLUSD updated) (initialLUSD original)) ||
  Decimal.gtD (currentLUSD updated) (currentLUSD original) ||
  Decimal.ltD (sd_collateralGain updated) (sd_collateralGain original) ||
  Decimal.ltD (lqtyReward updated) (lqtyReward original).

Definition reduce (state : StabilityDepositManagerState) (action : StabilityDepositManagerAction) :
    result StabilityDepositManagerState :=
  match action with
  | startChange => Ok (mkState (originalDeposit state) (editedLUSD state) true)
  | finishChange => Ok (reduceFinishChange state)
  | setDeposit newValue =>
      let* d := Decimal.from newValue in
      Ok (mkState (originalDeposit state) d (changePending state))
  | revert => Ok (reduceRevert state)
  | updateStore None => Ok state
  | updateStore (Some updatedDeposit) =>
      let newState := mkState updatedDeposit (editedLUSD state) (changePending state) in
      if changePending state && changeCommitted (originalDeposit state) updatedDeposit
      then Ok (reduceFinishChange (reduceRevert newState))
      else
        let* change := StabilityDeposit.whatChanged (originalDeposit state) (editedLUSD state) in
        let* d := StabilityDeposit.apply updatedDeposit (StabilityDeposit.asDecimalish <$> change) in
        Ok (mkState updatedDeposit d (changePending state))
  end.
End DepositManager.
End DepositManager.

(** ** Stakes *)

Module StakeManager.
Section StakeManager.
Context `{BN : BigNumber}.

Record StakeManagerState := mkState { originalStake : LQTYStake; editedLQTY : Decimal }.

Inductive StakeManagerAction :=
| revert
| setStake (newValue : Decimalish)
| updateStore (updatedStake : option LQTYStake).

Definition init (stake : LQTYStake) : StakeManagerState := mkState stake (stakedLQTY stake).

Definition reduce (state : StakeManagerState) (action : StakeManagerAction) :
    result StakeManagerState :=
  match action with
  | setStake newValue =>
      let* d := Decimal.from newValue in Ok (mkState (originalStake state) d)
  | revert => Ok (mkState (originalStake state) (stakedLQTY (originalStake state)))
  | updateStore (Some updatedStake) =>
      let* change := LQTYStake.whatChanged (originalStake state) (editedLQTY state) in
      let* d := LQTYStake.apply updatedStake (LQTYStake.asDecimalish <$> change) in
      Ok (mkState updatedStake d)
  | updateStore None => Ok state
  end.
End StakeManager.
End StakeManager.

(** ** Edits follow the store *)

(** An edit of an amount, carried over from an old amount to a new one: what was not edited
    follows the store, what was set to zero stays zero, and otherwise the difference is kept,
    as far as there is something to take away. *)
Definition rebase (old edited new : Z) : Z :=
  if edited =? old then new
  else if edited =? 0 then 0
  else Z.max 0 (new + (edited - old)).

Section theorems.
Context `{BNL : BigNumberLaws}.

Lemma deposit_rebased (old new : StabilityDeposit) (e : Decimal) :
  exists change,
    StabilityDeposit.whatChanged old e = Ok change /\
    StabilityDeposit.apply new (StabilityDeposit.asDecimalish <$> change) =
    Ok (dec (rebase (big (currentLUSD old)) (big e) (big (currentLUSD new)))).
Proof.
  destruct (deposit_change_cases old e) as (change & H & _ & Hm). exists change. split; [done|].
  unfold rebase. pose proof (big_nonneg (currentLUSD old)). pose proof (big_nonneg e).
  pose proof (big_nonneg (currentLUSD new)).
  destruct change as [[d|w all]|]; cbn [fmap option_fmap option_map moves] in *.
  - rewrite deposit_applyE. do 2 f_equal. repeat zcase; lia.
  - rewrite deposit_applyE. do 2 f_equal. destruct Hm as (? & ? & Ha).
    destruct all; repeat zcase; try lia; naive_solver lia.
  - subst e. rewrite Z.eqb_refl. simpl. f_equal. symmetry. apply dec_big.
Qed.

Lemma stake_rebased (old new : LQTYStake) (e : Decimal) :
  exists change,
    LQTYStake.whatChanged old e = Ok change /\
    LQTYStake.apply new (LQTYStake.asDecimalish <$> change) =
    Ok (dec (rebase (big (stakedLQTY old)) (big e) (big (stakedLQTY new)))).
Proof.
  destruct (stake_change_cases old e) as (change & H & Hm). exists change. split; [done|].
  unfold rebase. pose proof (big_nonneg (stakedLQTY old)). pose proof (big_nonneg e).
  pose proof (big_nonneg (stakedLQTY new)).
  destruct change as [[d|w all]|]; cbn [fmap option_fmap option_map stakeMoves] in *.
  - rewrite stake_applyE. do 2 f_equal. repeat zcase; lia.
  - rewrite stake_applyE. do 2 f_equal. destruct Hm as (? & ? & Ha).
    destruct all; repeat zcase; try lia; naive_solver lia.
  - subst e. rewrite Z.eqb_refl. simpl. f_equal. symmetry. apply dec_big.
Qed.

(** The deposit was changed by more than a liquidation in the Stability Pool. *)
Definition committed (old new : StabilityDeposit) : Prop :=
  big (initialLUSD new) <> big (initialLUSD old) \/
  big (currentLUSD old) < big (currentLUSD new) \/
  big (sd_collateralGain new) < big (sd_collateralGain old) \/
  big (lqtyReward new) < big (lqtyReward old).

(** The editors of deposits and stakes take over every update of the store: the edit
    stays what it was relative to the new amount, and only the effect of a pending
    transaction on the deposit ends the pending change and drops the edit. *)
Theorem deposit_edit_follows_store (state : DepositManager.StabilityDepositManagerState)
    (new : StabilityDeposit) (stakeState : StakeManager.StakeManagerState) (newStake : LQTYStake) :
  (exists state',
    DepositManager.reduce state (DepositManager.updateStore (Some new)) = Ok state' /\
    DepositManager.originalDeposit state' = new /\
    let old := DepositManager.originalDeposit state in
    (DepositManager.changePending state = true /\ committed old new ->
       DepositManager.changePending state' = false /\
       DepositManager.editedLUSD state' = currentLUSD new) /\
    (~ (DepositManager.changePending state = true /\ committed old new) ->
       DepositManager.changePending state' = DepositManager.changePending state /\
       big (DepositManager.editedLUSD state') =
       rebase (big (currentLUSD old)) (big (DepositManager.editedLUSD state)) (big (currentLUSD new)))) /\
  exists stakeState',
    StakeManager.reduce stakeState (StakeManager.updateStore (Some newStake)) = Ok stakeState' /\
    StakeManager.originalStake stakeState' = newStake /\
    big (StakeManager.editedLQTY stakeState') =
    rebase (big (stakedLQTY (StakeManager.originalStake stakeState)))
      (big (StakeManager.editedLQTY stakeState)) (big (stakedLQTY newStake)).
Proof.
  assert (forall old e n, 0 <= n -> 0 <= rebase old e n) as Hpos.
  { intros. unfold rebase. repeat zcase; lia. }
  split.
  - destruct state as [old e pending]. unfold DepositManager.reduce.
    cbn [DepositManager.originalDeposit DepositManager.editedLUSD DepositManager.changePending].
    assert (DepositManager.changeCommitted old new = true <-> committed old new) as Hc.
    { unfold DepositManager.changeCommitted, committed. rewrite eqDE, gtDE, !ltDE.
      rewrite !orb_true_iff, negb_true_iff, Z.eqb_neq, !Z.ltb_lt. tauto. }
    destruct (pending && DepositManager.changeCommitted old new) eqn:E.
    + apply andb_true_iff in E as [-> E%Hc]. eexists; split; [done|]. simpl. naive_solver.
    + destruct (deposit_rebased old new e) as (change & H1 & H2).
      rewrite H1. cbn [bind]. rewrite H2. cbn [bind]. eexists; split; [done|]. simpl.
      rewrite big_dec by apply Hpos, big_nonneg. split; [done|].
      split; [|done]. intros [-> Hcom%Hc]. by rewrite Hcom in E.
  - destruct stakeState as [old e]. unfold StakeManager.reduce.
    cbn [StakeManager.originalStake StakeManager.editedLQTY].
    destruct (stake_rebased old newStake e) as (change & H1 & H2).
    rewrite H1. cbn [bind]. rewrite H2. cbn [bind]. eexists; split; [done|]. simpl.
    by rewrite big_dec by apply Hpos, big_nonneg.
Qed.
(** *** Troves *)

(** An edited Trove, carried over from an old Trove to a new one, or what is thrown: by [apply],
    when a Trove that owes less than the liquidation reserve was being created and there is one
    now, and by [whatChanged], when a Trove that owes less than the reserve was being emptied. *)
Definition rebasedTrove (old edited new : Trove) : result Trove :=
  if Trove.equals old edited then Ok new
  else if Trove.isEmpty old then
    if Trove.isEmpty new then Ok edited
    else if big (debt edited) <? big LUSD_LIQUIDATION_RESERVE
         then Err (JsError "Can't create onto existing Trove") else Ok new
  else if Trove.isEmpty edited then
    if big (debt old) <? big LUSD_LIQUIDATION_RESERVE then netDebtError else Ok _emptyTrove
  else Ok (mkTrove (dec (rebase (big (collateral old)) (big (collateral edited)) (big (collateral new))))
               (dec (rebase (big (debt old)) (big (debt edited)) (big (debt new))))).

Lemma adjustment_rebased old edited new p z :
  Trove.whatChanged old edited Decimal.ZERO = Ok (Some (Adjustment p z)) ->
  Trove.apply new (Some (Adjustment p z)) Decimal.ZERO =
  Ok (mkTrove (dec (rebase (big (collateral old)) (big (collateral edited)) (big (collateral new))))
        (dec (rebase (big (debt old)) (big (debt edited)) (big (debt new))))).
Proof.
  intros (_ & He & Hd & Hc & _ & ->)%adjustment_inv. rewrite apply_adjustmentE. rewrite isEmptyE in He.
  pose proof (big_nonneg (collateral old)). pose proof (big_nonneg (debt old)).
  pose proof (big_nonneg (collateral new)). pose proof (big_nonneg (debt new)).
  pose proof (big_nonneg (collateral edited)). pose proof (big_nonneg (debt edited)).
  destruct p as [c d]; cbn [a_debt a_collateral] in *. unfold rebase.
  assert (match d with
          | Some d => big (debt old) <> big (debt edited) /\
              debt_after Decimal.ZERO (Some d) (big (debt new)) =
              Z.max 0 (big (debt new) + (big (debt edited) - big (debt old)))
          | None => big (debt old) = big (debt edited)
          end) as Hd'.
  { destruct d as [d|]; [|done]. destruct Hd as [Hne Hd]. split; [done|].
    rewrite debtChangeE in Hd. injection Hd as <-. zcase; cbn [debt_after].
    - rewrite big_dec by (apply unapplied_nonneg; lia). rewrite applied_unapplied_exact by done. lia.
    - rewrite big_dec; lia. }
  assert (match c with
          | Some c => big (collateral old) <> big (collateral edited) /\
              collateral_after (Some c) (big (collateral new)) =
              Z.max 0 (big (collateral new) + (big (collateral edited) - big (collateral old)))
          | None => big (collateral old) = big (collateral edited)
          end) as Hc'.
  { destruct c as [c|]; [|done]. destruct Hc as [Hne Hc]. split; [done|].
    rewrite collateralChangeE in Hc. injection Hc as <-.
    zcase; cbn [collateral_after]; rewrite big_dec; lia. }
  destruct c as [c|], d as [d|];
    repeat match goal with H : _ /\ _ = _ |- _ => destruct H as [? H]; rewrite ?H end;
    simpl (negb _); rewrite ?andb_true_r, ?andb_false_r;
    cbn [debt_after collateral_after]; f_equal; f_equal; f_equal; repeat zcase; lia.
Qed.

(** C10. The editor of Troves takes over every update of the store.  The effect of a pending
    change resets it to the new Trove; otherwise the edit is carried over: what was not edited
    follows the store, what was set to zero stays zero, differences are kept, and a creation
    or closure that happened elsewhere ends the edit.  The reducer throws in two cases and no
    other, both about Troves that owe less than the liquidation reserve: such a Trove is being
    edited where there was none and the store comes to have one, or the edit empties such a
    Trove. *)
Theorem trove_edit_follows_store (state : TroveManager.TroveManagerState) (trove : UserTrove) changeCommitted :
  let after := TroveManager.reduce state (TroveManager.updateStore trove changeCommitted) in
  if TroveManager.changePending state && changeCommitted
  then after = Ok (TroveManager.mkState trove (ut_trove trove) false false false)
  else match rebasedTrove (ut_trove (TroveManager.original state)) (TroveManager.edited state)
               (ut_trove trove) with
       | Ok t => exists dirty added,
           after = Ok (TroveManager.mkState trove t (TroveManager.changePending state) dirty added)
       | Err e => after = Err e /\ exists message, e = JsError message
       end.
Proof.
  intros after. subst after. destruct state as [[old owner st] e pending dirty added].
  destruct trove as [new owner' st'].
  unfold TroveManager.reduce, TroveManager.reduceFinishChange, TroveManager.reduceRevert, TroveManager.withEdited.
  cbn [TroveManager.original TroveManager.edited TroveManager.changePending TroveManager.debtDirty
       TroveManager.addedMinimumDebt ut_trove TroveManager.copyTrove] in *.
  destruct (pending && changeCommitted) eqn:Hp; [by destruct new|].
  destruct (Trove.isEmpty e && negb (Trove.isEmpty old) && (big (debt old) <? big LUSD_LIQUIDATION_RESERVE))
    eqn:Hthrow.
  { apply andb_true_iff in Hthrow as [[He Ho%negb_true_iff]%andb_true_iff Hd%Z.ltb_lt].
    apply isEmpty_true in He as ->. destruct (emptying_throws old Decimal.ZERO) as (text & Ht & ->); [done..|].
    cbn [bind]. unfold rebasedTrove.
    destruct (Trove.equals old _emptyTrove) eqn:E; [apply equals_true in E as ->; by rewrite (proj2 (isEmpty_true _) eq_refl) in Ho|].
    rewrite Ho, (proj2 (isEmpty_true _) eq_refl), (proj2 (Z.ltb_lt _ _) Hd), Ht. eauto. }
  assert (Trove.isEmpty e = true -> Trove.isEmpty old = false ->
          big LUSD_LIQUIDATION_RESERVE <= big (debt old)) as Hclose.
  { intros He Ho. rewrite He, Ho in Hthrow. by apply Z.ltb_ge in Hthrow. }
  destruct (trove_change_cases old e Decimal.ZERO) as (change & Hw & Hcase); [done|done|].
  destruct (whatChanged_leads_to old e Decimal.ZERO) as (change' & b' & Hw' & Ha & Hb); [done|done|].
  rewrite Hw in Hw'. injection Hw' as <-. rewrite Hw. cbn [bind]. unfold rebasedTrove.
  assert (Trove.equals old e = true <-> old = e) as Heq by apply equals_true.
  assert (b' = e) as -> by by apply Hb.
  destruct change as [[t r|p|p|p z]|].
  - destruct Hcase as (Hne & -> & Ho & Hd). rewrite Ho. destruct (Trove.equals old e); [naive_solver|].
    unfold Trove.apply. rewrite (proj2 (Z.ltb_lt _ _) Hd). destruct (Trove.isEmpty new); simpl; eauto.
  - destruct Hcase as (Hne & Ho & Hd). rewrite Ho. destruct (Trove.equals old e); [naive_solver|].
    rewrite (proj2 (Z.ltb_ge _ _) Hd). destruct (Trove.isEmpty new) eqn:Hn; cbn [negb].
    + apply isEmpty_true in Hn as ->. apply isEmpty_true in Ho as ->. rewrite Ha. simpl. eauto.
    + destruct new; simpl; eauto.
  - destruct Hcase as (Hne & Ho & He). rewrite Ho, He. destruct (Trove.equals old e); [naive_solver|].
    rewrite (proj2 (Z.ltb_ge _ _)) by auto. destruct (Trove.isEmpty new) eqn:Hn.
    + apply isEmpty_true in Hn as ->. simpl. eauto.
    + unfold Trove.apply. rewrite Hn. simpl. eauto.
  - destruct Hcase as (Hne & Ho & He). rewrite Ho, He. destruct (Trove.equals old e); [naive_solver|].
    rewrite (adjustment_rebased _ _ _ _ _ Hw). simpl. eauto.
  - subst e. rewrite (proj2 Heq) by done. simpl. eauto.
Qed.
End theorems.

(** ** Instances *)

(** A Trove of 2 BTC of which the collateral is edited to 3 while 1 BTC is added elsewhere; and
    a Trove that owes less than the liquidation reserve and is being emptied. *)
Lemma trove_edit_follows_store_witness :
  let old := mkUserTrove (mkTrove (dec 2) (dec 200000000000000000000)) "0x1" open in
  let new := mkUserTrove (mkTrove (dec 3) (dec 200000000000000000000)) "0x1" open in
  let small := mkUserTrove (mkTrove (dec 2) (dec 1)) "0x1" open in
  let editing := TroveManager.mkState old (mkTrove (dec 3) (dec 200000000000000000000)) false false false in
  let emptying := TroveManager.mkState small _emptyTrove false false false in
  (exists dirty added,
    TroveManager.reduce editing (TroveManager.updateStore new true) =
    Ok (TroveManager.mkState new (mkTrove (dec 4) (dec 200000000000000000000)) false dirty added)) /\
  TroveManager.reduce emptying (TroveManager.updateStore small false)
  = Err (JsError "netDebt should not be used when debt < 0.1").
Proof.
  intros old new small editing emptying. split.
  - pose proof (trove_edit_follows_store editing new true) as H.
    assert (rebasedTrove (ut_trove old) (TroveManager.edited editing) (ut_trove new) =
      Ok (mkTrove (dec 4) (dec 200000000000000000000))) as E by (vm_compute; reflexivity).
    cbn [TroveManager.original editing] in H. rewrite E in H. exact H.
  - pose proof (trove_edit_follows_store emptying small false) as H.
    assert (rebasedTrove (ut_trove small) (TroveManager.edited emptying) (ut_trove small) =
      Err (JsError "netDebt should not be used when debt < 0.1")) as E by (vm_compute; reflexivity).
    cbn [TroveManager.original emptying] in H. rewrite E in H. exact (proj1 H).
Defined.
