(* ===== verification/Views.v ===== *)
(** * Views of the frontend

    [packages/dev-frontend/src/components/{Trove,Stability,Staking}/context]: which panel is
    shown for a user's Trove, deposit and stake.  The Trove and Stability panels are tables of
    transitions driven by the user and by the store; the staking panel is a reducer.  Of React,
    a mounted provider is its state and its reference to the last rendered view; the effects
    that run after a render are part of the step that causes it. *)

From S2P Require Import Prelude JsString BigNumber Decimal DecimalArith LQTYStake StabilityDeposit Trove.
From Stdlib Require Import Ascii String.

Local Open Scope Z_scope.

(** ** Troves *)

Module TroveView.
Inductive View := NONE | LIQUIDATED | REDEEMED | OPENING | ADJUSTING | CLOSING | ACTIVE.

Inductive Event :=
| OPEN_TROVE_PRESSED | ADJUST_TROVE_PRESSED | CLOSE_TROVE_PRESSED | CANCEL_ADJUST_TROVE_PRESSED
| TROVE_CLOSED | TROVE_LIQUIDATED | TROVE_REDEEMED | TROVE_ADJUSTED
| TROVE_SURPLUS_COLLATERAL_CLAIMED | TROVE_OPENED.

#[export] Instance View_eq_dec : EqDecision View.
Proof. solve_decision. Defined.

#[export] Instance Event_eq_dec : EqDecision Event.
Proof. solve_decision. Defined.

Definition transitions (v : View) (e : Event) : option View :=
  match v, e with
  | NONE, OPEN_TROVE_PRESSED => Some OPENING
  | NONE, TROVE_OPENED => Some ACTIVE
  | LIQUIDATED, OPEN_TROVE_PRESSED => Some OPENING
  | LIQUIDATED, TROVE_SURPLUS_COLLATERAL_CLAIMED => Some NONE
  | LIQUIDATED, TROVE_OPENED => Some ACTIVE
  | REDEEMED, OPEN_TROVE_PRESSED => Some OPENING
  | REDEEMED, TROVE_SURPLUS_COLLATERAL_CLAIMED => Some NONE
  | REDEEMED, TROVE_OPENED => Some ACTIVE
  | OPENING, CANCEL_ADJUST_TROVE_PRESSED => Some NONE
  | OPENING, TROVE_OPENED => Some ACTIVE
  | ADJUSTING, CANCEL_ADJUST_TROVE_PRESSED => Some ACTIVE
  | ADJUSTING, TROVE_ADJUSTED => Some ACTIVE
  | ADJUSTING, TROVE_CLOSED => Some NONE
  | ADJUSTING, TROVE_LIQUIDATED => Some LIQUIDATED
  | ADJUSTING, TROVE_REDEEMED => Some REDEEMED
  | CLOSING, CANCEL_ADJUST_TROVE_PRESSED => Some ACTIVE
  | CLOSING, TROVE_CLOSED => Some NONE
  | CLOSING, TROVE_ADJUSTED => Some ACTIVE
  | CLOSING, TROVE_LIQUIDATED => Some LIQUIDATED
  | CLOSING, TROVE_REDEEMED => Some REDEEMED
  | ACTIVE, ADJUST_TROVE_PRESSED => Some ADJUSTING
  | ACTIVE, CLOSE_TROVE_PRESSED => Some CLOSING
  | ACTIVE, TROVE_CLOSED => Some NONE
  | ACTIVE, TROVE_LIQUIDATED => Some LIQUIDATED
  | ACTIVE, TROVE_REDEEMED => Some REDEEMED
  | _, _ => None
  end.

Definition troveStatusEvents (s : UserTroveStatus) : option Event :=
  match s with
  | open => Some TROVE_OPENED
  | closedByOwner => Some TROVE_CLOSED
  | closedByLiquidation => Some TROVE_LIQUIDATED
  | closedByRedemption => Some TROVE_REDEEMED
  | nonExistent => None
  end.

Definition transition (v : View) (e : Event) : View := default v (transitions v e).

Definition getInitialView (s : UserTroveStatus) : View :=
  match s with
  | closedByLiquidation => LIQUIDATED
  | closedByRedemption => REDEEMED
  | open => ACTIVE
  | _ => NONE
  end.

(** A mounted [TroveViewProvider]: its state [view], the reference [viewRef] its callback
    reads, and the selected status for which its effect last ran. *)
Record Provider := mkProvider { view : View; viewRef : View; troveStatus : UserTroveStatus }.

(** [dispatchEvent], which reads the view last rendered. *)
Definition dispatchEvent (p : Provider) (e : Event) : Provider :=
  mkProvider (transition (viewRef p) e) (viewRef p) (troveStatus p).

(** The effect on [view]. *)
Definition updateRef (p : Provider) : Provider := mkProvider (view p) (view p) (troveStatus p).

(** The effect on [troveStatus]. *)
Definition followStatus (p : Provider) : Provider :=
  match troveStatusEvents (troveStatus p) with
  | Some e => updateRef (dispatchEvent p e)
  | None => p
  end.

(** The first render and its effects. *)
Definition mount (s : UserTroveStatus) : Provider :=
  followStatus (mkProvider (getInitialView s) (getInitialView s) s).

(** What happens to a mounted provider: a child dispatches an event, or the store has a status
    for the Trove. *)
Inductive Step := Dispatched (e : Event) | Selected (s : UserTroveStatus).

Definition step (p : Provider) (x : Step) : Provider :=
  match x with
  | Dispatched e => updateRef (dispatchEvent p e)
  | Selected s =>
      if bool_decide (s = troveStatus p) then p
      else followStatus (mkProvider (view p) (viewRef p) s)
  end.

Definition run (p : Provider) (l : list Step) : Provider := fold_left step l p.

(** The views that offer to manage an open Trove. *)
Definition managing (v : View) : bool :=
  match v with ADJUSTING | CLOSING | ACTIVE => true | _ => false end.

(** A child never announces an opening, which only the store does; a Trove that was open is
    closed for one of the three reasons. *)
Definition plausible (s : UserTroveStatus) (x : Step) : Prop :=
  match x with
  | Dispatched e => e <> TROVE_OPENED
  | Selected s' => s = open -> s' <> nonExistent
  end.

Fixpoint plausibleRun (p : Provider) (l : list Step) : Prop :=
  match l with
  | [] => True
  | x :: l => plausible (troveStatus p) x /\ plausibleRun (step p x) l
  end.

(** The events with which a child says that the Trove is gone before the store does. *)
Definition announcesClosure (x : Step) : bool :=
  match x with
  | Dispatched (TROVE_CLOSED | TROVE_LIQUIDATED | TROVE_REDEEMED) => true
  | _ => false
  end.

(** Between steps the reference is up to date, and a managed Trove is open. *)
Definition sound (p : Provider) : Prop :=
  viewRef p = view p /\ (managing (view p) = true -> troveStatus p = open).

(** Until a child announces a closure, an open Trove is managed. *)
Definition complete (p : Provider) : Prop := troveStatus p = open -> managing (view p) = true.

Lemma mount_sound s : sound (mount s) /\ complete (mount s).
Proof. by destruct s. Qed.

Lemma step_sound p x : sound p -> plausible (troveStatus p) x -> sound (step p x).
Proof.
  destruct p as [v r s]. intros [H1 H2]; simpl in *; subst r.
  destruct x as [e|s']; simpl; intros Hx.
  - split; [done|]. destruct v, e; simpl in *; done || auto.
  - case_bool_decide; [done|]. unfold followStatus.
    destruct s'; simpl; (split; [done|]); destruct v; simpl in *; naive_solver.
Qed.

Lemma step_complete p x :
  sound p -> complete p -> plausible (troveStatus p) x -> announcesClosure x = false ->
  complete (step p x).
Proof.
  destruct p as [v r s]. intros [H1 _] H2; unfold complete in *; simpl in *; subst r.
  destruct x as [e|s']; simpl; intros Hx Ha.
  - destruct v, e; simpl in *; done || auto.
  - case_bool_decide; [done|]. unfold followStatus. destruct s', v; simpl in *; done.
Qed.

Lemma run_invariant p l :
  sound p -> plausibleRun p l ->
  sound (run p l) /\
  (complete p -> forallb (fun x => negb (announcesClosure x)) l = true -> complete (run p l)).
Proof.
  revert p; induction l as [|x l IH]; intros p Hs; simpl; [done|]. intros [Hx Hl].
  destruct (IH (step p x)) as [H1 H2]; [by apply step_sound|done|].
  split; [done|]. intros Hc [Ha Hr]%andb_true_iff. apply negb_true_iff in Ha.
  apply H2; [by apply step_complete|done].
Qed.

(** Whatever events the panels dispatch and whatever statuses the store reports, short
    of an open Trove that never existed, the panel offers to manage a Trove only while the
    last reported status is open; and as long as no panel announced a closure of its own,
    an open Trove is offered for management. *)
Theorem trove_view_tracks_status s l :
  plausibleRun (mount s) l ->
  let p := run (mount s) l in
  (managing (view p) = true -> troveStatus p = open) /\
  (forallb (fun x => negb (announcesClosure x)) l = true ->
   troveStatus p = open -> managing (view p) = true).
Proof.
  intros Hl p. destruct (mount_sound s) as [Hs Hc].
  destruct (run_invariant (mount s) l) as [[_ H1] H2]; [done..|]. split; [done|].
  intros Ha. by apply H2.
Qed.

(** The hypothesis holds of a run that opens, adjusts and loses a Trove. *)
Lemma trove_view_tracks_status_witness :
  managing (view (run (mount nonExistent)
    [Dispatched OPEN_TROVE_PRESSED; Selected open; Dispatched ADJUST_TROVE_PRESSED])) = true.
Proof.
  apply (trove_view_tracks_status nonExistent
    [Dispatched OPEN_TROVE_PRESSED; Selected open; Dispatched ADJUST_TROVE_PRESSED]).
  - simpl. repeat split; discriminate.
  - reflexivity.
  - reflexivity.
Defined.
End TroveView.

(** ** The Stability Pool *)

Module StabilityView.
Inductive View := NONE | DEPOSITING | ACTIVE | ADJUSTING.

Inductive Event :=
| DEPOSIT_PRESSED | ADJUST_DEPOSIT_PRESSED | CANCEL_PRESSED | DEPOSIT_CONFIRMED
| REWARDS_CLAIMED | DEPOSIT_EMPTIED.

#[export] Instance Event_eq_dec : EqDecision Event.
Proof. solve_decision. Defined.

Definition transitions (v : View) (e : Event) : option View :=
  match v, e with
  | NONE, DEPOSIT_PRESSED => Some DEPOSITING
  | DEPOSITING, CANCEL_PRESSED => Some NONE
  | DEPOSITING, DEPOSIT_CONFIRMED => Some ACTIVE
  | ACTIVE, REWARDS_CLAIMED => Some ACTIVE
  | ACTIVE, ADJUST_DEPOSIT_PRESSED => Some ADJUSTING
  | ACTIVE, DEPOSIT_EMPTIED => Some NONE
  | ADJUSTING, CANCEL_PRESSED => Some ACTIVE
  | ADJUSTING, DEPOSIT_CONFIRMED => Some ACTIVE
  | ADJUSTING, DEPOSIT_EMPTIED => Some NONE
  | _, _ => None
  end.

Definition transition (v : View) (e : Event) : View := default v (transitions v e).

Section provider.
Context `{BN : BigNumber}.

Definition getInitialView (deposit : StabilityDeposit) : View :=
  if StabilityDeposit.isEmpty deposit then NONE else ACTIVE.

(** A mounted [StabilityViewProvider], with the emptiness its effect last ran for. *)
Record Provider := mkProvider { view : View; viewRef : View; depositIsEmpty : bool }.

Definition dispatchEvent (p : Provider) (e : Event) : Provider :=
  mkProvider (transition (viewRef p) e) (viewRef p) (depositIsEmpty p).

Definition updateRef (p : Provider) : Provider := mkProvider (view p) (view p) (depositIsEmpty p).

Definition followDeposit (p : Provider) : Provider :=
  if depositIsEmpty p then updateRef (dispatchEvent p DEPOSIT_EMPTIED) else p.

Definition mount (deposit : StabilityDeposit) : Provider :=
  let v := getInitialView deposit in
  followDeposit (mkProvider v v (StabilityDeposit.isEmpty deposit)).

Inductive Step := Dispatched (e : Event) | Selected (deposit : StabilityDeposit).

Definition step (p : Provider) (x : Step) : Provider :=
  match x with
  | Dispatched e => updateRef (dispatchEvent p e)
  | Selected deposit =>
      let empty := StabilityDeposit.isEmpty deposit in
      if Bool.eqb empty (depositIsEmpty p) then p
      else followDeposit (mkProvider (view p) (viewRef p) empty)
  end.

Definition run (p : Provider) (l : list Step) : Provider := fold_left step l p.

(** The views that offer to manage a deposit. *)
Definition managing (v : View) : bool := match v with ACTIVE | ADJUSTING => true | _ => false end.

(** A deposit was confirmed, and the store has shown an empty deposit since. *)
Definition confirmedUnseen (p : Provider) (l : list Step) : Prop :=
  exists l1 l2, l = l1 ++ Dispatched DEPOSIT_CONFIRMED :: l2 /\
    forall l3 l4, l2 = l3 ++ l4 ->
    depositIsEmpty (run p (l1 ++ Dispatched DEPOSIT_CONFIRMED :: l3)) = true.

Lemma run_snoc p l x : run p (l ++ [x]) = step (run p l) x.
Proof. unfold run. by rewrite fold_left_app. Qed.

Lemma confirmedUnseen_snoc p l x :
  confirmedUnseen p l -> depositIsEmpty (run p (l ++ [x])) = true -> confirmedUnseen p (l ++ [x]).
Proof.
  intros (l1 & l2 & -> & H) Hx. exists l1, (l2 ++ [x]). split; [by rewrite <-app_assoc|].
  intros l3 l4 E. destruct l4 as [|y l4] using rev_ind.
  - rewrite app_nil_r in E. subst l3. by rewrite <-app_assoc in Hx.
  - rewrite app_assoc in E. apply app_inj_tail in E as [E _]. by apply (H l3 l4).
Qed.

Lemma ref_updated deposit l : viewRef (run (mount deposit) l) = view (run (mount deposit) l).
Proof.
  induction l as [|x l IH] using rev_ind.
  - unfold run, mount, followDeposit; simpl. by destruct (StabilityDeposit.isEmpty deposit).
  - rewrite run_snoc. destruct x as [e|d]; [done|]. cbn [step].
    destruct (Bool.eqb _ _); [done|]. unfold followDeposit; simpl.
    by destruct (StabilityDeposit.isEmpty d).
Qed.

(** The panel offers to manage a deposit only while the store shows one, or while the
    store has yet to show the deposit whose transaction was confirmed. *)
Theorem stability_view_tracks_deposit deposit l :
  managing (view (run (mount deposit) l)) = true ->
  depositIsEmpty (run (mount deposit) l) = false \/ confirmedUnseen (mount deposit) l.
Proof.
  induction l as [|x l IH] using rev_ind.
  - unfold run, mount, followDeposit, getInitialView; simpl.
    destruct (StabilityDeposit.isEmpty deposit); simpl; [done|]. by left.
  - pose proof (ref_updated deposit l) as Hr. set (m := mount deposit) in *.
    destruct (depositIsEmpty (run m (l ++ [x]))) eqn:He; [|by left]. right.
    destruct x as [e|d].
    + rewrite run_snoc in H, He. simpl in H, He. rewrite Hr in H.
      destruct (decide (e = DEPOSIT_CONFIRMED)) as [->|Hne].
      * exists l, []. split; [done|]. intros l3 l4 E. symmetry in E. apply app_nil in E as [-> _].
        by rewrite run_snoc.
      * destruct IH as [IH|IH]; [|congruence|].
        -- by destruct (view (run m l)), e.
        -- apply confirmedUnseen_snoc; [done|]. by rewrite run_snoc.
    + rewrite run_snoc in H, He. cbn [step] in H, He.
      destruct (Bool.eqb (StabilityDeposit.isEmpty d) (depositIsEmpty (run m l))) eqn:Heq.
      * destruct (IH H) as [IH'|IH']; [congruence|].
        apply confirmedUnseen_snoc; [done|]. rewrite run_snoc. cbn [step]. by rewrite Heq.
      * unfold followDeposit in *. simpl in *. destruct (StabilityDeposit.isEmpty d); [|done].
        simpl in H. rewrite Hr in H. by destruct (view (run m l)).
Qed.
End provider.

End StabilityView.

(** ** Staking *)

Module StakingView.
Section staking.
Context `{BN : BigNumber}.

Record State := mkState { lqtyStake : LQTYStake; changePending : bool; adjusting : bool }.

(** The actions; of a [LiquityStoreUpdate], the stakes the reducer reads. *)
Inductive Action :=
| startAdjusting
| cancelAdjusting
| startChange
| abortChange
| updateStore (oldStake : LQTYStake) (updatedStake : option LQTYStake).

Definition init (stake : LQTYStake) : State := mkState stake false false.

(** The condition under which a stake is taken to have been changed by a transaction of the
    user, rather than by the gains that accrue to it. *)
Definition changeCommitted (oldStake updatedStake : LQTYStake) : bool :=
  negb (Decimal.eqD (stakedLQTY updatedStake) (stakedLQTY oldStake)) ||
  Decimal.ltD (ls_collateralGain updatedStake) (ls_collateralGain oldStake) ||
  Decimal.ltD (lusdGain updatedStake) (lusdGain oldStake).

Definition reduce (state : State) (action : Action) : State :=
  match action with
  | startAdjusting => mkState (lqtyStake state) (changePending state) true
  | cancelAdjusting => mkState (lqtyStake state) (changePending state) false
  | startChange => mkState (lqtyStake state) true (adjusting state)
  | abortChange => mkState (lqtyStake state) false (adjusting state)
  | updateStore oldStake (Some updatedStake) =>
      mkState updatedStake
        (if changeCommitted oldStake updatedStake then false else changePending state) false
  | updateStore _ None => state
  end.

Inductive View := NONE | ADJUSTING | ACTIVE.

(** The view the provider shows for a state. *)
Definition view (state : State) : View :=
  if adjusting state then ADJUSTING
  else if LQTYStake.isEmpty (lqtyStake state) then NONE else ACTIVE.

Definition run (state : State) (l : list Action) : State := fold_left reduce l state.
End staking.

Section theorems.
Context `{BNL : BigNumberLaws}.

(** The actions that end a pending change: it was aborted, or the store shows a stake of
    another amount or with less to claim. *)
Definition ends (a : Action) : Prop :=
  match a with
  | abortChange => True
  | updateStore old (Some new) =>
      big (stakedLQTY new) <> big (stakedLQTY old) \/
      big (ls_collateralGain new) < big (ls_collateralGain old) \/
      big (lusdGain new) < big (lusdGain old)
  | _ => False
  end.

Lemma changeCommittedE old new :
  changeCommitted old new = true <-> ends (updateStore old (Some new)).
Proof.
  unfold changeCommitted, ends. rewrite eqDE, !ltDE, !orb_true_iff, negb_true_iff.
  rewrite Z.eqb_neq, !Z.ltb_lt. tauto.
Qed.

Lemma run_step st l x : run st (l ++ [x]) = reduce (run st l) x.
Proof. unfold run. by rewrite fold_left_app. Qed.

Lemma decide_ends a : ends a \/ ~ ends a.
Proof.
  destruct a as [| | | |old [new|]]; simpl; auto.
  destruct (changeCommitted old new) eqn:E; [left|right].
  - by apply changeCommittedE.
  - intros H. apply changeCommittedE in H. congruence.
Qed.

Lemma reduce_ends st a : ends a -> changePending (reduce st a) = false.
Proof.
  destruct a as [| | | |old [new|]]; try done. intros H.
  cbn [reduce changePending]. by rewrite (proj2 (changeCommittedE old new)).
Qed.

Lemma reduce_pending st a :
  ~ ends a ->
  changePending (reduce st a) = match a with startChange => true | _ => changePending st end.
Proof.
  destruct a as [| | | |old [new|]]; try done.
  - intros H. cbn [reduce changePending]. rewrite <-changeCommittedE in H.
    by destruct (changeCommitted old new).
Qed.

(** A change was started and has not ended. *)
Definition pending (l : list Action) : Prop :=
  exists l1 l2, l = l1 ++ startChange :: l2 /\ Forall (fun a => ~ ends a) l2.

Lemma pending_snoc l x : pending (l ++ [x]) <-> x = startChange \/ ~ ends x /\ pending l.
Proof.
  split.
  - intros (l1 & l2 & E & Hf). destruct l2 as [|y l2] using rev_ind.
    + apply app_inj_tail in E as [_ ->]. by left.
    + rewrite app_comm_cons, app_assoc in E. apply app_inj_tail in E as [-> ->].
      apply Forall_app in Hf as [Hf Hx]. apply (proj1 (Forall_singleton _ _)) in Hx.
      right. split; [exact Hx|]. by exists l1, l2.
  - intros [->|(Hx & l1 & l2 & -> & Hf)].
    + by exists l, [].
    + exists l1, (l2 ++ [x]). rewrite <-app_assoc. split; [done|].
      apply Forall_app; split; [done|]. by apply Forall_singleton.
Qed.

(** The panel is covered by a spinner exactly from the start of a transaction until it
    is aborted or the store shows its effect; mere gains do not end it.  Whatever is being
    adjusted, a stake reported by the store brings the panel back to showing that stake. *)
Theorem staking_pending_until_committed (stake : LQTYStake) l :
  (changePending (run (init stake) l) = true <-> pending l) /\
  forall old new,
    view (run (init stake) (l ++ [updateStore old (Some new)])) =
      (if LQTYStake.isEmpty new then NONE else ACTIVE) /\
    lqtyStake (run (init stake) (l ++ [updateStore old (Some new)])) = new.
Proof.
  split; [|intros old new; by rewrite run_step].
  induction l as [|x l IH] using rev_ind.
  - simpl. split; [done|]. intros (l1 & l2 & H & _). by destruct l1.
  - rewrite run_step.
    rewrite pending_snoc. unfold pending in IH |- *. rewrite <-IH. clear IH.
    destruct (decide_ends x) as [He|He].
    + rewrite (reduce_ends _ _ He). split; [done|]. intros [->|[? _]]; [by destruct He|done].
    + rewrite (reduce_pending _ _ He). destruct x; naive_solver.
Qed.
End theorems.

(** A stake that the store shows grown. *)
Lemma staking_pending_until_committed_witness :
  let stake n := mkStake (dec n) Decimal.ZERO Decimal.ZERO in
  changePending (run (init (stake 1)) [startChange; updateStore (stake 1) (Some (stake 2))]) <> true.
Proof.
  intros stake H.
  apply (proj1 (staking_pending_until_committed (stake 1)
    [startChange; updateStore (stake 1) (Some (stake 2))])) in H.
  destruct H as ([|a [|a' l1]] & l2 & E & Hl2).
  - injection E as <-. apply Forall_cons_1 in Hl2 as [Hl2 _]. apply Hl2. left. discriminate.
  - discriminate E.
  - by destruct l1; discriminate E.
Defined.
End StakingView.
