(* ===== verification/TransactionMonitor.v ===== *)
(** * Following a transaction in the frontend

    [packages/dev-frontend/src/components/Transaction.tsx]: the state of the one transaction that
    the frontend follows, the function that sends it, the button that triggers it, and the
    monitor that waits for its confirmation and clears its outcome after a while.

    Of React, a mounted monitor is what its two effects keep: the dependencies they last ran
    with and the variables of their closures.  After a render an effect whose dependencies have
    changed is cleaned up and run again, all cleanups before all bodies; states that are set on
    the way are rendered next, the last one winning.  [settle] repeats this until nothing more is
    set.  Rendering and effects are taken as one step with the event that causes them.  React
    runs the effects of a render somewhat later, so there a timer or the end of a wait can come
    in between; such interleavings are not modelled, and the theorems speak of the others.
    Transactions are objects and compared by identity; an id that is empty counts as none, as it
    does in the code. *)

From S2P Require Import Prelude JsString.
From stdpp Require Import list.
From Stdlib Require Import Ascii String.

Local Open Scope string_scope.
Local Open Scope nat_scope.

(** ** States *)

Inductive TransactionState :=
| idle
| failed (id : string) (message : string)
| waitingForApproval (id : string)
| cancelled (id : string)
| waitingForConfirmation (id : string) (tx : positive)
| waitingForConfirmationMidl (id : string) (tx : string)
| confirmed (id : string)
| confirmedOneShot (id : string).

(** [transactionState.type] *)
Definition type (s : TransactionState) : string :=
  match s with
  | idle => "idle" | failed _ _ => "failed" | waitingForApproval _ => "waitingForApproval"
  | cancelled _ => "cancelled" | waitingForConfirmation _ _ => "waitingForConfirmation"
  | waitingForConfirmationMidl _ _ => "waitingForConfirmationMidl"
  | confirmed _ => "confirmed" | confirmedOneShot _ => "confirmedOneShot"
  end.

Definition idOf (s : TransactionState) : option string :=
  match s with
  | idle => None
  | failed id _ | waitingForApproval id | cancelled id | waitingForConfirmation id _
  | waitingForConfirmationMidl id _ | confirmed id | confirmedOneShot id => Some id
  end.

Definition txOf (s : TransactionState) : option positive :=
  match s with waitingForConfirmation _ tx => Some tx | _ => None end.

Definition txIdOf (s : TransactionState) : option string :=
  match s with waitingForConfirmationMidl _ tx => Some tx | _ => None end.

(** A string that is there and not empty. *)
Definition nonEmpty (s : option string) : option string :=
  match s with Some "" | None => None | Some s => Some s end.

(** [useMyTransactionState], for an id or for a pattern that ids are matched with. *)
Definition useMyTransactionState (mine : string -> bool) (s : TransactionState) : TransactionState :=
  match idOf s with Some id => if mine id then s else idle | None => idle end.

(** ** Sending *)

(** The states that are set: before [send] is called, and when it has ended, with a transaction
    or with an error that has a message or none. *)
Definition sendTransaction (id : string) (sent : positive + option string) : list TransactionState :=
  [waitingForApproval id;
  match sent with
  | inl tx => waitingForConfirmation id tx
  | inr (Some message) =>
      if includesString "User denied transaction signature" message then cancelled id
      else failed id "Failed to send transaction (try again)"
  | inr None => failed id "Failed to send transaction (try again)"
  end]%list.

(** ** The trigger *)

Inductive ShowFailure := asTooltip | asChildText.

(** The button: disabled with a text of its own, disabled, or sending when pressed; and the
    tooltip around it. *)
Inductive Trigger := DisabledWithText (text : string) | Disabled | Sends.

Definition failureReasons (requires : list (bool * string)) (transactionState : TransactionState) :
    list string :=
  (List.map snd (List.filter (fun r => negb (fst r)) requires) ++
   match transactionState with
   | waitingForApproval _ | waitingForConfirmation _ _ => ["You must wait for confirmation"]
   | _ => []
   end)%list.

Definition render (tooltip : option string) (showFailure : option ShowFailure) (reasons : list string) :
    Trigger * option string :=
  let tooltip := nonEmpty tooltip in
  let showFailure :=
    match reasons with
    | [] => None
    | _ => Some (default (if tooltip then asTooltip else asChildText) showFailure)
    end in
  let clonedTrigger :=
    match showFailure with
    | Some asChildText => DisabledWithText (default "" (head reasons))
    | Some asTooltip => Disabled
    | None => Sends
    end in
  (clonedTrigger, nonEmpty (match showFailure with Some asTooltip => head reasons | _ => tooltip end)).

(** [Transaction] looks at whatever transaction is followed, [TransactionMidl] at its own. *)
Definition Transaction (tooltip : option string) (showFailure : option ShowFailure)
    (requires : list (bool * string)) (transactionState : TransactionState) : Trigger * option string :=
  render tooltip showFailure (failureReasons requires transactionState).

Definition TransactionMidl (id : string) (tooltip : option string) (showFailure : option ShowFailure)
    (requires : list (bool * string)) (transactionState : TransactionState) : Trigger * option string :=
  render tooltip showFailure
    (failureReasons requires (useMyTransactionState (String.eqb id) transactionState)).

(** ** The monitor *)

(** The first effect's closure: what it waits for, and its variables [cancelled] and
    [finished].  [w_stage] is how far [waitForConfirmation] has come. *)
Inductive Stage := AwaitsReceipt | AwaitsReason | Done.

Record Watch := mkWatch {
  w_id : string; w_tx : positive + string;
  w_stage : Stage; w_cancelled : bool; w_finished : bool
}.

(** The dependencies of the effects; [client] stands for the provider and the wallet client. *)
Record Deps1 := mkDeps1 {
  d_client : nat; d_id : option string; d_tx : option positive; d_txId : option string
}.
Record Deps2 := mkDeps2 { d_type : string; d_id2 : option string }.

#[export] Instance Deps1_eq_dec : EqDecision Deps1.
Proof. solve_decision. Defined.
#[export] Instance Deps2_eq_dec : EqDecision Deps2.
Proof. solve_decision. Defined.

(** [watches] and [timeouts] are those ever started, in order: a timeout is its [cancelled] and
    whether it has fired.  [cleanup1] and [cleanup2] are the ones the effects have returned. *)
Record Monitor := mkMonitor {
  transactionState : TransactionState;
  client : nat;
  deps1 : Deps1;
  deps2 : Deps2;
  watches : list Watch;
  cleanup1 : option nat;
  timeouts : list (bool * bool);
  cleanup2 : option nat
}.

Definition deps1Of (client : nat) (s : TransactionState) : Deps1 :=
  mkDeps1 client (idOf s) (txOf s) (txIdOf s).
Definition deps2Of (s : TransactionState) : Deps2 := mkDeps2 (type s) (idOf s).

(** What the first effect waits for in a state. *)
Definition watched (s : TransactionState) : option (string * (positive + string)) :=
  match nonEmpty (idOf s) with
  | None => None
  | Some id =>
      match txOf s, nonEmpty (txIdOf s) with
      | Some tx, _ => Some (id, inl tx)
      | None, Some txId => Some (id, inr txId)
      | None, None => None
      end
  end.

Definition cancelWatch (w : Watch) : Watch := mkWatch (w_id w) (w_tx w) (w_stage w) true (w_finished w).

(** The cleanup of the first effect, with the states it sets. *)
Definition cleanupWatch (cleanup : option nat) (watches : list Watch) :
    list Watch * list TransactionState :=
  match cleanup with
  | None => (watches, [])
  | Some i =>
      match watches !! i with
      | Some w => if w_finished w then (watches, []) else (<[i := cancelWatch w]> watches, [idle])
      | None => (watches, [])
      end
  end.

Definition cancelTimeout (cleanup : option nat) (timeouts : list (bool * bool)) : list (bool * bool) :=
  match cleanup with Some i => alter (fun t => (true, snd t)) i timeouts | None => timeouts end.

(** A state whose outcome is cleared after five seconds. *)
Definition terminal (s : TransactionState) : bool :=
  match s with confirmed _ | failed _ _ | cancelled _ => true | _ => false end.

(** The effects after a render, and the states that they set. *)
Definition commit (m : Monitor) : Monitor * list TransactionState :=
  let s := transactionState m in
  let changed1 := bool_decide (deps1Of (client m) s <> deps1 m) in
  let changed2 := bool_decide (deps2Of s <> deps2 m) in
  let '(watches1, set1) := if changed1 then cleanupWatch (cleanup1 m) (watches m) else (watches m, []) in
  let timeouts1 := if changed2 then cancelTimeout (cleanup2 m) (timeouts m) else timeouts m in
  let '(watches2, cleanup1') :=
    if changed1 then
      match watched s with
      | Some (id, tx) =>
          ((watches1 ++ [mkWatch id tx AwaitsReceipt false false])%list, Some (List.length watches1))
      | None => (watches1, None)
      end
    else (watches1, cleanup1 m) in
  let '(timeouts2, cleanup2', set2) :=
    if changed2 then
      match s, nonEmpty (idOf s) with
      | confirmedOneShot _, Some id => (timeouts1, None, [confirmed id])
      | _, _ =>
          if terminal s then ((timeouts1 ++ [(false, false)])%list, Some (List.length timeouts1), [])
          else (timeouts1, None, [])
      end
    else (timeouts1, cleanup2 m, []) in
  (mkMonitor s (client m) (deps1Of (client m) s) (deps2Of s) watches2 cleanup1' timeouts2 cleanup2',
   (set1 ++ set2)%list).

Definition setTransactionState (s : TransactionState) (m : Monitor) : Monitor :=
  mkMonitor s (client m) (deps1 m) (deps2 m) (watches m) (cleanup1 m) (timeouts m) (cleanup2 m).

(** Renders until no state is set any more; [None] when it has not come to rest. *)
Fixpoint settle (fuel : nat) (m : Monitor) : option Monitor :=
  match fuel with
  | O => None
  | S fuel =>
      let '(m, sets) := commit m in
      match last sets with
      | None => Some m
      | Some s => settle fuel (setTransactionState s m)
      end
  end.

(** [rest] is enough fuel: [settle_rests]. *)
Definition rest (m : Monitor) : Monitor := default m (settle 3 m).

Definition setWatch (i : nat) (w : Watch) (m : Monitor) : Monitor :=
  mkMonitor (transactionState m) (client m) (deps1 m) (deps2 m) (<[i := w]> (watches m)) (cleanup1 m)
    (timeouts m) (cleanup2 m).

Definition advance (w : Watch) (stage : Stage) (finished : bool) : Watch :=
  mkWatch (w_id w) (w_tx w) stage (w_cancelled w) finished.

(** How a wait ends: with a receipt, or with an error, which may say that the transaction was
    cancelled. *)
Inductive WaitEnd := Receipt (succeeded : bool) | WaitError (transactionCancelled : bool).

(** [waitForConfirmation], once the wait is over. *)
Definition waitEnds (i : nat) (e : WaitEnd) (m : Monitor) : Monitor :=
  match watches m !! i with
  | Some w =>
      match w_stage w with
      | AwaitsReceipt =>
          if w_cancelled w then setWatch i (advance w Done (w_finished w)) m
          else
            match e with
            | Receipt true =>
                setTransactionState (confirmedOneShot (w_id w)) (setWatch i (advance w Done true) m)
            | Receipt false =>
                match w_tx w with
                | inl _ => setWatch i (advance w AwaitsReason true) m
                | inr _ =>
                    setTransactionState (failed (w_id w) "Failed") (setWatch i (advance w Done true) m)
                end
            | WaitError true =>
                setTransactionState (cancelled (w_id w)) (setWatch i (advance w Done true) m)
            | WaitError false =>
                setTransactionState (failed (w_id w) "Failed") (setWatch i (advance w Done true) m)
            end
      | _ => m
      end
  | None => m
  end.

(** [waitForConfirmation], once the revert reason has been looked up. *)
Definition reasonFound (i : nat) (reason : option string) (m : Monitor) : Monitor :=
  match watches m !! i with
  | Some w =>
      match w_stage w with
      | AwaitsReason =>
          if w_cancelled w then setWatch i (advance w Done (w_finished w)) m
          else
            setTransactionState
              (failed (w_id w)
                 (match nonEmpty reason with Some reason => "Reverted: " +:+ reason | None => "Failed" end))
              (setWatch i (advance w Done true) m)
      | _ => m
      end
  | None => m
  end.

(** The callback of a timeout. *)
Definition timeoutFires (i : nat) (m : Monitor) : Monitor :=
  match timeouts m !! i with
  | Some (isCancelled, false) =>
      let m := mkMonitor (transactionState m) (client m) (deps1 m) (deps2 m) (watches m) (cleanup1 m)
                 (<[i := (isCancelled, true)]> (timeouts m)) (cleanup2 m) in
      if isCancelled : bool then m else setTransactionState idle m
  | _ => m
  end.

Inductive Event :=
| SetState (s : TransactionState)
| ClientChanges (client : nat)
| WaitEnds (i : nat) (e : WaitEnd)
| ReasonFound (i : nat) (reason : option string)
| TimeoutFires (i : nat).

(** An event, the renders it causes and their effects, as one step: no other event comes between
    a render and its effects. *)
Definition turn (m : Monitor) (e : Event) : Monitor :=
  rest
    match e with
    | SetState s => setTransactionState s m
    | ClientChanges c =>
        mkMonitor (transactionState m) c (deps1 m) (deps2 m) (watches m) (cleanup1 m) (timeouts m)
          (cleanup2 m)
    | WaitEnds i e => waitEnds i e m
    | ReasonFound i reason => reasonFound i reason m
    | TimeoutFires i => timeoutFires i m
    end.

(** The monitor after its first render, which follows nothing. *)
Definition mounted (client : nat) : Monitor :=
  mkMonitor idle client (deps1Of client idle) (deps2Of idle) [] None [] None.

Definition run (m : Monitor) (events : list Event) : Monitor := fold_left turn events m.

(** ** Coming to rest *)

Lemma deps1_changed_not c s d : bool_decide (deps1Of c s <> d) = false -> d = deps1Of c s.
Proof. intros H%bool_decide_eq_false. destruct (decide (deps1Of c s = d)); naive_solver. Qed.

Lemma deps2_changed_not s d : bool_decide (deps2Of s <> d) = false -> d = deps2Of s.
Proof. intros H%bool_decide_eq_false. destruct (decide (deps2Of s = d)); naive_solver. Qed.

Lemma cleanupWatch_sets cleanup ws : (cleanupWatch cleanup ws).2 = [] \/ (cleanupWatch cleanup ws).2 = [idle].
Proof. unfold cleanupWatch. repeat case_match; cbn; auto. Qed.

(** What a render may set: nothing, [idle], or the confirmation that follows a one-shot one. *)
Lemma commit_sets m :
  last (commit m).2 = None \/ last (commit m).2 = Some idle \/
  exists id, transactionState m = confirmedOneShot id /\ last (commit m).2 = Some (confirmed id).
Proof.
  unfold commit. pose proof (cleanupWatch_sets (cleanup1 m) (watches m)) as Hc.
  destruct (cleanupWatch _ _) as [ws set1]; cbn in Hc.
  destruct (bool_decide (deps1Of _ _ <> _)), (bool_decide (deps2Of _ <> _)), (transactionState m) as [| | | | | |id|id];
    cbn; try (destruct (watched _) as [[]|]); try destruct id; cbn;
    destruct Hc as [->| ->]; cbn; eauto.
Qed.

Lemma commit_state m : transactionState (commit m).1 = transactionState m /\ client (commit m).1 = client m /\
  deps1 (commit m).1 = deps1Of (client m) (transactionState m) /\
  deps2 (commit m).1 = deps2Of (transactionState m).
Proof. unfold commit. by repeat case_match. Qed.

(** With the dependencies of its state a monitor stays as it is. *)
Lemma commit_still m :
  deps1 m = deps1Of (client m) (transactionState m) -> deps2 m = deps2Of (transactionState m) ->
  commit m = (m, []).
Proof.
  intros H1 H2. unfold commit. rewrite !bool_decide_false by (rewrite H1 || rewrite H2; naive_solver).
  destruct m; cbn in *. by subst.
Qed.

Lemma commit_idle m : transactionState m = idle -> last (commit m).2 = None \/ last (commit m).2 = Some idle.
Proof. intros E. destruct (commit_sets m) as [H|[H|(id & E' & H)]]; auto. congruence. Qed.

Lemma commit_again s m :
  transactionState m = s -> deps1 m = deps1Of (client m) s -> deps2 m = deps2Of s -> (commit m).2 = [].
Proof. intros <- H1 H2. by rewrite commit_still. Qed.

(** From whatever state, a monitor comes to rest after at most three renders. *)
Lemma settle_rests m : exists m', settle 3 m = Some m'.
Proof.
  cbn [settle]. destruct (commit m) as [m1 sets1] eqn:E1.
  pose proof (commit_sets m) as Hs1. pose proof (commit_state m) as (Ht1 & Hc1 & Hd1 & He1).
  rewrite E1 in *; cbn in *. destruct Hs1 as [->|[->|(id & Hid & ->)]]; [eauto|..].
  - set (m1' := setTransactionState idle m1). destruct (commit m1') as [m2 sets2] eqn:E2.
    pose proof (commit_idle m1' eq_refl) as Hs2. pose proof (commit_state m1') as (Ht2 & Hc2 & Hd2 & He2).
    rewrite E2 in *; cbn in *. destruct Hs2 as [->| ->]; [eauto|].
    rewrite commit_still; cbn; [eauto | by rewrite Hd2, Hc2 | done].
  - set (m1' := setTransactionState (confirmed id) m1). destruct (commit m1') as [m2 sets2] eqn:E2.
    assert (last sets2 = None) as Hs2.
    { revert E2. unfold commit, m1'. cbn. rewrite Hd1, Hid, Hc1. unfold deps1Of. cbn.
      rewrite bool_decide_false by naive_solver. destruct (bool_decide _); cbn;
        [destruct id|]; by intros [= <- <-]. }
    rewrite Hs2. eauto.
Qed.

(** ** The discipline of the monitor *)

(** A watch whose outcome is still to come and will be shown. *)
Definition waits (w : Watch) : Prop :=
  w_cancelled w = false /\
  ((w_stage w = AwaitsReceipt /\ w_finished w = false) \/ (w_stage w = AwaitsReason /\ w_finished w = true)).

(** A watch that its effect's cleanup would cancel. *)
Definition unfinished (w : Watch) : Prop := w_cancelled w = false /\ w_finished w = false.

(** The watch of the first effect, in the state [s] that the effects last ran with. *)
Definition current (s : TransactionState) (m : Monitor) (P : Watch -> Prop) : Prop :=
  match watched s with
  | Some (id, tx) => exists i w, cleanup1 m = Some i /\ watches m !! i = Some w /\
      w_id w = id /\ w_tx w = tx /\ w_cancelled w = false /\ P w
  | None => cleanup1 m = None
  end.

Definition pendingTimeout (m : Monitor) (i : nat) : Prop := timeouts m !! i = Some (false, false).

Definition oneShot (s : TransactionState) : Prop :=
  match s with confirmedOneShot id => id <> "" | _ => False end.

(** What the effects keep, since they ran with the client [c] in the state [s]. *)
Record kept (c : nat) (s : TransactionState) (m : Monitor) : Prop := {
  k_deps1 : deps1 m = deps1Of c s;
  k_deps2 : deps2 m = deps2Of s;
  k_current : current s m (fun _ => True);
  k_live i w : watches m !! i = Some w -> unfinished w -> cleanup1 m = Some i;
  k_timer : if terminal s then is_Some (cleanup2 m) else cleanup2 m = None;
  k_pending i : pendingTimeout m i -> cleanup2 m = Some i
}.

(** The rest of the invariant, for as long as the state is the one the effects ran with. *)
Definition steady (s : TransactionState) (m : Monitor) : Prop :=
  (deps1Of (client m) (transactionState m) = deps1 m -> current s m waits) /\
  (deps2Of (transactionState m) = deps2 m ->
    ~ oneShot (transactionState m) /\
    (terminal s = true -> exists i, cleanup2 m = Some i /\ pendingTimeout m i)).

Definition ready (m : Monitor) : Prop := exists c s, kept c s m /\ steady s m.

(** A monitor at rest. *)
Definition calm (m : Monitor) : Prop :=
  kept (client m) (transactionState m) m /\ current (transactionState m) m waits /\
  ~ oneShot (transactionState m) /\
  (terminal (transactionState m) = true -> exists i, cleanup2 m = Some i /\ pendingTimeout m i).

Lemma terminal_deps2 s s' : deps2Of s = deps2Of s' -> terminal s = terminal s'.
Proof. by destruct s, s'. Qed.

Lemma watched_deps1 c c' s s' : deps1Of c s = deps1Of c' s' -> watched s = watched s'.
Proof. unfold deps1Of, watched. intros [= _ -> -> ->]. done. Qed.

Lemma calm_ready m : calm m -> ready m.
Proof. intros (Hk & Hc & Ho & Ht). exists (client m), (transactionState m). unfold steady. auto. Qed.

Lemma calm_set_ready s m : calm m -> ready (setTransactionState s m).
Proof.
  intros (Hk & Hc & Ho & Ht). exists (client m), (transactionState m). destruct Hk as [H1 H2 H3 H4 H5 H6].
  split; [by constructor|]. split; [done|]. cbn. intros E. split; [|done].
  rewrite H2 in E. destruct s as [| | | | | | |id], (transactionState m); cbn in *; naive_solver.
Qed.

Lemma lookup_snoc_new {A} (l : list A) a i x :
  (l ++ [a])%list !! i = Some x -> (i = List.length l /\ x = a) \/ l !! i = Some x.
Proof.
  intros [H|[Hl H]]%lookup_app_Some; [by right|]. left.
  apply list_lookup_singleton_Some in H as [Hi ->]. split; [lia | done].
Qed.

(** The first effect: after it, the watch of the new state is the only unfinished one. *)
Lemma cleanupWatch_unfinished m c s i w :
  kept c s m -> (cleanupWatch (cleanup1 m) (watches m)).1 !! i = Some w -> ~ unfinished w.
Proof.
  intros Hk Hw Hu. unfold cleanupWatch in Hw. destruct (cleanup1 m) as [j|] eqn:Hj.
  - destruct (watches m !! j) as [v|] eqn:Hv.
    + destruct (w_finished v) eqn:Hf; cbn in Hw.
      * pose proof (k_live _ _ _ Hk i w Hw Hu) as E. rewrite Hj in E. injection E as ->.
        rewrite Hv in Hw. injection Hw as ->. destruct Hu. congruence.
      * destruct (decide (i = j)) as [->|Hne].
        -- rewrite list_lookup_insert_eq in Hw by (by eapply lookup_lt_Some). injection Hw as <-. by destruct Hu.
        -- rewrite list_lookup_insert_ne in Hw by done.
           pose proof (k_live _ _ _ Hk i w Hw Hu) as E. congruence.
    + cbn in Hw. pose proof (k_live _ _ _ Hk i w Hw Hu) as E. rewrite Hj in E. injection E as ->. congruence.
  - cbn in Hw. pose proof (k_live _ _ _ Hk i w Hw Hu). congruence.
Qed.

Lemma cancelTimeout_pending m c s i :
  kept c s m -> cancelTimeout (cleanup2 m) (timeouts m) !! i <> Some (false, false).
Proof.
  intros Hk. unfold cancelTimeout. destruct (cleanup2 m) as [j|] eqn:Hj.
  - destruct (decide (i = j)) as [->|Hne].
    + rewrite list_lookup_alter_eq. destruct (timeouts m !! j) as [[]|]; by intros [=].
    + rewrite list_lookup_alter_ne by done. intros H. pose proof (k_pending _ _ _ Hk i H). congruence.
  - intros H. pose proof (k_pending _ _ _ Hk i H). congruence.
Qed.

Lemma current_weaken s m (P Q : Watch -> Prop) : (forall w, P w -> Q w) -> current s m P -> current s m Q.
Proof. unfold current. destruct (watched s) as [[id tx]|]; [|done]. naive_solver. Qed.

(** After a render the monitor keeps what belongs to the state that was rendered. *)
Lemma commit_kept m :
  ready m -> kept (client m) (transactionState m) (commit m).1 /\
  current (transactionState m) (commit m).1 waits /\
  (terminal (transactionState m) = true ->
     exists i, cleanup2 (commit m).1 = Some i /\ pendingTimeout (commit m).1 i).
Proof.
  intros (c & s & Hk & Hc & Ht).
  assert (forall i, cancelTimeout (cleanup2 m) (timeouts m) !! i <> Some (false, false)) as Hno
    by (intros i; by eapply cancelTimeout_pending).
  pose proof (fun i w => cleanupWatch_unfinished m c s i w Hk) as Huf.
  pose proof (commit_state m) as (_ & _ & Hd1 & Hd2).
  assert (current (transactionState m) (commit m).1 waits /\
          forall i w, watches (commit m).1 !! i = Some w -> unfinished w -> cleanup1 (commit m).1 = Some i)
    as [Hcur Hlive].
  { clear Hd1 Hd2 Hno. unfold commit.
    destruct (bool_decide (deps1Of _ _ <> deps1 m)) eqn:E1.
    - destruct (cleanupWatch (cleanup1 m) (watches m)) as [ws set1]. cbn in Huf.
      destruct (watched (transactionState m)) as [[id tx]|] eqn:Hw; unfold current; rewrite Hw;
        repeat case_match; cbn; simplify_eq; (split; [|]).
      all: try (eexists _, _; split_and!; [done | by apply list_lookup_middle | done..|]; split; [done | by left]).
      all: try done.
      all: try (intros i w [[-> ->]|H]%lookup_snoc_new Hu; [done | by destruct (Huf i w H)]).
      all: intros i w H Hu; by destruct (Huf i w H).
    - apply deps1_changed_not in E1. specialize (Hc (eq_sym E1)).
      rewrite (k_deps1 _ _ _ Hk) in E1. unfold current in *. rewrite (watched_deps1 _ _ _ _ E1) in Hc.
      destruct (watched (transactionState m)) as [[id tx]|]; repeat case_match; cbn; simplify_eq;
        (split; [exact Hc | apply (k_live _ _ _ Hk)]). }
  assert ((if terminal (transactionState m)
           then exists i, cleanup2 (commit m).1 = Some i /\ pendingTimeout (commit m).1 i
           else cleanup2 (commit m).1 = None) /\
          forall i, pendingTimeout (commit m).1 i -> cleanup2 (commit m).1 = Some i) as [Hter Hpen].
  { clear Hd1 Hd2 Huf Hcur Hlive. unfold commit, pendingTimeout.
    destruct (if bool_decide (deps1Of _ _ <> deps1 m) then cleanupWatch _ _ else _) as [ws set1].
    destruct (if bool_decide (deps1Of _ _ <> deps1 m) then _ else _) as [ws2 cl].
    destruct (bool_decide (deps2Of _ <> deps2 m)) eqn:E2.
    - assert (exists i, (cancelTimeout (cleanup2 m) (timeouts m) ++ [(false, false)])%list !! i =
        Some (false, false)) as _ by (eexists; by apply list_lookup_middle).
      destruct (transactionState m) as [| | | | | |id|id]; cbn; try destruct id; cbn; split; try done.
      all: try (eexists; split; [done | by apply list_lookup_middle]).
      all: intros i; try (intros [[-> _]|H]%lookup_snoc_new; [done|]); intros; by destruct (Hno i).
    - apply deps2_changed_not in E2. destruct (Ht (eq_sym E2)) as [_ Hp]. cbn.
      pose proof (k_timer _ _ _ Hk) as Htm. pose proof (k_pending _ _ _ Hk) as Hpen.
      rewrite (k_deps2 _ _ _ Hk) in E2. apply terminal_deps2 in E2. rewrite <- E2.
      split; [|exact Hpen]. by destruct (terminal s); [apply Hp|]. }
  split; [|split].
  - constructor; try done.
    + by eapply current_weaken; [|exact Hcur].
    + revert Hter. destruct (terminal (transactionState m)); [intros (i & -> & _); eauto | done].
  - done.
  - by intros E; rewrite E in Hter.
Qed.

Lemma commit_quiet m : ready m -> last (commit m).2 = None -> ~ oneShot (transactionState m).
Proof.
  intros (c & s & Hk & _ & Ht) Hl. destruct (transactionState m) as [| | | | | | |id] eqn:Es; cbn; try tauto.
  intros Hid. revert Hl. unfold commit. rewrite Es.
  destruct (if bool_decide (deps1Of _ _ <> deps1 m) then cleanupWatch _ _ else _) as [ws set1].
  destruct (if bool_decide (deps1Of _ _ <> deps1 m) then _ else _) as [ws2 cl].
  destruct (bool_decide (deps2Of _ <> deps2 m)) eqn:E2.
  - destruct id; [done|]. cbn. by rewrite last_snoc.
  - apply deps2_changed_not in E2. by destruct (Ht (eq_sym E2)) as [[] _].
Qed.

Lemma settle_calm n m m' : ready m -> settle n m = Some m' -> calm m'.
Proof.
  revert m. induction n as [|n IH]; intros m Hr; cbn; [done|].
  pose proof (commit_kept m Hr) as (Hk & Hc & Ht). pose proof (commit_state m) as (Hs & Hcl & _ & _).
  pose proof (commit_sets m) as Hsets. pose proof (commit_quiet m Hr) as Hq.
  destruct (commit m) as [m1 sets]; cbn in *.
  destruct (last sets) as [s|] eqn:El.
  - apply IH. exists (client m), (transactionState m). destruct Hk as [H1 H2 H3 H4 H5 H6].
    split; [by constructor|]. split; [done|]. cbn. intros E. split; [|done].
    destruct Hsets as [?|[[= ->]|(id & _ & [= ->])]]; [done | tauto | tauto].
  - intros [= <-]. unfold calm. rewrite Hcl, Hs. auto.
Qed.

Lemma rest_calm m : ready m -> calm (rest m).
Proof.
  intros Hr. unfold rest. destruct (settle_rests m) as [m' Hm]. rewrite Hm. by eapply settle_calm.
Qed.

(** ** Events *)

Lemma oneShot_timeout m i b : calm m -> timeouts m !! i = Some (b, false) ->
  b = true \/ (cleanup2 m = Some i /\ terminal (transactionState m) = true).
Proof.
  intros (Hk & _) Hi. destruct b; [by left|]. right.
  pose proof (k_pending _ _ _ Hk i Hi) as E. split; [done|].
  pose proof (k_timer _ _ _ Hk) as Ht. destruct (terminal (transactionState m)); [done|]. congruence.
Qed.

(** A watch that has ended, or was cancelled, leaves the others alone. *)
Lemma setWatch_ready i w v m :
  calm m -> watches m !! i = Some w -> w_id v = w_id w -> w_tx v = w_tx w ->
  w_cancelled v = w_cancelled w -> ~ unfinished v ->
  kept (client m) (transactionState m) (setWatch i v m) /\
  ((w_cancelled w = true \/ waits v) -> current (transactionState m) (setWatch i v m) waits).
Proof.
  intros (Hk & Hc & Ho & Ht) Hi Hid Htx Hcan Huf. destruct Hk as [H1 H2 H3 H4 H5 H6].
  assert (i < List.length (watches m)) as Hlt by (by eapply lookup_lt_Some).
  assert (forall j u, watches m !! j = Some u -> (j = i /\ u = w) \/ j <> i) as Hcase.
  { intros j u Hj. destruct (decide (j = i)) as [->|]; [left; split; congruence | by right]. }
  assert (forall P Q : Watch -> Prop, (P w -> w_cancelled w = false -> Q v) -> (forall u, P u -> Q u) ->
    current (transactionState m) m P -> current (transactionState m) (setWatch i v m) Q) as Hcur.
  { intros P Q Hv Hu. unfold current. destruct (watched _) as [[id tx]|]; [|done].
    intros (j & u & Hj & Hl & Hi' & Ht' & Hca & HP). exists j. destruct (Hcase j u Hl) as [[-> ->]|Hne].
    - exists v. rewrite Hid, Htx, Hcan. split_and!; try done; [by apply list_lookup_insert_eq | auto].
    - exists u. split_and!; try done; [|auto]. cbn. by rewrite list_lookup_insert_ne by done. }
  split; [constructor; cbn; try done|].
  - eapply Hcur; [| |exact H3]; done.
  - intros j u Hj Hu. destruct (decide (j = i)) as [->|Hne].
    + rewrite list_lookup_insert_eq in Hj by done. injection Hj as <-. done.
    + rewrite list_lookup_insert_ne in Hj by done. by eapply H4.
  - intros Hw. eapply Hcur; [| |exact Hc]; [|done]. intros _ Hnc. destruct Hw as [?|?]; [congruence | done].
Qed.

Lemma setWatch_steady i w v m :
  calm m -> watches m !! i = Some w -> w_id v = w_id w -> w_tx v = w_tx w ->
  w_cancelled v = w_cancelled w -> ~ unfinished v -> (w_cancelled w = true \/ waits v) ->
  ready (setWatch i v m).
Proof.
  intros Hm Hi H1 H2 H3 H4 H5. destruct (setWatch_ready i w v m Hm Hi H1 H2 H3 H4) as [Hk Hc].
  exists (client m), (transactionState m). split; [done|]. split; [by intros _; apply Hc|].
  cbn. intros _. by destruct Hm as (_ & _ & Ho & Ht).
Qed.

(** A watch that ends with a state: the state is not one that is watched. *)
Lemma ended_ready i w v s m :
  calm m -> watches m !! i = Some w -> w_id v = w_id w -> w_tx v = w_tx w ->
  w_cancelled v = w_cancelled w -> ~ unfinished v -> txOf s = None -> txIdOf s = None ->
  ready (setTransactionState s (setWatch i v m)).
Proof.
  intros Hm Hi H1 H2 H3 H4 Htx Hid. destruct (setWatch_ready i w v m Hm Hi H1 H2 H3 H4) as [Hk _].
  pose proof (calm_set_ready s m Hm) as (_ & _ & _ & _). destruct Hm as (Hk0 & Hc & Ho & Ht).
  exists (client m), (transactionState m). destruct Hk as [K1 K2 K3 K4 K5 K6]. cbn in *.
  split; [by constructor|]. split; cbn.
  - rewrite K1. intros E%watched_deps1. unfold current in *. rewrite <- E in *.
    unfold watched in *. rewrite Htx, Hid in *. by destruct (nonEmpty (idOf s)).
  - rewrite K2. intros E. split; [|done].
    destruct s as [| | | | | | |id], (transactionState m); cbn in *; naive_solver.
Qed.

Lemma waitEnds_ready i e m : calm m -> ready (waitEnds i e m).
Proof.
  intros Hm. unfold waitEnds. destruct (watches m !! i) as [w|] eqn:Hi; [|by apply calm_ready].
  destruct (w_stage w) eqn:Hst; try by apply calm_ready.
  destruct (w_cancelled w) eqn:Hc.
  { eapply setWatch_steady; try done; [intros [E _]; cbn in E; congruence | by left]. }
  assert (forall stage, ~ unfinished (advance w stage true)) as Hu by (by intros stage [_ [=]]).
  destruct e as [[]|[]]; [| destruct (w_tx w) | |].
  2: { eapply setWatch_steady; try done. right. split; [done | by right]. }
  all: by eapply ended_ready.
Qed.

Lemma reasonFound_ready i reason m : calm m -> ready (reasonFound i reason m).
Proof.
  intros Hm. unfold reasonFound. destruct (watches m !! i) as [w|] eqn:Hi; [|by apply calm_ready].
  destruct (w_stage w) eqn:Hst; try by apply calm_ready.
  destruct (w_cancelled w) eqn:Hc.
  - eapply setWatch_steady; try done; [intros [E _]; cbn in E; congruence | by left].
  - eapply ended_ready; try done. by intros [_ [=]].
Qed.

Lemma timeoutFires_ready i m : calm m -> ready (timeoutFires i m).
Proof.
  intros Hm. unfold timeoutFires. destruct (timeouts m !! i) as [[b []]|] eqn:Hi; try by apply calm_ready.
  assert (i < List.length (timeouts m)) as Hlt by (by eapply lookup_lt_Some).
  destruct (oneShot_timeout m i b Hm Hi) as [->|[E2 Hter]]; destruct Hm as (Hk & Hc & Ho & Ht);
    exists (client m), (transactionState m); destruct Hk as [H1 H2 H3 H4 H5 H6].
  - split.
    + constructor; cbn; try done. intros j Hj. apply H6. unfold pendingTimeout in *. cbn in Hj.
      destruct (decide (j = i)) as [->|]; [by rewrite list_lookup_insert_eq in Hj by done |].
      by rewrite list_lookup_insert_ne in Hj by done.
    + split; cbn; [done|]. intros _. split; [done|]. intros (j & Hj & Hp)%Ht. exists j. split; [done|].
      unfold pendingTimeout in *. cbn. rewrite list_lookup_insert_ne; [done|]. congruence.
  - assert (forall j, <[i := (b, true)]> (timeouts m) !! j = Some (false, false) -> cleanup2 m = Some j) as Hp.
    { intros j Hj. apply H6. destruct (decide (j = i)) as [->|];
        [by rewrite list_lookup_insert_eq in Hj by done | by rewrite list_lookup_insert_ne in Hj by done]. }
    destruct b; (split; [by constructor|]); (split; cbn; [try done|]).
    + intros _. split; [done|]. intros (j & Hj & Hpj)%Ht. exists j. split; [done|]. unfold pendingTimeout in *.
      rewrite E2 in Hj. injection Hj as <-. rewrite Hi in Hpj. discriminate.
    + rewrite H2. intros E%terminal_deps2. cbn in E. congruence.
Qed.

Lemma turn_calm e m : calm m -> calm (turn m e).
Proof.
  intros Hm. unfold turn. apply rest_calm. destruct e.
  - by apply calm_set_ready.
  - destruct Hm as (Hk & Hc & Ho & Ht). exists (TransactionMonitor.client m), (transactionState m).
    destruct Hk. split; [by constructor|]. split; cbn; auto.
  - by apply waitEnds_ready.
  - by apply reasonFound_ready.
  - by apply timeoutFires_ready.
Qed.

Lemma mounted_calm c : calm (mounted c).
Proof.
  unfold calm. split; [|by split_and!; [|intros []|]].
  by constructor.
Qed.

Lemma run_calm c events : calm (run (mounted c) events).
Proof.
  induction events as [|e events IH] using rev_ind; [apply mounted_calm|].
  unfold run. rewrite fold_left_app. by apply turn_calm.
Qed.

(** A watch that is not cancelled and will still set the state when what it awaits arrives. *)
Definition pending (w : Watch) : Prop := w_cancelled w = false /\ w_stage w <> Done.

(** A watch that awaits its receipt is not finished. *)
Definition opened (w : Watch) : Prop := w_stage w = AwaitsReceipt -> w_finished w = false.

Lemma setWatch_opened i w m :
  w_stage w <> AwaitsReceipt -> Forall opened (watches m) -> Forall opened (watches (setWatch i w m)).
Proof. intros Hw Hm. cbn. apply Forall_insert; [done|]. by intros ?. Qed.

Lemma commit_opened m : Forall opened (watches m) -> Forall opened (watches (commit m).1).
Proof.
  intros Hm. unfold commit.
  assert (Forall opened (cleanupWatch (cleanup1 m) (watches m)).1) as Hc.
  { unfold cleanupWatch. destruct (cleanup1 m) as [i|]; [|done].
    destruct (watches m !! i) as [w|] eqn:Hi; [|done]. destruct (w_finished w) eqn:Hf; [done|].
    cbn. apply Forall_insert; [done|]. intros _. done. }
  destruct (cleanupWatch _ _) as [ws sets]. cbn in Hc.
  repeat (case_match; simplify_eq; cbn); try done; apply Forall_app; (split; [done|]); by repeat constructor.
Qed.

Lemma settle_opened n m m' : Forall opened (watches m) -> settle n m = Some m' -> Forall opened (watches m').
Proof.
  revert m. induction n as [|n IH]; intros m Hm; cbn; [done|].
  pose proof (commit_opened m Hm) as Hc. destruct (commit m) as [m1 sets]. cbn in Hc.
  destruct (last sets); [by apply IH|]. by intros [= <-].
Qed.

Lemma turn_opened e m : Forall opened (watches m) -> Forall opened (watches (turn m e)).
Proof.
  intros Hm. unfold turn, rest.
  match goal with |- context [settle 3 ?x] => set (x0 := x) end.
  assert (Forall opened (watches x0)) as Hx.
  { subst x0. destruct e as [| |i e|i reason|i]; cbn; try done.
    - unfold waitEnds. repeat case_match; try done; by apply setWatch_opened.
    - unfold reasonFound. repeat case_match; try done; by apply setWatch_opened.
    - unfold timeoutFires. by repeat case_match. }
  destruct (settle_rests x0) as [m' Hs]. rewrite Hs. cbn. by apply (settle_opened 3 x0).
Qed.

Lemma run_opened c events : Forall opened (watches (run (mounted c) events)).
Proof.
  induction events as [|e events IH] using rev_ind; [done|].
  unfold run. rewrite fold_left_app. by apply turn_opened.
Qed.

(** A watch that will still set the state is the unfinished one, or looks up a revert reason. *)
Lemma pending_cases c events j v :
  watches (run (mounted c) events) !! j = Some v -> pending v -> unfinished v \/ w_stage v = AwaitsReason.
Proof.
  intros Hj [Hc Hs]. pose proof (proj1 (Forall_lookup _ _) (run_opened c events) j v Hj) as Ho.
  destruct (w_stage v) eqn:E; [left; split; auto | by right | done].
Qed.

(** C35. Whatever is set, however waits end and whenever timers fire, with each render's effects
    run before the next event: a transaction that the state says is being confirmed is being
    waited for by a watch that will report on it.  Any other watch that can still set the state
    is finished with its receipt and only looks up why its transaction was reverted; when
    nothing is being confirmed, only such watches can.  (There can be several, and the effect's
    cleanup does not cancel them.)  An outcome is always about to be cleared, by the only pending
    timer, and a pending timer never clears anything else; a one-shot confirmation never stays. *)
Theorem monitor_discipline c events :
  let m := run (mounted c) events in
  match watched (transactionState m) with
  | Some (id, tx) => exists i w, watches m !! i = Some w /\ w_id w = id /\ w_tx w = tx /\ waits w /\
      forall j v, watches m !! j = Some v -> pending v -> j = i \/ w_stage v = AwaitsReason
  | None => forall j v, watches m !! j = Some v -> pending v -> w_stage v = AwaitsReason
  end /\
  (terminal (transactionState m) = true <-> exists i, pendingTimeout m i) /\
  (forall i j, pendingTimeout m i -> pendingTimeout m j -> i = j) /\
  ~ oneShot (transactionState m).
Proof.
  intros m. destruct (run_calm c events : calm m) as (Hk & Hc & Ho & Ht).
  pose proof (k_live _ _ _ Hk) as Hlive. pose proof (k_pending _ _ _ Hk) as Hpen.
  split_and!; [| split | | done].
  - unfold current in Hc. destruct (watched _) as [[id tx]|].
    + destruct Hc as (i & w & Hi & Hl & Hid & Htx & _ & Hw). exists i, w. split_and!; try done.
      intros j v Hj [Hv|]%(pending_cases c events j v Hj); [left | by right].
      pose proof (Hlive j v Hj Hv). congruence.
    + intros j v Hj [Hv|]%(pending_cases c events j v Hj); [|done].
      pose proof (Hlive j v Hj Hv). congruence.
  - intros (i & _ & Hi)%Ht. eauto.
  - intros (i & Hi%Hpen). pose proof (k_timer _ _ _ Hk) as Htm.
    destruct (terminal (transactionState m)); [done|]. congruence.
  - intros i j Hi%Hpen Hj%Hpen. congruence.
Qed.

(** ** Starting another transaction *)

Lemma settle_idle n m m' : transactionState m = idle -> settle n m = Some m' -> transactionState m' = idle.
Proof.
  revert m. induction n as [|n IH]; intros m Hm; cbn; [done|].
  pose proof (commit_idle m Hm) as Hs. pose proof (commit_state m) as (Ht & _).
  destruct (commit m) as [m1 sets]; cbn in *. destruct Hs as [->| ->]; [congruence|]. by apply IH.
Qed.

(** Leaving a transaction that is being waited for sets [idle], after the state that was set. *)
Lemma leaving_sets_idle m i w s :
  calm m -> watches m !! i = Some w -> unfinished w -> txOf s = None -> txIdOf s = None -> ~ oneShot s ->
  last (commit (setTransactionState s m)).2 = Some idle.
Proof.
  intros (Hk & Hc & _) Hi Hu Htx Hid Ho. pose proof (k_live _ _ _ Hk i w Hi Hu) as Hcl.
  pose proof (k_deps1 _ _ _ Hk) as Hd. unfold commit. cbn.
  assert (deps1Of (client m) s <> deps1 m) as Hne.
  { rewrite Hd. intros E%watched_deps1. unfold current in Hc. rewrite <- E in Hc.
    unfold watched in Hc. rewrite Htx, Hid in Hc. destruct (nonEmpty (idOf s)); cbn in Hc; congruence. }
  rewrite bool_decide_true by done. unfold cleanupWatch. rewrite Hcl, Hi.
  destruct Hu as [_ ->]. destruct (watched s) as [[]|]; cbn;
    destruct (bool_decide _), s as [| | | | | | |[]]; cbn in *; done || (by destruct Ho).
Qed.

Lemma failureReasons_met requires s :
  Forall (fun r => fst r = true) requires ->
  failureReasons requires s =
  match s with
  | waitingForApproval _ | waitingForConfirmation _ _ => ["You must wait for confirmation"]
  | _ => []
  end.
Proof. intros H. unfold failureReasons. induction H as [|[b r] l Hb _ IH]; cbn in *; [done|]. by rewrite Hb. Qed.

Lemma watched_waiting s :
  watched s <> None ->
  (exists id tx, s = waitingForConfirmation id tx) \/ (exists id tx, s = waitingForConfirmationMidl id tx).
Proof. destruct s as [|[] | [] | [] | | | [] | []]; cbn; eauto; done. Qed.

(** A state that is set while a transaction is being waited for, other than that of another
    sent transaction, is lost together with the transaction: the state becomes idle and nothing
    is waited for.  The button of [Transaction] cannot cause this, since it does not send while
    any transaction waits; that of [TransactionMidl] can, since it sends while its own one does. *)
Theorem starting_another_loses_both c events i w s :
  let m := run (mounted c) events in
  watches m !! i = Some w -> unfinished w -> txOf s = None -> txIdOf s = None -> ~ oneShot s ->
  let m' := turn m (SetState s) in
  transactionState m' = idle /\ (forall j v, watches m' !! j = Some v -> ~ unfinished v) /\
  (forall tooltip showFailure requires, Forall (fun r => fst r = true) requires ->
     match transactionState m with
     | waitingForConfirmation id tx =>
         fst (Transaction tooltip showFailure requires (transactionState m)) <> Sends
     | waitingForConfirmationMidl id tx =>
         fst (TransactionMidl id tooltip showFailure requires (transactionState m)) = Sends
     | _ => False
     end).
Proof.
  intros m Hi Hu Htx Hid Ho m'. pose proof (run_calm c events : calm m) as Hm.
  pose proof (turn_calm (SetState s) m Hm : calm m') as Hm'.
  assert (transactionState m' = idle) as Hidle.
  { unfold m', turn, rest. destruct (settle_rests (setTransactionState s m)) as [m1 Hm1]. rewrite Hm1. cbn.
    revert Hm1. cbn [settle]. pose proof (leaving_sets_idle m i w s Hm Hi Hu Htx Hid Ho) as Hl.
    destruct (commit (setTransactionState s m)) as [m0 sets]. cbn in Hl. rewrite Hl.
    by apply (settle_idle 2). }
  split_and!; [done | |].
  - destruct Hm' as (Hk & Hc & _). rewrite Hidle in Hc. intros j v Hj Hv.
    pose proof (k_live _ _ _ Hk j v Hj Hv) as E.
    change (cleanup1 m' = None) in Hc. congruence.
  - intros tooltip showFailure requires Hr. unfold Transaction, TransactionMidl.
    rewrite !failureReasons_met by done. destruct Hm as (Hk & Hc & _).
    pose proof (k_live _ _ _ Hk i w Hi Hu) as Hcl. unfold current in Hc.
    destruct (watched_waiting (transactionState m)) as [(id & tx & ->)|(id & tx & ->)];
      [intros E; rewrite E in Hc; congruence|..].
    + unfold render. cbn. destruct showFailure as [[]|]; cbn; [done..|]. by destruct (nonEmpty tooltip).
    + unfold useMyTransactionState. cbn [idOf]. by rewrite String.eqb_refl, failureReasons_met.
Qed.

(** ** Instances *)

Definition sampleRun : list Event :=
  [SetState (waitingForApproval "close"); SetState (waitingForConfirmationMidl "close" "0xh")].

Lemma starting_another_loses_both_witness :
  transactionState (run (mounted 0) sampleRun) = waitingForConfirmationMidl "close" "0xh" /\
  transactionState (turn (run (mounted 0) sampleRun) (SetState (waitingForApproval "close"))) = idle.
Proof.
  split; [vm_compute; reflexivity|].
  exact (proj1 (starting_another_loses_both 0 sampleRun 0
    (mkWatch "close" (inr "0xh") AwaitsReceipt false false) (waitingForApproval "close")
    ltac:(vm_compute; reflexivity) (conj eq_refl eq_refl) eq_refl eq_refl (fun H => H))).
Defined.

(** A confirmed transaction: its outcome is shown until the timeout fires. *)
Example confirmed_then_cleared :
  let m := run (mounted 0) (sampleRun ++ [WaitEnds 0 (Receipt true)])%list in
  transactionState m = confirmed "close" /\ transactionState (turn m (TimeoutFires 0)) = idle.
Proof. split; vm_compute; reflexivity. Qed.

(** The reason of a failure that arrives late overrides what has been set since: its watch
    counts as finished and was not cancelled. *)
Example late_failure_overrides :
  transactionState (run (mounted 0)
    [SetState (waitingForConfirmation "old" 1); WaitEnds 0 (Receipt false);
     SetState (waitingForApproval "new"); ReasonFound 0 None]) = failed "old" "Failed".
Proof. vm_compute. reflexivity. Qed.
