(* ===== verification/JsNumber.v ===== *)
(** * JavaScript numbers

    A [number] is an IEEE 754 double, here the specification floats of the Standard Library at
    53 bits of precision: arithmetic with rounding to nearest even, the reading of a decimal
    numeral, [Math.round], [Math.sqrt], and the text that [String(x)] gives, which has the
    fewest digits that read back as the same number.  Of the functions whose value the language
    leaves to the implementation, logarithm and power are parameters where they are used. *)

From S2P Require Import Prelude JsString.
From Stdlib Require Import Floats.SpecFloat Ascii String.

Local Open Scope string_scope.
Local Open Scope Z_scope.

Definition number : Type := spec_float.

Module Number.

Definition PREC : Z := 53.
Definition EMAX : Z := 1024.

Definition NaN : number := S754_nan.
Definition add : number -> number -> number := SFadd PREC EMAX.
Definition sub : number -> number -> number := SFsub PREC EMAX.
Definition mul : number -> number -> number := SFmul PREC EMAX.
Definition div : number -> number -> number := SFdiv PREC EMAX.
Definition neg : number -> number := SFopp.
Definition sqrt : number -> number := SFsqrt PREC EMAX.
Definition lt : number -> number -> bool := SFltb.

(** The number nearest to an integer. *)
Definition ofZ (z : Z) : number := binary_normalize PREC EMAX z 0 false.

(** The number nearest to [a / b], for [0 <= a] and [0 < b]. *)
Definition ofRatio (a b : Z) : number :=
  match a, b with
  | Zpos a, Zpos b => SFdiv PREC EMAX (S754_finite false a 0) (S754_finite false b 0)
  | _, _ => S754_zero false
  end.

(** [parseFloat] of what [Decimal.toString] prints: digits with an optional point, or the
    infinity sign, which is not a numeral. *)
Definition parseFloat (s : string) : number :=
  let '(whole, rest) := span_digits s in
  if String.eqb whole "" then NaN
  else
    let fraction := match rest with String "." rest => fst (span_digits rest) | _ => "" end in
    ofRatio (numeral_val 10 (whole +:+ fraction)) (10 ^ js_length fraction).

(** [Math.round]: the nearest integer, halves towards positive infinity. *)
Definition round (x : number) : number :=
  match x with
  | S754_finite s m e =>
      if 0 <=? e then x
      else
        let z := if s then Zneg m else Zpos m in
        match (2 * z + 2 ^ (- e)) / 2 ^ (1 - e) with
        | 0 => S754_zero s
        | r => ofZ r
        end
  | x => x
  end.

(** *** Text *)

(** A positive number as a ratio. *)
Definition ratio (m : positive) (e : Z) : Z * Z :=
  if 0 <=? e then (Zpos m * 2 ^ e, 1) else (Zpos m, 2 ^ (- e)).

(** The position of the decimal point: [10 ^ (n - 1) <= a / b < 10 ^ n].  The smallest double
    is above [10 ^ (-324)]. *)
Fixpoint leadingZeros (fuel : nat) (a b n : Z) : Z :=
  match fuel with
  | O => n
  | S fuel => if b <=? 10 * a then n else leadingZeros fuel (10 * a) b (n - 1)
  end.

Definition pointPosition (a b : Z) : Z :=
  if b <=? a then js_length (numeral_show 10 (a / b)) else leadingZeros 400 a b 0.

Definition scaled (s exponent : Z) : number :=
  if 0 <=? exponent then ofRatio (s * 10 ^ exponent) 1 else ofRatio s (10 ^ (- exponent)).

(** The digits [s], [k] of them, with the point after [n], for the smallest [k] for which they
    read as [x]; of two, the nearer. *)
Fixpoint shortestDigits (fuel : nat) (x : number) (a b n k : Z) : Z * Z * Z :=
  let low := if n <=? k then a * 10 ^ (k - n) / b else a / (b * 10 ^ (n - k)) in
  let reads s := SFeqb (scaled s (n - k)) x in
  (* twice [a / b * 10 ^ (k - n)] against [2 low + 1] *)
  let upper :=
    if n <=? k then (2 * low + 1) * b <? 2 * a * 10 ^ (k - n)
    else (2 * low + 1) * b * 10 ^ (n - k) <? 2 * a in
  let up := if low + 1 =? 10 ^ k then (n + 1, 1, 1) else (n, k, low + 1) in
  match reads low, reads (low + 1) with
  | true, true => if upper then up else (n, k, low)
  | true, false => (n, k, low)
  | false, true => up
  | false, false =>
      match fuel with O => (n, k, low) | S fuel => shortestDigits fuel x a b n (k + 1) end
  end.

Definition drop_str (n : nat) (s : string) : string := substring n (String.length s - n) s.

Definition layout (n k s : Z) : string :=
  let digits := numeral_show 10 s in
  if (k <=? n) && (n <=? 21) then digits +:+ repeat_char "0" (Z.to_nat (n - k))
  else if (0 <? n) && (n <=? 21) then
    take_str (Z.to_nat n) digits +:+ "." +:+ drop_str (Z.to_nat n) digits
  else if (-6 <? n) && (n <=? 0) then "0." +:+ repeat_char "0" (Z.to_nat (- n)) +:+ digits
  else
    let e := n - 1 in
    let exponent := "e" +:+ (if e <? 0 then "-" else "+") +:+ numeral_show 10 (Z.abs e) in
    if k =? 1 then digits +:+ exponent
    else take_str 1 digits +:+ "." +:+ drop_str 1 digits +:+ exponent.

Definition positiveText (m : positive) (e : Z) : string :=
  let '(a, b) := ratio m e in
  let '(n, k, s) := shortestDigits 17 (S754_finite false m e) a b (pointPosition a b) 1 in
  layout n k s.

(** [String(x)] *)
Definition toString (x : number) : string :=
  match x with
  | S754_nan => "NaN"
  | S754_zero _ => "0"
  | S754_infinity s => if s then "-Infinity" else "Infinity"
  | S754_finite s m e => if s then "-" +:+ positiveText m e else positiveText m e
  end.

End Number.

#[global] Arguments Number.add : simpl never.
#[global] Arguments Number.sub : simpl never.
#[global] Arguments Number.mul : simpl never.
#[global] Arguments Number.div : simpl never.
#[global] Arguments Number.ofZ : simpl never.
#[global] Arguments Number.toString : simpl never.
#[global] Arguments Number.parseFloat : simpl never.

(** ** Examples *)

Example texts_of_numbers :
  List.map (fun s => Number.toString (Number.parseFloat s))
    ["0"; "0.1"; "1000"; "123456789012345678901"; "1000000000000000000000"; "100000000000000000000000";
     "0.000001"; "0.00000012"; "9007199254740993"; "?"]
  = ["0"; "0.1"; "1000"; "123456789012345680000"; "1e+21"; "1e+23"; "0.000001"; "1.2e-7"; "9007199254740992"; "NaN"].
Proof. vm_compute. reflexivity. Qed.

Example square_roots :
  List.map (fun s => Number.toString (Number.sqrt (Number.parseFloat s))) ["2"; "1.21"; "4"; "0"]
  = ["1.4142135623730951"; "1.1"; "2"; "0"].
Proof. vm_compute. reflexivity. Qed.

Example rounding :
  List.map (fun s => Number.toString (Number.round (Number.parseFloat s))) ["2.5"; "2.4999"; "0.3"; "1650000000.5"]
  = ["3"; "2"; "0"; "1650000001"].
Proof. vm_compute. reflexivity. Qed.
