(* ===== verification/BondMath.v ===== *)
(** * Bonds: the arithmetic of accrual

    [dev-frontend/src/components/Bonds/utils.ts] and the computations of
    [dev-frontend/src/components/Bonds/context/api.ts]: how long a bond takes to break even and
    when it is best sold and bonded again, and the figures that describe the protocol.

    Amounts are [Decimal]s, days and dates are numbers.  The clock is an argument ([now], in
    milliseconds, below [2 ^ 53]); the natural logarithm, the power and the third-party
    [lambertW0] are parameters.  The contracts are a record with the outcome of each call. *)

From S2P Require Import Prelude JsString BigNumber Decimal JsNumber.
From Stdlib Require Import Ascii String.

Local Open Scope string_scope.
Local Open Scope Z_scope.

(** What the language leaves to the implementation, and the function of the package
    [lambert-w-function]. *)
Class MathFunctions := {
  math_log : number -> number;
  math_pow : number -> number -> number;
  lambertW0 : number -> number
}.

(** ** Conversions and times *)

Section utils.
Context `{BN : BigNumber}.

Definition milliseconds (seconds : number) : number := Number.mul seconds (Number.ofZ 1000).

Definition toFloat (decimal : Decimal) : result number :=
  rmap Number.parseFloat (Decimal.toString decimal None).

(** A BigNumber that is a safe integer. *)
Definition numberify (bigNumber : Z) : result number := rmap Number.ofZ (bn_toNumber bigNumber).

Definition decimalify (bigNumber : Z) : result Decimal :=
  Decimal.fromBigNumberString (bn_toHexString bigNumber).

Definition percentify (fraction : number) : number := Number.mul fraction (Number.ofZ 100).

Definition secondsToDays (seconds : number) : number :=
  Number.div (Number.div (Number.div seconds (Number.ofZ 60)) (Number.ofZ 60)) (Number.ofZ 24).

Definition daysToMilliseconds (days : number) : number :=
  Number.mul (Number.mul (Number.mul (Number.mul days (Number.ofZ 60)) (Number.ofZ 60)) (Number.ofZ 24))
    (Number.ofZ 1000).

Definition getBondAgeInDays (now startTime : number) : number :=
  secondsToDays (Number.div (Number.sub now startTime) (Number.ofZ 1000)).

Definition getReturn (accrued deposit marketPrice : Decimal) : result number :=
  let* accruedLusdValue := Decimal.mul accrued marketPrice in
  let* value := toFloat accruedLusdValue in
  let* deposit := toFloat deposit in
  Ok (Number.sub value deposit).

(** [Decimal.from] of a number. *)
Definition decimalFrom (x : number) : result Decimal := Decimal.from (FromNumber (Number.toString x)).

(** ** Accrual *)

Definition getBreakEvenPeriodInDays (alphaAccrualFactor marketPricePremium claimBondFee : Decimal) :
    result Decimal :=
  let* kept := Decimal.sub Decimal.ONE claimBondFee in
  let* effectivePremium := Decimal.mul marketPricePremium kept in
  if Decimal.lteD effectivePremium Decimal.ONE then Ok Decimal.INFINITY
  else
    let* excess := Decimal.sub effectivePremium Decimal.ONE in
    Decimal.div alphaAccrualFactor excess.

(** [bondAgeInDays] defaults to zero in the source. *)
Definition getFutureBLusdAccrualFactor (floorPrice daysInFuture alphaAccrualFactor bondAgeInDays : Decimal) :
    result Decimal :=
  let* duration := Decimal.sub daysInFuture bondAgeInDays in
  let* reciprocal := Decimal.div Decimal.ONE floorPrice in
  let* whole := Decimal.add duration alphaAccrualFactor in
  let* share := Decimal.div duration whole in
  Decimal.mul reciprocal share.

Definition getRebondPeriodInDays (alphaAccrualFactor marketPricePremium claimBondFee : Decimal) :
    result Decimal :=
  let* kept := Decimal.sub Decimal.ONE claimBondFee in
  let* effectivePremium := Decimal.mul kept marketPricePremium in
  if Decimal.lteD effectivePremium Decimal.ONE then Ok Decimal.INFINITY
  else
    let* float := toFloat effectivePremium in
    let* sqrt := decimalFrom (Number.sqrt float) in
    let* dividend := Decimal.add Decimal.ONE sqrt in
    let* divisor := Decimal.sub effectivePremium Decimal.ONE in
    let* quotient := Decimal.div dividend divisor in
    Decimal.mul alphaAccrualFactor quotient.

Definition getFutureDateInDays (now days : number) : number :=
  Number.round (Number.add now (daysToMilliseconds days)).

Definition getFloorPrice (bammLusdDebt totalLusdInCurve pendingLusd permanentLusd bLusdSupply : Decimal) :
    result Decimal :=
  let* owned := Decimal.add bammLusdDebt totalLusdInCurve in
  let* owned := Decimal.sub owned pendingLusd in
  let* owned := Decimal.sub owned permanentLusd in
  Decimal.div owned bLusdSupply.

Definition getAverageBondAgeInSeconds (now : number) (totalWeightedStartTimes pendingBucketLusd : Decimal) :
    result Decimal :=
  let* average := Decimal.div totalWeightedStartTimes pendingBucketLusd in
  let* average := toFloat average in
  let averageStartTimeMs := Number.mul (Number.round average) (Number.ofZ 1000) in
  let* ageMs := decimalFrom (Number.sub now averageStartTimeMs) in
  Decimal.div ageMs (FromNumber "1000").

Definition getDaysUntilControllerStartsAdjusting (averageBondAgeInSeconds targetBondAgeInSeconds : Decimal) :
    result Decimal :=
  let* secondsUntil :=
    if Decimal.gtD targetBondAgeInSeconds averageBondAgeInSeconds
    then Decimal.sub targetBondAgeInSeconds averageBondAgeInSeconds else Ok Decimal.ZERO in
  let* secondsUntil := toFloat secondsUntil in
  decimalFrom (secondsToDays secondsUntil).

Context `{MF : MathFunctions}.

Definition getRemainingRebondOrBreakEvenDays (bondAgeInSeconds targetBondAgeInSeconds
    averageBondAgeInSeconds rebondOrBreakEvenPeriodInDays : Decimal) : result number :=
  let log099 := math_log (Number.parseFloat "0.99") in
  let* bondAge := toFloat bondAgeInSeconds in
  let bondAgeInDays := secondsToDays bondAge in
  let* daysUntil := getDaysUntilControllerStartsAdjusting averageBondAgeInSeconds targetBondAgeInSeconds in
  let* daysUntilControllerStartsAdjusting := toFloat daysUntil in
  let* period := toFloat rebondOrBreakEvenPeriodInDays in
  let rebondOrBreakEvenDaysRemaining := Number.sub period bondAgeInDays in
  if Number.lt rebondOrBreakEvenDaysRemaining daysUntilControllerStartsAdjusting
  then Ok rebondOrBreakEvenDaysRemaining
  else
    let lambertDividend := Number.mul log099 period in
    let lambertDivisor :=
      math_pow (Number.parseFloat "0.99") (Number.add bondAgeInDays daysUntilControllerStartsAdjusting) in
    let lambertQuotient := lambertW0 (Number.neg (Number.div lambertDividend lambertDivisor)) in
    let formulaDividend :=
      Number.add lambertQuotient
        (Number.mul log099 (Number.add bondAgeInDays daysUntilControllerStartsAdjusting)) in
    Ok (Number.neg (Number.div formulaDividend log099)).

Definition getRebondOrBreakEvenTimeWithControllerAdjustment (now : number) (bondAgeInSeconds
    targetBondAgeInSeconds averageBondAgeInSeconds rebondOrBreakEvenPeriodInDays : Decimal) :
    result number :=
  let* days := getRemainingRebondOrBreakEvenDays bondAgeInSeconds targetBondAgeInSeconds
                 averageBondAgeInSeconds rebondOrBreakEvenPeriodInDays in
  Ok (getFutureDateInDays now days).
End utils.

(** ** What a bond is worth when it breaks even

    On integers, with every division rounding down as [Decimal] does: [D] is one, [p] the
    effective premium, [t] the period, [A] the accrual factor after it, [m] the deposit less the
    fee, [v] the value of what has accrued by then. *)

Lemma floor_bounds n d : 0 < d -> 0 <= n -> 0 <= n / d /\ (n / d) * d <= n < (n / d + 1) * d.
Proof. intros Hd Hn. pose proof (Z.div_pos n d). pose proof (Z.mod_pos_bound n d). pose proof (Z.div_mod n d). lia. Qed.

(** Multiplies both sides of an inequality by a non-negative product. *)
Ltac scale :=
  first [apply Z.mul_le_mono_nonneg_r | apply Z.mul_le_mono_nonneg_l];
  [repeat apply Z.mul_nonneg_nonneg; lia | lia].

Section worth.
Variables D a F k M d E H : Z.
Hypotheses (HD : 0 < D) (Ha : 0 < a) (HF : 0 < F) (Hk : 0 <= k <= D) (HM : 0 <= M) (Hd : 0 <= d).

(** How much one is above the accrual factor and above the floor price, rounded up: where
    neither is below one, both are one. *)
Hypotheses (HE : 1 <= E) (HH : 1 <= H) (HEa : D <= E * a) (HHF : D <= H * F).
Let K := 2 + (1 + E) * H.

Let P := M * D / F.
Let p := P * k / D.
Hypothesis Hp : D < p.
Let t := a * D / (p - D).
Let x := D * D / F.
Let y := t * D / (t + a).
Let A := x * y / D.
Let m := k * d / D.
Let c := A * m / D.
Let v := c * M / D.

Lemma worth_facts :
  (0 <= P /\ P * F <= M * D < (P + 1) * F) /\ (p * D <= P * k < (p + 1) * D) /\
  (0 <= t /\ t * (p - D) <= a * D < (t + 1) * (p - D)) /\ (0 <= x /\ x * F <= D * D < (x + 1) * F) /\
  (0 <= y /\ y * (t + a) <= t * D < (y + 1) * (t + a)) /\ (0 <= A /\ A * D <= x * y < (A + 1) * D) /\
  (0 <= m /\ m * D <= k * d < (m + 1) * D) /\ (0 <= c /\ c * D <= A * m < (c + 1) * D) /\
  (0 <= v /\ v * D <= c * M < (v + 1) * D).
Proof using HD Ha HF Hk HM Hd Hp.
  clear K HEa HHF HE HH E H.
  assert (0 <= P /\ P * F <= M * D < (P + 1) * F) as H1 by (apply floor_bounds; nia).
  assert (0 <= p /\ p * D <= P * k < (p + 1) * D) as H2 by (apply floor_bounds; nia).
  assert (0 <= t /\ t * (p - D) <= a * D < (t + 1) * (p - D)) as H3 by (apply floor_bounds; nia).
  assert (0 <= x /\ x * F <= D * D < (x + 1) * F) as H4 by (apply floor_bounds; nia).
  assert (0 <= y /\ y * (t + a) <= t * D < (y + 1) * (t + a)) as H5 by (apply floor_bounds; nia).
  assert (0 <= A /\ A * D <= x * y < (A + 1) * D) as H6 by (apply floor_bounds; nia).
  assert (0 <= m /\ m * D <= k * d < (m + 1) * D) as H7 by (apply floor_bounds; nia).
  assert (0 <= c /\ c * D <= A * m < (c + 1) * D) as H8 by (apply floor_bounds; nia).
  assert (0 <= v /\ v * D <= c * M < (v + 1) * D) as H9 by (apply floor_bounds; nia).
  tauto.
Qed.

Lemma share_bounds : y * p <= D * D < (y + 1 + E) * p.
Proof.
  destruct worth_facts as (_ & _ & Ht & _ & Hy & _). clearbody y t p. clear A m c v x. clearbody P.
  assert (0 < t + a) by lia. split.
  - apply (Z.mul_le_mono_pos_r _ _ (t + a)); [done|].
    assert (y * (t + a) * p <= t * D * p) by (apply Z.mul_le_mono_nonneg_r; lia).
    assert (t * p * D <= (t + a) * D * D) by (apply Z.mul_le_mono_nonneg_r; lia). lia.
  - apply (Z.mul_lt_mono_pos_r (t + a)); [done|].
    assert (t * D * p < (y + 1) * (t + a) * p) by (apply Z.mul_lt_mono_pos_r; lia).
    assert (D * (a * D - (p - D)) <= D * (t * (p - D))) by (apply Z.mul_le_mono_nonneg_l; lia).
    assert (D * (p - D) <= E * a * p) by (apply Z.mul_le_mono_nonneg; lia).
    assert (0 <= E * (t * p)) by (repeat apply Z.mul_nonneg_nonneg; lia). lia.
Qed.

Lemma factor_bounds : A * (F * p) <= D * D * D < (A + K) * (F * p).
Proof.
  pose proof share_bounds as Hs. destruct worth_facts as (_ & _ & _ & Hx & (Hy0 & _) & HA & _).
  clearbody y p A. clearbody x. clear m c v. assert (0 < F * p) as HFp by (apply Z.mul_pos_pos; lia).
  assert (x * F * (y * p) <= D * D * (D * D)) as Hup.
  { apply Z.mul_le_mono_nonneg; [apply Z.mul_nonneg_nonneg; lia | lia | apply Z.mul_nonneg_nonneg; lia | lia]. }
  assert ((D * D - F) * (y * p) <= x * F * (y * p)) as Hlow.
  { apply Z.mul_le_mono_nonneg_r; [apply Z.mul_nonneg_nonneg |]; lia. }
  split; apply (Z.mul_le_mono_pos_r _ _ D) || apply (Z.mul_lt_mono_pos_r D); try done.
  - assert (A * D * (F * p) <= x * y * (F * p)) by (apply Z.mul_le_mono_nonneg_r; lia). lia.
  - assert (x * y * (F * p) < (A + 1) * D * (F * p)) by (apply Z.mul_lt_mono_pos_r; lia).
    assert (F * (y * p) <= F * (D * D)) by (apply Z.mul_le_mono_nonneg_l; lia).
    assert (D * D * (D * D - (1 + E) * p) <= D * D * (y * p)) by (apply Z.mul_le_mono_nonneg_l; lia).
    assert ((1 + E) * (D * p) * D <= (1 + E) * (D * p) * (H * F)) by (apply Z.mul_le_mono_nonneg_l; [repeat apply Z.mul_nonneg_nonneg; lia | lia]).
    assert (D * F * D < D * F * p) by (apply Z.mul_lt_mono_pos_l; [apply Z.mul_pos_pos|]; lia). unfold K. lia.
Qed.

Lemma accrued_bounds :
  c * (F * p) <= D * k * d /\ D * D * k * d <= ((c + 1 + H) * D + K * d) * (F * p).
Proof.
  pose proof factor_bounds as HA. destruct worth_facts as (_ & _ & _ & _ & _ & (HA0 & _) & Hm & Hc & _).
  assert (0 <= K) as HK by (unfold K; assert (0 <= (1 + E) * H) by (apply Z.mul_nonneg_nonneg; lia); lia).
  clearbody A p m K. clearbody c. clear v. clear x y t P.
  assert (D * D <= H * F * p) as HQ by (apply Z.mul_le_mono_nonneg; lia).
  assert (0 < F * p) as HFp by (apply Z.mul_pos_pos; lia).
  replace (H * F * p) with (H * (F * p)) in HQ by ring. set (Q := F * p) in *. clearbody Q.
  assert (0 <= k * d) as Hkd by (apply Z.mul_nonneg_nonneg; lia).
  assert (0 < D * D) as HDD by (apply Z.mul_pos_pos; lia).
  assert (0 <= D * Q) as HDQ by (apply Z.mul_nonneg_nonneg; lia).
  assert (0 <= A * Q) as HAQ by (apply Z.mul_nonneg_nonneg; lia).
  split.
  - apply (Z.mul_le_mono_pos_r _ _ (D * D)); [done|].
    assert (c * D * (D * Q) <= A * m * (D * Q)) by (apply Z.mul_le_mono_nonneg_r; lia).
    assert (A * Q * (m * D) <= D * D * D * (k * d)) by (apply Z.mul_le_mono_nonneg; lia || (apply Z.mul_nonneg_nonneg; lia)). lia.
  - apply (Z.mul_le_mono_pos_r _ _ D); [done|].
    assert (A * m * (D * Q) <= (c + 1) * D * (D * Q)) as H1 by (apply Z.mul_le_mono_nonneg_r; lia).
    assert (A * Q * (k * d - D) <= A * Q * (m * D)) as H2 by (apply Z.mul_le_mono_nonneg_l; lia).
    assert (D * D * D * (k * d) <= (A + K) * Q * (k * d)) as H3 by (apply Z.mul_le_mono_nonneg_r; lia).
    assert (A * Q * D <= D * D * D * D) as H4 by (apply Z.mul_le_mono_nonneg_r; lia).
    assert (K * (Q * d) * k <= K * (Q * d) * D) as H5
      by (apply Z.mul_le_mono_nonneg_l; [repeat apply Z.mul_nonneg_nonneg; lia | lia]).
    assert (D * D * (D * D) <= D * D * (H * Q)) as H6 by (apply Z.mul_le_mono_nonneg_l; lia).
    lia.
Qed.

Lemma worth_at_most : v * p <= d * (p + 2).
Proof.
  destruct accrued_bounds as [Hc _]. destruct worth_facts as (HP & Hpk & _ & _ & _ & _ & _ & _ & Hv).
  clearbody c P p. clearbody v. clear A m x y t.
  apply (Z.mul_le_mono_pos_r _ _ (F * D * D)); [repeat apply Z.mul_pos_pos; lia|].
  assert (v * D * (F * p * D) <= c * M * (F * p * D)) as H1 by scale.
  assert (c * (F * p) * (M * D) <= D * k * d * (M * D)) as H2 by scale.
  assert (D * k * d * (M * D) <= D * k * d * ((P + 1) * F)) as H3 by scale.
  assert (P * k * (D * d * F) <= (p + 1) * D * (D * d * F)) as H4 by scale.
  assert (k * (D * d * F) <= D * (D * d * F)) as H5 by scale.
  lia.
Qed.

Lemma worth_at_least : (d - v - 1) * (D * D) <= (K * d + (1 + H) * D) * M.
Proof.
  destruct accrued_bounds as [_ Hc]. destruct worth_facts as (HP & Hpk & _ & _ & _ & _ & _ & [Hc0 _] & Hv).
  clearbody c P p K. clearbody v. clear A m x y t.
  assert (0 < F * p) as HFp by (apply Z.mul_pos_pos; lia). apply (Z.mul_le_mono_pos_r _ _ (F * p)); [done|].
  assert (c * M * (D * (F * p)) <= (v + 1) * D * (D * (F * p))) as H1 by scale.
  assert (D * D * k * d * M <= ((c + 1 + H) * D + K * d) * (F * p) * M) as H2 by (apply Z.mul_le_mono_nonneg_r; lia).
  assert (P * F * (D * k * d) <= M * D * (D * k * d)) as H3 by scale.
  assert (p * D * (D * F * d) <= P * k * (D * F * d)) as H4 by scale.
  lia.
Qed.
End worth.

(** The period of renewal is not shorter than the one to break even: [q] is the excess of the
    premium, [s] its square root. *)
Lemma renewal_later D a q s :
  0 < D -> 0 <= a -> 0 < q <= D * D -> D <= s -> a * D / q <= a * ((D + s) * D / q) / D.
Proof.
  intros HD Ha Hq Hs.
  destruct (floor_bounds (a * D) q) as [Hz0 [Hz _]]; [lia | by apply Z.mul_nonneg_nonneg; lia |].
  destruct (floor_bounds ((D + s) * D) q) as [Hw0 [_ Hw]]; [lia | apply Z.mul_nonneg_nonneg; lia |].
  revert Hz Hw Hz0 Hw0. generalize (a * D / q) ((D + s) * D / q). intros z w Hz Hw Hz0 Hw0.
  apply Z.div_le_lower_bound; [done|]. apply (Z.mul_le_mono_pos_r _ _ q); [lia|].
  assert (z * q * D <= a * D * D) by scale.
  assert ((D + D) * D <= (D + s) * D) by scale.
  assert (a * (D * D) <= a * (w * q)) by (apply Z.mul_le_mono_nonneg_l; lia). lia.
Qed.

(** ** The same of the code *)

Section theory.
Context `{BNL : BigNumberLaws}.

Lemma breakEvenPeriodE (alpha premium fee : Decimal) :
  big fee <= big Decimal.ONE ->
  getBreakEvenPeriodInDays alpha premium fee =
  let p := big premium * (big Decimal.ONE - big fee) / Decimal.DIGITS in
  Ok (if p <=? Decimal.DIGITS then Decimal.INFINITY
      else dec (big alpha * Decimal.DIGITS / (p - Decimal.DIGITS))).
Proof.
  intros Hfee. unfold getBreakEvenPeriodInDays. rewrite subE by done. cbn [bind].
  rewrite mulE. cbn [bind]. rewrite lteDE, !big_dec by (auto with liquity; try apply Z.div_pos; unfold Decimal.DIGITS; try lia; apply Z.mul_nonneg_nonneg; auto with liquity; lia).
  change (big Decimal.ONE) with Decimal.DIGITS in *. cbn zeta.
  destruct (_ <=? Decimal.DIGITS) eqn:Hle; [done|]. apply Z.leb_gt in Hle. assert (0 < Decimal.DIGITS) by done.
  assert (0 <= big premium * (Decimal.DIGITS - big fee) / Decimal.DIGITS) by lia.
  rewrite subE; rewrite big_dec by lia; [|change (big Decimal.ONE) with Decimal.DIGITS; lia]. cbn [bind].
  change (big Decimal.ONE) with Decimal.DIGITS.
  rewrite divE by (rewrite big_dec; lia). by rewrite big_dec by lia.
Qed.

Lemma accrualFactorE (floor days alpha : Decimal) :
  0 < big floor -> 0 < big alpha ->
  getFutureBLusdAccrualFactor floor days alpha Decimal.ZERO =
  Ok (dec (Decimal.DIGITS * Decimal.DIGITS / big floor *
           (big days * Decimal.DIGITS / (big days + big alpha)) / Decimal.DIGITS)).
Proof.
  intros Hf Ha. pose proof (big_nonneg days). unfold getFutureBLusdAccrualFactor.
  rewrite subE by (change (big Decimal.ZERO) with 0; done). change (big Decimal.ZERO) with 0. cbn [bind].
  rewrite divE by done. cbn [bind]. rewrite addE. cbn [bind]. rewrite big_dec, Z.sub_0_r, dec_big by lia.
  rewrite divE by (rewrite big_dec; lia). cbn [bind]. rewrite mulE. change (big Decimal.ONE) with Decimal.DIGITS.
  rewrite (big_dec (big days + _)) by lia. assert (0 < Decimal.DIGITS) by done.
  rewrite !big_dec by (apply Z.div_pos; [apply Z.mul_nonneg_nonneg|]; lia). done.
Qed.

(** Rounded up: at least one, and the quotient covers the dividend. *)
Definition ceiling (n d : Z) : Z := (n + d - 1) / d.

Lemma ceiling_spec n d : 0 < n -> 0 < d -> 1 <= ceiling n d /\ n <= ceiling n d * d.
Proof.
  intros Hn Hd. unfold ceiling. pose proof (Z.div_mod (n + d - 1) d ltac:(lia)).
  pose proof (Z.mod_pos_bound (n + d - 1) d Hd). split; [apply Z.div_le_lower_bound; lia | lia].
Qed.

Lemma ceiling_one n d : 0 < n <= d -> ceiling n d = 1.
Proof. intros H. unfold ceiling. symmetry. apply (Z.div_unique_pos _ _ _ (n - 1)); lia. Qed.

(** C33. A bond that is sold when it breaks even gives the deposit back: what has accrued after
    the computed period, of the deposit less the fee, is worth the deposit at the market price,
    up to the rounding of the divisions.  Above the deposit it is never more than two parts in
    10^18, for whatever accrual factor and floor price, if only they are positive; the bound
    below grows with the reciprocals of the two, rounded up, and is that of the last clause when
    the factor is a day or more and the floor price is not below one. *)
Theorem break_even_breaks_even (alpha floor market fee deposit premium period : Decimal) :
  0 < big alpha -> 0 < big floor -> big fee <= big Decimal.ONE ->
  Decimal.div market floor = Ok premium ->
  getBreakEvenPeriodInDays alpha premium fee = Ok period -> period <> Decimal.INFINITY ->
  let E := ceiling (big Decimal.ONE) (big alpha) in
  let H := ceiling (big Decimal.ONE) (big floor) in
  exists factor kept accrual value,
    getFutureBLusdAccrualFactor floor period alpha Decimal.ZERO = Ok factor /\
    (let* share := Decimal.sub Decimal.ONE fee in Decimal.mul share deposit) = Ok kept /\
    Decimal.mul factor kept = Ok accrual /\ Decimal.mul accrual market = Ok value /\
    (big value - big deposit) * Decimal.DIGITS <= 2 * big deposit /\
    (big deposit - big value - 1) * (Decimal.DIGITS * Decimal.DIGITS) <=
      ((2 + (1 + E) * H) * big deposit + (1 + H) * Decimal.DIGITS) * big market /\
    (big Decimal.ONE <= big alpha -> big Decimal.ONE <= big floor ->
     (big deposit - big value - 1) * (Decimal.DIGITS * Decimal.DIGITS) <=
      (4 * big deposit + 2 * Decimal.DIGITS) * big market).
Proof.
  change (big Decimal.ONE) with Decimal.DIGITS. intros Ha HF Hfee Hprem Hper Hfin E H.
  pose proof (big_nonneg fee). pose proof (big_nonneg market). pose proof (big_nonneg deposit).
  assert (0 < Decimal.DIGITS) as HD by done.
  destruct (ceiling_spec Decimal.DIGITS (big alpha) HD Ha) as [HE HEa].
  destruct (ceiling_spec Decimal.DIGITS (big floor) HD HF) as [HH HHF]. fold E in HE, HEa. fold H in HH, HHF.
  rewrite divE in Hprem by lia. injection Hprem as <-.
  rewrite breakEvenPeriodE in Hper by done. injection Hper as Hper. cbn zeta in Hper.
  rewrite big_dec in Hper by (apply Z.div_pos; nia). change (big Decimal.ONE) with Decimal.DIGITS in Hper.
  destruct (_ <=? _) eqn:Hp in Hper; [congruence|]. apply Z.leb_gt in Hp. subst period.
  pose proof (worth_facts Decimal.DIGITS (big alpha) (big floor) (Decimal.DIGITS - big fee) (big market)
    (big deposit) HD Ha HF ltac:(lia) ltac:(lia) ltac:(lia) Hp) as (_ & _ & [Ht _] & _ & _ & [HA _] & [Hm _] & [Hc _] & [Hv _]).
  do 4 eexists. split; [apply accrualFactorE; lia|]. rewrite subE by done. cbn [bind].
  split; [apply mulE|]. split; [apply mulE|]. split; [apply mulE|].
  change (big Decimal.ONE) with Decimal.DIGITS. rewrite (big_dec (Decimal.DIGITS - _)) by lia.
  rewrite (big_dec _ Ht), (big_dec _ HA), (big_dec _ Hm), (big_dec _ Hc), (big_dec _ Hv).
  pose proof (worth_at_most Decimal.DIGITS (big alpha) (big floor) (Decimal.DIGITS - big fee) (big market)
    (big deposit) E H HD Ha HF ltac:(lia) ltac:(lia) ltac:(lia) HE HH HEa HHF Hp) as Hup.
  pose proof (worth_at_least Decimal.DIGITS (big alpha) (big floor) (Decimal.DIGITS - big fee) (big market)
    (big deposit) E H HD Ha HF ltac:(lia) ltac:(lia) ltac:(lia) HE HH HEa HHF Hp) as Hlow.
  split; [|split; [exact Hlow|]].
  - clear Hlow. revert Hup Hp.
    generalize (big market * Decimal.DIGITS / big floor * (Decimal.DIGITS - big fee) / Decimal.DIGITS).
    intros p Hup Hp. revert Hup. match goal with |- ?v * p <= _ -> _ => generalize v end.
    intros v Hup. destruct (Z.le_gt_cases v (big deposit)); [nia|].
    assert ((v - big deposit) * Decimal.DIGITS <= (v - big deposit) * p) by scale. lia.
  - intros Ha1 HF1. assert (E = 1) as HE1 by (apply ceiling_one; lia).
    assert (H = 1) as HH1 by (apply ceiling_one; lia). clearbody E H. subst E H. exact Hlow.
Qed.
End theory.

(** ** An instance *)

Section sample.
#[local] Existing Instance ZBN.

Definition sampleAlpha : Decimal := dec 10000000000000000000.
Definition sampleFloor : Decimal := dec 1100000000000000000.
Definition sampleMarket : Decimal := dec 1300000000000000000.
Definition sampleFee : Decimal := dec 30000000000000000.

Lemma break_even_breaks_even_witness :
  getBreakEvenPeriodInDays sampleAlpha (dec 1181818181818181818) sampleFee = Ok (dec 68322981366459627626) /\
  exists factor, getFutureBLusdAccrualFactor sampleFloor (dec 68322981366459627626) sampleAlpha Decimal.ZERO = Ok factor.
Proof.
  split; [vm_compute; reflexivity|].
  destruct (break_even_breaks_even sampleAlpha sampleFloor sampleMarket sampleFee
    (dec 1000000000000000000000) (dec 1181818181818181818) (dec 68322981366459627626)) as (f & _ & _ & _ & Hf & _).
  1-2: vm_compute; reflexivity.
  - vm_compute. discriminate.
  - vm_compute. reflexivity.
  - vm_compute. reflexivity.
  - vm_compute. discriminate.
  - exists f. exact Hf.
Defined.

Example a_bond_that_breaks_even :
  (let* factor := getFutureBLusdAccrualFactor sampleFloor (dec 68322981366459627626) sampleAlpha Decimal.ZERO in
   let* kept := Decimal.mul (dec 970000000000000000) (dec 1000000000000000000000) in
   let* accrual := Decimal.mul factor kept in Decimal.mul accrual sampleMarket) = Ok (dec 999999999999999998688).
Proof. vm_compute. reflexivity. Qed.
End sample.
