(* ===== verification/BondInfo.v ===== *)
(** * Bonds: what is read from the contracts

    [dev-frontend/src/components/Bonds/context/api.ts], the reading half: the market price, the
    figures of the protocol with their cache of yields, the bonds of an account, statistics,
    balances and rewards, and [getLatestData] of [useBondContracts.tsx], which reads them all.

    A promise is modelled by its outcome.  The contracts are a record with the outcome of each
    call; the responses of the web services are their decoded fields, [None] when the request
    or the decoding failed. *)

From S2P Require Import Prelude JsString BigNumber Decimal JsNumber BondMath.
From stdpp Require Import sorting.
From Stdlib Require Import Floats.SpecFloat Ascii String.

Local Open Scope string_scope.
Local Open Scope Z_scope.

(** ** Contracts *)

Record BondNFT := mkBondNFT {
  nft_balanceOf : string -> result Z;
  tokenOfOwnerByIndex : string -> Z -> result Z;
  getBondAmount : Z -> result Z;
  getBondStartTime : Z -> result Z;
  getBondEndTime : Z -> result Z;
  getBondStatus : Z -> result Z;
  tokenURI : Z -> result string;
  getBondClaimedBLUSD : Z -> result Z
}.

Record ChickenBondManager := mkManager {
  calcAccruedBLUSD : Z -> result Z;
  getBAMMLUSDDebt : result Z;
  getTreasury : result (list Z);
  getOwnedLUSDInSP : result Z;
  getTotalLUSDInCurve : result Z;
  calcSystemBackingRatio : result Z;
  CHICKEN_IN_AMM_FEE : result Z;
  calcUpdatedAccrualParameter : result Z;
  targetAverageAgeSeconds : result Z;
  m_totalWeightedStartTimes : result Z;
  getOpenBondCount : result Z;
  countChickenOut : result Z;
  countChickenIn : result Z
}.

Record ERC20 := mkERC20 { erc20_balanceOf : string -> result Z; erc20_totalSupply : result Z }.

(** [getExchangeMultipleAmount] and [calc_withdraw_one_coin_3crv] are of the registry and of the
    pool that the code connects to under fixed addresses. *)
Record CurvePool := mkCurvePool {
  get_dy : Z -> Z -> string -> result Z;
  price_oracle : result Z;
  balances : Z -> result Z;
  calc_withdraw_one_coin : string -> Z -> result Z;
  pool_token : result ERC20;
  getExchangeMultipleAmount : list string * list (list Z) -> string -> result Z;
  calc_withdraw_one_coin_3crv : string -> Z -> result Z
}.

Record Zapper := mkZapper {
  getMinLPTokens : string -> string -> result Z;
  getMinWithdrawBalanced : string -> result (Z * Z);
  getMinWithdrawLUSD : string -> result Z
}.

Record Gauge := mkGauge {
  gauge_balanceOf : string -> result Z;
  gauge_totalSupply : result Z;
  reward_count : result Z;
  reward_tokens : Z -> result string;
  claimable_reward : string -> string -> result Z
}.

(** ** Data *)

Inductive BondStatus := NON_EXISTENT | PENDING | CANCELLED | CLAIMED.

Definition BOND_STATUS : list BondStatus := [NON_EXISTENT; PENDING; CANCELLED; CLAIMED].

Inductive BLusdAmmTokenIndex := BLUSD | LUSD | BLUSD_LUSD_LP.

#[export] Instance BLusdAmmTokenIndex_eq_dec : EqDecision BLusdAmmTokenIndex.
Proof. solve_decision. Defined.

Definition tokenIndex (t : BLusdAmmTokenIndex) : Z :=
  match t with BLUSD => 0 | LUSD => 1 | BLUSD_LUSD_LP => 2 end.

(** An index out of range gives an undefined status. *)
Record Bond := mkBond {
  b_id : string; deposit : Decimal; accrued : Decimal; startTime : number; endTime : number;
  status : option BondStatus; tokenUri : string; breakEvenAccrual : Decimal; rebondAccrual : Decimal;
  breakEvenTime : number; rebondTime : number; marketValue : Decimal; rebondReturn : number;
  claimNowReturn : number; rebondRoi : number; rebondApr : number; claimedAmount : Decimal;
  bondAgeInDays : number; remainingRebondDays : number; remainingBreakEvenDays : number
}.

Record Treasury := mkTreasury { pending : Decimal; reserve : Decimal; permanent : Decimal; total : Decimal }.

(** What follows from a market price. *)
Record PriceInfo := mkPriceInfo {
  marketPricePremium : Decimal; hasMarketPremium : bool; breakEvenAccrualFactor : Decimal;
  rebondAccrualFactor : Decimal; breakEvenPeriodInDays : Decimal; rebondPeriodInDays : Decimal
}.

Record ProtocolInfo := mkProtocolInfo {
  bLusdSupply : Decimal; marketPrice : Decimal; treasury : Treasury; fairPrice : Decimal * Decimal;
  floorPrice : Decimal; claimBondFee : Decimal; alphaAccrualFactor : Decimal; priceInfo : PriceInfo;
  simulatedMarketPrice : Decimal; yieldAmplification : option Decimal; bLusdApr : option Decimal;
  bLusdLpApr : option Decimal; controllerTargetAge : Decimal; averageBondAge : Decimal;
  floorPriceWithoutPendingHarvests : Decimal; windDownPrice : Decimal
}.

Record Stats := mkStats {
  pendingBonds : Decimal; cancelledBonds : Decimal; claimedBonds : Decimal; totalBonds : Decimal
}.

(** ** Yields *)

Record CachedYearnApys := mkApys {
  lusd3Crv : option Decimal; stabilityPool : option Decimal; bLusdLusd3Crv : option Decimal
}.

Definition cachedApys : CachedYearnApys := mkApys None None None.

(** A vault: the address of its token and its yield, where there are any. *)
Record YearnVault := mkVault { vaultToken : option string; net_apy : option number }.

Definition LUSD_3CRV_POOL_ADDRESS : string := "0xEd279fDD11cA84bEef15AF5D39BB4d4bEE23F0cA".
Definition LUSD_TOKEN_ADDRESS : string := "0x5f98805A4E8be255a32880FDeC7F6728C6568bA0".
Definition BLUSD_LUSD_3CRV_POOL_ADDRESS : string := "0x74ED5d42203806c8CDCf2F04Ca5F60DC777b901c".
Definition CRV_TOKEN_ADDRESS : string := "0xD533a949740bb3306d119CC777fa900bA034cd52".
Definition CURVE_POOL_ID : string := "factory-crypto-134".
Definition AddressZero : string := "0x0000000000000000000000000000000000000000".

Definition TOKEN_ADDRESS_NAME_MAP (address : string) : option string :=
  if String.eqb address LUSD_TOKEN_ADDRESS then Some "LUSD"
  else if String.eqb address CRV_TOKEN_ADDRESS then Some "CRV" else None.

Section info.
Context `{BN : BigNumber} `{MF : MathFunctions}.

(** The responses of the Yearn service, and of the two Curve services: the pools with the yields
    of their gauges, and the yields of the pools. *)
Definition cacheYearnVaultApys (response : option (list YearnVault)) (c : CachedYearnApys) : CachedYearnApys :=
  match lusd3Crv c, response with
  | Some _, _ | _, None => c
  | None, Some vaults =>
      let apyOf address :=
        v ← List.find (fun v => match vaultToken v with Some a => String.eqb a address | None => false end) vaults;
        net_apy v in
      match apyOf LUSD_3CRV_POOL_ADDRESS, apyOf LUSD_TOKEN_ADDRESS with
      | Some lusd3CrvApy, Some stabilityPoolApy =>
          match decimalFrom lusd3CrvApy with
          | Err _ => c
          | Ok l =>
              let c := mkApys (Some l) (stabilityPool c) (bLusdLusd3Crv c) in
              match decimalFrom stabilityPoolApy with
              | Err _ => c
              | Ok s => mkApys (lusd3Crv c) (Some s) (bLusdLusd3Crv c)
              end
          end
      | _, _ => c
      end
  end.

Record CurveResponse := mkCurveResponse {
  poolData : option (list (string * list number));
  poolDetails : option (list (string * number))
}.

Definition cacheCurveLpApy (response : option CurveResponse) (c : CachedYearnApys) : CachedYearnApys :=
  match response with
  | None => c
  | Some response =>
      let rewardsApr :=
        pools ← poolData response;
        pool ← List.find (fun p => String.eqb (fst p) CURVE_POOL_ID) pools;
        Some (fold_left Number.add (snd pool) (Number.ofZ 0)) in
      let baseApr :=
        pools ← poolDetails response;
        pool ← List.find (fun p => String.eqb (fst p) BLUSD_LUSD_3CRV_POOL_ADDRESS) pools;
        Some (snd pool) in
      match rewardsApr, baseApr with
      | None, None => c
      | _, _ =>
          let apr := Number.add (default (Number.ofZ 0) rewardsApr) (default (Number.ofZ 0) baseApr) in
          match decimalFrom apr with
          | Ok apr => mkApys (lusd3Crv c) (stabilityPool c) (Some apr)
          | Err _ => c
          end
      end
  end.

(** ** Swaps and prices *)

Definition getOtherToken (thisToken : BLusdAmmTokenIndex) : BLusdAmmTokenIndex :=
  match thisToken with BLUSD => LUSD | _ => BLUSD end.

(** The addresses of the deployment on the main network. *)
Variables BLUSD_TOKEN_ADDRESS BLUSD_AMM_ADDRESS : string.

Definition bLusdToLusdRoute : list string :=
  [BLUSD_TOKEN_ADDRESS; BLUSD_AMM_ADDRESS; LUSD_3CRV_POOL_ADDRESS; LUSD_3CRV_POOL_ADDRESS; LUSD_TOKEN_ADDRESS].
Definition lusdToBLusdRoute : list string := rev bLusdToLusdRoute.

Definition getRoute (inputToken : BLusdAmmTokenIndex) : list string * list (list Z) :=
  let fromBLusd := bool_decide (inputToken = BLUSD) in
  ((if fromBLusd then bLusdToLusdRoute else lusdToBLusdRoute) ++
     [AddressZero; AddressZero; AddressZero; AddressZero],
   [if fromBLusd then [0; 1; 3] else [0; 0; 6]; if fromBLusd then [0; 0; 9] else [1; 0; 3];
    [0; 0; 0]; [0; 0; 0]])%list.

Definition getExpectedSwapOutput (inputToken : BLusdAmmTokenIndex) (inputAmount : Decimal)
    (bLusdAmm : CurvePool) : result Decimal :=
  let* dy := get_dy bLusdAmm (tokenIndex inputToken) (tokenIndex (getOtherToken inputToken))
               (Decimal.hex inputAmount) in
  decimalify dy.

Definition getExpectedSwapOutputMainnet (inputToken : BLusdAmmTokenIndex) (inputAmount : Decimal)
    (bLusdAmm : CurvePool) : result Decimal :=
  let* bLusdAmmBalance := balances bLusdAmm 0 in
  let* one := Decimal.from (FromNumber "1") in
  let* reciprocal := Decimal.div one (FromNumber "1.29") in
  if bn_eq bLusdAmmBalance 0 then Decimal.div inputAmount reciprocal
  else
    let* amount := getExchangeMultipleAmount bLusdAmm (getRoute inputToken) (Decimal.hex inputAmount) in
    decimalify amount.

Definition marginalInputAmount : result Decimal := Decimal.div Decimal.ONE (FromNumber "1000").

(** [try { ... } catch]: a failure of the first is followed by the second. *)
Definition orElse {A} (m m' : result A) : result A := match m with Ok a => Ok a | Err _ => m' end.

Definition getBlusdAmmPrice (bLusdAmm : CurvePool) : result Decimal :=
  let* marginal := marginalInputAmount in
  orElse
    (let* output := getExpectedSwapOutput BLUSD marginal bLusdAmm in Decimal.div output marginal)
    (let* oracle := price_oracle bLusdAmm in
     let* oracle := decimalify oracle in Decimal.div Decimal.ONE oracle).

Definition getBlusdAmmPriceMainnet (bLusdAmm : CurvePool) : result Decimal :=
  let* marginal := marginalInputAmount in
  orElse
    (let* output := getExpectedSwapOutputMainnet BLUSD marginal bLusdAmm in Decimal.div output marginal)
    (let* oracle := price_oracle bLusdAmm in
     let* oraclePrice := decimalify oracle in
     let* output := calc_withdraw_one_coin_3crv bLusdAmm (Decimal.hex marginal) 0 in
     let* marginalOutputAmount := decimalify output in
     let* price := Decimal.div marginalOutputAmount marginal in
     Decimal.div price oraclePrice).

(** ** The protocol *)

Definition _getProtocolInfo (marketPrice floorPrice claimBondFee alphaAccrualFactor : Decimal) :
    result PriceInfo :=
  let* marketPricePremium := Decimal.div marketPrice floorPrice in
  let* kept := Decimal.sub Decimal.ONE claimBondFee in
  let* effectivePremium := Decimal.mul marketPricePremium kept in
  let hasMarketPremium := Decimal.gtD effectivePremium Decimal.ONE in
  let* breakEvenPeriodInDays := getBreakEvenPeriodInDays alphaAccrualFactor marketPricePremium claimBondFee in
  let* rebondPeriodInDays := getRebondPeriodInDays alphaAccrualFactor marketPricePremium claimBondFee in
  let* breakEvenAccrualFactor :=
    getFutureBLusdAccrualFactor floorPrice breakEvenPeriodInDays alphaAccrualFactor Decimal.ZERO in
  let* rebondAccrualFactor :=
    getFutureBLusdAccrualFactor floorPrice rebondPeriodInDays alphaAccrualFactor Decimal.ZERO in
  Ok (mkPriceInfo marketPricePremium hasMarketPremium breakEvenAccrualFactor rebondAccrualFactor
        breakEvenPeriodInDays rebondPeriodInDays).

Definition isUndefined {A} (o : option A) : bool := match o with None => true | Some _ => false end.

(** [result.then(decimalify)] *)
Definition thenDecimalify (m : result Z) : result Decimal := let* b := m in decimalify b.

(** What is known of the yields once their requests, if any, have been answered. *)
Definition answeredApys (yearn : option (list YearnVault)) (curve : option CurveResponse)
    (cached : CachedYearnApys) : CachedYearnApys :=
  if isUndefined (lusd3Crv cached) || isUndefined (stabilityPool cached) || isUndefined (bLusdLusd3Crv cached)
  then cacheCurveLpApy curve (cacheYearnVaultApys yearn cached) else cached.

(** [_treasury[0]] and so on: an undefined entry is an error when it is added. *)
Definition treasuryOf (buckets : list Decimal) : result Treasury :=
  match buckets with
  | pending :: reserve :: permanent :: _ =>
      let* sum := Decimal.add pending reserve in
      let* total := Decimal.add sum permanent in
      Ok (mkTreasury pending reserve permanent total)
  | _ => Err Trap
  end.

(** The part that needs the yields: the two of [bLusdApr] and the fair price. *)
Definition yieldFigures (apys : CachedYearnApys) (treasury : Treasury)
    (protocolLusdInStabilityPool protocolLusdInCurve bLusdSupply : Decimal) (fairPrice : Decimal * Decimal) :
    result (option Decimal * option Decimal * (Decimal * Decimal)) :=
  match lusd3Crv apys, stabilityPool apys with
  | Some curveApy, Some poolApy =>
      let* hasReserve := Decimal.gt (reserve treasury) (FromNumber "0") in
      if hasReserve then
        let* protocolStabilityPoolYield := Decimal.mul poolApy protocolLusdInStabilityPool in
        let* protocolCurveYield := Decimal.mul curveApy protocolLusdInCurve in
        let* yield := Decimal.add protocolStabilityPoolYield protocolCurveYield in
        let* bLusdApr := Decimal.div yield (reserve treasury) in
        let* yieldAmplification := Decimal.div bLusdApr poolApy in
        let* relative := Decimal.div curveApy poolApy in
        let* inCurve := Decimal.mul protocolLusdInCurve relative in
        let* owned := Decimal.sub protocolLusdInStabilityPool (pending treasury) in
        let* lower := Decimal.add owned inCurve in
        let* lower := Decimal.div lower bLusdSupply in
        let* upper := Decimal.add protocolLusdInStabilityPool inCurve in
        let* upper := Decimal.div upper bLusdSupply in
        Ok (Some bLusdApr, Some yieldAmplification, (lower, upper))
      else Ok (None, None, fairPrice)
  | _, _ => Ok (None, None, fairPrice)
  end.

(** The outcome, and the cache once all requests are answered; the yield of the liquidity pool
    is taken from the cache before they are. *)
Definition getProtocolInfo (now : number) (bLusdToken : ERC20) (bLusdAmm : CurvePool)
    (manager : ChickenBondManager) (isMainnet : bool) (yearn : option (list YearnVault))
    (curve : option CurveResponse) (cached : CachedYearnApys) : result ProtocolInfo * CachedYearnApys :=
  let figures :=
    let* bLusdSupply := thenDecimalify (erc20_totalSupply bLusdToken) in
    let* marketPrice := if isMainnet then getBlusdAmmPriceMainnet bLusdAmm else getBlusdAmmPrice bLusdAmm in
    let* buckets := getTreasury manager in
    let* buckets := traverse decimalify buckets in
    let* owned := thenDecimalify (getOwnedLUSDInSP manager) in
    let* inCurve := thenDecimalify (getTotalLUSDInCurve manager) in
    let* backing := thenDecimalify (calcSystemBackingRatio manager) in
    let* fee := thenDecimalify (CHICKEN_IN_AMM_FEE manager) in
    let* alphaSeconds := thenDecimalify (calcUpdatedAccrualParameter manager) in
    let* alpha := Decimal.div alphaSeconds (FromNumber "86400") in
    let* target := targetAverageAgeSeconds manager in
    let* target := Decimal.from (FromString (bn_toString target)) in
    let* weighted := thenDecimalify (m_totalWeightedStartTimes manager) in
    let* debt := thenDecimalify (getBAMMLUSDDebt manager) in
    let* treasury := treasuryOf buckets in
    Ok (bLusdSupply, marketPrice, treasury, owned, inCurve, backing, fee, alpha, target, weighted, debt) in
  match figures with
  | Err e => (Err e, cached)
  | Ok (bLusdSupply, marketPrice, treasury, owned, inCurve, backing, fee, alpha, target, weighted, debt) =>
      let apys := answeredApys yearn curve cached in
      (let* protocolLusdInStabilityPool := Decimal.add (pending treasury) owned in
       let floorPrice := if Decimal.isZero bLusdSupply then Decimal.ONE else backing in
       let* floorPriceWithoutPendingHarvests :=
         if Decimal.isZero bLusdSupply then Ok Decimal.ONE
         else getFloorPrice debt inCurve (pending treasury) (permanent treasury) bLusdSupply in
       let* averageBondAge := getAverageBondAgeInSeconds now weighted (pending treasury) in
       let* acquired := Decimal.sub (total treasury) (pending treasury) in
       let* lower := Decimal.div acquired bLusdSupply in
       let* upper := Decimal.div (total treasury) bLusdSupply in
       let* price := _getProtocolInfo marketPrice floorPrice fee alpha in
       let* windDown := Decimal.add (reserve treasury) (permanent treasury) in
       let* windDownPrice := Decimal.div windDown bLusdSupply in
       let* '(bLusdApr, yieldAmplification, fairPrice) :=
         yieldFigures apys treasury protocolLusdInStabilityPool inCurve bLusdSupply (lower, upper) in
       Ok (mkProtocolInfo bLusdSupply marketPrice treasury fairPrice floorPrice fee alpha price marketPrice
             yieldAmplification bLusdApr (bLusdLusd3Crv cached) target averageBondAge
             floorPriceWithoutPendingHarvests windDownPrice),
       apys)
  end.

Definition getStats (manager : ChickenBondManager) : result Stats :=
  let* pendingBonds := getOpenBondCount manager in
  let* cancelledBonds := countChickenOut manager in
  let* claimedBonds := countChickenIn manager in
  let totalBonds := bn_add (bn_add pendingBonds cancelledBonds) claimedBonds in
  let* p := Decimal.from (FromString (bn_toString pendingBonds)) in
  let* x := Decimal.from (FromString (bn_toString cancelledBonds)) in
  let* c := Decimal.from (FromString (bn_toString claimedBonds)) in
  let* t := Decimal.from (FromString (bn_toString totalBonds)) in
  Ok (mkStats p x c t).

(** ** The bonds of an account *)

(** A date that is not known. *)
Variable UNKNOWN_DATE : number.
(** The image in the encoded description of a bond. *)
Variable getTokenUri : string -> result string.

(** [BOND_STATUS[i]] *)
Definition bondStatus (i : Z) : option BondStatus := if i <? 0 then None else BOND_STATUS !! Z.to_nat i.

(** What has been read of one bond. *)
Record BondReads := mkReads {
  r_id : Z; r_deposit : Z; r_accrued : Z; r_startTime : Z; r_endTime : Z; r_status : Z;
  r_tokenUri : string; r_claimed : Z
}.

Definition readBond (nft : BondNFT) (manager : ChickenBondManager) (id : Z) : result BondReads :=
  let* deposit := getBondAmount nft id in
  let* accrued := calcAccruedBLUSD manager id in
  let* start := getBondStartTime nft id in
  let* end_ := getBondEndTime nft id in
  let* status := getBondStatus nft id in
  let* uri := tokenURI nft id in
  let* claimed := getBondClaimedBLUSD nft id in
  Ok (mkReads id deposit accrued start end_ status uri claimed).

(** [parseInt]-free printing of an id that is a safe integer. *)
Definition idText (id : Z) : result string := rmap Number.toString (numberify id).

Definition accrualAt (info : ProtocolInfo) (period depositMinusClaimBondFee : Decimal) : result Decimal :=
  if bool_decide (period = Decimal.INFINITY) then Ok Decimal.INFINITY
  else
    let* factor := getFutureBLusdAccrualFactor (floorPrice info) period (alphaAccrualFactor info) Decimal.ZERO in
    Decimal.mul factor depositMinusClaimBondFee.

Definition timeAt (now : number) (info : ProtocolInfo) (bondAgeInSeconds period : Decimal) : result number :=
  if bool_decide (period = Decimal.INFINITY) then Ok UNKNOWN_DATE
  else
    getRebondOrBreakEvenTimeWithControllerAdjustment now bondAgeInSeconds (controllerTargetAge info)
      (averageBondAge info) period.

Definition bondOf (now : number) (info : ProtocolInfo) (r : BondReads) : result Bond :=
  let* id := idText (r_id r) in
  let* deposit := decimalify (r_deposit r) in
  let* accrued := decimalify (r_accrued r) in
  let* startTime := rmap milliseconds (numberify (r_startTime r)) in
  let* endTime := rmap milliseconds (numberify (r_endTime r)) in
  let* tokenUri := getTokenUri (r_tokenUri r) in
  let bondAgeInDays := getBondAgeInDays now startTime in
  let premium := marketPricePremium (priceInfo info) in
  let* rebondPeriodInDays := getRebondPeriodInDays (alphaAccrualFactor info) premium (claimBondFee info) in
  let* bondAgeMs := decimalFrom (Number.sub now startTime) in
  let* bondAgeInSeconds := Decimal.div bondAgeMs (FromNumber "1000") in
  let remaining := getRemainingRebondOrBreakEvenDays bondAgeInSeconds (controllerTargetAge info)
                     (averageBondAge info) in
  let* remainingRebondDays := remaining rebondPeriodInDays in
  let* breakEvenPeriodInDays := getBreakEvenPeriodInDays (alphaAccrualFactor info) premium (claimBondFee info) in
  let* remainingBreakEvenDays := remaining breakEvenPeriodInDays in
  let* share := Decimal.sub Decimal.ONE (claimBondFee info) in
  let* depositMinusClaimBondFee := Decimal.mul share deposit in
  let* rebondAccrual := accrualAt info rebondPeriodInDays depositMinusClaimBondFee in
  let* breakEvenAccrual := accrualAt info breakEvenPeriodInDays depositMinusClaimBondFee in
  let* breakEvenTime := timeAt now info bondAgeInSeconds breakEvenPeriodInDays in
  let* rebondTime := timeAt now info bondAgeInSeconds rebondPeriodInDays in
  let* marketValue := Decimal.mul accrued (marketPrice info) in
  let returnOf amount :=
    if Decimal.isZero accrued then Ok (Number.ofZ 0) else getReturn amount deposit (marketPrice info) in
  let* claimNowReturn := returnOf accrued in
  let* rebondReturn := returnOf rebondAccrual in
  let* depositFloat := toFloat deposit in
  let rebondRoi := Number.div rebondReturn depositFloat in
  let rebondApr :=
    Number.mul rebondRoi (Number.div (Number.ofZ 365) (Number.add bondAgeInDays remainingRebondDays)) in
  let* claimed := numberify (r_claimed r) in
  let* claimedAmount := decimalFrom claimed in
  Ok (mkBond id deposit accrued startTime endTime (bondStatus (r_status r)) tokenUri breakEvenAccrual
        rebondAccrual breakEvenTime rebondTime marketValue rebondReturn claimNowReturn rebondRoi rebondApr
        claimedAmount bondAgeInDays remainingRebondDays remainingBreakEvenDays).

(** [sort]: stable, latest start first. *)
Fixpoint insertBond (b : Bond) (bonds : list Bond) : list Bond :=
  match bonds with
  | [] => [b]
  | b' :: rest => if Number.lt (startTime b) (startTime b') then b' :: insertBond b rest else b :: bonds
  end.

Definition sortBonds (bonds : list Bond) : list Bond := fold_right insertBond [] bonds.

(** A failure anywhere gives no bonds. *)
Definition getAccountBonds (now : number) (account : string) (nft : BondNFT) (manager : ChickenBondManager)
    (info : ProtocolInfo) : list Bond :=
  let bonds :=
    let* balance := nft_balanceOf nft account in
    let* totalBonds := bn_toNumber balance in
    guard 0 <=? totalBonds else JsError "Invalid array length" in
    let* bondIds := traverse (fun i => tokenOfOwnerByIndex nft account (Z.of_nat i)) (seq 0 (Z.to_nat totalBonds)) in
    let* reads := traverse (readBond nft manager) bondIds in
    let* bonds := traverse (bondOf now info) reads in
    Ok (sortBonds bonds) in
  match bonds with Ok bonds => bonds | Err _ => [] end.

(** ** Balances, expected amounts and rewards *)

Definition getTokenBalance (account : string) (token : ERC20) : result Decimal :=
  thenDecimalify (erc20_balanceOf token account).

Definition getTokenTotalSupply (token : ERC20) : result Decimal := thenDecimalify (erc20_totalSupply token).

Definition getLpToken (pool : CurvePool) : result ERC20 := pool_token pool.

Definition getCoinBalances (pool : CurvePool) : result (Decimal * Decimal) :=
  let* a := thenDecimalify (balances pool 0) in
  let* b := thenDecimalify (balances pool 1) in Ok (a, b).

Definition getExpectedLpTokensAmountViaZapper (bLusdAmount lusdAmount : Decimal) (zapper : Zapper) :
    result Decimal :=
  let* amount := thenDecimalify (getMinLPTokens zapper (Decimal.hex bLusdAmount) (Decimal.hex lusdAmount)) in
  Decimal.mul amount (FromNumber "0.99").

Definition getExpectedLpTokens (bLusdAmount lusdAmount : Decimal) (zapper : Zapper) : result Decimal :=
  orElse (getExpectedLpTokensAmountViaZapper bLusdAmount lusdAmount zapper) (Ok Decimal.ZERO).

(** The [Map] as the list of its entries; the output ["both"] is [None]. *)
Definition getExpectedWithdrawal (burnLp : Decimal) (output : option BLusdAmmTokenIndex) (zapper : Zapper)
    (amm : CurvePool) : result (list (BLusdAmmTokenIndex * Decimal)) :=
  match output with
  | None =>
      let* '(bLusdAmount, lusdAmount) := getMinWithdrawBalanced zapper (Decimal.hex burnLp) in
      let* bLusdAmount := decimalify bLusdAmount in
      let* lusdAmount := decimalify lusdAmount in
      Ok [(BLUSD, bLusdAmount); (LUSD, lusdAmount)]
  | Some output =>
      let* amount :=
        thenDecimalify
          (if bool_decide (output = LUSD) then getMinWithdrawLUSD zapper (Decimal.hex burnLp)
           else calc_withdraw_one_coin amm (Decimal.hex burnLp) 0) in
      Ok [(output, amount)]
  end.

Definition shortAddress (address : string) : string :=
  take_str 5 address +:+ ".." +:+ Number.drop_str (String.length address - 3) address.

(** A reward: name, address and amount. *)
Definition lpReward (account : string) (gauge : Gauge) (tokenIndex : Z) : result (string * string * Decimal) :=
  let* tokenAddress := reward_tokens gauge tokenIndex in
  let* tokenRewards := thenDecimalify (claimable_reward gauge account tokenAddress) in
  Ok (default (shortAddress tokenAddress) (TOKEN_ADDRESS_NAME_MAP tokenAddress), tokenAddress, tokenRewards).

Definition getLpRewards (account : string) (gauge : Gauge) : result (list (string * string * Decimal)) :=
  let* count := reward_count gauge in
  let* totalRewardTokens := bn_toNumber count in
  traverse (fun i => lpReward account gauge (Z.of_nat i)) (seq 0 (Z.to_nat totalRewardTokens)).

(** ** Everything at once *)

Record BondsInformation := mkInformation {
  i_protocolInfo : ProtocolInfo; i_bonds : list Bond; i_stats : Stats; i_bLusdBalance : Decimal;
  i_lusdBalance : Decimal; i_lpTokenBalance : Decimal; i_stakedLpTokenBalance : Decimal;
  i_lpTokenSupply : Decimal; i_bLusdAmmBLusdBalance : Decimal; i_bLusdAmmLusdBalance : Decimal;
  i_lpRewards : list (string * string * Decimal)
}.

(** The contracts that have been found. *)
Record Contracts := mkContracts {
  lusdToken : option ERC20; bLusdToken : option ERC20; bondNft : option BondNFT;
  chickenBondManager : option ChickenBondManager; bLusdAmm : option CurvePool;
  bLusdAmmZapper : option Zapper; bLusdGauge : option Gauge
}.

Definition getLatestData (now : number) (contracts : Contracts) (isMainnet : bool) (account : string)
    (yearn : option (list YearnVault)) (curve : option CurveResponse) (cached : CachedYearnApys) :
    result (option BondsInformation) * CachedYearnApys :=
  match lusdToken contracts, bondNft contracts, chickenBondManager contracts, bLusdToken contracts,
        bLusdAmm contracts, bLusdGauge contracts with
  | Some lusdToken, Some bondNft, Some manager, Some bLusdToken, Some amm, Some gauge =>
      let '(info, cached) := getProtocolInfo now bLusdToken amm manager isMainnet yearn curve cached in
      (let* info := info in
       let bonds := getAccountBonds now account bondNft manager info in
       let* stats := getStats manager in
       let* lpToken := getLpToken amm in
       let* bLusdBalance := getTokenBalance account bLusdToken in
       let* lusdBalance := getTokenBalance account lusdToken in
       let* lpTokenBalance := getTokenBalance account lpToken in
       let* staked := if isMainnet then thenDecimalify (gauge_balanceOf gauge account) else Ok Decimal.ZERO in
       let* lpTokenSupply := getTokenTotalSupply lpToken in
       let* '(ammBLusd, ammLusd) := getCoinBalances amm in
       let* rewards := if isMainnet then getLpRewards account gauge else Ok [] in
       Ok (Some (mkInformation info bonds stats bLusdBalance lusdBalance lpTokenBalance staked lpTokenSupply
                   ammBLusd ammLusd rewards)), cached)
  | _, _, _, _, _, _ => (Ok None, cached)
  end.
End info.

(** ** Numbers *)

Lemma lt_asymmetric (x y : number) : Number.lt x y = true -> Number.lt y x = false.
Proof.
  unfold Number.lt, SpecFloat.SFltb.
  destruct x as [[]|[]| |[] m e], y as [[]|[]| |[] m' e']; cbn; try done;
    rewrite (Z.compare_antisym e e'); destruct (Z.compare_spec e e'); cbn; try done;
    change (Pos.compare_cont Eq m m') with (Pos.compare m m');
    change (Pos.compare_cont Eq m' m) with (Pos.compare m' m);
    rewrite (Pos.compare_antisym m m'); by destruct (Pos.compare m m').
Qed.

(** ** The bonds of an account *)

Definition newer (a b : Bond) : Prop := Number.lt (startTime a) (startTime b) = false.

Lemma insertBond_perm b bonds : insertBond b bonds ≡ₚ b :: bonds.
Proof.
  induction bonds as [|b' rest IH]; cbn; [done|]. destruct (Number.lt _ _); [|done].
  rewrite IH. apply Permutation_swap.
Qed.

Lemma sortBonds_perm bonds : sortBonds bonds ≡ₚ bonds.
Proof. induction bonds as [|b rest IH]; cbn; [done|]. by rewrite insertBond_perm, IH. Qed.

Lemma insertBond_sorted b bonds : Sorted newer bonds -> Sorted newer (insertBond b bonds).
Proof.
  induction 1 as [|b' rest Hs IH Hr]; cbn; [by repeat constructor|].
  destruct (Number.lt (startTime b) (startTime b')) eqn:Hlt; [|by repeat constructor].
  constructor; [done|]. apply lt_asymmetric in Hlt.
  destruct rest as [|b2 rest]; cbn; [by constructor|].
  destruct (Number.lt (startTime b) (startTime b2)); constructor; [by inversion Hr|done].
Qed.

Lemma sortBonds_sorted bonds : Sorted newer (sortBonds bonds).
Proof. induction bonds; cbn; [constructor|by apply insertBond_sorted]. Qed.

Section theory.
Context `{BNL : BigNumberLaws} `{MF : MathFunctions}.
Variables (BLUSD_TOKEN_ADDRESS BLUSD_AMM_ADDRESS : string) (UNKNOWN_DATE : number)
  (getTokenUri : string -> result string).

Notation getAccountBonds := (getAccountBonds UNKNOWN_DATE getTokenUri).

Lemma bondOf_id now info r b : bondOf UNKNOWN_DATE getTokenUri now info r = Ok b -> idText (r_id r) = Ok (b_id b).
Proof. unfold bondOf. intros H. inv_ok; by cbn [b_id]. Qed.

Lemma readBond_id nft manager id r : readBond nft manager id = Ok r -> r_id r = id.
Proof. unfold readBond. intros H. by inv_ok. Qed.

(** The bonds of an account are listed with the latest first; either all of them, each once,
    or, when anything about any of them cannot be read or computed, none. *)
Theorem account_bonds_all_or_none now account nft manager info :
  let bonds := getAccountBonds now account nft manager info in
  Sorted newer bonds /\
  (bonds = [] \/
   exists total ids, nft_balanceOf nft account = Ok total /\ List.length ids = Z.to_nat total /\
     (forall i id, ids !! i = Some id -> tokenOfOwnerByIndex nft account (Z.of_nat i) = Ok id) /\
     List.map (fun b => Ok (b_id b)) bonds ≡ₚ List.map idText ids).
Proof.
  cbn zeta. unfold BondInfo.getAccountBonds. destruct (bind _ _) as [bonds|e] eqn:H; [|by split; [constructor|left]].
  inv_ok. split; [apply sortBonds_sorted|right].
  match goal with H : bn_toNumber _ = Ok ?n |- _ => rewrite bn_toNumberE in H; destruct (_ <? _) in H; [|done]; injection H as <- end.
  repeat match goal with H : traverse _ _ = Ok _ |- _ => apply traverse_Ok in H end.
  match goal with H1 : Forall2 _ (seq _ _) ?ids, H2 : Forall2 _ ?ids ?reads, H3 : Forall2 _ ?reads ?bs |- _ =>
    rename H1 into Hids; rename H2 into Hreads; rename H3 into Hbonds; rename bs into listed end.
  match goal with H : nft_balanceOf _ _ = Ok ?z |- _ => exists z end.
  eexists. split; [done|]. split; [by rewrite <- (Forall2_length _ _ _ Hids), length_seq|]. split.
  - intros i id Hi. destruct (Forall2_lookup_r _ _ _ _ _ Hids Hi) as (n & Hn & Hid).
    apply lookup_seq in Hn as [-> _]. exact Hid.
  - rewrite sortBonds_perm. apply Permutation_refl'. clear Hids.
    revert listed Hbonds. induction Hreads as [|id r ids reads Hr _ IH]; intros listed Hb; inversion Hb; subst; cbn.
    + done.
    + f_equal; [|by apply IH]. rewrite <- (readBond_id _ _ _ _ Hr). symmetry. by eapply bondOf_id.
Qed.

(** ** No pending bonds *)

Lemma bond_decimalifyE z : 0 <= z -> decimalify z = Ok (dec z).
Proof.
  intros Hz. unfold decimalify, Decimal.fromBigNumberString. rewrite bn_from_toHexString by done.
  cbn [bind]. by apply newE.
Qed.

(** Without pending bonds their average age is that of NaN. *)
Lemma averageAge_without_bonds now weighted :
  getAverageBondAgeInSeconds now weighted (dec 0) = Err (Decimal.badFormat "NaN").
Proof.
  unfold getAverageBondAgeInSeconds, Decimal.div. rewrite fromE. cbn [bind]. rewrite isZeroE.
  change (big (dec 0) =? 0) with true. cbn [bind]. unfold toFloat, Decimal.toString. rewrite infiniteE.
  change (big Decimal.INFINITY =? 2 ^ 256 - 1) with true. cbn [rmap bind].
  change (Number.mul (Number.round (Number.parseFloat infinitySign)) (Number.ofZ 1000)) with S754_nan.
  unfold decimalFrom. by replace (Number.sub now S754_nan) with S754_nan by by destruct now.
Qed.

(** Without any bond pending nothing can be shown: the average age of the pending bonds is
    then computed from a number that is none, which [Decimal] refuses, and all that is read
    is lost with it. *)
Lemma no_pending_bonds_no_info now contracts isMainnet account yearn curve cached manager others info :
  chickenBondManager contracts = Some manager -> getTreasury manager = Ok (0 :: others) ->
  fst (getLatestData BLUSD_TOKEN_ADDRESS BLUSD_AMM_ADDRESS UNKNOWN_DATE getTokenUri now contracts isMainnet
         account yearn curve cached) <> Ok (Some info).
Proof.
  intros Hm Ht. unfold getLatestData. rewrite Hm.
  destruct (lusdToken contracts) as [lusd|], (bondNft contracts) as [nft|], (bLusdToken contracts) as [blusd|],
    (bLusdAmm contracts) as [amm|], (bLusdGauge contracts) as [gauge|]; try done.
  destruct (getProtocolInfo _ _ now blusd amm manager isMainnet yearn curve cached) as [i c] eqn:Hp.
  cbn [fst]. intros H. apply bind_Ok in H as (i' & -> & _). revert Hp. unfold getProtocolInfo. rewrite Ht.
  destruct (bind _ _) as [figures|e] eqn:Hf; [|congruence].
  apply bind_Ok in Hf as (supply & _ & Hf). apply bind_Ok in Hf as (price & _ & Hf). cbn [bind traverse] in Hf.
  rewrite (bond_decimalifyE 0) in Hf by done. cbn [bind] in Hf.
  apply bind_Ok in Hf as (buckets & (rest & _ & [= <-])%bind_Ok & Hf).
  do 10 (apply bind_Ok in Hf as (? & _ & Hf)). apply bind_Ok in Hf as (treasury & Htr & [= <-]).
  assert (pending treasury = dec 0) as Hpend.
  { unfold treasuryOf in Htr. destruct rest as [|reserve [|permanent rest]]; [done..|]. by inv_ok. }
  intros [= Hinfo _]. rewrite Hpend in Hinfo. apply bind_Ok in Hinfo as (? & _ & Hinfo).
  apply bind_Ok in Hinfo as (? & _ & Hinfo). rewrite averageAge_without_bonds in Hinfo. done.
Qed.

(** ** The two periods *)

Lemma rebondPeriodE (alpha premium fee : Decimal) :
  big fee <= big Decimal.ONE ->
  getRebondPeriodInDays alpha premium fee =
  let p := big premium * (big Decimal.ONE - big fee) / Decimal.DIGITS in
  if p <=? Decimal.DIGITS then Ok Decimal.INFINITY
  else
    let* float := toFloat (dec p) in
    let* root := decimalFrom (Number.sqrt float) in
    Ok (dec (big alpha * ((Decimal.DIGITS + big root) * Decimal.DIGITS / (p - Decimal.DIGITS)) / Decimal.DIGITS)).
Proof.
  intros Hfee. unfold getRebondPeriodInDays. rewrite subE by done. cbn [bind]. rewrite mulE. cbn [bind].
  pose proof (big_nonneg premium). pose proof (big_nonneg fee). assert (0 < Decimal.DIGITS) as HD by done.
  change (big Decimal.ONE) with Decimal.DIGITS in *.
  rewrite (big_dec (_ - _)) by lia. rewrite (Z.mul_comm (_ - _)). cbn zeta. rewrite lteDE.
  change (big Decimal.ONE) with Decimal.DIGITS.
  set (p := big premium * _ / _). assert (0 <= p) by (apply Z.div_pos; nia).
  rewrite big_dec by done. destruct (p <=? Decimal.DIGITS) eqn:Hp; [done|]. apply Z.leb_gt in Hp.
  destruct (toFloat _) as [float|]; [cbn [bind]|done]. destruct (decimalFrom _) as [root|]; [cbn [bind]|done].
  rewrite addE. cbn [bind]. pose proof (big_nonneg root). change (big Decimal.ONE) with Decimal.DIGITS.
  rewrite subE by (rewrite big_dec by done; change (big Decimal.ONE) with Decimal.DIGITS; lia).
  rewrite (big_dec p) by done. change (big Decimal.ONE) with Decimal.DIGITS. cbn [bind].
  rewrite divE by (rewrite big_dec; lia). rewrite (big_dec (_ + _)), (big_dec (p - _)) by lia. cbn [bind].
  rewrite mulE, big_dec; [done|]. apply Z.div_pos; [apply Z.mul_nonneg_nonneg|]; lia.
Qed.

(** A market premium is reported exactly when, after the fee, bLUSD costs more than its floor
    price; without it there is no period after which a bond breaks even or should be renewed;
    with it, breaking even comes first. *)
Theorem premium_decides_periods market floor fee alpha info root :
  0 < big floor -> big fee <= big Decimal.ONE ->
  _getProtocolInfo market floor fee alpha = Ok info ->
  let p := big market * Decimal.DIGITS / big floor * (Decimal.DIGITS - big fee) / Decimal.DIGITS in
  (hasMarketPremium info = true <-> Decimal.DIGITS < p) /\
  (hasMarketPremium info = false ->
     breakEvenPeriodInDays info = Decimal.INFINITY /\ rebondPeriodInDays info = Decimal.INFINITY) /\
  (hasMarketPremium info = true -> p <= Decimal.DIGITS * Decimal.DIGITS ->
     (let* float := toFloat (dec p) in decimalFrom (Number.sqrt float)) = Ok root ->
     big Decimal.ONE <= big root ->
     big (breakEvenPeriodInDays info) <= big (rebondPeriodInDays info)).
Proof.
  intros Hfloor Hfee Hinfo p. assert (0 < Decimal.DIGITS) as HD by done.
  pose proof (big_nonneg market). pose proof (big_nonneg fee). pose proof (big_nonneg alpha).
  change (big Decimal.ONE) with Decimal.DIGITS in *.
  assert (0 <= big market * Decimal.DIGITS / big floor) by (apply Z.div_pos; nia).
  assert (0 <= p) by (apply Z.div_pos; nia).
  unfold _getProtocolInfo in Hinfo. rewrite divE in Hinfo by done. cbn [bind] in Hinfo.
  rewrite subE in Hinfo by done. cbn [bind] in Hinfo. rewrite mulE in Hinfo. cbn [bind] in Hinfo.
  rewrite breakEvenPeriodE in Hinfo by done. rewrite rebondPeriodE in Hinfo by done. cbn [bind] in Hinfo.
  change (big Decimal.ONE) with Decimal.DIGITS in Hinfo. rewrite (big_dec (_ - _)) in Hinfo by lia.
  rewrite (big_dec (_ / big floor)) in Hinfo by done. fold p in Hinfo. cbn zeta in Hinfo.
  apply bind_Ok in Hinfo as (rebond & Hr & Hinfo).
  do 2 (apply bind_Ok in Hinfo as (? & _ & Hinfo)). injection Hinfo as <-.
  cbn [hasMarketPremium breakEvenPeriodInDays rebondPeriodInDays]. rewrite gtDE, big_dec by done.
  change (big Decimal.ONE) with Decimal.DIGITS. destruct (Z.ltb_spec Decimal.DIGITS p) as [Hp|Hp].
  - rewrite (proj2 (Z.leb_gt _ _) Hp) in Hr |- *. split; [done|]. split; [done|]. intros _ Hsmall Hroot Hone.
    destruct (toFloat (dec p)) as [float|]; [|done]. cbn [bind] in Hr, Hroot. rewrite Hroot in Hr.
    injection Hr as <-. destruct (floor_bounds (big alpha * ((Decimal.DIGITS + big root) * Decimal.DIGITS /
      (p - Decimal.DIGITS))) Decimal.DIGITS) as [Hpos _]; [done| |].
    { apply Z.mul_nonneg_nonneg; [done|]. apply Z.div_pos; [apply Z.mul_nonneg_nonneg|]; lia. }
    rewrite !big_dec by (done || (apply Z.div_pos; [apply Z.mul_nonneg_nonneg|]; lia)).
    apply renewal_later; lia.
  - rewrite (proj2 (Z.leb_le _ _) Hp) in Hr |- *. injection Hr as <-. split; [split; [done|lia]|].
    split; [done|]. intros [=].
Qed.
End theory.

(** ** Instances *)

Section sample.
#[local] Existing Instance ZBN.

(** The logarithm of 0.99 and coarse values of the two other functions. *)
#[local] Instance sampleMath : MathFunctions := {|
  math_log _ := Number.neg (Number.parseFloat "0.01005033585350145");
  math_pow _ _ := Number.parseFloat "0.5";
  lambertW0 _ := Number.parseFloat "0.25"
|}.

Definition e18 (n : Z) : result Z := Ok (n * 10 ^ 18).

Definition sampleToken : ERC20 := mkERC20 (fun _ => e18 5) (e18 1000).

Definition sampleManager (pending : Z) : ChickenBondManager :=
  mkManager (fun id => e18 (10 * id)) (e18 1000) (Ok [pending * 10 ^ 18; 900 * 10 ^ 18; 200 * 10 ^ 18])
    (e18 500) (e18 300) (Ok 1100000000000000000) (Ok 30000000000000000) (e18 864000) (Ok 2592000)
    (e18 (pending * 1650000000)) (Ok 2) (Ok 1) (Ok 1).

(** Two bonds, the second one started later. *)
Definition sampleNFT : BondNFT :=
  mkBondNFT (fun _ => Ok 2) (fun _ i => Ok (i + 1)) (fun id => e18 (100 * id))
    (fun id => Ok (1650000000 + id)) (fun _ => Ok 0) (fun _ => Ok 1) (fun _ => Ok "uri") (fun _ => Ok 0).

Definition samplePool : CurvePool :=
  mkCurvePool (fun _ _ _ => Ok 1300000000000000) (e18 1) (fun _ => e18 50) (fun _ _ => e18 1)
    (Ok sampleToken) (fun _ _ => e18 1) (fun _ _ => e18 1).

Definition sampleGauge : Gauge :=
  mkGauge (fun _ => e18 3) (e18 30) (Ok 1) (fun _ => Ok LUSD_TOKEN_ADDRESS) (fun _ _ => e18 2).

Definition sampleNow : number := Number.ofZ 1651000000000.

Definition sampleContracts (pending : Z) : Contracts :=
  mkContracts (Some sampleToken) (Some sampleToken) (Some sampleNFT) (Some (sampleManager pending))
    (Some samplePool) None (Some sampleGauge).

Definition samplePrice : PriceInfo := mkPriceInfo (dec 1181818181818181818) true (dec 1) (dec 1) (dec 1) (dec 1).

Definition sampleInfo : ProtocolInfo :=
  mkProtocolInfo (dec (10 ^ 21)) sampleMarket (mkTreasury (dec 1) (dec 1) (dec 1) (dec 3))
    (Decimal.ONE, Decimal.ONE) sampleFloor sampleFee sampleAlpha samplePrice sampleMarket None None None
    (dec (2592000 * 10 ^ 18)) (dec (1000000 * 10 ^ 18)) Decimal.ONE Decimal.ONE.

Definition sampleLatest (pending : Z) : result (option BondsInformation) :=
  fst (getLatestData "0xb" "0xa" (Number.ofZ 0) Ok sampleNow (sampleContracts pending) false "0x1" None None
         cachedApys).

(** With pending bonds everything is read; without, the error is that of the average age. *)
Example latest_data :
  rmap (option_map (fun i => (i_bLusdBalance i, totalBonds (i_stats i), List.map b_id (i_bonds i)))) (sampleLatest 400)
  = Ok (Some (dec (5 * 10 ^ 18), dec (4 * 10 ^ 18), ["2"; "1"])) /\
  sampleLatest 0 = Err (Decimal.badFormat "NaN").
Proof. split; vm_compute; reflexivity. Qed.

Definition sampleBonds : list Bond :=
  getAccountBonds (Number.ofZ 0) Ok sampleNow "0x1" sampleNFT (sampleManager 400) sampleInfo.

Lemma account_bonds_all_or_none_witness :
  List.map b_id sampleBonds = ["2"; "1"] /\ Sorted newer sampleBonds.
Proof.
  split; [vm_compute; reflexivity|].
  exact (proj1 (account_bonds_all_or_none (Number.ofZ 0) Ok sampleNow "0x1" sampleNFT (sampleManager 400)
    sampleInfo)).
Defined.

Definition sampleInformation : BondsInformation :=
  mkInformation sampleInfo [] (mkStats Decimal.ZERO Decimal.ONE Decimal.ONE Decimal.ONE) Decimal.ONE Decimal.ONE
    Decimal.ONE Decimal.ZERO Decimal.ONE Decimal.ONE Decimal.ONE [].

Lemma no_pending_bonds_no_info_witness :
  getTreasury (sampleManager 0) = Ok [0; 900 * 10 ^ 18; 200 * 10 ^ 18] /\
  sampleLatest 0 <> Ok (Some sampleInformation).
Proof.
  split; [vm_compute; reflexivity|].
  apply (no_pending_bonds_no_info "0xb" "0xa" (Number.ofZ 0) Ok sampleNow (sampleContracts 0) false "0x1" None
    None cachedApys (sampleManager 0) [900 * 10 ^ 18; 200 * 10 ^ 18] sampleInformation); vm_compute; reflexivity.
Defined.

(** The square root of the effective premium, 1.146363636363636363, as a double. *)
Definition sampleRoot : Decimal := dec 1070683723778239000.

Lemma premium_decides_periods_witness :
  rmap (fun i => (hasMarketPremium i, breakEvenPeriodInDays i))
    (_getProtocolInfo sampleMarket sampleFloor sampleFee sampleAlpha) = Ok (true, dec 68322981366459627626) /\
  (let* i := _getProtocolInfo sampleMarket sampleFloor sampleFee sampleAlpha in
   Ok (big (breakEvenPeriodInDays i) <=? big (rebondPeriodInDays i))) = Ok true.
Proof.
  split; [vm_compute; reflexivity|].
  destruct (_getProtocolInfo sampleMarket sampleFloor sampleFee sampleAlpha) as [i|e] eqn:H; [|vm_compute in H; discriminate H].
  cbn [bind]. f_equal. apply Z.leb_le.
  apply (premium_decides_periods sampleMarket sampleFloor sampleFee sampleAlpha i sampleRoot);
    [vm_compute; reflexivity | vm_compute; discriminate | exact H | | vm_compute; discriminate |
     vm_compute; reflexivity | vm_compute; discriminate].
  vm_compute in H. injection H as <-. reflexivity.
Defined.
End sample.
