(* ===== verification/BondApi.v ===== *)
(** * Bonds: the transactions

    [dev-frontend/src/components/Bonds/context/api.ts], the writing half: approvals, bonds, swaps
    and liquidity.  Each operation checks its dependencies, estimates gas where it sets a limit,
    sends one request, waits for its receipt and looks in it for a sign of success.

    [Api] is the monad of these operations: the requests that have been sent, in order, and the
    outcome.  The node is a record: gas estimates, and the receipt that waiting for a request
    gives.  A contract is its address, a signer is its account; a dependency that is [undefined]
    or [null] is [None]. *)

From S2P Require Import Prelude JsString BigNumber Decimal JsNumber BondMath BondInfo.
From Stdlib Require Import Ascii String.

Local Open Scope string_scope.
Local Open Scope Z_scope.

(** ** Requests *)

Record Request := mkRequest {
  target : string; method : string; arguments : list string; gasLimit : option Z
}.

(** A receipt: whether its status is truthy, and its events, by name, with their arguments. *)
Record Receipt := mkReceipt { succeeded : bool; events : list (string * list string) }.

(** [estimateGas] is told who calls; [sendAndWait] who signs. *)
Record Node := mkNode {
  estimateGas : string -> Request -> result Z;
  sendAndWait : string -> Request -> result Receipt
}.

Definition Api (A : Type) : Type := list Request * result A.

Definition ret {A} (a : A) : Api A := ([], Ok a).
Definition throw {A} (message : string) : Api A := ([], Err (JsError message)).
Definition lift {A} (m : result A) : Api A := ([], m).
Definition andThen {A B} (m : Api A) (k : A -> Api B) : Api B :=
  match snd m with
  | Ok a => let '(sent, r) := k a in (fst m ++ sent, r)%list
  | Err e => (fst m, Err e)
  end.

Declare Scope api_scope.
Delimit Scope api_scope with api.
Notation "'do' x <- m 'in' k" := (andThen m (fun x => k))
  (at level 10, x name, m at level 200, k at level 200) : api_scope.
Local Open Scope api_scope.

Section api.
Context `{BN : BigNumber}.
Variable node : Node.
(** [String(error)] *)
Variable errorText : error -> string.
(** The number of a token or of an amount that is not hexadecimal, as it is encoded. *)
Notation text := bn_toString.

Definition LQTY_ISSUANCE_GAS_HEADROOM : Z := 50000.
Definition CURVE_REGISTRY_SWAPS_ADDRESS : string := "0x81C46fECa27B31F3ADC2b91eE4be9717d1cd3DD7".
Definition MaxUint256 : Z := 2 ^ 256 - 1.
Definition MaxInt256 : Z := 2 ^ 255 - 1.

Definition sendRequest (signer : string) (r : Request) : Api Receipt := ([r], sendAndWait node signer r).

(** [receipt?.events?.find(e => e.event === name)] with its arguments, or an error. *)
Definition findEvent (name failure : string) (receipt : Receipt) : Api (list string) :=
  match List.find (fun e => String.eqb (fst e) name) (events receipt) with
  | Some e => ret (snd e)
  | None => throw failure
  end.

Definition checkStatus (failure : string) (receipt : Receipt) : Api unit :=
  if succeeded receipt then ret tt else throw failure.

(** [gasEstimate.add(LQTY_ISSUANCE_GAS_HEADROOM)] and [gasEstimate.mul(6).div(5)] *)
Definition withIssuance (gas : Z) : result Z := Ok (bn_add gas LQTY_ISSUANCE_GAS_HEADROOM).
Definition withOverhead (gas : Z) : result Z := bn_div (bn_mul gas 6) 5.

(** Estimates the request as [from] would make it, and sends it with the limit. *)
Definition estimated (limit : Z -> result Z) (from signer target method : string) (args : list string) :
    Api Receipt :=
  do gas <- lift (estimateGas node from (mkRequest target method args None)) in
  do gas <- lift (limit gas) in
  sendRequest signer (mkRequest target method args (Some gas)).

(** ** Approvals *)

Definition allowed (allowance : result Z) : result bool :=
  let* allowance := allowance in Ok (bn_gt allowance MaxInt256).

Definition isInfiniteBondApproved (allowance : string -> string -> result Z) (account manager : string) :
    result bool :=
  allowed (allowance account manager).

Definition isTokenApprovedWithBLusdAmm (allowance : string -> string -> result Z) (account : string)
    (bLusdAmmAddress : option string) : result bool :=
  match bLusdAmmAddress with
  | None => Err (JsError "isTokenApprovedWithBLusdAmm() failed: a dependency is null")
  | Some amm => allowed (allowance account amm)
  end.

Definition isTokenApprovedWithBLusdAmmMainnet (allowance : string -> string -> result Z) (account : string) :
    result bool :=
  allowed (allowance account CURVE_REGISTRY_SWAPS_ADDRESS).

Definition isTokenApprovedWithAmmZapper (allowance : string -> string -> result Z) (account : string)
    (ammZapperAddress : option string) : result bool :=
  match ammZapperAddress with
  | None => Err (JsError "isTokenApprovedWithAmmZapper() failed: a dependency is null")
  | Some zapper => allowed (allowance account zapper)
  end.

Definition approve (token spender signer : string) : Api unit :=
  do _ <- sendRequest signer (mkRequest token "approve" [spender; text MaxUint256] None) in ret tt.

Definition approveInfiniteBond (lusdToken chickenBondManager signer : option string) : Api unit :=
  match lusdToken, chickenBondManager, signer with
  | Some lusdToken, Some manager, Some signer =>
      let '(sent, outcome) := approve lusdToken manager signer in
      (sent, match outcome with
             | Ok _ => Ok tt
             | Err e => Err (JsError ("approveInfiniteBond() failed: " +:+ errorText e))
             end)
  | _, _, _ => throw "approveInfiniteBond() failed: a dependency is null"
  end.

Definition approveTokenWithBLusdAmm (token bLusdAmmAddress signer : option string) : Api unit :=
  match token, bLusdAmmAddress, signer with
  | Some token, Some amm, Some signer => approve token amm signer
  | _, _, _ => throw "approveTokenWithBLusdAmm() failed: a dependency is null"
  end.

Definition approveToken (token spenderAddress signer : option string) : Api unit :=
  match token, spenderAddress, signer with
  | Some token, Some spender, Some signer => approve token spender signer
  | _, _, _ => throw "approveToken() failed: a dependency is null"
  end.

Definition approveTokenWithBLusdAmmMainnet (token signer : option string) : Api unit :=
  match token, signer with
  | Some token, Some signer => approve token CURVE_REGISTRY_SWAPS_ADDRESS signer
  | _, _ => throw "approveTokenWithBLusdAmmMainnet() failed: a dependency is null"
  end.

(** ** Bonds *)

Definition createBond (lusdAmount : Decimal) (owner : string) (chickenBondManager signer : option string) :
    Api (list string) :=
  match chickenBondManager, signer with
  | Some manager, Some signer =>
      do receipt <- estimated withIssuance owner signer manager "createBond" [Decimal.hex lusdAmount] in
      findEvent "BondCreated" "createBond() failed: couldn't find BondCreated event" receipt
  | _, _ => throw "createBond() failed: a dependency is null"
  end.

Definition cancelBond (bondId : string) (minimumLusd : Decimal) (owner : string)
    (chickenBondManager signer : option string) : Api (list string) :=
  match chickenBondManager, signer with
  | Some manager, Some signer =>
      do receipt <- estimated withIssuance owner signer manager "chickenOut" [bondId; Decimal.hex minimumLusd] in
      findEvent "BondCancelled" "cancelBond() failed: couldn't find BondCancelled event" receipt
  | _, _ => throw "cancelBond() failed: a dependency is null"
  end.

Definition claimBond (bondId owner : string) (chickenBondManager signer : option string) : Api (list string) :=
  match chickenBondManager, signer with
  | Some manager, Some signer =>
      do receipt <- estimated withIssuance owner signer manager "chickenIn" [bondId] in
      findEvent "BondClaimed" "claimBond() failed: couldn't find BondClaimed event" receipt
  | _, _ => throw "claimBond() failed: a dependency is null"
  end.

(** ** Swaps *)

Definition swapTokens (inputToken : BLusdAmmTokenIndex) (inputAmount minOutputAmount : Decimal)
    (bLusdAmm signer : option string) (account : string) : Api (list string) :=
  match bLusdAmm, signer with
  | Some amm, Some signer =>
      do receipt <- estimated withOverhead account signer amm "exchange(uint256,uint256,uint256,uint256)"
        [text (tokenIndex inputToken); text (tokenIndex (getOtherToken inputToken)); Decimal.hex inputAmount;
         Decimal.hex minOutputAmount] in
      findEvent "TokenExchange" "swapTokens() failed: couldn't find TokenExchange event" receipt
  | _, _ => throw "swapTokens() failed: a dependency is null"
  end.

(** The addresses of the deployment on the main network, for the route. *)
Variables BLUSD_TOKEN_ADDRESS BLUSD_AMM_ADDRESS : string.

Definition routeArguments (inputToken : BLusdAmmTokenIndex) : list string :=
  let '(addresses, swaps) := getRoute BLUSD_TOKEN_ADDRESS BLUSD_AMM_ADDRESS inputToken in
  (addresses ++ List.map text (List.concat swaps))%list.

Definition swapTokensMainnet (inputToken : BLusdAmmTokenIndex) (inputAmount minOutputAmount : Decimal)
    (bLusdAmm signer : option string) (account : string) : Api unit :=
  match bLusdAmm, signer with
  | Some amm, Some signer =>
      do receipt <- estimated withOverhead account signer CURVE_REGISTRY_SWAPS_ADDRESS
        "exchange_multiple(address[9],uint256[3][4],uint256,uint256)"
        (routeArguments inputToken ++ [Decimal.hex inputAmount; Decimal.hex minOutputAmount])%list in
      checkStatus "swapTokensMainnet() failed" receipt
  | _, _ => throw "swapTokensMainnet() failed: a dependency is null"
  end.

(** ** Liquidity *)

Definition addLiquidity (bLusdAmount lusdAmount minLpTokens : Decimal) (shouldStakeInGauge : bool)
    (bLusdZapper signer : option string) (account : string) : Api unit :=
  match bLusdZapper, signer with
  | Some zapper, Some signer =>
      do receipt <- estimated withOverhead account signer zapper
        (if shouldStakeInGauge then "addLiquidityAndStake" else "addLiquidity")
        [Decimal.hex bLusdAmount; Decimal.hex lusdAmount; Decimal.hex minLpTokens] in
      checkStatus "addLiquidity() failed" receipt
  | _, _ => throw "addLiquidity() failed: a dependency is null"
  end.

Definition removeLiquidity (burnLpTokens minBLusdAmount minLusdAmount : Decimal)
    (bLusdZapper signer : option string) : Api unit :=
  match bLusdZapper, signer with
  | Some zapper, Some signer =>
      do receipt <- sendRequest signer (mkRequest zapper "removeLiquidityBalanced"
        [Decimal.hex burnLpTokens; Decimal.hex minBLusdAmount; Decimal.hex minLusdAmount] None) in
      checkStatus "removeLiquidity() failed" receipt
  | _, _ => throw "removeLiquidity() failed: a dependency is null"
  end.

Definition removeLiquidityLUSD (burnLpTokens minAmount : Decimal) (bLusdZapper signer : option string)
    (account : string) : Api unit :=
  match bLusdZapper, signer with
  | Some zapper, Some signer =>
      do receipt <- estimated withOverhead account signer zapper "removeLiquidityLUSD"
        [Decimal.hex burnLpTokens; Decimal.hex minAmount] in
      checkStatus "removeLiquidityLUSD() failed" receipt
  | _, _ => throw "removeLiquidityLUSD() failed: a dependency is null"
  end.

Definition removeLiquidityBLUSD (burnLpTokens minAmount : Decimal) (bLusdAmm signer : option string)
    (account : string) : Api unit :=
  match bLusdAmm, signer with
  | Some amm, Some signer =>
      do receipt <- estimated withOverhead account signer amm
        "remove_liquidity_one_coin(uint256,uint256,uint256,bool)"
        [Decimal.hex burnLpTokens; text 0; Decimal.hex minAmount; "false"] in
      checkStatus "removeLiquidityBLUSD() failed" receipt
  | _, _ => throw "removeLiquidityBLUSD() failed: a dependency is null"
  end.

Definition removeLiquidityOneCoin (burnLpTokens : Decimal) (output : BLusdAmmTokenIndex) (minAmount : Decimal)
    (bLusdZapper bLusdAmm signer : option string) (account : string) : Api unit :=
  if bool_decide (output = LUSD) then removeLiquidityLUSD burnLpTokens minAmount bLusdZapper signer account
  else removeLiquidityBLUSD burnLpTokens minAmount bLusdAmm signer account.

Definition stakeLiquidity (stakeAmount : Decimal) (bLusdGauge signer : option string) : Api (list string) :=
  match bLusdGauge, signer with
  | Some gauge, Some signer =>
      do receipt <- sendRequest signer (mkRequest gauge "deposit(uint256)" [Decimal.hex stakeAmount] None) in
      findEvent "Deposit" "stakeLiquidity() failed: couldn't find Withdraw event" receipt
  | _, _ => throw "stakeLiquidity() failed: a dependency is null"
  end.

Definition unstakeLiquidity (unstakeAmount : Decimal) (bLusdGauge signer : option string) : Api (list string) :=
  match bLusdGauge, signer with
  | Some gauge, Some signer =>
      do receipt <- sendRequest signer
        (mkRequest gauge "withdraw(uint256,bool)" [Decimal.hex unstakeAmount; "true"] None) in
      findEvent "Withdraw" "unstakeLiquidity() failed: couldn't find Withdraw event" receipt
  | _, _ => throw "unstakeLiquidity() failed: a dependency is null"
  end.

Definition claimLpRewards (bLusdGauge signer : option string) : Api unit :=
  match bLusdGauge, signer with
  | Some gauge, Some signer =>
      do receipt <- sendRequest signer (mkRequest gauge "claim_rewards()" [] None) in
      checkStatus "claimLpRewards() failed: no transaction receipt status received." receipt
  | _, _ => throw "claimLpRewards() failed: a dependency is null"
  end.

(** ** All of them *)

(** What the operations depend on: contracts, the signer, the account. *)
Record Dependencies := mkDependencies {
  lusdTokenAddress : option string; managerAddress : option string; ammAddress : option string;
  zapperAddress : option string; gaugeAddress : option string; signer : option string; account : string
}.

Inductive Call :=
| ApproveInfiniteBond
| ApproveToken (token spender : option string)
| CreateBond (lusdAmount : Decimal)
| CancelBond (bondId : string) (minimumLusd : Decimal)
| ClaimBond (bondId : string)
| SwapTokens (inputToken : BLusdAmmTokenIndex) (inputAmount minOutputAmount : Decimal)
| SwapTokensMainnet (inputToken : BLusdAmmTokenIndex) (inputAmount minOutputAmount : Decimal)
| AddLiquidity (bLusdAmount lusdAmount minLpTokens : Decimal) (shouldStakeInGauge : bool)
| RemoveLiquidity (burnLpTokens minBLusdAmount minLusdAmount : Decimal)
| RemoveLiquidityOneCoin (burnLpTokens : Decimal) (output : BLusdAmmTokenIndex) (minAmount : Decimal)
| StakeLiquidity (stakeAmount : Decimal)
| UnstakeLiquidity (unstakeAmount : Decimal)
| ClaimLpRewards.

Definition void {A} (m : Api A) : Api unit := do _ <- m in ret tt.

Definition runCall (d : Dependencies) (c : Call) : Api unit :=
  match c with
  | ApproveInfiniteBond => approveInfiniteBond (lusdTokenAddress d) (managerAddress d) (signer d)
  | ApproveToken token spender => approveToken token spender (signer d)
  | CreateBond amount => void (createBond amount (account d) (managerAddress d) (signer d))
  | CancelBond id minimum => void (cancelBond id minimum (account d) (managerAddress d) (signer d))
  | ClaimBond id => void (claimBond id (account d) (managerAddress d) (signer d))
  | SwapTokens input amount minimum => void (swapTokens input amount minimum (ammAddress d) (signer d) (account d))
  | SwapTokensMainnet input amount minimum =>
      swapTokensMainnet input amount minimum (ammAddress d) (signer d) (account d)
  | AddLiquidity bLusd lusd minimum stake =>
      addLiquidity bLusd lusd minimum stake (zapperAddress d) (signer d) (account d)
  | RemoveLiquidity burn minBLusd minLusd => removeLiquidity burn minBLusd minLusd (zapperAddress d) (signer d)
  | RemoveLiquidityOneCoin burn output minimum =>
      removeLiquidityOneCoin burn output minimum (zapperAddress d) (ammAddress d) (signer d) (account d)
  | StakeLiquidity amount => void (stakeLiquidity amount (gaugeAddress d) (signer d))
  | UnstakeLiquidity amount => void (unstakeLiquidity amount (gaugeAddress d) (signer d))
  | ClaimLpRewards => claimLpRewards (gaugeAddress d) (signer d)
  end.

(** The sign of success in a receipt: an event, a status, or none needed. *)
Inductive Sign := EventNamed (name : string) | StatusOk | AnyReceipt.

Definition signOf (c : Call) : Sign :=
  match c with
  | ApproveInfiniteBond | ApproveToken _ _ => AnyReceipt
  | CreateBond _ => EventNamed "BondCreated"
  | CancelBond _ _ => EventNamed "BondCancelled"
  | ClaimBond _ => EventNamed "BondClaimed"
  | SwapTokens _ _ _ => EventNamed "TokenExchange"
  | StakeLiquidity _ => EventNamed "Deposit"
  | UnstakeLiquidity _ => EventNamed "Withdraw"
  | SwapTokensMainnet _ _ _ | AddLiquidity _ _ _ _ | RemoveLiquidity _ _ _ | RemoveLiquidityOneCoin _ _ _
  | ClaimLpRewards => StatusOk
  end.

Definition attests (sign : Sign) (receipt : Receipt) : Prop :=
  match sign with
  | EventNamed name => exists e, e ∈ events receipt /\ fst e = name
  | StatusOk => succeeded receipt = true
  | AnyReceipt => True
  end.

(** How the gas limit of a request follows from its estimate: room for the issuance of LQTY, or a
    fifth more; the others leave the limit to the wallet. *)
Definition limitOf (c : Call) : option (Z -> Z) :=
  match c with
  | CreateBond _ | CancelBond _ _ | ClaimBond _ => Some (fun gas => gas + 50000)
  | SwapTokens _ _ _ | SwapTokensMainnet _ _ _ | AddLiquidity _ _ _ _ | RemoveLiquidityOneCoin _ _ _ =>
      Some (fun gas => Z.quot (gas * 6) 5)
  | _ => None
  end.

Definition present (o : option string) : bool := if o is Some _ then true else false.

(** Whether the contracts that an operation depends on are known, and the signer. *)
Definition ready (d : Dependencies) (c : Call) : bool :=
  match c with
  | ApproveInfiniteBond => present (lusdTokenAddress d) && present (managerAddress d)
  | ApproveToken token spender => present token && present spender
  | CreateBond _ | CancelBond _ _ | ClaimBond _ => present (managerAddress d)
  | SwapTokens _ _ _ | SwapTokensMainnet _ _ _ => present (ammAddress d)
  | AddLiquidity _ _ _ _ | RemoveLiquidity _ _ _ => present (zapperAddress d)
  | RemoveLiquidityOneCoin _ output _ =>
      if bool_decide (output = LUSD) then present (zapperAddress d) else present (ammAddress d)
  | StakeLiquidity _ | UnstakeLiquidity _ | ClaimLpRewards => present (gaugeAddress d)
  end && present (signer d).

(** What is sent for a request: one that is estimated first has the limit of its estimate, which
    covers it, and is not sent when the estimate fails; another one is sent without a limit. *)
Definition sends (d : Dependencies) (limit : option (Z -> Z)) (sent : list Request) : Prop :=
  exists target method args,
  match limit with
  | None => sent = [mkRequest target method args None]
  | Some f =>
      match estimateGas node (account d) (mkRequest target method args None) with
      | Ok gas => sent = [mkRequest target method args (Some (f gas))] /\ (0 <= gas -> gas <= f gas)
      | Err _ => sent = []
      end
  end.

(** One attempt: nothing is sent unless everything is known, else one request; it succeeds
    exactly when the receipt of that request attests it. *)
Definition attempt (d : Dependencies) (isReady : bool) (limit : option (Z -> Z)) (sign : Sign) (m : Api unit) : Prop :=
  (if isReady then sends d limit (fst m) else fst m = []) /\
  (snd m = Ok tt <->
     exists s r receipt, signer d = Some s /\ fst m = [r] /\ sendAndWait node s r = Ok receipt /\
                         attests sign receipt).

Lemma attempt_throw d limit sign message : attempt d false limit sign (throw message).
Proof.
  split; [done|]. split; [done|]. by intros (? & ? & ? & _ & [=] & _).
Qed.

(** What is done with a receipt: succeed when it attests, send nothing. *)
Definition verdict (sign : Sign) (k : Receipt -> Api unit) : Prop :=
  forall receipt, fst (k receipt) = [] /\ (snd (k receipt) = Ok tt <-> attests sign receipt).

Lemma verdict_event name failure : verdict (EventNamed name) (fun r => void (findEvent name failure r)).
Proof.
  intros receipt. unfold void, findEvent. cbn. destruct (List.find _ _) as [e|] eqn:Hf; cbn.
  - split; [done|]. split; [intros _|done]. apply List.find_some in Hf as [Hin ?%String.eqb_eq].
    exists e. by rewrite list_elem_of_In.
  - split; [done|]. split; [done|]. intros (e & Hin & <-). apply list_elem_of_In in Hin.
    pose proof (List.find_none _ _ Hf e Hin) as H. cbn in H. by rewrite String.eqb_refl in H.
Qed.

Lemma verdict_status failure : verdict StatusOk (checkStatus failure).
Proof. intros receipt. unfold checkStatus. cbn. by destruct (succeeded receipt). Qed.

Lemma verdict_any : verdict AnyReceipt (fun _ => ret tt).
Proof. done. Qed.

(** What comes of sending a request. *)
Lemma send_outcome d sign k s r :
  verdict sign k -> signer d = Some s ->
  fst (andThen (sendRequest s r) k) = [r] /\
  (snd (andThen (sendRequest s r) k) = Ok tt <->
   exists s' r' receipt, signer d = Some s' /\ [r] = [r'] /\ sendAndWait node s' r' = Ok receipt /\ attests sign receipt).
Proof.
  intros Hk Hs. unfold andThen, sendRequest. cbn [fst snd].
  destruct (sendAndWait node s r) as [receipt|e] eqn:Hr; cbn.
  - destruct (Hk receipt) as [Hsent Hok]. destruct (k receipt) as [sent outcome]. cbn in Hsent, Hok |- *. subst sent.
    split; [done|]. rewrite Hok. split; [intros Ha; by exists s, r, receipt|].
    intros (s' & r' & receipt' & Hs' & [= <-] & Hr' & Ha). by replace receipt with receipt' by congruence.
  - split; [done|]. split; [done|]. intros (s' & r' & receipt' & Hs' & [= <-] & Hr' & Ha). congruence.
Qed.

Lemma attempt_send d sign k s target method args :
  verdict sign k -> signer d = Some s ->
  attempt d true None sign (andThen (sendRequest s (mkRequest target method args None)) k).
Proof.
  intros Hk Hs. destruct (send_outcome d sign k s (mkRequest target method args None) Hk Hs) as [Hsent Hok].
  split; [|by rewrite Hsent]. exists target, method, args. exact Hsent.
Qed.

(** A limit that covers what was estimated. *)
Definition covers (limit : Z -> result Z) (f : Z -> Z) : Prop :=
  forall gas, limit gas = Ok (f gas) /\ (0 <= gas -> gas <= f gas).

Lemma estimated_sends limit from s target method args gas g :
  estimateGas node from (mkRequest target method args None) = Ok gas -> limit gas = Ok g ->
  estimated limit from s target method args = sendRequest s (mkRequest target method args (Some g)).
Proof. intros He Hl. unfold estimated, lift, andThen. cbn. rewrite He. cbn. by rewrite Hl. Qed.

Lemma attempt_estimated d sign k limit f s target method args :
  covers limit f -> verdict sign k -> signer d = Some s ->
  attempt d true (Some f) sign (andThen (estimated limit (account d) s target method args) k).
Proof.
  intros Hlimit Hk Hs.
  destruct (estimateGas node (account d) (mkRequest target method args None)) as [gas|e] eqn:Hgas.
  - destruct (Hlimit gas) as [Hl Hle]. rewrite (estimated_sends _ _ _ _ _ _ _ _ Hgas Hl).
    destruct (send_outcome d sign k s (mkRequest target method args (Some (f gas))) Hk Hs) as [Hsent Hok].
    split; [|by rewrite Hsent]. exists target, method, args. by rewrite Hgas.
  - unfold estimated, lift, andThen at 2. cbn [fst snd]. rewrite Hgas.
    split; [exists target, method, args; by rewrite Hgas|]. split; [done|].
    by intros (? & ? & ? & _ & [=] & _).
Qed.

Lemma andThen_assoc {A B C} (m : Api A) (f : A -> Api B) (g : B -> Api C) :
  andThen (andThen m f) g = andThen m (fun a => andThen (f a) g).
Proof.
  unfold andThen. destruct m as [sent [a|e]]; cbn; [|done].
  destruct (f a) as [sent' [b|e]]; cbn; [|done]. destruct (g b) as [sent'' r]. by rewrite app_assoc.
Qed.

Lemma withIssuance_covers `{BNL : !BigNumberLaws BN} : covers withIssuance (fun gas => gas + 50000).
Proof. intros gas. unfold withIssuance. rewrite bn_addE. split; [done | lia]. Qed.

Lemma withOverhead_covers `{BNL : !BigNumberLaws BN} : covers withOverhead (fun gas => Z.quot (gas * 6) 5).
Proof.
  intros gas. unfold withOverhead. rewrite bn_mulE, bn_divE by done. split; [done|].
  intros Hgas. rewrite Z.quot_div_nonneg by lia. apply Z.div_le_lower_bound; lia.
Qed.

Lemma attempt_approve d token spender s :
  signer d = Some s -> attempt d true None AnyReceipt (approve token spender s).
Proof. intros. by apply (attempt_send d _ (fun _ => ret tt)); [apply verdict_any|..]. Qed.

(** An error that is replaced by another one changes nothing of what an attempt promises. *)
Lemma attempt_rewrap d isReady limit sign sent outcome f :
  attempt d isReady limit sign (sent, outcome) ->
  attempt d isReady limit sign (sent, match outcome with Ok _ => Ok tt | Err e => Err (f e) end).
Proof. unfold attempt. cbn. destruct outcome as [[]|e]; [done|]. intros (? & <-). done. Qed.

Create HintDb bonds discriminated.
#[local] Hint Resolve attempt_throw attempt_approve attempt_estimated attempt_send verdict_event verdict_status
  verdict_any withIssuance_covers withOverhead_covers eq_refl : bonds.

Lemma attempt_approveInfiniteBond d :
  attempt d (ready d ApproveInfiniteBond) None AnyReceipt
    (approveInfiniteBond (lusdTokenAddress d) (managerAddress d) (signer d)).
Proof.
  unfold approveInfiniteBond, ready. destruct (lusdTokenAddress d) as [token|], (managerAddress d) as [manager|],
    (signer d) as [s|] eqn:Hs; cbn [present andb]; eauto with bonds.
  pose proof (attempt_approve d token manager s Hs) as H. destruct (approve token manager s) as [sent outcome].
  by apply attempt_rewrap.
Qed.

Lemma andThen_throw {A B} message (k : A -> Api B) : andThen (throw message) k = throw message.
Proof. done. Qed.

(** C34. Every transaction of the bonds pages is one attempt.  Without its contracts or a signer
    it sends nothing.  With them it sends one request: creating, cancelling and claiming a bond,
    swapping, adding liquidity and withdrawing it as one coin estimate the gas first, set a
    limit that covers the estimate, and send nothing when the estimate fails; approving,
    withdrawing liquidity as both coins, staking, unstaking and claiming rewards set no limit.
    It reports success exactly when the request it sent has a receipt with the event or the
    status of success; an approval needs no more than a receipt. *)
Theorem bond_calls_are_attested `{BNL : !BigNumberLaws BN} d c :
  attempt d (ready d c) (limitOf c) (signOf c) (runCall d c).
Proof.
  destruct c; cbn [runCall signOf limitOf]; [apply attempt_approveInfiniteBond|..];
    unfold ready, void, approveToken, createBond, cancelBond, claimBond, swapTokens, swapTokensMainnet, addLiquidity,
      removeLiquidity, removeLiquidityOneCoin, removeLiquidityLUSD, removeLiquidityBLUSD, stakeLiquidity,
      unstakeLiquidity, claimLpRewards;
    repeat case_match; cbn [present andb]; rewrite ?andThen_assoc, ?andThen_throw; eauto with bonds.
Qed.
End api.

(** ** An instance *)

Section sample.
#[local] Existing Instance ZBN.

(** A node that mines everything, with the event of a new bond. *)
Definition sampleNode : Node :=
  mkNode (fun _ _ => Ok 100000) (fun _ _ => Ok (mkReceipt true [("Transfer", []); ("BondCreated", ["7"])])).

Definition sampleDependencies : Dependencies :=
  mkDependencies (Some "0x1a") (Some "0xc0") (Some "0xa3") None (Some "0x9a") (Some "0x1") "0x1".

Lemma bond_calls_are_attested_witness :
  runCall sampleNode (fun _ => "") "0xb" "0xa" sampleDependencies (CreateBond Decimal.ONE) =
    ([mkRequest "0xc0" "createBond" ["0xde0b6b3a7640000"] (Some 150000)], Ok tt) /\
  attempt sampleNode sampleDependencies true (Some (fun gas => gas + 50000)) (EventNamed "BondCreated")
    (runCall sampleNode (fun _ => "") "0xb" "0xa" sampleDependencies (CreateBond Decimal.ONE)).
Proof.
  split; [vm_compute; reflexivity|].
  exact (bond_calls_are_attested sampleNode (fun _ => "") "0xb" "0xa" sampleDependencies (CreateBond Decimal.ONE)).
Defined.
End sample.
