(* ===== verification/BondView.v ===== *)
(** * Bonds: the view

    [dev-frontend/src/components/Bonds/context]: the table of [transitions.ts], the provider of
    [BondViewProvider.tsx] with its state, its dispatch, its transactions and its
    synchronization with the chain, and [hooks/useTransaction.ts].

    The state is that of the mounted provider between two turns of the event loop, all contracts
    found.  [dispatchEvent] and the functions it calls are closures of the last render; a
    transaction keeps the values it was started with until it ends.  The reference cell of the
    view equals the view whenever an event is handled.  Effects are run by [settle] after each
    turn: the object of contracts is a new one at each render, so the synchronizing effect runs
    after every render and its conditions decide. *)

From S2P Require Import Prelude JsString BigNumber Decimal JsNumber BondMath BondInfo BondApi.
From Stdlib Require Import Ascii String.

Local Open Scope string_scope.
Local Open Scope Z_scope.

(** ** Transitions *)

Inductive View := IDLE | CREATING | CANCELLING | CLAIMING | SWAPPING | MANAGING_LIQUIDITY.

Inductive BondEvent :=
| CREATE_BOND_PRESSED | ABORT_PRESSED | BACK_PRESSED | APPROVE_PRESSED | CONFIRM_PRESSED
| CANCEL_BOND_PRESSED | CLAIM_BOND_PRESSED | SWAP_PRESSED | ADD_LIQUIDITY_PRESSED | MANAGE_LIQUIDITY_PRESSED
| CREATE_BOND_CONFIRMED | CANCEL_BOND_CONFIRMED | CLAIM_BOND_CONFIRMED | SWAP_CONFIRMED
| MANAGE_LIQUIDITY_CONFIRMED.

#[export] Instance View_eq_dec : EqDecision View.
Proof. solve_decision. Defined.
#[export] Instance BondEvent_eq_dec : EqDecision BondEvent.
Proof. solve_decision. Defined.

Definition transitions (view : View) (event : BondEvent) : option View :=
  match view, event with
  | IDLE, CREATE_BOND_PRESSED => Some CREATING
  | IDLE, CANCEL_BOND_PRESSED => Some CANCELLING
  | IDLE, CLAIM_BOND_PRESSED => Some CLAIMING
  | IDLE, SWAP_PRESSED => Some SWAPPING
  | IDLE, MANAGE_LIQUIDITY_PRESSED => Some MANAGING_LIQUIDITY
  | CREATING, (ABORT_PRESSED | CREATE_BOND_CONFIRMED | BACK_PRESSED) => Some IDLE
  | CREATING, (APPROVE_PRESSED | CONFIRM_PRESSED) => Some CREATING
  | CLAIMING, (ABORT_PRESSED | BACK_PRESSED | CLAIM_BOND_CONFIRMED) => Some IDLE
  | CLAIMING, CONFIRM_PRESSED => Some CLAIMING
  | CANCELLING, (ABORT_PRESSED | BACK_PRESSED | CANCEL_BOND_CONFIRMED) => Some IDLE
  | CANCELLING, CONFIRM_PRESSED => Some CANCELLING
  | SWAPPING, (ABORT_PRESSED | BACK_PRESSED | SWAP_CONFIRMED) => Some IDLE
  | SWAPPING, (APPROVE_PRESSED | CONFIRM_PRESSED) => Some SWAPPING
  | MANAGING_LIQUIDITY, (ABORT_PRESSED | BACK_PRESSED | MANAGE_LIQUIDITY_CONFIRMED) => Some IDLE
  | MANAGING_LIQUIDITY, (APPROVE_PRESSED | CONFIRM_PRESSED) => Some MANAGING_LIQUIDITY
  | _, _ => None
  end.

Definition isValidEvent (view : View) (event : BondEvent) : bool := bool_decide (is_Some (transitions view event)).

Definition transition (view : View) (event : BondEvent) : View := default view (transitions view event).

(** ** Data *)

Inductive ManageLiquidityPayload :=
| addLiquidityPayload (bLusdAmount lusdAmount minLpTokens : Decimal) (shouldStakeInGauge : bool)
| removeLiquidityPayload (burnLpTokens minBLusdAmount minLusdAmount : Decimal)
| removeLiquidityOneCoinPayload (burnLpTokens : Decimal) (output : BLusdAmmTokenIndex) (minAmount : Decimal)
| stakeLiquidityPayload (stakeAmount : Decimal)
| unstakeLiquidityPayload (unstakeAmount : Decimal)
| claimLpRewardsPayload.

(** An address is a string or [null]; a [Map] is the list of its entries. *)
Inductive Payload :=
| CreateBondPayload (deposit : Decimal)
| SelectBondPayload (bondId : string)
| SwapPressedPayload (inputToken : BLusdAmmTokenIndex)
| SwapPayload (inputAmount minOutputAmount : Decimal)
| ApprovePressedPayload (tokensNeedingApproval : list (BLusdAmmTokenIndex * option string))
| ManagePayload (p : ManageLiquidityPayload).

Record OptimisticBond := mkOptimistic {
  o_id : string; o_deposit : Decimal; o_startTime : number; o_status : BondStatus
}.

Inductive TransactionStatus := StatusIDLE | StatusPENDING | StatusCONFIRMED | StatusFAILED.

Inductive BondTransaction :=
| APPROVE | CREATE | CANCEL | CLAIM | APPROVE_AMM | APPROVE_SPENDER | SWAP | MANAGE_LIQUIDITY.

#[export] Instance BondTransaction_eq_dec : EqDecision BondTransaction.
Proof. solve_decision. Defined.

(** The seven flags of what has been approved. *)
Record Approvals := mkApprovals {
  isInfiniteBondApproved : bool; isLusdApprovedWithBlusdAmm : bool; isBLusdApprovedWithBlusdAmm : bool;
  isLusdApprovedWithAmmZapper : bool; isBLusdApprovedWithAmmZapper : bool;
  isBLusdLpApprovedWithAmmZapper : bool; isBLusdLpApprovedWithGauge : bool
}.

Definition setIsInfiniteBondApproved b a :=
  mkApprovals b (isLusdApprovedWithBlusdAmm a) (isBLusdApprovedWithBlusdAmm a) (isLusdApprovedWithAmmZapper a)
    (isBLusdApprovedWithAmmZapper a) (isBLusdLpApprovedWithAmmZapper a) (isBLusdLpApprovedWithGauge a).
Definition setIsLusdApprovedWithBlusdAmm b a :=
  mkApprovals (isInfiniteBondApproved a) b (isBLusdApprovedWithBlusdAmm a) (isLusdApprovedWithAmmZapper a)
    (isBLusdApprovedWithAmmZapper a) (isBLusdLpApprovedWithAmmZapper a) (isBLusdLpApprovedWithGauge a).
Definition setIsBLusdApprovedWithBlusdAmm b a :=
  mkApprovals (isInfiniteBondApproved a) (isLusdApprovedWithBlusdAmm a) b (isLusdApprovedWithAmmZapper a)
    (isBLusdApprovedWithAmmZapper a) (isBLusdLpApprovedWithAmmZapper a) (isBLusdLpApprovedWithGauge a).
Definition setIsLusdApprovedWithAmmZapper b a :=
  mkApprovals (isInfiniteBondApproved a) (isLusdApprovedWithBlusdAmm a) (isBLusdApprovedWithBlusdAmm a) b
    (isBLusdApprovedWithAmmZapper a) (isBLusdLpApprovedWithAmmZapper a) (isBLusdLpApprovedWithGauge a).
Definition setIsBLusdApprovedWithAmmZapper b a :=
  mkApprovals (isInfiniteBondApproved a) (isLusdApprovedWithBlusdAmm a) (isBLusdApprovedWithBlusdAmm a)
    (isLusdApprovedWithAmmZapper a) b (isBLusdLpApprovedWithAmmZapper a) (isBLusdLpApprovedWithGauge a).
Definition setIsBLusdLpApprovedWithAmmZapper b a :=
  mkApprovals (isInfiniteBondApproved a) (isLusdApprovedWithBlusdAmm a) (isBLusdApprovedWithBlusdAmm a)
    (isLusdApprovedWithAmmZapper a) (isBLusdApprovedWithAmmZapper a) b (isBLusdLpApprovedWithGauge a).
Definition setIsBLusdLpApprovedWithGauge b a :=
  mkApprovals (isInfiniteBondApproved a) (isLusdApprovedWithBlusdAmm a) (isBLusdApprovedWithBlusdAmm a)
    (isLusdApprovedWithAmmZapper a) (isBLusdApprovedWithAmmZapper a) (isBLusdLpApprovedWithAmmZapper a) b.

(** What a started transaction does, with the values of the closure that started it. *)
Inductive Action :=
| DoApproveInfiniteBond
| DoApproveAmm (tokens : list BLusdAmmTokenIndex)
| DoApproveTokens (tokens : list (BLusdAmmTokenIndex * option string))
| DoCreateBond (lusdAmount : Decimal)
| DoCancelBond (bondId : string) (minimumLusd : Decimal) (listed : option (list Bond))
| DoClaimBond (bondId : string) (listed : option (list Bond))
| DoSwapTokens (inputToken : BLusdAmmTokenIndex) (inputAmount minOutputAmount : Decimal)
| DoManageLiquidity (params : ManageLiquidityPayload).

Definition transactionOf (a : Action) : BondTransaction :=
  match a with
  | DoApproveInfiniteBond => APPROVE | DoApproveAmm _ => APPROVE_AMM | DoApproveTokens _ => APPROVE_SPENDER
  | DoCreateBond _ => CREATE | DoCancelBond _ _ _ => CANCEL | DoClaimBond _ _ => CLAIM
  | DoSwapTokens _ _ _ => SWAP | DoManageLiquidity _ => MANAGE_LIQUIDITY
  end.

(** The view that starts a transaction, and the event that its success dispatches. *)
Definition formOf (a : Action) : View :=
  match a with
  | DoApproveInfiniteBond | DoCreateBond _ => CREATING
  | DoApproveAmm _ | DoSwapTokens _ _ _ => SWAPPING
  | DoApproveTokens _ | DoManageLiquidity _ => MANAGING_LIQUIDITY
  | DoCancelBond _ _ _ => CANCELLING
  | DoClaimBond _ _ => CLAIMING
  end.

Definition confirmation (a : Action) : option BondEvent :=
  match a with
  | DoApproveInfiniteBond | DoApproveAmm _ | DoApproveTokens _ => None
  | DoCreateBond _ => Some CREATE_BOND_CONFIRMED
  | DoCancelBond _ _ _ => Some CANCEL_BOND_CONFIRMED
  | DoClaimBond _ _ => Some CLAIM_BOND_CONFIRMED
  | DoSwapTokens _ _ _ => Some SWAP_CONFIRMED
  | DoManageLiquidity _ => Some MANAGE_LIQUIDITY_CONFIRMED
  end.

(** ** State *)

(** [synchronizing]: the fetch in flight, if any, with whether a simulated price was set when it
    was started; it is [isSynchronizing].  [timer]: the timeout of the next synchronization.
    [latest]: what the last one set besides the fields of their own. *)
Record State := mkState {
  view : View;
  selectedBondId : option string;
  optimisticBond : option OptimisticBond;
  shouldSynchronize : bool;
  synchronizing : option bool;
  timer : bool;
  bonds : option (list Bond);
  protocolInfo : option ProtocolInfo;
  simulatedProtocolInfo : option ProtocolInfo;
  latest : option BondsInformation;
  approvals : Approvals;
  inputToken : BLusdAmmTokenIndex;
  statuses : BondTransaction -> TransactionStatus;
  actions : list (option Action)
}.

Definition isSynchronizing (s : State) : bool := negb (isUndefined (synchronizing s)).

Definition findBond (bondId : option string) (bonds : option (list Bond)) : option Bond :=
  match bonds, bondId with
  | Some bonds, Some id => List.find (fun b => String.eqb (b_id b) id) bonds
  | _, _ => None
  end.

Definition selectedBond (s : State) : option Bond := findBond (selectedBondId s) (bonds s).

(** [findIndex]: [-1] when there is none. *)
Fixpoint findIndex (bondId : string) (bonds : list Bond) : Z :=
  match bonds with
  | [] => -1
  | b :: rest => if String.eqb (b_id b) bondId then 0
                 else let i := findIndex bondId rest in if i <? 0 then i else i + 1
  end.

(** [slice(0, i)] and [slice(i)]; a negative index counts from the end. *)
Definition sliceTo {A} (i : Z) (l : list A) : list A :=
  take (Z.to_nat (if i <? 0 then Z.max 0 (Z.of_nat (List.length l) + i) else i)) l.
Definition sliceFrom {A} (i : Z) (l : list A) : list A :=
  drop (Z.to_nat (if i <? 0 then Z.max 0 (Z.of_nat (List.length l) + i) else i)) l.

Definition removeBondFromList (bondId : string) (bonds : list Bond) : list Bond :=
  let idx := findIndex bondId bonds in (sliceTo idx bonds ++ sliceFrom (idx + 1) bonds)%list.

Definition claimedBond (b : Bond) : Bond :=
  mkBond (b_id b) (deposit b) (accrued b) (startTime b) (endTime b) (Some CLAIMED) (tokenUri b)
    (breakEvenAccrual b) (rebondAccrual b) (breakEvenTime b) (rebondTime b) (marketValue b) (rebondReturn b)
    (claimNowReturn b) (rebondRoi b) (rebondApr b) (claimedAmount b) (bondAgeInDays b) (remainingRebondDays b)
    (remainingBreakEvenDays b).

(** [{ ...bonds[idx], status: "CLAIMED" }] has no other field when there is no such bond; then the
    list gets an object that is no bond, which is left out here ([claims_a_listed_bond]). *)
Definition changeBondStatusToClaimed (bondId : string) (bonds : list Bond) : list Bond :=
  let idx := findIndex bondId bonds in
  let updated :=
    if idx <? 0 then [] else match bonds !! Z.to_nat idx with Some b => [claimedBond b] | None => [] end in
  (sliceTo idx bonds ++ updated ++ sliceFrom (idx + 1) bonds)%list.

(** ** Setters *)

Definition setView x s :=
  mkState x (selectedBondId s) (optimisticBond s) (shouldSynchronize s) (synchronizing s) (timer s)
    (bonds s) (protocolInfo s) (simulatedProtocolInfo s) (latest s) (approvals s) (inputToken s)
    (statuses s) (actions s).
Definition setSelectedBondId x s :=
  mkState (view s) x (optimisticBond s) (shouldSynchronize s) (synchronizing s) (timer s) (bonds s)
    (protocolInfo s) (simulatedProtocolInfo s) (latest s) (approvals s) (inputToken s) (statuses s)
    (actions s).
Definition setOptimisticBond x s :=
  mkState (view s) (selectedBondId s) x (shouldSynchronize s) (synchronizing s) (timer s) (bonds s)
    (protocolInfo s) (simulatedProtocolInfo s) (latest s) (approvals s) (inputToken s) (statuses s)
    (actions s).
Definition setShouldSynchronize x s :=
  mkState (view s) (selectedBondId s) (optimisticBond s) x (synchronizing s) (timer s) (bonds s)
    (protocolInfo s) (simulatedProtocolInfo s) (latest s) (approvals s) (inputToken s) (statuses s)
    (actions s).
Definition setSynchronizing x s :=
  mkState (view s) (selectedBondId s) (optimisticBond s) (shouldSynchronize s) x (timer s) (bonds s)
    (protocolInfo s) (simulatedProtocolInfo s) (latest s) (approvals s) (inputToken s) (statuses s)
    (actions s).
Definition setTimer x s :=
  mkState (view s) (selectedBondId s) (optimisticBond s) (shouldSynchronize s) (synchronizing s) x (bonds s)
    (protocolInfo s) (simulatedProtocolInfo s) (latest s) (approvals s) (inputToken s) (statuses s)
    (actions s).
Definition setBonds x s :=
  mkState (view s) (selectedBondId s) (optimisticBond s) (shouldSynchronize s) (synchronizing s) (timer s) x
    (protocolInfo s) (simulatedProtocolInfo s) (latest s) (approvals s) (inputToken s) (statuses s)
    (actions s).
Definition setSimulatedProtocolInfo x s :=
  mkState (view s) (selectedBondId s) (optimisticBond s) (shouldSynchronize s) (synchronizing s) (timer s)
    (bonds s) (protocolInfo s) x (latest s) (approvals s) (inputToken s) (statuses s) (actions s).
Definition setApprovals x s :=
  mkState (view s) (selectedBondId s) (optimisticBond s) (shouldSynchronize s) (synchronizing s) (timer s)
    (bonds s) (protocolInfo s) (simulatedProtocolInfo s) (latest s) x (inputToken s) (statuses s)
    (actions s).
Definition setInputToken x s :=
  mkState (view s) (selectedBondId s) (optimisticBond s) (shouldSynchronize s) (synchronizing s) (timer s)
    (bonds s) (protocolInfo s) (simulatedProtocolInfo s) (latest s) (approvals s) x (statuses s) (actions s).
Definition setStatuses x s :=
  mkState (view s) (selectedBondId s) (optimisticBond s) (shouldSynchronize s) (synchronizing s) (timer s)
    (bonds s) (protocolInfo s) (simulatedProtocolInfo s) (latest s) (approvals s) (inputToken s) x
    (actions s).
Definition setActions x s :=
  mkState (view s) (selectedBondId s) (optimisticBond s) (shouldSynchronize s) (synchronizing s) (timer s)
    (bonds s) (protocolInfo s) (simulatedProtocolInfo s) (latest s) (approvals s) (inputToken s)
    (statuses s) x.

(** ** Transactions *)

Section provider.
Context `{BN : BigNumber} `{MF : MathFunctions}.
Variable errorText : error -> string.
(** The addresses of the main network, for the route; those of the deployment. *)
Variables MAINNET_BLUSD_TOKEN_ADDRESS MAINNET_BLUSD_AMM_ADDRESS : string.
Variables BLUSD_AMM_ADDRESS BLUSD_LP_ZAP_ADDRESS BLUSD_AMM_STAKING_ADDRESS : option string.
Variable bLusdTokenAddress : option string.
Variable deps : Dependencies.
Variable isMainnet : bool.

Notation runCall node := (BondApi.runCall node errorText MAINNET_BLUSD_TOKEN_ADDRESS MAINNET_BLUSD_AMM_ADDRESS deps).

(** The node, and the address of the pool's token when it is asked for. *)
Record World := mkWorld { node : Node; lpToken : result string }.

(** A step of a transaction, and what it has been for when it succeeds. *)
Definition Step : Type := Api unit * (Approvals -> Approvals).

Definition approveAmmStep (w : World) (token : BLusdAmmTokenIndex) : Step :=
  let address := if bool_decide (token = BLUSD) then bLusdTokenAddress else lusdTokenAddress deps in
  (if isMainnet then approveTokenWithBLusdAmmMainnet (node w) address (signer deps)
   else approveTokenWithBLusdAmm (node w) address BLUSD_AMM_ADDRESS (signer deps),
   if bool_decide (token = BLUSD) then setIsBLusdApprovedWithBlusdAmm true else setIsLusdApprovedWithBlusdAmm true).

Definition approveTokensStep (w : World) (entry : BLusdAmmTokenIndex * option string) : Step :=
  let '(token, spender) := entry in
  match token with
  | BLUSD =>
      (approveToken (node w) bLusdTokenAddress spender (signer deps),
       if bool_decide (spender = BLUSD_AMM_ADDRESS) then setIsBLusdApprovedWithBlusdAmm true
       else if bool_decide (spender = BLUSD_LP_ZAP_ADDRESS) then setIsBLusdApprovedWithAmmZapper true else id)
  | LUSD =>
      (approveToken (node w) (lusdTokenAddress deps) BLUSD_LP_ZAP_ADDRESS (signer deps),
       setIsLusdApprovedWithAmmZapper true)
  | BLUSD_LUSD_LP =>
      (andThen (lift (lpToken w)) (fun token => approveToken (node w) (Some token) spender (signer deps)),
       if bool_decide (spender = BLUSD_LP_ZAP_ADDRESS) then setIsBLusdLpApprovedWithAmmZapper true
       else if bool_decide (spender = BLUSD_AMM_STAKING_ADDRESS) then setIsBLusdLpApprovedWithGauge true else id)
  end.

Definition manageLiquidityCall (params : ManageLiquidityPayload) : Call :=
  match params with
  | addLiquidityPayload a b c stake => AddLiquidity a b c stake
  | removeLiquidityPayload a b c => RemoveLiquidity a b c
  | removeLiquidityOneCoinPayload a output b => RemoveLiquidityOneCoin a output b
  | stakeLiquidityPayload a => StakeLiquidity a
  | unstakeLiquidityPayload a => UnstakeLiquidity a
  | claimLpRewardsPayload => ClaimLpRewards
  end.

Definition stepsOf (w : World) (a : Action) : list Step :=
  match a with
  | DoApproveInfiniteBond => [(runCall (node w) ApproveInfiniteBond, setIsInfiniteBondApproved true)]
  | DoApproveAmm tokens => List.map (approveAmmStep w) tokens
  | DoApproveTokens entries => List.map (approveTokensStep w) entries
  | DoCreateBond amount => [(runCall (node w) (CreateBond amount), id)]
  | DoCancelBond bondId minimum _ => [(runCall (node w) (CancelBond bondId minimum), id)]
  | DoClaimBond bondId _ => [(runCall (node w) (ClaimBond bondId), id)]
  | DoSwapTokens input amount minimum =>
      [(runCall (node w) (if isMainnet then SwapTokensMainnet input amount minimum
                          else SwapTokens input amount minimum), id)]
  | DoManageLiquidity params => [(runCall (node w) (manageLiquidityCall params), id)]
  end.

(** The steps in order, up to the first that fails: what has been sent, what is approved then, and
    whether all went well. *)
Fixpoint runSteps (steps : list Step) (a : Approvals) : list Request * Approvals * bool :=
  match steps with
  | [] => ([], a, true)
  | ((sent, outcome), flag) :: steps =>
      match outcome with
      | Ok _ => let '(sent', a, ok) := runSteps steps (flag a) in ((sent ++ sent')%list, a, ok)
      | Err _ => (sent, a, false)
      end
  end.

(** What the success of a transaction changes. *)
Definition completed (now : number) (a : Action) (s : State) : State :=
  match a with
  | DoApproveInfiniteBond | DoApproveAmm _ | DoApproveTokens _ => s
  | DoCreateBond lusdAmount =>
      setShouldSynchronize true
        (setOptimisticBond (Some (mkOptimistic "OPTIMISTIC_BOND" lusdAmount now PENDING)) s)
  | DoCancelBond bondId _ listed =>
      setShouldSynchronize true
        match listed with Some l => setBonds (Some (removeBondFromList bondId l)) s | None => s end
  | DoClaimBond bondId listed =>
      setShouldSynchronize true
        match listed with Some l => setBonds (Some (changeBondStatusToClaimed bondId l)) s | None => s end
  | DoSwapTokens _ _ _ | DoManageLiquidity _ => setShouldSynchronize true s
  end.

Definition setStatus (t : BondTransaction) (status : TransactionStatus) (s : State) : State :=
  setStatuses (fun t' => if bool_decide (t' = t) then status else statuses s t') s.

(** ** Dispatch *)

(** The transaction that an event, with the payload of its type, starts in a view, from the closure
    of [s]. *)
Definition startedBy (s : State) (event : BondEvent) (payload : option Payload) : option Action :=
  match view s, event with
  | CREATING, APPROVE_PRESSED => Some DoApproveInfiniteBond
  | CREATING, CONFIRM_PRESSED =>
      match payload with Some (CreateBondPayload deposit) => Some (DoCreateBond deposit) | _ => None end
  | CANCELLING, CONFIRM_PRESSED =>
      match selectedBond s with Some b => Some (DoCancelBond (b_id b) (deposit b) (bonds s)) | None => None end
  | CLAIMING, CONFIRM_PRESSED =>
      match selectedBond s with Some b => Some (DoClaimBond (b_id b) (bonds s)) | None => None end
  | SWAPPING, APPROVE_PRESSED => Some (DoApproveAmm [inputToken s])
  | SWAPPING, CONFIRM_PRESSED =>
      match payload with
      | Some (SwapPayload inputAmount minOutputAmount) => Some (DoSwapTokens (inputToken s) inputAmount minOutputAmount)
      | _ => None
      end
  | MANAGING_LIQUIDITY, APPROVE_PRESSED =>
      match payload with Some (ApprovePressedPayload tokens) => Some (DoApproveTokens tokens) | _ => None end
  | MANAGING_LIQUIDITY, CONFIRM_PRESSED =>
      match payload with Some (ManagePayload params) => Some (DoManageLiquidity params) | _ => None end
  | _, _ => None
  end.

(** [useTransaction]: the status is pending until the function ends. *)
Definition start (a : Action) (s : State) : State :=
  setStatus (transactionOf a) StatusPENDING (setActions (actions s ++ [Some a])%list s).

Definition dispatchEvent (event : BondEvent) (payload : option Payload) (s : State) : State :=
  if isValidEvent (view s) event then
    let started := startedBy s event payload in
    let s := setView (transition (view s) event) s in
    let s := match payload with Some (SelectBondPayload id) => setSelectedBondId (Some id) s | _ => s end in
    let s := match payload with Some (SwapPressedPayload token) => setInputToken token s | _ => s end in
    match started with Some a => start a s | None => s end
  else s.

(** The end of a transaction in a world; its success is dispatched as an event. *)
Definition actionEnds (i : nat) (w : World) (now : number) (s : State) : State :=
  match actions s !! i with
  | Some (Some a) =>
      let s := setActions (<[i := None]> (actions s)) s in
      let '(_, flags, ok) := runSteps (stepsOf w a) (approvals s) in
      let s := setApprovals flags s in
      if ok then
        let s := setStatus (transactionOf a) StatusCONFIRMED (completed now a s) in
        match confirmation a with Some event => dispatchEvent event None s | None => s end
      else setStatus (transactionOf a) StatusFAILED s
  | _ => s
  end.

(** The timeout of [useTransaction]. *)
Definition statusTimeout (t : BondTransaction) (s : State) : State :=
  match statuses s t with StatusCONFIRMED | StatusFAILED => setStatus t StatusIDLE s | _ => s end.

(** ** Approvals that are looked up *)

Inductive Check :=
| InfiniteBond | LusdWithBlusdAmm | BLusdWithBlusdAmm | LusdWithAmmZapper | BLusdLpWithAmmZapper | BLusdWithAmmZapper.

(** The flag that the effect of a look-up sets. *)
Definition approvalChecked (c : Check) (isApproved : bool) : Approvals -> Approvals :=
  match c with
  | InfiniteBond => setIsInfiniteBondApproved isApproved
  | LusdWithBlusdAmm => setIsLusdApprovedWithBlusdAmm isApproved
  | BLusdWithBlusdAmm => setIsBLusdApprovedWithBlusdAmm isApproved
  | LusdWithAmmZapper => setIsLusdApprovedWithAmmZapper isApproved
  | BLusdLpWithAmmZapper => setIsBLusdLpApprovedWithAmmZapper isApproved
  | BLusdWithAmmZapper => setIsLusdApprovedWithAmmZapper isApproved
  end.

(** ** Synchronizing *)

Definition withPrice (price : Decimal) (p : PriceInfo) (i : ProtocolInfo) : ProtocolInfo :=
  mkProtocolInfo (bLusdSupply i) (marketPrice i) (treasury i) (fairPrice i) (floorPrice i) (claimBondFee i)
    (alphaAccrualFactor i) p price (yieldAmplification i) (bLusdApr i) (bLusdLpApr i) (controllerTargetAge i)
    (averageBondAge i) (floorPriceWithoutPendingHarvests i) (windDownPrice i).

Definition simulate (price : Decimal) (i : ProtocolInfo) : result ProtocolInfo :=
  let* p := _getProtocolInfo price (floorPrice i) (claimBondFee i) (alphaAccrualFactor i) in
  Ok (withPrice price p i).

Definition setSimulatedMarketPrice (price : Decimal) (s : State) : State :=
  match protocolInfo s with
  | Some i => match simulate price i with Ok i => setSimulatedProtocolInfo (Some i) s | Err _ => s end
  | None => s
  end.

Definition resetSimulatedMarketPrice (s : State) : State :=
  match protocolInfo s with Some i => setSimulatedProtocolInfo (Some i) s | None => s end.

Definition setProtocolInfo (i : ProtocolInfo) (s : State) : State :=
  mkState (view s) (selectedBondId s) (optimisticBond s) (shouldSynchronize s) (synchronizing s) (timer s)
    (bonds s) (Some i) (simulatedProtocolInfo s) (latest s) (approvals s) (inputToken s) (statuses s) (actions s).

Definition setLatest (i : BondsInformation) (s : State) : State :=
  mkState (view s) (selectedBondId s) None false (synchronizing s) (timer s)
    (Some (i_bonds i)) (protocolInfo s) (simulatedProtocolInfo s) (Some i) (approvals s) (inputToken s)
    (statuses s) (actions s).

(** The rest of the synchronizing effect, when the data has been read or could not be; a failure in
    it is caught.  [setLatest] ends the wish to synchronize and the optimistic bond. *)
Definition synchronized (simulatedUnset : bool) (outcome : result (option BondsInformation)) (s : State) : State :=
  match outcome with
  | Err _ | Ok None => s
  | Ok (Some i) =>
      let info := i_protocolInfo i in
      let s := setProtocolInfo info s in
      if simulatedUnset then
        match simulate (simulatedMarketPrice info) info with
        | Ok simulated => setLatest i (setSimulatedProtocolInfo (Some simulated) s)
        | Err _ => s
        end
      else setLatest i s
  end.

(** The timeout of the next synchronization is started when one ends. *)
Definition syncEnds (outcome : result (option BondsInformation)) (s : State) : State :=
  match synchronizing s with
  | Some simulatedUnset => setTimer true (setSynchronizing None (synchronized simulatedUnset outcome s))
  | None => s
  end.

Definition timerFires (s : State) : State := if timer s then setShouldSynchronize true (setTimer false s) else s.

(** The effects after a render: synchronizing starts when it should, and clears the timeout. *)
Definition settle (s : State) : State :=
  if shouldSynchronize s && negb (isSynchronizing s)
  then setTimer false (setSynchronizing (Some (isUndefined (simulatedProtocolInfo s))) s) else s.

(** ** The bootstrap period *)

(** [undefined] until bonds and protocol are known; a failed call leaves the last value. *)
Definition isBootstrapPeriodActive (now : number) (bootstrapPeriod : result Z) (last : option bool) (s : State) :
    option bool :=
  match bonds s, protocolInfo s with
  | Some bonds, Some info =>
      if Decimal.gtD (bLusdSupply info) Decimal.ZERO then Some false
      else
        match (let* period := bootstrapPeriod in numberify period) with
        | Ok seconds =>
            let bootstrapPeriodMs := milliseconds seconds in
            Some (negb (existsb (fun b => Number.lt bootstrapPeriodMs (Number.sub now (startTime b))) bonds))
        | Err _ => last
        end
  | _, _ => last
  end.

(** ** Runs *)

Inductive Event :=
| Dispatch (event : BondEvent) (payload : option Payload)
| ActionEnds (i : nat) (w : World) (now : number)
| StatusTimeout (t : BondTransaction)
| ApprovalChecked (c : Check) (isApproved : bool)
| FaucetTapped
| SyncEnds (outcome : result (option BondsInformation))
| TimerFires
| SimulateMarketPrice (price : Decimal)
| ResetSimulatedMarketPrice.

Definition handle (s : State) (e : Event) : State :=
  match e with
  | Dispatch event payload => dispatchEvent event payload s
  | ActionEnds i w now => actionEnds i w now s
  | StatusTimeout t => statusTimeout t s
  | ApprovalChecked c isApproved => setApprovals (approvalChecked c isApproved (approvals s)) s
  | FaucetTapped => setShouldSynchronize true s
  | SyncEnds outcome => syncEnds outcome s
  | TimerFires => timerFires s
  | SimulateMarketPrice price => setSimulatedMarketPrice price s
  | ResetSimulatedMarketPrice => resetSimulatedMarketPrice s
  end.

Definition turn (s : State) (e : Event) : State := settle (handle s e).

Definition mounted : State :=
  settle
    (mkState IDLE None None true None true None None None None
       (mkApprovals false false false false false false false) BLUSD (fun _ => StatusIDLE) []).

Definition run (events : list Event) : State := fold_left turn events mounted.

(** ** The views *)

Lemma valid_transition v e : isValidEvent v e = true -> transitions v e = Some (transition v e).
Proof. unfold isValidEvent, transition. intros [x Hx]%bool_decide_eq_true. by rewrite Hx. Qed.

Lemma view_dispatch e payload s : view (dispatchEvent e payload s) = transition (view s) e.
Proof.
  unfold dispatchEvent, isValidEvent, transition. case_bool_decide as Hv.
  - destruct payload as [[]|]; destruct (startedBy s e _); done.
  - destruct (transitions _ _) eqn:Ht; [|done]. by destruct Hv.
Qed.

Lemma view_settle s : view (settle s) = view s.
Proof. unfold settle. by destruct (_ && _). Qed.

Lemma view_completed now a s : view (completed now a s) = view s.
Proof. destruct a as [| | | |? ? []|? []| |]; done. Qed.

Lemma confirmation_closes a e v :
  confirmation a = Some e -> transition v e = if bool_decide (v = formOf a) then IDLE else v.
Proof. by destruct a; intros [= <-]; destruct v. Qed.

(** The end of a transaction closes its own form and touches no other. *)
Lemma view_actionEnds i w now s :
  view (actionEnds i w now s) = view s \/
  exists a, actions s !! i = Some (Some a) /\ view s = formOf a /\ view (actionEnds i w now s) = IDLE.
Proof.
  unfold actionEnds. destruct (actions s !! i) as [[a|]|] eqn:Ha; [|by left..].
  destruct (runSteps _ _) as [[sent flags] ok]. destruct ok; [|by left].
  destruct (confirmation a) as [e|] eqn:He; [|left; by destruct a as [| | | |? ? []|? []| |]].
  rewrite view_dispatch, (confirmation_closes a) by done.
  assert (forall t st s', view (setStatus t st s') = view s') as Hset by done.
  rewrite Hset, view_completed. cbn. case_bool_decide; [right; eauto|by left].
Qed.

Lemma view_synchronized b outcome s : view (synchronized b outcome s) = view s.
Proof. unfold synchronized. destruct outcome as [[i|]|]; [|done..]. destruct b; [|done]. by destruct (simulate _ _). Qed.

(** What the actions in flight are after a dispatch: at most one more, that of the form. *)
Lemma actions_dispatch e payload s :
  actions (dispatchEvent e payload s) =
  (actions s ++ (if isValidEvent (view s) e
                 then match startedBy s e payload with Some a => [Some a] | None => [] end else []))%list.
Proof.
  unfold dispatchEvent. destruct (isValidEvent _ _); [|by rewrite app_nil_r].
  destruct payload as [[]|], (startedBy s e _); cbn; by rewrite ?app_nil_r.
Qed.

Lemma started_form s e payload a :
  startedBy s e payload = Some a -> view s = formOf a /\ (e = APPROVE_PRESSED \/ e = CONFIRM_PRESSED).
Proof.
  unfold startedBy. destruct (view s) eqn:Hv, e; try done; try (destruct payload as [[]|]; try done);
    try (destruct (selectedBond s); try done); intros [= <-]; auto.
Qed.

Lemma confirmations_start_nothing s a e :
  confirmation a = Some e -> startedBy s e None = None.
Proof. destruct a; intros [= <-]; unfold startedBy; by destruct (view s). Qed.

Lemma actions_settle s : actions (settle s) = actions s.
Proof. unfold settle. by destruct (_ && _). Qed.

Lemma actions_completed now a s : actions (completed now a s) = actions s.
Proof. destruct a as [| | | |? ? []|? []| |]; done. Qed.

Lemma actions_actionEnds i w now s :
  actions (actionEnds i w now s) = actions s \/ actions (actionEnds i w now s) = <[i := None]> (actions s).
Proof.
  unfold actionEnds. destruct (actions s !! i) as [[a|]|] eqn:Ha; [right|by left..].
  destruct (runSteps _ _) as [[sent flags] ok]. destruct ok; [|done].
  destruct (confirmation a) as [e|] eqn:He; cbn.
  - rewrite actions_dispatch, (confirmations_start_nothing _ a e He). destruct (isValidEvent _ _); rewrite app_nil_r;
      cbn; by rewrite actions_completed.
  - by rewrite actions_completed.
Qed.

Lemma actions_synchronized b outcome s : actions (synchronized b outcome s) = actions s.
Proof. unfold synchronized. destruct outcome as [[i|]|]; [|done..]. destruct b; [|done]. by destruct (simulate _ _). Qed.

Lemma handle_quiet s e :
  match e with
  | Dispatch _ _ | ActionEnds _ _ _ => True
  | _ => view (handle s e) = view s /\ actions (handle s e) = actions s
  end.
Proof.
  destruct e as [event payload|i w now|t| | |outcome| |price|]; cbn; try done.
  - unfold statusTimeout. by destruct (statuses s t).
  - unfold syncEnds. destruct (synchronizing s) as [b|]; [|done].
    split; [apply (view_synchronized b outcome s)|apply (actions_synchronized b outcome s)].
  - unfold timerFires. by destruct (timer s).
  - unfold setSimulatedMarketPrice. destruct (protocolInfo s); [|done]. by destruct (simulate _ _).
  - unfold resetSimulatedMarketPrice. by destruct (protocolInfo s).
Qed.

(** The view changes only as the table says.  Whatever the turn, it stays, or a press led it
    along the table, or a transaction succeeded while the form it was started from is shown, which
    closes; and a transaction is started only by a press in its own form, one at a time. *)
Theorem views_follow_the_table s e :
  let s' := turn s e in
  (view s' = view s \/
   (exists event payload, e = Dispatch event payload /\ transitions (view s) event = Some (view s')) \/
   (exists i w now a, e = ActionEnds i w now /\ actions s !! i = Some (Some a) /\ view s = formOf a /\
                      view s' = IDLE)) /\
  (forall i a, actions s' !! i = Some (Some a) -> actions s !! i <> Some (Some a) ->
     i = List.length (actions s) /\ view s = formOf a /\
     exists event payload, e = Dispatch event payload /\ (event = APPROVE_PRESSED \/ event = CONFIRM_PRESSED)).
Proof.
  cbn zeta. unfold turn. rewrite view_settle, actions_settle. pose proof (handle_quiet s e) as Hq.
  destruct e as [event payload|i w now|t| | |outcome| |price|]; try (rewrite (proj1 Hq), (proj2 Hq); split; [by left|done]); cbn.
  - split.
    + rewrite view_dispatch. unfold transition. destruct (transitions (view s) event) as [v|] eqn:Ht; [|by left].
      right; left. exists event, payload. done.
    + intros j a Hj Hnew. rewrite actions_dispatch in Hj. apply lookup_app_Some in Hj as [?|[Hlen Hj]]; [done|].
      destruct (isValidEvent _ _); [|done]. destruct (startedBy s event payload) as [a'|] eqn:Hs; [|done].
      apply list_lookup_singleton_Some in Hj as [Hj [= <-]]. apply started_form in Hs as [Hv He].
      split; [lia|]. eauto.
  - split.
    + destruct (view_actionEnds i w now s) as [?|(a & ? & ? & ?)]; [by left|]. right; right. by exists i, w, now, a.
    + intros j a Hj Hnew. destruct (actions_actionEnds i w now s) as [E|E]; rewrite E in Hj; [done|].
      destruct (decide (i = j)) as [->|Hne]; [|by rewrite list_lookup_insert_ne in Hj].
      apply list_lookup_insert_Some in Hj as [(_ & [=] & _)|(? & _)]; done.
Qed.

(** ** The list of bonds *)

Lemma find_splits bondId bonds b :
  List.find (fun b => String.eqb (b_id b) bondId) bonds = Some b ->
  exists l1 l2, bonds = (l1 ++ b :: l2)%list /\ b_id b = bondId /\ Forall (fun b => b_id b <> bondId) l1.
Proof.
  induction bonds as [|b' rest IH]; cbn; [done|]. destruct (String.eqb_spec (b_id b') bondId) as [<-|Hne].
  - intros [= ->]. by exists [], rest.
  - intros (l1 & l2 & -> & <- & H)%IH. exists (b' :: l1), l2. by repeat constructor.
Qed.

Lemma findIndex_split bondId l1 b l2 :
  b_id b = bondId -> Forall (fun b => b_id b <> bondId) l1 ->
  findIndex bondId (l1 ++ b :: l2) = Z.of_nat (List.length l1).
Proof.
  intros Hb. induction 1 as [|b' l1 Hne _ IH]; cbn; [by rewrite Hb, String.eqb_refl|].
  apply String.eqb_neq in Hne as ->. rewrite IH. destruct (Z.ltb_spec (Z.of_nat (List.length l1)) 0); lia.
Qed.

Lemma slices {A} (l1 : list A) b l2 :
  sliceTo (Z.of_nat (List.length l1)) (l1 ++ b :: l2) = l1 /\
  sliceFrom (Z.of_nat (List.length l1) + 1) (l1 ++ b :: l2) = l2.
Proof.
  unfold sliceTo, sliceFrom.
  destruct (Z.ltb_spec (Z.of_nat (List.length l1)) 0), (Z.ltb_spec (Z.of_nat (List.length l1) + 1) 0); try lia.
  rewrite Nat2Z.id. split; [by rewrite take_app_length|].
  replace (Z.to_nat (Z.of_nat (List.length l1) + 1)) with (S (List.length l1)) by lia.
  replace (l1 ++ b :: l2)%list with ((l1 ++ [b]) ++ l2)%list by by rewrite <- app_assoc.
  replace (S (List.length l1)) with (List.length (l1 ++ [b])) by (rewrite length_app; cbn; lia).
  by rewrite drop_app_length.
Qed.

Lemma removeBond_split bondId l1 b l2 :
  b_id b = bondId -> Forall (fun b => b_id b <> bondId) l1 ->
  removeBondFromList bondId (l1 ++ b :: l2) = (l1 ++ l2)%list.
Proof.
  intros Hb Hl. unfold removeBondFromList. rewrite (findIndex_split bondId) by done.
  by destruct (slices l1 b l2) as [-> ->].
Qed.

Lemma claimBond_split bondId l1 b l2 :
  b_id b = bondId -> Forall (fun b => b_id b <> bondId) l1 ->
  changeBondStatusToClaimed bondId (l1 ++ b :: l2) = (l1 ++ claimedBond b :: l2)%list.
Proof.
  intros Hb Hl. unfold changeBondStatusToClaimed. rewrite (findIndex_split bondId) by done.
  destruct (slices l1 b l2) as [-> ->]. destruct (Z.ltb_spec (Z.of_nat (List.length l1)) 0); [lia|].
  by rewrite Nat2Z.id, lookup_app_r, Nat.sub_diag by lia.
Qed.

(** A cancellation or a claim that is started is of a bond that is listed. *)
Definition ofListedBond (a : Action) : Prop :=
  match a with
  | DoCancelBond bondId minimum listed =>
      exists l1 b l2, listed = Some (l1 ++ b :: l2)%list /\ b_id b = bondId /\ minimum = deposit b /\
                      Forall (fun b => b_id b <> bondId) l1
  | DoClaimBond bondId listed =>
      exists l1 b l2, listed = Some (l1 ++ b :: l2)%list /\ b_id b = bondId /\
                      Forall (fun b => b_id b <> bondId) l1
  | _ => True
  end.

Lemma selected_listed s b :
  selectedBond s = Some b ->
  exists l1 l2, bonds s = Some (l1 ++ b :: l2)%list /\ Forall (fun b' => b_id b' <> b_id b) l1.
Proof.
  unfold selectedBond, findBond. destruct (bonds s) as [l|], (selectedBondId s) as [id|]; try done.
  intros (l1 & l2 & -> & <- & H)%find_splits. eauto.
Qed.

Lemma started_listed s e payload a : startedBy s e payload = Some a -> ofListedBond a.
Proof.
  unfold startedBy. destruct (view s), e; try done; try (destruct payload as [[]|]; try done); try (by intros [= <-]);
    destruct (selectedBond s) as [b|] eqn:Hb; try done; intros [= <-];
    destruct (selected_listed s b Hb) as (l1 & l2 & Hl & H); cbn; exists l1, b, l2; auto.
Qed.

Lemma actions_listed events i a : actions (run events) !! i = Some (Some a) -> ofListedBond a.
Proof.
  revert i a. induction events as [|e events IH] using rev_ind; intros i a.
  - unfold run, mounted. cbn [fold_left]. rewrite actions_settle. cbn. by rewrite lookup_nil.
  - unfold run in *. rewrite fold_left_app. cbn [fold_left]. set (s := fold_left turn events mounted) in *.
    unfold turn. rewrite actions_settle. pose proof (handle_quiet s e) as Hq. intros H.
    destruct e as [event payload|j w now|t| | |outcome| |price|]; try (rewrite (proj2 Hq) in H; by eapply IH).
    + cbn in H. rewrite actions_dispatch in H. apply lookup_app_Some in H as [?|[_ H]]; [by eapply IH|].
      destruct (isValidEvent _ _); [|done]. destruct (startedBy s event payload) as [a'|] eqn:Hs; [|done].
      apply list_lookup_singleton_Some in H as [_ [= <-]]. by eapply started_listed.
    + cbn in H. destruct (actions_actionEnds j w now s) as [E|E]; rewrite E in H; [by eapply IH|].
      apply list_lookup_insert_Some in H as [(_ & [=] & _)|(_ & H)]. by eapply IH.
Qed.

Lemma bonds_dispatch e payload s : bonds (dispatchEvent e payload s) = bonds s.
Proof. unfold dispatchEvent. destruct (isValidEvent _ _); [|done]. by destruct payload as [[]|], (startedBy s e _). Qed.

Lemma bonds_settle s : bonds (settle s) = bonds s.
Proof. unfold settle. by destruct (_ && _). Qed.

(** A transaction that cancels or claims a bond is of one that was listed when it was started,
    a cancellation with its deposit as the least refund; when it succeeds, exactly that bond has
    left the list it was started from, or is claimed in it, and the others stay in place. *)
Theorem ended_bonds_are_listed_bonds events i a w now :
  let s := run events in
  actions s !! i = Some (Some a) -> snd (runSteps (stepsOf w a) (approvals s)) = true ->
  match a with
  | DoCancelBond bondId minimum listed =>
      exists l1 b l2, listed = Some (l1 ++ b :: l2)%list /\ b_id b = bondId /\ minimum = deposit b /\
        bonds (turn s (ActionEnds i w now)) = Some (l1 ++ l2)%list
  | DoClaimBond bondId listed =>
      exists l1 b l2, listed = Some (l1 ++ b :: l2)%list /\ b_id b = bondId /\
        bonds (turn s (ActionEnds i w now)) = Some (l1 ++ claimedBond b :: l2)%list
  | _ => bonds (turn s (ActionEnds i w now)) = bonds s
  end.
Proof.
  intros s Ha Hok. pose proof (actions_listed events i a Ha) as Hl. unfold turn. cbn [handle].
  unfold actionEnds. fold s in Ha |- *. rewrite Ha, bonds_settle.
  destruct (runSteps _ _) as [[sent flags] ok]. cbn in Hok. subst ok.
  destruct a as [| | | |bondId minimum listed|bondId listed| |]; cbn [confirmation]; rewrite ?bonds_dispatch; try done.
  - destruct Hl as (l1 & b & l2 & -> & Hb & Hm & Hl). exists l1, b, l2. split_and!; try done.
    cbn. by rewrite removeBond_split.
  - destruct Hl as (l1 & b & l2 & -> & Hb & Hl). exists l1, b, l2. split_and!; try done.
    cbn. by rewrite claimBond_split.
Qed.

(** ** Synchronizing *)

Definition scheduled (s : State) : Prop :=
  match synchronizing s with
  | Some _ => timer s = false
  | None => timer s = true /\ shouldSynchronize s = false
  end.

(** Before the effects: nothing is scheduled when a synchronization should start. *)
Definition wanted (s : State) : Prop :=
  match synchronizing s with
  | Some _ => timer s = false
  | None => timer s = true \/ shouldSynchronize s = true
  end.

Lemma settle_scheduled s : wanted s -> scheduled (settle s).
Proof.
  unfold wanted, scheduled, settle, isSynchronizing. destruct (synchronizing s) as [b|] eqn:Hb; cbn.
  - rewrite andb_false_r. by rewrite Hb.
  - destruct (shouldSynchronize s) eqn:Hs; cbn; [done|]. rewrite Hb, Hs. by intros [?|?].
Qed.

Lemma scheduled_wanted s : scheduled s -> wanted s.
Proof. unfold scheduled, wanted. destruct (synchronizing s); [done|]. tauto. Qed.

(** What a change leaves alone for [wanted]: it may only ask for a synchronization. *)
Lemma wanted_frame s s' :
  synchronizing s' = synchronizing s -> timer s' = timer s ->
  (shouldSynchronize s = true -> shouldSynchronize s' = true) -> wanted s -> wanted s'.
Proof. unfold wanted. intros -> -> H. destruct (synchronizing s); naive_solver. Qed.

Lemma wanted_dispatch e payload s : wanted s -> wanted (dispatchEvent e payload s).
Proof.
  apply wanted_frame; unfold dispatchEvent; destruct (isValidEvent _ _); try done;
    by destruct payload as [[]|], (startedBy s e _).
Qed.

Lemma wanted_actionEnds i w now s : wanted s -> wanted (actionEnds i w now s).
Proof.
  unfold actionEnds. intros H. destruct (actions s !! i) as [[a|]|]; [|done..].
  destruct (runSteps _ _) as [[sent flags] ok]. destruct ok; [|by eapply wanted_frame, H].
  destruct (confirmation a) as [e|]; [apply wanted_dispatch|];
    (eapply wanted_frame, H; destruct a as [| | | |? ? []|? []| |]; done).
Qed.

Lemma synchronized_keeps b outcome s :
  synchronizing (synchronized b outcome s) = synchronizing s /\ timer (synchronized b outcome s) = timer s.
Proof. unfold synchronized. destruct outcome as [[i|]|]; [|done..]. destruct b; [|done]. by destruct (simulate _ _). Qed.

Lemma handle_wanted s e : scheduled s -> wanted (handle s e).
Proof.
  intros Hs. pose proof (scheduled_wanted s Hs) as H.
  destruct e as [event payload|i w now|t|c b| |outcome| |price|]; cbn;
    [by apply wanted_dispatch | by apply wanted_actionEnds | | by eapply wanted_frame, H | by eapply wanted_frame, H
    | | | | ].
  - unfold statusTimeout. destruct (statuses s t); by eapply wanted_frame, H.
  - unfold syncEnds. destruct (synchronizing s); [|done]. by left.
  - unfold timerFires. destruct (timer s) eqn:Ht; [|done]. revert Hs. unfold scheduled, wanted. cbn.
    destruct (synchronizing s); [congruence|]. auto.
  - unfold setSimulatedMarketPrice. destruct (protocolInfo s); [|done]. destruct (simulate _ _); by eapply wanted_frame, H.
  - unfold resetSimulatedMarketPrice. destruct (protocolInfo s); by eapply wanted_frame, H.
Qed.

Lemma run_scheduled events : scheduled (run events).
Proof.
  induction events as [|e events IH] using rev_ind.
  - done.
  - unfold run in *. rewrite fold_left_app. cbn [fold_left]. by apply settle_scheduled, handle_wanted.
Qed.

(** Synchronizing never stalls and never runs twice at once: after any events, either one read
    is in flight and no timeout is pending, or nothing is wanted and the timeout of the next one
    is pending, which then starts it; and a read that fails is started again at once. *)
Theorem synchronizing_never_stalls events :
  let s := run events in
  (synchronizing s <> None /\ timer s = false) \/
  (synchronizing s = None /\ timer s = true /\ shouldSynchronize s = false /\
   synchronizing (turn s TimerFires) <> None).
Proof.
  intros s. pose proof (run_scheduled events : scheduled s) as Hs. unfold scheduled in Hs.
  destruct (synchronizing s) as [b|] eqn:Hb; [left; done|right]. destruct Hs as [Ht Hw]. split_and!; try done.
  unfold turn, handle, timerFires. rewrite Ht. unfold settle, isSynchronizing. cbn. by rewrite Hb.
Qed.

(** A refresh that is asked for while a read is in flight is lost when the read succeeds: nobody
    wants to synchronize any more, the optimistic bond is gone, the list is what was read, and
    only the timeout brings the next one. *)
Theorem refresh_during_read_is_lost events b i :
  let s := run events in
  synchronizing s = Some b ->
  is_Some (match simulate (simulatedMarketPrice (i_protocolInfo i)) (i_protocolInfo i) with Ok x => Some x | Err _ => None end) ->
  let s' := turn s (SyncEnds (Ok (Some i))) in
  shouldSynchronize s' = false /\ synchronizing s' = None /\ timer s' = true /\
  optimisticBond s' = None /\ bonds s' = Some (i_bonds i).
Proof.
  intros s Hs [x Hx]. cbn zeta. unfold turn, handle, syncEnds, synchronized. rewrite Hs.
  destruct b; [|done]. by destruct (simulate _ _).
Qed.

(** ** Without pending bonds *)

Definition readFrom (contracts : Contracts) (outcome : result (option BondsInformation)) : Prop :=
  exists UNKNOWN_DATE getTokenUri now account yearn curve cached,
    outcome = fst (getLatestData MAINNET_BLUSD_TOKEN_ADDRESS MAINNET_BLUSD_AMM_ADDRESS UNKNOWN_DATE getTokenUri now
                     contracts isMainnet account yearn curve cached).

(** While no bond is pending the page never loads: every read of the contracts fails, and is
    started again at once, without the pause between synchronizations. *)
Theorem page_never_loads_without_bonds `{BNL : !BigNumberLaws BN} contracts manager others outcomes :
  chickenBondManager contracts = Some manager -> getTreasury manager = Ok (0 :: others) ->
  Forall (readFrom contracts) outcomes ->
  let s := run (List.map SyncEnds outcomes) in
  protocolInfo s = None /\ bonds s = None /\ synchronizing s <> None /\ timer s = false.
Proof.
  intros Hm Ht Ho s.
  enough (protocolInfo s = None /\ bonds s = None /\ synchronizing s <> None /\ timer s = false /\
          shouldSynchronize s = true) by tauto.
  unfold s. clear s. revert Ho. induction outcomes as [|o outcomes IH] using rev_ind; intros Ho; [done|].
  apply Forall_app in Ho as [Ho (d & uri & now & account & yearn & curve & cached & ->)%Forall_singleton].
  specialize (IH Ho). unfold run in *. rewrite List.map_app, fold_left_app. cbn [List.map fold_left].
  set (s := fold_left turn _ mounted) in *. destruct IH as (Hp & Hb & Hs & Htm & Hw).
  unfold turn, handle, syncEnds. destruct (synchronizing s) as [b|] eqn:Hsync; [|done].
  match goal with |- context [synchronized b ?o s] => assert (synchronized b o s = s) as Hsame end.
  { unfold synchronized. destruct (fst _) as [[i|]|] eqn:Hread; [|done..]. exfalso.
    by eapply no_pending_bonds_no_info in Hread. }
  rewrite Hsame. unfold settle, isSynchronizing. cbn. by rewrite Hw.
Qed.
End provider.

(** ** Instances *)

Section sample.
#[local] Existing Instance ZBN.
#[local] Existing Instance sampleMath.

Definition noText (e : error) : string := "".

Definition sampleRun (events : list Event) : State :=
  run noText "0xb" "0xa" (Some "0xa3") None None (Some "0x1b") sampleDependencies false events.

Definition sampleTurn (s : State) (e : Event) : State :=
  turn noText "0xb" "0xa" (Some "0xa3") None None (Some "0x1b") sampleDependencies false s e.

(** A node on which cancelling a bond succeeds. *)
Definition sampleWorld : World :=
  mkWorld (mkNode (fun _ _ => Ok 100000) (fun _ _ => Ok (mkReceipt true [("BondCancelled", ["1"])]))) (Ok "0x1f").

(** The page is loaded, a bond is selected and its cancellation confirmed. *)
Definition sampleCancel : list Event :=
  [SyncEnds (sampleLatest 400); Dispatch CANCEL_BOND_PRESSED (Some (SelectBondPayload "1"));
   Dispatch CONFIRM_PRESSED None].

Definition sampleListed : option (list Bond) := bonds (sampleRun sampleCancel).

Example a_bond_is_cancelled :
  (option_map (List.map b_id) sampleListed,
   option_map (List.map b_id) (bonds (sampleRun (sampleCancel ++ [ActionEnds 0 sampleWorld sampleNow])%list)),
   view (sampleRun (sampleCancel ++ [ActionEnds 0 sampleWorld sampleNow])%list))
  = (Some ["2"; "1"], Some ["2"], IDLE).
Proof. vm_compute. reflexivity. Qed.

Lemma ended_bonds_are_listed_bonds_witness :
  exists l1 b l2, sampleListed = Some (l1 ++ b :: l2)%list /\ b_id b = "1" /\
    bonds (sampleTurn (sampleRun sampleCancel) (ActionEnds 0 sampleWorld sampleNow)) = Some (l1 ++ l2)%list.
Proof.
  destruct (ended_bonds_are_listed_bonds noText "0xb" "0xa" (Some "0xa3") None None (Some "0x1b") sampleDependencies
    false sampleCancel 0 (DoCancelBond "1" (dec (100 * 10 ^ 18)) sampleListed) sampleWorld sampleNow)
    as (l1 & b & l2 & Hl & Hb & _ & H); [vm_compute; reflexivity..|].
  exists l1, b, l2. split; [exact Hl|]. split; [exact Hb|]. exact H.
Defined.

(** A bond is created while the page is being read: it disappears when the reading is over. *)
Definition sampleRefresh : list Event :=
  [SyncEnds (sampleLatest 400); TimerFires; Dispatch CREATE_BOND_PRESSED None;
   Dispatch CONFIRM_PRESSED (Some (CreateBondPayload Decimal.ONE)); ActionEnds 0 (mkWorld sampleNode (Ok "")) sampleNow].

Lemma refresh_during_read_is_lost_witness :
  (option_map o_id (optimisticBond (sampleRun sampleRefresh)), shouldSynchronize (sampleRun sampleRefresh))
    = (Some "OPTIMISTIC_BOND", true) /\
  optimisticBond (sampleTurn (sampleRun sampleRefresh) (SyncEnds (Ok (Some sampleInformation)))) = None.
Proof.
  split; [vm_compute; reflexivity|].
  refine (proj1 (proj2 (proj2 (proj2 (refresh_during_read_is_lost noText "0xb" "0xa" (Some "0xa3") None None
    (Some "0x1b") sampleDependencies false sampleRefresh false sampleInformation _ _))))).
  - vm_compute. reflexivity.
  - apply (bool_decide_unpack (is_Some _)). vm_compute. exact I.
Defined.

Lemma page_never_loads_without_bonds_witness :
  sampleLatest 0 = Err (Decimal.badFormat "NaN") /\
  synchronizing (sampleRun (List.map SyncEnds [sampleLatest 0; sampleLatest 0])) <> None.
Proof.
  split; [vm_compute; reflexivity|].
  refine (proj1 (proj2 (proj2 (page_never_loads_without_bonds noText "0xb" "0xa" (Some "0xa3") None None (Some "0x1b")
    sampleDependencies false (sampleContracts 0) (sampleManager 0) [900 * 10 ^ 18; 200 * 10 ^ 18]
    [sampleLatest 0; sampleLatest 0] eq_refl eq_refl _)))).
  repeat constructor; exists (Number.ofZ 0), Ok, sampleNow, "0x1", None, None, cachedApys; reflexivity.
Defined.

(** The look-up of the allowance of bLUSD for the zapper sets the flag of LUSD. *)
Example blusd_allowance_sets_the_lusd_flag :
  let a := approvals (sampleRun [ApprovalChecked BLusdWithAmmZapper true]) in
  (isLusdApprovedWithAmmZapper a, isBLusdApprovedWithAmmZapper a) = (true, false).
Proof. vm_compute. reflexivity. Qed.

(** Removing a bond that is not listed would repeat the others: the index is then [-1]. *)
Example removing_an_unlisted_bond :
  option_map (fun l => List.map b_id (removeBondFromList "9" l)) sampleListed = Some ["2"; "2"; "1"].
Proof. vm_compute. reflexivity. Qed.
End sample.
