(* ===== verification/AugmentedProvider.v ===== *)
(** * A provider with a WebSocket beside it

    [packages/providers/src/WebSocketAugmentedProvider.ts] and [WebSocketProvider.ts]: the
    subscription to new blocks, which moves between the basic provider and the socket, the
    listeners that wait for blocks and for receipts, and the reconnection of a lost socket.

    The basic provider and the WebSocket are third-party.  Of them the model keeps how often the
    block listener is subscribed (every [on] adds a subscription, every [off] takes one away,
    and a block is announced once per subscription) and whether the socket is alive; when they
    announce a block, lose the connection or answer a request is an event.  [hexDataLength] is
    a parameter.  Listeners are functions and compared by identity, so they are numbers here. *)

From S2P Require Import Prelude.
From stdpp Require Import gmap sets list.
From Stdlib Require Import Ascii String.

Local Open Scope string_scope.
Local Open Scope Z_scope.

(** ** Events and listeners *)

Inductive EventType := EventName (name : string) | EventFilter.

Record Receipt := mkReceipt { transactionHash : string; blockNumber : Z; confirmations : Z }.

(** What a listener is called with. *)
Inductive Argument := OfBlock (blockNumber : option Z) | OfReceipt (receipt : Receipt).

(** What [_wrap] makes of a listener, by the function that is passed to it: [pass], [passOnce],
    [waitFor(fetchReceipt)] and [sequence(waitFor(fetchReceipt), passOnce)]. *)
Inductive BlockListener :=
| Pass
| PassOnce
| WaitFor (hash : string)
| WaitForThenPassOnce (hash : string).

Record Socket := mkSocket { alive : bool; onClose : bool; subscriptions : nat }.

(** The promise of a receipt that is waited for, and the listener that it is for. *)
Record Fetch := mkFetch { f_listener : nat; f_hash : string; f_latest : option Z; f_once : bool }.

(** [_wsProvider] is a socket by number; [reconnections] are the timers of [_onWebSocketClose]
    that have not fired or been cleared, [blockTimers] the number of those of [_onBlock];
    [deferred] are the calls that [defer] has put off and [called] those that were made. *)
Record Provider := mkProvider {
  _wsProvider : option nat;
  _wsParams : option (string * Z);
  _reconnectTimerId : option nat;
  _seenBlock : Z;
  _blockListenerScheduled : bool;
  _blockListeners : list (nat * BlockListener);
  sockets : list Socket;
  baseSubscriptions : nat;
  reconnections : gset nat;
  nextTimer : nat;
  blockTimers : nat;
  fetches : list (option Fetch);
  deferred : list (nat * Argument);
  called : list (nat * Argument)
}.

Definition created : Provider :=
  mkProvider None None None 0 false [] [] 0 ∅ 0 0 [] [] [].

Definition setSubscriptions (ss : list Socket) (base : nat) (p : Provider) : Provider :=
  mkProvider (_wsProvider p) (_wsParams p) (_reconnectTimerId p) (_seenBlock p)
    (_blockListenerScheduled p) (_blockListeners p) ss base (reconnections p) (nextTimer p)
    (blockTimers p) (fetches p) (deferred p) (called p).

Definition setListeners (listeners : list (nat * BlockListener)) (p : Provider) : Provider :=
  mkProvider (_wsProvider p) (_wsParams p) (_reconnectTimerId p) (_seenBlock p)
    (_blockListenerScheduled p) listeners (sockets p) (baseSubscriptions p) (reconnections p)
    (nextTimer p) (blockTimers p) (fetches p) (deferred p) (called p).

Definition setTasks (fs : list (option Fetch)) (ds cs : list (nat * Argument)) (p : Provider) : Provider :=
  mkProvider (_wsProvider p) (_wsParams p) (_reconnectTimerId p) (_seenBlock p)
    (_blockListenerScheduled p) (_blockListeners p) (sockets p) (baseSubscriptions p)
    (reconnections p) (nextTimer p) (blockTimers p) fs ds cs.

(** ** The subscription to blocks *)

Definition addSubscription (s : Socket) : Socket := mkSocket (alive s) (onClose s) (S (subscriptions s)).
Definition dropSubscription (s : Socket) : Socket := mkSocket (alive s) (onClose s) (pred (subscriptions s)).

Definition _startBlockEvents (p : Provider) : Provider :=
  match _wsProvider p with
  | Some i => setSubscriptions (alter addSubscription i (sockets p)) (baseSubscriptions p) p
  | None => setSubscriptions (sockets p) (S (baseSubscriptions p)) p
  end.

Definition _stopBlockEvents (p : Provider) : Provider :=
  match _wsProvider p with
  | Some i => setSubscriptions (alter dropSubscription i (sockets p)) (baseSubscriptions p) p
  | None => setSubscriptions (sockets p) (pred (baseSubscriptions p)) p
  end.

Definition _switchover (p : Provider) : Provider :=
  match _blockListeners p with
  | [] => p
  | _ =>
      _startBlockEvents
        (match _wsProvider p with
         | Some _ => setSubscriptions (sockets p) (pred (baseSubscriptions p)) p
         | None => p
         end)
  end.

(** ** The socket *)

Definition openWebSocket (url : string) (network : Z) (p : Provider) : Provider :=
  _switchover
    (mkProvider (Some (List.length (sockets p))) (Some (url, network)) (_reconnectTimerId p)
       (_seenBlock p) (_blockListenerScheduled p) (_blockListeners p)
       (sockets p ++ [mkSocket true true 0])%list (baseSubscriptions p) (reconnections p) (nextTimer p)
       (blockTimers p) (fetches p) (deferred p) (called p)).

Definition shut (s : Socket) : Socket := mkSocket false false (subscriptions s).

Definition setTimers (id : option nat) (timers : gset nat) (next : nat) (p : Provider) : Provider :=
  mkProvider (_wsProvider p) (_wsParams p) id (_seenBlock p) (_blockListenerScheduled p)
    (_blockListeners p) (sockets p) (baseSubscriptions p) timers next (blockTimers p) (fetches p)
    (deferred p) (called p).

Definition closeWebSocket (p : Provider) : Provider :=
  match _wsProvider p with
  | None => p
  | Some i =>
      let p := _switchover
                 (mkProvider None (_wsParams p) (_reconnectTimerId p) (_seenBlock p)
                    (_blockListenerScheduled p) (_blockListeners p) (alter shut i (sockets p))
                    (baseSubscriptions p) (reconnections p) (nextTimer p) (blockTimers p) (fetches p)
                    (deferred p) (called p)) in
      match _reconnectTimerId p with
      | Some id => setTimers None (reconnections p ∖ {[ id ]}) (nextTimer p) p
      | None => p
      end
  end.

Definition _onWebSocketClose (p : Provider) : Provider :=
  let p := closeWebSocket p in
  setTimers (Some (nextTimer p)) (reconnections p ∪ {[ nextTimer p ]}) (S (nextTimer p)) p.

(** The callback of the timer that [_onWebSocketClose] sets. *)
Definition reconnect (id : nat) (p : Provider) : Provider :=
  if decide (id ∈ reconnections p) then
    let p := setTimers (_reconnectTimerId p) (reconnections p ∖ {[ id ]}) (nextTimer p) p in
    match _wsParams p with Some (url, network) => openWebSocket url network p | None => p end
  else p.

(** The connection of a socket is lost, by whatever cause. *)
Definition connectionLost (i : nat) (p : Provider) : Provider :=
  match sockets p !! i with
  | Some (mkSocket true listens n) =>
      let p := setSubscriptions (<[i := mkSocket false listens n]> (sockets p)) (baseSubscriptions p) p in
      if listens then _onWebSocketClose p else p
  | _ => p
  end.

(** ** Blocks *)

Definition _onBlock (blockNumber : Z) (p : Provider) : Provider :=
  mkProvider (_wsProvider p) (_wsParams p) (_reconnectTimerId p) blockNumber true (_blockListeners p)
    (sockets p) (baseSubscriptions p) (reconnections p) (nextTimer p)
    (if _blockListenerScheduled p then blockTimers p else S (blockTimers p))
    (fetches p) (deferred p) (called p).

(** Where a block is announced. *)
Inductive Source := BasicProvider | OfSocket (i : nat).

Definition subscribed (s : Source) (p : Provider) : nat :=
  match s with
  | BasicProvider => baseSubscriptions p
  | OfSocket i => match sockets p !! i with Some (mkSocket true _ n) => n | _ => O end
  end.

Definition announce (s : Source) (blockNumber : Z) (p : Provider) : Provider :=
  Nat.iter (subscribed s p) (_onBlock blockNumber) p.

Definition has (listener : nat) (p : Provider) : bool :=
  existsb (Nat.eqb listener) (_blockListeners p).*1.

Definition removeMe (listener : nat) (p : Provider) : Provider :=
  setListeners (List.filter (fun l => negb (Nat.eqb listener l.1)) (_blockListeners p)) p.

(** [defer] *)
Definition defer (listener : nat) (argument : Argument) (p : Provider) : Provider :=
  setTasks (fetches p) (deferred p ++ [(listener, argument)])%list (called p) p.

Definition fetchReceipt (f : Fetch) (p : Provider) : Provider :=
  setTasks (fetches p ++ [Some f])%list (deferred p) (called p) p.

(** The second function of the pair that [_wrap] gives. *)
Definition callBlockListener (l : nat * BlockListener) (blockNumber : option Z) (p : Provider) : Provider :=
  let '(listener, kind) := l in
  match kind with
  | Pass => defer listener (OfBlock blockNumber) p
  | PassOnce => removeMe listener (defer listener (OfBlock blockNumber) p)
  | WaitFor hash => fetchReceipt (mkFetch listener hash blockNumber false) p
  | WaitForThenPassOnce hash => fetchReceipt (mkFetch listener hash blockNumber true) p
  end.

(** The callback of the timer of [_onBlock]. *)
Definition blockTimeout (p : Provider) : Provider :=
  match blockTimers p with
  | O => p
  | S n =>
      let p := mkProvider (_wsProvider p) (_wsParams p) (_reconnectTimerId p) (_seenBlock p) false
                 (_blockListeners p) (sockets p) (baseSubscriptions p) (reconnections p) (nextTimer p) n
                 (fetches p) (deferred p) (called p) in
      fold_left (fun q l => callBlockListener l (Some (_seenBlock q)) q) (_blockListeners p) p
  end.

(** The continuation of [waitFor], when the promise of the receipt settles. *)
Definition fetched (i : nat) (answer : result (option Receipt)) (p : Provider) : Provider :=
  match fetches p !! i with
  | Some (Some f) =>
      let p := setTasks (<[i := None]> (fetches p)) (deferred p) (called p) p in
      match answer with
      | Ok (Some receipt) =>
          if has (f_listener f) p then
            let p := defer (f_listener f) (OfReceipt receipt) p in
            if f_once f then removeMe (f_listener f) p else p
          else p
      | _ => p
      end
  | _ => p
  end.

Definition deferredRuns (p : Provider) : Provider :=
  match deferred p with
  | [] => p
  | d :: ds => setTasks (fetches p) ds (called p ++ [d])%list p
  end.

(** ** Registration *)

Definition _addBlockListener (listener : nat) (kind : BlockListener) (p : Provider) : Provider :=
  if has listener p then p
  else
    let p := setListeners (_blockListeners p ++ [(listener, kind)])%list p in
    if Nat.eqb (List.length (_blockListeners p)) 1 then _startBlockEvents p else p.

Definition _removeBlockListener (listener : nat) (p : Provider) : Provider :=
  if has listener p then
    let p := removeMe listener p in
    match _blockListeners p with [] => _stopBlockEvents p | _ => p end
  else p.

Section Registration.
Context (hexDataLength : string -> option Z).

Definition isTransactionHash (eventName : EventType) : option string :=
  match eventName with
  | EventName name => if decide (hexDataLength name = Some 32) then Some name else None
  | EventFilter => None
  end.

Definition isBlock (eventName : EventType) : bool :=
  match eventName with EventName name => String.eqb name "block" | EventFilter => false end.

Definition on (eventName : EventType) (listener : nat) (p : Provider) : Provider :=
  match isTransactionHash eventName with
  | Some hash =>
      _addBlockListener listener (WaitFor hash) (callBlockListener (listener, WaitFor hash) None p)
  | None => if isBlock eventName then _addBlockListener listener Pass p else p
  end.

Definition once (eventName : EventType) (listener : nat) (p : Provider) : Provider :=
  match isTransactionHash eventName with
  | Some hash =>
      _addBlockListener listener (WaitForThenPassOnce hash)
        (callBlockListener (listener, WaitForThenPassOnce hash) None p)
  | None => if isBlock eventName then _addBlockListener listener PassOnce p else p
  end.

Definition off (eventName : EventType) (listener : nat) (p : Provider) : Provider :=
  match isTransactionHash eventName with
  | Some _ => _removeBlockListener listener p
  | None => if isBlock eventName then _removeBlockListener listener p else p
  end.

(** ** Runs *)

Inductive Event :=
| OpenWebSocket (url : string) (network : Z)
| CloseWebSocket
| ConnectionLost (i : nat)
| Reconnect (id : nat)
| On (eventName : EventType) (listener : nat)
| Once (eventName : EventType) (listener : nat)
| Off (eventName : EventType) (listener : nat)
| Announce (s : Source) (blockNumber : Z)
| BlockTimeout
| Fetched (i : nat) (answer : result (option Receipt))
| DeferredRuns.

Definition turn (p : Provider) (e : Event) : Provider :=
  match e with
  | OpenWebSocket url network => openWebSocket url network p
  | CloseWebSocket => closeWebSocket p
  | ConnectionLost i => connectionLost i p
  | Reconnect id => reconnect id p
  | On eventName listener => on eventName listener p
  | Once eventName listener => once eventName listener p
  | Off eventName listener => off eventName listener p
  | Announce s n => announce s n p
  | BlockTimeout => blockTimeout p
  | Fetched i answer => fetched i answer p
  | DeferredRuns => deferredRuns p
  end.

Definition run (p : Provider) (events : list Event) : Provider := fold_left turn events p.
End Registration.

(** ** Runs that keep a property *)

Lemma fold_keeps {A} (I : Provider -> Prop) (f : Provider -> A -> Provider) l p :
  I p -> (forall p a, I p -> I (f p a)) -> I (fold_left f l p).
Proof. intros Hp Hstep. revert p Hp. induction l; cbn; auto. Qed.

Lemma run_keeps hex (I : Provider -> Prop) p events :
  I p -> (forall p e, I p -> I (turn hex p e)) -> I (run hex p events).
Proof. apply fold_keeps. Qed.

Lemma run_app hex p es es' : run hex p (es ++ es') = run hex (run hex p es) es'.
Proof. apply fold_left_app. Qed.

Lemma iter_keeps (I : Provider -> Prop) f n p : I p -> (forall p, I p -> I (f p)) -> I (Nat.iter n f p).
Proof. intros Hp Hstep. induction n; cbn; auto. Qed.

(** ** Listening means being subscribed *)

(** Where the provider means to hear of blocks. *)
Definition source (p : Provider) : Source :=
  match _wsProvider p with Some i => OfSocket i | None => BasicProvider end.

(** The socket in use is alive and watched, and whoever listens is subscribed at the source. *)
Record tuned (p : Provider) : Prop := {
  t_socket i : _wsProvider p = Some i -> exists n, sockets p !! i = Some (mkSocket true true n);
  t_subscribed : _blockListeners p <> [] -> (1 <= subscribed (source p) p)%nat
}.

(** The operations on listeners and tasks leave the connections as they are and add no listener. *)
Record quiet (p q : Provider) : Prop := {
  q_ws : _wsProvider q = _wsProvider p;
  q_sockets : sockets q = sockets p;
  q_base : baseSubscriptions q = baseSubscriptions p;
  q_listeners : _blockListeners p = [] -> _blockListeners q = []
}.

#[export] Instance quiet_preorder : PreOrder quiet.
Proof.
  split; [intros p; by split|]. intros p q r [] []. split; [congruence..|]. auto.
Qed.

Lemma quiet_source p q : quiet p q -> source q = source p.
Proof. unfold source. by intros [-> ]. Qed.

Lemma quiet_subscribed s p q : quiet p q -> subscribed s q = subscribed s p.
Proof. intros [_ Hs Hb _]. destruct s; cbn; by rewrite ?Hs, ?Hb. Qed.

Lemma quiet_tuned p q : quiet p q -> tuned p -> tuned q.
Proof.
  intros Hq [Hs Hl]. split.
  - intros i. rewrite (q_ws _ _ Hq), (q_sockets _ _ Hq). apply Hs.
  - intros Hne. rewrite (quiet_source _ _ Hq), (quiet_subscribed _ _ _ Hq).
    apply Hl. intros E. by apply Hne, (q_listeners _ _ Hq).
Qed.

Lemma quiet_remove listener p : quiet p (removeMe listener p).
Proof. split; try done. cbn. by intros ->. Qed.

Lemma quiet_call l t p : quiet p (callBlockListener l t p).
Proof.
  destruct l as [listener []]; cbn; try by split.
  etrans; [|apply quiet_remove]. by split.
Qed.

Lemma quiet_announce s n p : quiet p (announce s n p).
Proof. apply (iter_keeps (quiet p)); [done|]. intros q Hq. etrans; [exact Hq|]. by split. Qed.

Lemma quiet_timeout p : quiet p (blockTimeout p).
Proof.
  unfold blockTimeout. destruct (blockTimers p); [done|]. apply (fold_keeps (quiet p)); [by split|].
  intros q l Hq. etrans; [exact Hq|]. apply quiet_call.
Qed.

Lemma quiet_fetched i answer p : quiet p (fetched i answer p).
Proof.
  unfold fetched. repeat case_match; try done; try by split.
  etrans; [|apply quiet_remove]. by split.
Qed.

Lemma quiet_deferred p : quiet p (deferredRuns p).
Proof. unfold deferredRuns. case_match; by split. Qed.

Lemma tuned_start p :
  (forall i, _wsProvider p = Some i -> exists n, sockets p !! i = Some (mkSocket true true n)) ->
  tuned (_startBlockEvents p).
Proof.
  intros Hs. unfold _startBlockEvents. destruct (_wsProvider p) as [i|] eqn:E; split; cbn.
  - intros j [= <-]%(eq_trans (eq_sym E)). destruct (Hs i eq_refl) as [n Hn].
    rewrite list_lookup_alter_eq, Hn. by eexists.
  - intros _. unfold source. cbn. rewrite E. cbn. destruct (Hs i eq_refl) as [n Hn].
    rewrite list_lookup_alter_eq, Hn. cbn. lia.
  - intros j. by rewrite E.
  - intros _. unfold source. cbn. rewrite E. cbn. lia.
Qed.

Lemma tuned_switchover p :
  (forall i, _wsProvider p = Some i -> exists n, sockets p !! i = Some (mkSocket true true n)) ->
  tuned (_switchover p).
Proof.
  intros Hs. unfold _switchover. destruct (_blockListeners p) eqn:E; [by split|].
  apply tuned_start. by destruct (_wsProvider p) eqn:Ew; cbn; rewrite Ew.
Qed.

Lemma tuned_open url network p : tuned (openWebSocket url network p).
Proof.
  apply tuned_switchover. cbn. intros i [= <-]. exists O. by rewrite lookup_app_r, Nat.sub_diag.
Qed.

Lemma tuned_close p i : _wsProvider p = Some i -> tuned (closeWebSocket p).
Proof.
  intros E. unfold closeWebSocket. rewrite E. set (p' := mkProvider _ _ _ _ _ _ _ _ _ _ _ _ _ _).
  assert (tuned (_switchover p')) as Ht by by apply tuned_switchover.
  case_match; [|done]. eapply quiet_tuned; [|exact Ht]. by split.
Qed.

Lemma tuned_lost i p : tuned p -> tuned (connectionLost i p).
Proof.
  intros Ht. unfold connectionLost. destruct (sockets p !! i) as [[[] listens n]|] eqn:Ei; [|done..].
  set (p' := setSubscriptions _ _ _). destruct listens.
  - unfold _onWebSocketClose. cbn. apply (quiet_tuned (closeWebSocket p')); [by split|].
    destruct (_wsProvider p) eqn:E; [by eapply tuned_close|].
    unfold closeWebSocket. cbn. rewrite E. split; cbn; [by rewrite E|].
    pose proof (t_subscribed _ Ht) as Hl. unfold source in *. cbn. by rewrite E in *.
  - assert (_wsProvider p <> Some i) as Hne.
    { intros E. destruct (t_socket _ Ht _ E). congruence. }
    split; unfold p', source; cbn.
    + intros j Hj. rewrite list_lookup_insert_ne by congruence. by apply (t_socket _ Ht).
    + intros Hl%(t_subscribed _ Ht). unfold source in Hl. destruct (_wsProvider p); [|done].
      cbn in *. by rewrite list_lookup_insert_ne by congruence.
Qed.

Lemma tuned_reconnect id p : tuned p -> tuned (reconnect id p).
Proof.
  intros Ht. unfold reconnect. case_decide; [|done]. cbn. destruct (_wsParams p) as [[]|]; [apply tuned_open|].
  eapply quiet_tuned; [|exact Ht]. by split.
Qed.

Lemma tuned_add listener kind p : tuned p -> tuned (_addBlockListener listener kind p).
Proof.
  intros Ht. unfold _addBlockListener. destruct (has listener p); [done|]. cbn.
  destruct (Nat.eqb_spec (List.length (_blockListeners p ++ [(listener, kind)])) 1) as [E|E].
  - apply tuned_start. apply (t_socket _ Ht).
  - split; [apply (t_socket _ Ht)|]. intros _. apply (t_subscribed _ Ht). intros E'. by rewrite E' in E.
Qed.

Lemma tuned_remove listener p : tuned p -> tuned (_removeBlockListener listener p).
Proof.
  intros Ht. unfold _removeBlockListener. destruct (has listener p); [|done].
  pose proof (quiet_tuned _ _ (quiet_remove listener p) Ht) as Ht'. set (q := removeMe listener p) in *.
  destruct (_blockListeners q) eqn:E; [|done]. unfold _stopBlockEvents.
  destruct (_wsProvider q) as [i|] eqn:Ew; split; try (cbn -[q]; by rewrite E).
  - change (forall j, _wsProvider q = Some j ->
      exists n, alter dropSubscription i (sockets q) !! j = Some (mkSocket true true n)).
    rewrite Ew. intros j [= <-]. rewrite list_lookup_alter_eq. destruct (t_socket _ Ht' _ Ew) as [n ->].
    by eexists.
  - exact (t_socket _ Ht').
Qed.

Lemma tuned_turn hex p e : tuned p -> tuned (turn hex p e).
Proof.
  intros Ht. destruct e as [url network| |i|id|name listener|name listener|name listener|s n| |i answer|]; cbn.
  - apply tuned_open.
  - destruct (_wsProvider p) eqn:E; [by eapply tuned_close|]. unfold closeWebSocket. by rewrite E.
  - by apply tuned_lost.
  - by apply tuned_reconnect.
  - unfold on. repeat case_match; try done; apply tuned_add; [|done]. eapply quiet_tuned; [apply quiet_call|done].
  - unfold once. repeat case_match; try done; apply tuned_add; [|done]. eapply quiet_tuned; [apply quiet_call|done].
  - unfold off. repeat case_match; try done; by apply tuned_remove.
  - eapply quiet_tuned; [apply quiet_announce|done].
  - eapply quiet_tuned; [apply quiet_timeout|done].
  - eapply quiet_tuned; [apply quiet_fetched|done].
  - eapply quiet_tuned; [apply quiet_deferred|done].
Qed.

Lemma reachable_tuned hex events : tuned (run hex created events).
Proof. apply run_keeps; [by split|]. intros. by apply tuned_turn. Qed.

(** ** The timer of blocks and the keys of the listeners *)

(** The flag says whether the one timer is pending; a listener is registered once. *)
Record regular (p : Provider) : Prop := {
  r_timer : blockTimers p = (if _blockListenerScheduled p then 1 else 0)%nat;
  r_keys : NoDup (_blockListeners p).*1
}.

Lemma has_true listener p : has listener p = true <-> listener ∈ (_blockListeners p).*1.
Proof.
  unfold has. rewrite existsb_exists. setoid_rewrite Nat.eqb_eq. setoid_rewrite <- list_elem_of_In. naive_solver.
Qed.

Lemma removed_keys listener l :
  (List.filter (fun l : nat * BlockListener => negb (Nat.eqb listener l.1)) l).*1
  = List.filter (fun k => negb (Nat.eqb listener k)) l.*1.
Proof. induction l as [|[k kind] l IH]; cbn; [done|]. destruct (Nat.eqb listener k); cbn; by rewrite IH. Qed.

Lemma has_remove listener k p : has k (removeMe listener p) = has k p && negb (Nat.eqb listener k).
Proof.
  apply eq_true_iff_eq. rewrite andb_true_iff, !has_true, list_elem_of_In. cbn.
  rewrite removed_keys, filter_In, <- list_elem_of_In. done.
Qed.

Lemma regular_frame p q :
  blockTimers q = blockTimers p -> _blockListenerScheduled q = _blockListenerScheduled p ->
  _blockListeners q = _blockListeners p -> regular p -> regular q.
Proof. intros Ht Hs Hl [H1 H2]. split; [by rewrite Ht, Hs|by rewrite Hl]. Qed.

Lemma regular_remove listener p : regular p -> regular (removeMe listener p).
Proof.
  intros [Ht Hk]. split; [done|]. cbn. rewrite removed_keys. apply NoDup_ListNoDup, List.NoDup_filter.
  by apply NoDup_ListNoDup.
Qed.

Lemma regular_call l t p : regular p -> regular (callBlockListener l t p).
Proof.
  intros Hr. destruct l as [listener []]; unfold callBlockListener; try (by apply (regular_frame p)).
  apply regular_remove. by apply (regular_frame p).
Qed.

Lemma regular_start p : regular p -> regular (_startBlockEvents p).
Proof. intros Hr. unfold _startBlockEvents. case_match; by apply (regular_frame p). Qed.

Lemma regular_switchover p : regular p -> regular (_switchover p).
Proof.
  intros Hr. unfold _switchover. case_match; [done|]. apply regular_start. case_match; [|done].
  by apply (regular_frame p).
Qed.

Lemma regular_open url network p : regular p -> regular (openWebSocket url network p).
Proof. intros Hr. apply regular_switchover. by apply (regular_frame p). Qed.

Lemma regular_close p : regular p -> regular (closeWebSocket p).
Proof.
  intros Hr. unfold closeWebSocket. case_match; [|done]. set (p' := mkProvider _ _ _ _ _ _ _ _ _ _ _ _ _ _).
  assert (regular (_switchover p')) as Hr' by (apply regular_switchover; by apply (regular_frame p)).
  case_match; [by apply (regular_frame (_switchover p'))|done].
Qed.

Lemma regular_add listener kind p : regular p -> regular (_addBlockListener listener kind p).
Proof.
  intros Hr. unfold _addBlockListener. destruct (has listener p) eqn:E; [done|].
  assert (regular (setListeners (_blockListeners p ++ [(listener, kind)]) p)).
  { split; [apply Hr|]. cbn. rewrite fmap_app. apply NoDup_app. split; [apply Hr|]. split; [|apply NoDup_singleton].
    intros k Hk%has_true ->%list_elem_of_singleton. cbn in *. congruence. }
  case_match; [by apply regular_start|done].
Qed.

Lemma regular_removeListener listener p : regular p -> regular (_removeBlockListener listener p).
Proof.
  intros Hr. unfold _removeBlockListener. destruct (has listener p); [|done].
  pose proof (regular_remove listener p Hr) as Hq. set (q := removeMe listener p) in *.
  case_match; [|done]. unfold _stopBlockEvents. case_match; by apply (regular_frame q).
Qed.

Lemma regular_onBlock n p : regular p -> regular (_onBlock n p).
Proof. intros [Ht Hk]. split; [|done]. cbn. rewrite Ht. by destruct (_blockListenerScheduled p). Qed.

Lemma regular_lost i p : regular p -> regular (connectionLost i p).
Proof.
  intros Hr. unfold connectionLost. destruct (sockets p !! i) as [[[] listens n]|]; [|done..].
  set (q := setSubscriptions _ _ _). assert (regular q) as Hq by by apply (regular_frame p).
  destruct listens; [|done]. unfold _onWebSocketClose.
  apply (regular_frame (closeWebSocket q)); [done..|]. by apply regular_close.
Qed.

Lemma regular_timeout p : regular p -> regular (blockTimeout p).
Proof.
  intros Hr. unfold blockTimeout. destruct (blockTimers p) as [|n] eqn:E; [done|].
  apply fold_keeps; [|intros; by apply regular_call]. split; [|apply Hr]. cbn.
  pose proof (r_timer _ Hr) as Ht. rewrite E in Ht. destruct (_blockListenerScheduled p); lia.
Qed.

Lemma regular_turn hex p e : regular p -> regular (turn hex p e).
Proof.
  intros Hr. destruct e as [url network| |i|id|name listener|name listener|name listener|s n| |i answer|]; cbn.
  - by apply regular_open.
  - by apply regular_close.
  - by apply regular_lost.
  - unfold reconnect. case_decide; [|done]. cbn. case_match; [|by apply (regular_frame p)].
    case_match. apply regular_open. by apply (regular_frame p).
  - unfold on. repeat case_match; try done; apply regular_add; [|done]. by apply regular_call.
  - unfold once. repeat case_match; try done; apply regular_add; [|done]. by apply regular_call.
  - unfold off. repeat case_match; try done; by apply regular_removeListener.
  - apply (iter_keeps regular); [done|]. intros. by apply regular_onBlock.
  - by apply regular_timeout.
  - unfold fetched. repeat case_match; try done; try (by apply (regular_frame p)).
    apply regular_remove. by apply (regular_frame p).
  - unfold deferredRuns. case_match; [done|]. by apply (regular_frame p).
Qed.

Lemma reachable_regular hex events : regular (run hex created events).
Proof. apply run_keeps; [split; [done|constructor]|]. intros. by apply regular_turn. Qed.

(** ** Every block reaches every listener *)

(** What a listener's turn puts off, asks for and leaves when block [n] is passed on. *)
Definition deliveries (n : Z) (l : nat * BlockListener) : list (nat * Argument) :=
  match l.2 with Pass | PassOnce => [(l.1, OfBlock (Some n))] | _ => [] end.
Definition requests (n : Z) (l : nat * BlockListener) : list (option Fetch) :=
  match l.2 with
  | WaitFor hash => [Some (mkFetch l.1 hash (Some n) false)]
  | WaitForThenPassOnce hash => [Some (mkFetch l.1 hash (Some n) true)]
  | _ => []
  end.
Definition stays (l : nat * BlockListener) : bool := match l.2 with PassOnce => false | _ => true end.

(** The keys that the listeners of a list remove. *)
Definition spent (ls : list (nat * BlockListener)) : list nat := (List.filter (fun l => negb (stays l)) ls).*1.

Lemma filter_filter {A} (f g : A -> bool) l :
  List.filter f (List.filter g l) = List.filter (fun a => g a && f a) l.
Proof. induction l as [|a l IH]; cbn; [done|]. destruct (g a); cbn; [destruct (f a)|]; by rewrite IH. Qed.

Lemma fold_calls ls q :
  let r := fold_left (fun q l => callBlockListener l (Some (_seenBlock q)) q) ls q in
  deferred r = (deferred q ++ flat_map (deliveries (_seenBlock q)) ls)%list /\
  fetches r = (fetches q ++ flat_map (requests (_seenBlock q)) ls)%list /\
  _blockListeners r = List.filter (fun l => negb (existsb (Nat.eqb l.1) (spent ls))) (_blockListeners q) /\
  _blockListenerScheduled r = _blockListenerScheduled q.
Proof.
  revert q. induction ls as [|[k kind] ls IH]; intros q; cbn zeta.
  - cbn. rewrite !app_nil_r. split; [done|]. split; [done|]. split; [|done].
    symmetry. apply forallb_filter_id, forallb_forall. done.
  - cbn [fold_left]. destruct (IH (callBlockListener (k, kind) (Some (_seenBlock q)) q)) as (Hd & Hf & Hl & Hs).
    rewrite Hd, Hf, Hl, Hs. destruct kind; cbn; rewrite ?app_nil_r, <-?app_assoc; repeat split; try done.
    rewrite filter_filter. apply filter_ext. intros l. rewrite negb_orb, (Nat.eqb_sym k). done.
Qed.

Lemma unspent ls : NoDup ls.*1 ->
  List.filter (fun l => negb (existsb (Nat.eqb l.1) (spent ls))) ls = List.filter stays ls.
Proof.
  intros Hk. apply filter_ext_in. intros [k kind] Hl. cbn. destruct (stays (k, kind)) eqn:Es.
  - apply negb_true_iff, not_true_iff_false. rewrite existsb_exists. intros (j & Hj & ->%Nat.eqb_eq).
    apply list_elem_of_In, list_elem_of_fmap in Hj as ([j' kind'] & -> & Hj%list_elem_of_In).
    apply filter_In in Hj as [Hj Hs]. cbn in *.
    apply list_elem_of_In, list_elem_of_lookup in Hl as [i Hi].
    apply list_elem_of_In, list_elem_of_lookup in Hj as [i' Hi'].
    assert (i = i') as <- by (eapply NoDup_lookup; [exact Hk|..]; by rewrite list_lookup_fmap, ?Hi, ?Hi').
    rewrite Hi in Hi'. injection Hi' as <-. by rewrite Es in Hs.
  - apply negb_false_iff, existsb_exists. exists k. split; [|apply Nat.eqb_refl].
    apply list_elem_of_In, list_elem_of_fmap. exists (k, kind). split; [done|].
    apply list_elem_of_In, filter_In. by rewrite Es.
Qed.

Lemma announced s n p : (1 <= subscribed s p)%nat -> announce s n p = Nat.iter (subscribed s p) (_onBlock n) p /\
  _seenBlock (announce s n p) = n /\ _blockListenerScheduled (announce s n p) = true /\
  deferred (announce s n p) = deferred p /\ fetches (announce s n p) = fetches p /\
  _blockListeners (announce s n p) = _blockListeners p.
Proof.
  unfold announce. destruct (subscribed s p) as [|m]; [lia|]. intros _. split; [done|].
  split; [done|]. split; [done|]. cbn. apply (iter_keeps (fun q => deferred q = deferred p /\
    fetches q = fetches p /\ _blockListeners q = _blockListeners p)); [done|]. by intros q.
Qed.

(** The block that an event lets the provider see, if any: one that a source it listens to
    announces. *)
Definition heard (p : Provider) (e : Event) : option Z :=
  match e with
  | Announce s n => if Nat.ltb 0 (subscribed s p) then Some n else None
  | _ => None
  end.

(** The block seen last, after [n], along a run. *)
Fixpoint lastHeard (hex : string -> option Z) (p : Provider) (n : Z) (events : list Event) : Z :=
  match events with
  | [] => n
  | e :: events => lastHeard hex (turn hex p e) (default n (heard p e)) events
  end.

Definition isTimeout (e : Event) : bool := match e with BlockTimeout => true | _ => false end.

(** What the provider knows of blocks. *)
Definition blocksOf (p : Provider) : Z * bool := (_seenBlock p, _blockListenerScheduled p).

Lemma blocks_start p : blocksOf (_startBlockEvents p) = blocksOf p.
Proof. unfold _startBlockEvents. by case_match. Qed.

Lemma blocks_switchover p : blocksOf (_switchover p) = blocksOf p.
Proof. unfold _switchover. case_match; [done|]. rewrite blocks_start. by case_match. Qed.

Lemma blocks_close p : blocksOf (closeWebSocket p) = blocksOf p.
Proof.
  unfold closeWebSocket. case_match; [|done]. set (p' := mkProvider _ _ _ _ _ _ _ _ _ _ _ _ _ _).
  pose proof (blocks_switchover p'). by case_match.
Qed.

Lemma blocks_call l t p : blocksOf (callBlockListener l t p) = blocksOf p.
Proof. by destruct l as [listener []]. Qed.

Lemma blocks_add listener kind p : blocksOf (_addBlockListener listener kind p) = blocksOf p.
Proof. unfold _addBlockListener. case_match; [done|]. cbn zeta. case_match; [by rewrite blocks_start | done]. Qed.

Lemma blocks_remove listener p : blocksOf (_removeBlockListener listener p) = blocksOf p.
Proof. unfold _removeBlockListener, _stopBlockEvents. by repeat case_match. Qed.

Lemma blocks_lost i p : blocksOf (connectionLost i p) = blocksOf p.
Proof.
  unfold connectionLost. destruct (sockets p !! i) as [[[] listens n]|]; [|done..].
  destruct listens; [|done]. set (q := setSubscriptions _ _ _). apply (blocks_close q).
Qed.

Lemma blocks_announce s n p :
  blocksOf (announce s n p) = if Nat.ltb 0 (subscribed s p) then (n, true) else blocksOf p.
Proof. unfold announce. by destruct (subscribed s p). Qed.

(** Only the timer of the blocks takes the flag back, and only a block that is heard replaces
    the one that was seen. *)
Lemma blocks_turn hex p e : isTimeout e = false ->
  blocksOf (turn hex p e) =
  match heard p e with Some n => (n, true) | None => blocksOf p end.
Proof.
  intros He. destruct e as [url network| |i|id|name listener|name listener|name listener|s n| |i answer|];
    cbn [turn heard]; try done.
  - by unfold openWebSocket; rewrite blocks_switchover.
  - apply blocks_close.
  - apply blocks_lost.
  - unfold reconnect. case_decide; [|done]. cbn. case_match; [|done]. case_match.
    unfold openWebSocket. by rewrite blocks_switchover.
  - unfold on. repeat case_match; try done; rewrite blocks_add; [|done]. by rewrite blocks_call.
  - unfold once. repeat case_match; try done; rewrite blocks_add; [|done]. by rewrite blocks_call.
  - unfold off. repeat case_match; try done; by rewrite blocks_remove.
  - rewrite blocks_announce. by case_match.
  - unfold fetched. by repeat case_match.
  - unfold deferredRuns. by case_match.
Qed.

(** Until the timer fires, it is pending and the block seen is the last one heard. *)
Lemma scheduled_run hex p n events :
  blocksOf p = (n, true) -> forallb (fun e => negb (isTimeout e)) events = true ->
  blocksOf (run hex p events) = (lastHeard hex p n events, true).
Proof.
  revert p n. induction events as [|e events IH]; intros p n Hp Hes; [done|].
  cbn in Hes. apply andb_true_iff in Hes as [He%negb_true_iff Hes].
  change (run hex p (e :: events)) with (run hex (turn hex p e) events). cbn [lastHeard].
  apply IH; [|done]. rewrite blocks_turn by done. by destruct (heard p e).
Qed.

(** What the timer does with the block seen. *)
Lemma timeout_serves m last : regular m -> blockTimers m = 1%nat -> _seenBlock m = last ->
  let q := blockTimeout m in
  deferred q = (deferred m ++ flat_map (deliveries last) (_blockListeners m))%list /\
  fetches q = (fetches m ++ flat_map (requests last) (_blockListeners m))%list /\
  _blockListeners q = List.filter stays (_blockListeners m) /\
  _blockListenerScheduled q = false /\ blockTimers q = 0%nat.
Proof.
  intros Hr Hbt <- q. pose proof (regular_timeout m Hr) as Hq. fold q in Hq.
  pose proof (r_timer _ Hq) as Ht. unfold q, blockTimeout in *. rewrite Hbt in *.
  match goal with |- context [fold_left _ _ ?p0] => pose proof (fold_calls (_blockListeners m) p0) as Hc end.
  cbn in Hc. rewrite unspent in Hc by apply Hr. destruct Hc as (Hd & Hf & Hl & Hsch).
  split; [exact Hd|]. split; [exact Hf|]. split; [exact Hl|]. split; [exact Hsch|].
  etrans; [exact Ht|]. cbn [_blockListeners]. by rewrite Hsch.
Qed.

(** C15. Once the source in use has announced a block while something listened, whatever happened
    before, the timer of the blocks is pending, and when it fires, whatever happens meanwhile,
    every listener that is registered then is served with the block heard last: the listeners of
    blocks are called with it, those of transactions ask for their receipts as of it, and of the
    listeners only those that wait for one block are done.  Blocks are coalesced: one that is
    followed by another before the timer fires is passed on to nobody. *)
Theorem every_block_reaches_every_listener hex events n between :
  let p := run hex created events in
  let m := run hex p (Announce (source p) n :: between) in
  let q := turn hex m BlockTimeout in
  let last := lastHeard hex (announce (source p) n p) n between in
  _blockListeners p <> [] -> forallb (fun e => negb (isTimeout e)) between = true ->
  blockTimers m = 1%nat /\
  deferred q = (deferred m ++ flat_map (deliveries last) (_blockListeners m))%list /\
  fetches q = (fetches m ++ flat_map (requests last) (_blockListeners m))%list /\
  _blockListeners q = List.filter stays (_blockListeners m) /\
  _blockListenerScheduled q = false /\ blockTimers q = 0%nat.
Proof.
  intros p m q last Hne Hes. pose proof (reachable_tuned hex events : tuned p) as Ht.
  assert (blocksOf m = (last, true)) as Hm.
  { change m with (run hex (announce (source p) n p) between).
    apply scheduled_run; [|done]. rewrite blocks_announce.
    destruct (Nat.ltb_spec 0 (subscribed (source p) p)); [done|]. pose proof (t_subscribed _ Ht Hne). lia. }
  assert (regular m) as Hr by (unfold m, p; rewrite <- run_app; apply reachable_regular).
  clearbody m last. injection Hm as Hn Hs. pose proof (r_timer _ Hr) as Hbt. rewrite Hs in Hbt.
  split; [done|]. apply timeout_serves; done.
Qed.

(** ** Waiting once *)

Definition callsOf (listener : nat) (l : list (nat * Argument)) : nat :=
  List.length (List.filter (fun d => Nat.eqb listener d.1) l).

(** The calls of a listener that were made, are put off, or are still to come. *)
Definition calling (f : nat) (p : Provider) : nat :=
  callsOf f (called p) + callsOf f (deferred p) + (if has f p then 1 else 0).

Definition callsOnce (kind : BlockListener) : bool :=
  match kind with PassOnce | WaitForThenPassOnce _ => true | _ => false end.

(** At most [k] calls, of a listener [f] that is only registered to be called once. *)
Record bounded (f k : nat) (p : Provider) : Prop := {
  b_kinds kind : (f, kind) ∈ _blockListeners p -> callsOnce kind = true;
  b_fetches fe : Some fe ∈ fetches p -> f_listener fe = f -> f_once fe = true;
  b_calls : (calling f p <= k)%nat
}.

Lemma calling_defer f listener a p :
  calling f (defer listener a p) = (calling f p + if Nat.eqb f listener then 1 else 0)%nat.
Proof.
  unfold calling, callsOf, has. cbn. rewrite List.filter_app, length_app. cbn.
  destruct (Nat.eqb f listener); cbn; lia.
Qed.

Lemma calling_remove f listener p :
  (calling f (removeMe listener p) + (if has f p && Nat.eqb f listener then 1 else 0) = calling f p)%nat.
Proof.
  unfold calling. rewrite has_remove, (Nat.eqb_sym listener). cbn [called deferred removeMe setListeners].
  destruct (has f p), (Nat.eqb f listener); cbn [andb negb]; lia.
Qed.

Lemma bounded_remove f k listener p : bounded f k p -> bounded f k (removeMe listener p).
Proof.
  intros [Hk Hf Hc]. split; [|done|pose proof (calling_remove f listener p); lia].
  intros kind Hi%list_elem_of_In%filter_In. apply Hk, list_elem_of_In, Hi.
Qed.

Lemma bounded_remove_self f k kind p : bounded f k p -> (f, kind) ∈ _blockListeners p ->
  bounded f k (removeMe f p) /\ (calling f (removeMe f p) + 1 <= k)%nat.
Proof.
  intros Hb Hi. split; [by apply bounded_remove|]. pose proof (calling_remove f f p) as Hc.
  assert (has f p = true) as E by (apply has_true, list_elem_of_fmap; by exists (f, kind)).
  rewrite E, Nat.eqb_refl in Hc. cbn [andb] in Hc. pose proof (b_calls _ _ _ Hb). lia.
Qed.

Lemma bounded_frame f k p q :
  _blockListeners q = _blockListeners p -> fetches q = fetches p -> deferred q = deferred p ->
  called q = called p -> bounded f k p -> bounded f k q.
Proof.
  intros Hl Hf Hd Hc [H1 H2 H3]. split; [rewrite Hl; exact H1|rewrite Hf; exact H2|].
  unfold calling, has in *. by rewrite Hc, Hd, Hl.
Qed.

(** A listener's turn, while the listener is still registered if it is to be called once. *)
Lemma bounded_call f k l t p :
  bounded f k p -> (l.1 = f -> has f p = true /\ callsOnce l.2 = true) ->
  bounded f k (callBlockListener l t p).
Proof.
  destruct l as [listener kind]. intros [Hk Hf Hc] Hl. cbn [fst snd] in Hl.
  assert (forall fe, f_listener fe = listener -> (listener = f -> f_once fe = true) ->
    bounded f k (fetchReceipt fe p)) as Hfetch.
  { intros fe Hfe Ho. split; [done| |done]. cbn. intros fe' [Hi|E%list_elem_of_singleton]%elem_of_app; [by apply Hf|].
    injection E as ->. intros <-. auto. }
  destruct kind; cbn.
  - destruct (decide (listener = f)) as [E|E]; [by destruct (Hl E)|].
    split; [done..|]. rewrite calling_defer. apply not_eq_sym, Nat.eqb_neq in E. rewrite E. lia.
  - split; [|done|].
    + cbn. intros kind Hi%list_elem_of_In%filter_In. apply Hk, list_elem_of_In, Hi.
    + pose proof (calling_remove f listener (defer listener (OfBlock t) p)) as Hr. rewrite calling_defer in Hr.
      destruct (Nat.eqb_spec f listener) as [->|]; [|lia]. destruct (Hl eq_refl) as [Hh _].
      change (has listener (defer listener (OfBlock t) p)) with (has listener p) in Hr. rewrite Hh in Hr.
      cbn [andb] in Hr. lia.
  - apply Hfetch; [done|]. intros E. by destruct (Hl E).
  - by apply Hfetch.
Qed.

Lemma bounded_calls f k ls p :
  NoDup ls.*1 -> (forall l, l ∈ ls -> l.1 = f -> has f p = true /\ callsOnce l.2 = true) -> bounded f k p ->
  bounded f k (fold_left (fun q l => callBlockListener l (Some (_seenBlock q)) q) ls p).
Proof.
  revert p. induction ls as [|l ls IH]; intros p Hn Hl Hb; cbn; [done|].
  apply NoDup_cons in Hn as [Hni Hn]. apply IH; [done| |apply bounded_call; [done|apply Hl; left]].
  intros l' Hl' E. destruct (Hl l') as [Hh Ho]; [by right|done|]. split; [|done].
  assert (l.1 <> f) as Hne.
  { intros E'. apply Hni. rewrite E', <- E. apply list_elem_of_fmap. by exists l'. }
  destruct l as [k' []]; cbn in *; try exact Hh. rewrite <- Hh.
  change (has f (removeMe k' (defer k' (OfBlock (Some (_seenBlock p))) p)) = has f p).
  rewrite has_remove. apply Nat.eqb_neq in Hne. rewrite Hne. by rewrite andb_true_r.
Qed.

Lemma bounded_weaken f k k' p : (k <= k')%nat -> bounded f k p -> bounded f k' p.
Proof. intros Hk [H1 H2 H3]. split; [done..|lia]. Qed.

Lemma bounded_start f k p : bounded f k p -> bounded f k (_startBlockEvents p).
Proof. intros Hb. unfold _startBlockEvents. case_match; by apply (bounded_frame f k p). Qed.

Lemma bounded_switchover f k p : bounded f k p -> bounded f k (_switchover p).
Proof.
  intros Hb. unfold _switchover. case_match; [done|]. apply bounded_start.
  case_match; [by apply (bounded_frame f k p)|done].
Qed.

Lemma bounded_close f k p : bounded f k p -> bounded f k (closeWebSocket p).
Proof.
  intros Hb. unfold closeWebSocket. case_match; [|done]. set (p' := mkProvider _ _ _ _ _ _ _ _ _ _ _ _ _ _).
  assert (bounded f k (_switchover p')) by (apply bounded_switchover; by apply (bounded_frame f k p)).
  case_match; [by apply (bounded_frame f k (_switchover p'))|done].
Qed.

Lemma bounded_open f k url network p : bounded f k p -> bounded f k (openWebSocket url network p).
Proof. intros Hb. apply bounded_switchover. by apply (bounded_frame f k p). Qed.

Lemma bounded_lost f k i p : bounded f k p -> bounded f k (connectionLost i p).
Proof.
  intros Hb. unfold connectionLost. destruct (sockets p !! i) as [[[] listens n]|]; [|done..].
  set (q := setSubscriptions _ _ _). assert (bounded f k q) by by apply (bounded_frame f k p).
  destruct listens; [|done]. apply (bounded_frame f k (closeWebSocket q)); [done..|]. by apply bounded_close.
Qed.

Lemma bounded_reconnect f k id p : bounded f k p -> bounded f k (reconnect id p).
Proof.
  intros Hb. unfold reconnect. case_decide; [|done]. cbn. case_match; [|by apply (bounded_frame f k p)].
  case_match. apply bounded_open. by apply (bounded_frame f k p).
Qed.

(** A registration adds a call at most if the listener was not registered. *)
Lemma bounded_add f k listener kind p :
  bounded f k p -> (listener = f -> callsOnce kind = true) ->
  bounded f (k + if Nat.eqb f listener then 1 else 0) (_addBlockListener listener kind p).
Proof.
  intros [Hk Hf Hc] Ho. unfold _addBlockListener. destruct (has listener p) eqn:E; [split; try done; lia|].
  set (q := setListeners _ p). assert (bounded f (k + if Nat.eqb f listener then 1 else 0) q) as Hq.
  { split; [|done|].
    - intros kind' [Hi|[= -> ->]%list_elem_of_singleton]%elem_of_app; auto.
    - unfold calling, has in *. subst q. cbn [called deferred setListeners _blockListeners].
      rewrite fmap_app, existsb_app. cbn [existsb fmap list_fmap fst].
      destruct (existsb (Nat.eqb f) _), (Nat.eqb f listener); cbn [orb]; lia. }
  destruct (Nat.eqb (List.length (_blockListeners q)) 1); [by apply bounded_start|exact Hq].
Qed.

(** Whether an event registers the listener, for every call or for one. *)
Definition registers (f : nat) (e : Event) : bool := match e with On _ l => Nat.eqb f l | _ => false end.
Definition registersOnce (f : nat) (e : Event) : bool := match e with Once _ l => Nat.eqb f l | _ => false end.

Lemma bounded_turn hex f k p e : regular p -> registers f e = false -> bounded f k p ->
  bounded f (k + if registersOnce f e then 1 else 0) (turn hex p e).
Proof.
  intros Hr He Hb. assert (bounded f (k + 0) p) as Hb0 by (eapply bounded_weaken; [|exact Hb]; lia).
  destruct e as [url network| |i|id|name listener|name listener|name listener|s n| |i answer|];
    cbn [turn registersOnce registers] in *.
  - by apply bounded_open.
  - by apply bounded_close.
  - by apply bounded_lost.
  - by apply bounded_reconnect.
  - apply Nat.eqb_neq in He as Hne.
    assert (forall kind q, bounded f k q -> bounded f (k + 0) (_addBlockListener listener kind q)) as Hadd.
    { intros kind q Hq. pose proof (bounded_add f k listener kind q Hq) as H. rewrite He in H.
      apply H. congruence. }
    unfold on. destruct (isTransactionHash hex name) as [hash|]; [|destruct (isBlock name)]; [|by apply Hadd|done].
    apply Hadd, bounded_call; [done|]. cbn. congruence.
  - unfold once. destruct (isTransactionHash hex name) as [hash|]; [|destruct (isBlock name)].
    + apply bounded_add; [|done]. destruct Hb as [H1 H2 H3]. split; [done| |done]. cbn.
      intros fe [Hi|[= ->]%list_elem_of_singleton]%elem_of_app; [by apply H2|done].
    + by apply bounded_add.
    + eapply bounded_weaken; [|exact Hb]. lia.
  - assert (bounded f (k + 0) (_removeBlockListener listener p)) as Hq.
    { unfold _removeBlockListener. destruct (has listener p); [|done].
      pose proof (bounded_remove f _ listener p Hb0) as Hq. set (q := removeMe listener p) in *.
      case_match; [|done]. unfold _stopBlockEvents. case_match; by apply (bounded_frame f _ q). }
    unfold off. repeat case_match; done.
  - apply (iter_keeps (bounded f (k + 0))); [done|]. intros q Hq. by apply (bounded_frame f _ q).
  - unfold blockTimeout. destruct (blockTimers p); [done|]. apply bounded_calls; [apply Hr| |].
    + intros [f' kind] Hl; cbn. intros ->. split; [|by apply (b_kinds _ _ _ Hb)].
      apply (has_true f p), list_elem_of_fmap. by exists (f, kind).
    + by apply (bounded_frame f _ p).
  - unfold fetched. destruct (fetches p !! i) as [[fe|]|] eqn:Ei; [|done..].
    set (q := setTasks _ _ _ p).
    assert (bounded f (k + 0) q) as Hq.
    { destruct Hb0 as [H1 H2 H3]. split; [done| |done]. cbn. intros fe' [j Hj]%list_elem_of_lookup.
      apply list_lookup_insert_Some in Hj as [(_ & [=] & _)|(_ & Hj)]. apply H2. by eapply list_elem_of_lookup_2. }
    destruct answer as [[receipt|]|]; [|done..]. destruct (has (f_listener fe) q) eqn:Eh; [|done].
    assert (f_listener fe = f -> f_once fe = true) as Ho
      by (apply (b_fetches _ _ _ Hb); by eapply list_elem_of_lookup_2).
    destruct (decide (f_listener fe = f)) as [E|E].
    + rewrite Ho by done. rewrite E in *. apply has_true, list_elem_of_fmap in Eh as ([f' kind] & -> & Hi).
      destruct (bounded_remove_self _ _ kind q Hq Hi) as [Hq' Hc]. split; [apply Hq'|apply Hq'|].
      change (calling f' (defer f' (OfReceipt receipt) (removeMe f' q)) <= k + 0)%nat.
      rewrite calling_defer, Nat.eqb_refl. exact Hc.
    + assert (bounded f (k + 0) (defer (f_listener fe) (OfReceipt receipt) q)).
      { destruct Hq as [H1 H2 H3]. split; [done..|]. rewrite calling_defer.
        apply not_eq_sym, Nat.eqb_neq in E. rewrite E. lia. }
      destruct (f_once fe); [by apply bounded_remove|done].
  - unfold deferredRuns. destruct (deferred p) as [|d ds] eqn:E; [done|]. destruct Hb0 as [H1 H2 H3].
    split; [done..|]. change (callsOf f (called p ++ [d]) + callsOf f ds + (if has f p then 1 else 0) <= k + 0)%nat.
    unfold calling in H3. rewrite E in H3. unfold callsOf in *. rewrite List.filter_app, length_app.
    cbn [List.filter] in *. destruct (Nat.eqb f d.1); cbn [List.length] in *; lia.
Qed.

(** A listener that is only ever registered by [once] is called at most as often as it was
    registered, whatever happens in between: blocks and receipts that arrive together, switches
    between the provider and the socket, removals and registrations for another event. *)
Theorem once_is_at_most_once hex f events :
  forallb (fun e => negb (registers f e)) events = true ->
  (callsOf f (called (run hex created events)) <= List.length (List.filter (registersOnce f) events))%nat.
Proof.
  intros He. assert (forall p k, regular p -> bounded f k p ->
    bounded f (k + List.length (List.filter (registersOnce f) events)) (run hex p events)) as H.
  { clear -He. induction events as [|e events IH]; intros p k Hr Hb.
    - eapply bounded_weaken; [|exact Hb]. lia.
    - cbn in He. apply andb_true_iff in He as [He%negb_true_iff Hes].
      pose proof (IH Hes _ _ (regular_turn hex p e Hr) (bounded_turn hex f k p e Hr He Hb)) as H.
      eapply bounded_weaken; [|exact H]. cbn. destruct (registersOnce f e); cbn; lia. }
  assert (bounded f 0 created) as H0 by (split; [set_solver..|done]).
  pose proof (b_calls _ _ _ (H created O (reachable_regular hex []) H0)) as Hc. unfold calling in Hc. lia.
Qed.

(** ** Subscriptions that are left behind *)

(** Waiting for one block, and the block. *)
Definition onceRound (f : nat) (n : Z) : list Event :=
  [Once (EventName "block") f; Announce BasicProvider n; BlockTimeout; DeferredRuns].

Definition subscribedIdly (k : nat) (seen : Z) (cs : list (nat * Argument)) : Provider :=
  mkProvider None None None seen false [] [] k ∅ 0 0 [] [] cs.

Lemma announced_again n m p : Nat.iter (S m) (_onBlock n) p = _onBlock n p.
Proof.
  induction m as [|m IH]; [done|]. change (Nat.iter (S (S m)) (_onBlock n) p) with (_onBlock n (Nat.iter (S m) (_onBlock n) p)).
  by rewrite IH.
Qed.

Lemma run_onceRound hex f n k seen cs : hex "block" <> Some 32 ->
  run hex (subscribedIdly k seen cs) (onceRound f n) = subscribedIdly (S k) n (cs ++ [(f, OfBlock (Some n))]).
Proof.
  intros Hb. unfold onceRound, run. cbn [fold_left turn].
  assert (once hex (EventName "block") f (subscribedIdly k seen cs)
    = mkProvider None None None seen false [(f, PassOnce)] [] (S k) ∅ 0 0 [] [] cs) as ->.
  { unfold once, isTransactionHash. by rewrite decide_False. }
  unfold announce. cbn [subscribed baseSubscriptions]. rewrite announced_again.
  unfold blockTimeout, _onBlock. cbn -[removeMe]. unfold removeMe. cbn. by rewrite Nat.eqb_refl.
Qed.

(** Each wait for a block by [once] leaves a subscription behind: when the last listener is
    called and removed the provider stays subscribed, and the next listener subscribes it again.
    After [k] waits nobody listens and each block is announced [k] times. *)
Theorem once_leaves_subscriptions hex f blocks : hex "block" <> Some 32 ->
  let p := run hex created (flat_map (onceRound f) blocks) in
  _blockListeners p = [] /\ subscribed BasicProvider p = List.length blocks /\
  called p = List.map (fun n => (f, OfBlock (Some n))) blocks.
Proof.
  intros Hb. assert (forall k seen cs, exists seen',
    run hex (subscribedIdly k seen cs) (flat_map (onceRound f) blocks)
    = subscribedIdly (k + List.length blocks) seen' (cs ++ List.map (fun n => (f, OfBlock (Some n))) blocks)) as H.
  { induction blocks as [|n blocks IH]; intros k seen cs.
    - exists seen. cbn. by rewrite app_nil_r, Nat.add_0_r.
    - cbn [flat_map]. rewrite run_app, run_onceRound by done.
      destruct (IH (S k) n (cs ++ [(f, OfBlock (Some n))])%list) as [seen' ->]. exists seen'.
      rewrite <-app_assoc. cbn [List.length List.map app]. by rewrite Nat.add_succ_r. }
  intros p. unfold p. change created with (subscribedIdly 0 0 []). by destruct (H O 0 []) as [seen' ->].
Qed.

(** ** One socket at a time *)

(** An application that opens the socket when none is open or about to be. *)
Inductive orderly (hex : string -> option Z) : Provider -> Prop :=
| orderly_created : orderly hex created
| orderly_turn p e :
    orderly hex p ->
    match e with OpenWebSocket _ _ => _wsProvider p = None /\ reconnections p = ∅ | _ => True end ->
    orderly hex (turn hex p e).

Record disciplined (p : Provider) : Prop := {
  d_alive i : (alive <$> sockets p) !! i = Some true -> _wsProvider p = Some i;
  d_timers id : id ∈ reconnections p -> _wsProvider p = None /\ _reconnectTimerId p = Some id /\ _wsParams p <> None;
  d_params i : _wsProvider p = Some i -> _wsParams p <> None
}.

Record wired (p q : Provider) : Prop := {
  w_ws : _wsProvider q = _wsProvider p;
  w_params : _wsParams q = _wsParams p;
  w_id : _reconnectTimerId q = _reconnectTimerId p;
  w_timers : reconnections q = reconnections p;
  w_alive : alive <$> sockets q = alive <$> sockets p
}.

#[export] Instance wired_preorder : PreOrder wired.
Proof. split; [intros p; by split|]. intros p q r [] []. split; congruence. Qed.

Lemma wired_disciplined p q : wired p q -> disciplined p -> disciplined q.
Proof.
  intros [Hw Hp Hi Ht Ha] [H1 H2 H3]. split.
  - intros i. rewrite Ha, Hw. apply H1.
  - intros id. rewrite Ht, Hw, Hi, Hp. apply H2.
  - intros i. rewrite Hw, Hp. apply H3.
Qed.

Lemma alive_alter f i (ss : list Socket) : (forall s, alive (f s) = alive s) -> alive <$> alter f i ss = alive <$> ss.
Proof.
  intros Hf. apply list_eq. intros j. rewrite !list_lookup_fmap.
  destruct (decide (i = j)) as [->|]; [|by rewrite list_lookup_alter_ne].
  rewrite list_lookup_alter_eq. by destruct (ss !! j); cbn; rewrite ?Hf.
Qed.

Lemma wired_start p : wired p (_startBlockEvents p).
Proof. unfold _startBlockEvents. case_match; split; try done. by apply alive_alter. Qed.

Lemma wired_stop p : wired p (_stopBlockEvents p).
Proof. unfold _stopBlockEvents. case_match; split; try done. by apply alive_alter. Qed.

Lemma wired_switchover p : wired p (_switchover p).
Proof.
  unfold _switchover. destruct (_blockListeners p); [done|]. etrans; [|apply wired_start].
  case_match; by split.
Qed.

Lemma wired_call l t p : wired p (callBlockListener l t p).
Proof. destruct l as [? []]; by split. Qed.

Lemma wired_add listener kind p : wired p (_addBlockListener listener kind p).
Proof.
  unfold _addBlockListener. destruct (has listener p); [done|].
  case_match; [etrans; [|apply wired_start]|]; by split.
Qed.

Lemma wired_removeListener listener p : wired p (_removeBlockListener listener p).
Proof.
  unfold _removeBlockListener. destruct (has listener p); [|done].
  case_match; [etrans; [|apply wired_stop]|]; by split.
Qed.

Lemma alive_fail i j s (ss : list Socket) :
  alive s = false -> (alive <$> <[i := s]> ss) !! j = Some true -> j <> i /\ (alive <$> ss) !! j = Some true.
Proof.
  intros Hs. rewrite !list_lookup_fmap. intros (s' & Hj & Ha)%fmap_Some.
  apply list_lookup_insert_Some in Hj as [(-> & -> & _)|(Hne & ->)]; [congruence|]. cbn. by rewrite Ha.
Qed.

Lemma alive_shut i j (ss : list Socket) :
  (alive <$> alter shut i ss) !! j = Some true -> j <> i /\ (alive <$> ss) !! j = Some true.
Proof.
  rewrite !list_lookup_fmap. destruct (decide (j = i)) as [->|Hne].
  - rewrite list_lookup_alter_eq. by destruct (ss !! i).
  - by rewrite list_lookup_alter_ne by congruence.
Qed.

(** After the socket in use is closed none is alive, and if none was to be opened none will be. *)
Lemma close_quiets p i : _wsProvider p = Some i ->
  (forall j, (alive <$> sockets p) !! j = Some true -> j = i) ->
  let q := closeWebSocket p in
  _wsProvider q = None /\ _wsParams q = _wsParams p /\ reconnections q ⊆ reconnections p /\
  forall j, (alive <$> sockets q) !! j <> Some true.
Proof.
  intros E Ha. unfold closeWebSocket. rewrite E. set (p' := mkProvider _ _ _ _ _ _ _ _ _ _ _ _ _ _).
  pose proof (wired_switchover p') as [Hw Hp _ Ht Hs].
  assert (forall j, (alive <$> sockets (_switchover p')) !! j <> Some true) as Hq.
  { intros j. rewrite Hs. intros [Hne Hj]%alive_shut. by apply Hne, Ha. }
  cbn zeta. destruct (_reconnectTimerId (_switchover p'));
    (split_and!; [exact Hw|exact Hp| |exact Hq]); cbn; rewrite Ht; [apply subseteq_difference_l|]; done.
Qed.

Lemma disciplined_open url network p :
  (forall i, (alive <$> sockets p) !! i <> Some true) -> reconnections p = ∅ ->
  disciplined (openWebSocket url network p).
Proof.
  intros Ha Ht. eapply wired_disciplined; [apply wired_switchover|]. split; cbn; [|by rewrite Ht|done].
  intros i. rewrite fmap_app. intros [Hi|[Hi Hl%lookup_lt_Some]]%lookup_app_Some; [by destruct (Ha i)|].
  rewrite length_fmap in *. cbn in Hl. f_equal. lia.
Qed.

Lemma disciplined_close p i : _wsProvider p = Some i -> disciplined p -> disciplined (closeWebSocket p).
Proof.
  intros E [H1 H2 H3]. destruct (close_quiets p i E) as (Hw & Hp & Ht & Ha).
  { intros j Hj%H1. congruence. }
  split; [by intros j Hj%Ha| |by rewrite Hw].
  intros id Hid%Ht. destruct (H2 id Hid). congruence.
Qed.

(** A socket that is lost while it is in use is closed, and one timer will open the next. *)
Lemma lost_schedules p i listens n :
  _wsProvider p = Some i -> disciplined p -> sockets p !! i = Some (mkSocket true listens n) -> listens = true ->
  let q := connectionLost i p in
  _wsProvider q = None /\ _wsParams q = _wsParams p /\ _reconnectTimerId q = Some (nextTimer (closeWebSocket
    (setSubscriptions (<[i := mkSocket false true n]> (sockets p)) (baseSubscriptions p) p))) /\
  (forall id, id ∈ reconnections q <-> _reconnectTimerId q = Some id) /\
  forall j, (alive <$> sockets q) !! j <> Some true.
Proof.
  intros E Hd Ei ->. unfold connectionLost. rewrite Ei. set (p' := setSubscriptions _ _ _).
  destruct (close_quiets p' i E) as (Hw & Hp & Ht & Ha).
  { intros j [_ Hj]%alive_fail; [|done]. apply (d_alive _ Hd) in Hj. congruence. }
  split_and!; [exact Hw|exact Hp|done| |exact Ha].
  intros id. cbn -[closeWebSocket]. rewrite elem_of_union, elem_of_singleton. split; [|naive_solver].
  intros [Hid%Ht| ->]; [|done]. destruct (d_timers _ Hd id Hid). congruence.
Qed.

Lemma disciplined_lost i p : tuned p -> disciplined p -> disciplined (connectionLost i p).
Proof.
  intros Ht Hd. destruct (sockets p !! i) as [[al listens n]|] eqn:Ei;
    [destruct al|]; try (unfold connectionLost; by rewrite Ei).
  assert (_wsProvider p = Some i) as E by (apply (d_alive _ Hd); by rewrite list_lookup_fmap, Ei).
  assert (listens = true) as Hl by (destruct (t_socket _ Ht i E) as [m Hm]; congruence).
  destruct (lost_schedules p i listens n E Hd Ei Hl) as (Hw & Hp & _ & Hr & Ha). split.
  - by intros j Hj%Ha.
  - intros id Hid. split_and!; [done|by apply Hr|]. rewrite Hp. by apply (d_params _ Hd i).
  - by rewrite Hw.
Qed.

Lemma disciplined_turn hex p e : tuned p -> disciplined p ->
  match e with OpenWebSocket _ _ => _wsProvider p = None /\ reconnections p = ∅ | _ => True end ->
  disciplined (turn hex p e).
Proof.
  intros Ht Hd He.
  assert (_wsProvider p = None -> forall i, (alive <$> sockets p) !! i <> Some true) as Hn.
  { intros E i Hi%(d_alive _ Hd). congruence. }
  destruct e as [url network| |i|id|name listener|name listener|name listener|s n| |i answer|]; cbn.
  - destruct He as [Hw Hr]. apply disciplined_open; [by apply Hn|done].
  - destruct (_wsProvider p) as [i|] eqn:E; [by apply (disciplined_close p i)|]. unfold closeWebSocket. by rewrite E.
  - by apply disciplined_lost.
  - unfold reconnect. case_decide as Hid; [|done]. destruct (d_timers _ Hd id Hid) as (Hw & Hi & _).
    assert (reconnections p ∖ {[id]} = ∅) as Hempty.
    { apply set_eq. intros x. rewrite elem_of_difference, elem_of_singleton. split; [|set_solver].
      intros [Hx Hne]. destruct (d_timers _ Hd x Hx). naive_solver. }
    cbn. destruct (_wsParams p) as [[]|]; [by apply disciplined_open; [apply Hn|]|].
    split; cbn; [apply Hd|by rewrite Hempty|apply Hd].
  - eapply wired_disciplined; [|exact Hd]. unfold on. repeat case_match; try done; try apply wired_add.
    etrans; [apply wired_call|apply wired_add].
  - eapply wired_disciplined; [|exact Hd]. unfold once. repeat case_match; try done; try apply wired_add.
    etrans; [apply wired_call|apply wired_add].
  - eapply wired_disciplined; [|exact Hd]. unfold off. repeat case_match; try done; apply wired_removeListener.
  - apply (iter_keeps disciplined); [done|]. intros q Hq. by apply (wired_disciplined q).
  - apply (wired_disciplined p); [|done]. unfold blockTimeout. destruct (blockTimers p); [done|].
    apply (fold_keeps (wired p)); [by split|]. intros q l Hq. etrans; [exact Hq|apply wired_call].
  - apply (wired_disciplined p); [|done]. unfold fetched. repeat case_match; by split.
  - apply (wired_disciplined p); [|done]. unfold deferredRuns. case_match; by split.
Qed.

Lemma orderly_kept hex p : orderly hex p -> tuned p /\ disciplined p.
Proof.
  induction 1 as [|p e Hp [Ht Hd] He]; [|by split; [apply tuned_turn|apply disciplined_turn]].
  split; split; done.
Qed.

(** When the application opens the socket while none is open or about to be, at most one socket
    is alive and it is the one in use; closing it is final; and when its connection is lost,
    exactly one timer is pending, whose firing opens the next one. *)
Theorem socket_discipline hex p i : orderly hex p -> _wsProvider p = Some i ->
  (forall j, (alive <$> sockets p) !! j = Some true <-> j = i) /\ reconnections p = ∅ /\
  (let q := turn hex p CloseWebSocket in
   _wsProvider q = None /\ reconnections q = ∅ /\ forall j, (alive <$> sockets q) !! j <> Some true) /\
  exists id, let q := turn hex p (ConnectionLost i) in
  reconnections q = {[ id ]} /\ _wsProvider q = None /\
  _wsProvider (turn hex q (Reconnect id)) = Some (List.length (sockets q)).
Proof.
  intros [Ht Hd]%orderly_kept E. destruct (t_socket _ Ht i E) as [n Ei].
  assert (forall j, (alive <$> sockets p) !! j = Some true -> j = i) as Ha by (intros j Hj%(d_alive _ Hd); congruence).
  assert (reconnections p = ∅) as Hr.
  { apply set_eq. intros id. split; [|set_solver]. intros Hid. destruct (d_timers _ Hd id Hid). congruence. }
  split_and!; [|done|..].
  - intros j. split; [apply Ha|]. intros ->. by rewrite list_lookup_fmap, Ei.
  - destruct (close_quiets p i E Ha) as (Hw & _ & Hs & Hq). cbn. split_and!; [done| |done]. set_solver.
  - destruct (lost_schedules p i true n E Hd Ei eq_refl) as (Hw & Hp & Hi & Hs & _). eexists. cbn.
    assert (forall id, _reconnectTimerId (connectionLost i p) = Some id -> reconnections (connectionLost i p) = {[id]}) as Hone.
    { intros id Hid. apply set_eq. intros x. rewrite Hs, Hid, elem_of_singleton. naive_solver. }
    split_and!; [by apply Hone|done|]. unfold reconnect. rewrite decide_True by by apply Hs. cbn.
    rewrite Hp. pose proof (d_params _ Hd i E). destruct (_wsParams p) as [[url network]|]; [|done].
    unfold openWebSocket. by rewrite (w_ws _ _ (wired_switchover _)).
Qed.

(** Closing while a reconnection is pending does nothing: the timer is not cleared, and when
    it fires the socket is opened again. *)
Theorem closing_while_disconnected_reopens hex p id : orderly hex p -> id ∈ reconnections p ->
  let q := run hex p [CloseWebSocket; Reconnect id] in
  exists i, _wsProvider q = Some i /\ (alive <$> sockets q) !! i = Some true.
Proof.
  intros [Ht Hd]%orderly_kept Hid. destruct (d_timers _ Hd id Hid) as (Hw & _ & Hp). cbn.
  unfold closeWebSocket. rewrite Hw. unfold reconnect. rewrite decide_True by done. cbn.
  destruct (_wsParams p) as [[url network]|]; [|done]. set (q := setTimers _ _ _ p).
  assert (_wsProvider (openWebSocket url network q) = Some (List.length (sockets q))) as E.
  { unfold openWebSocket. by rewrite (w_ws _ _ (wired_switchover _)). }
  eexists. split; [exact E|]. destruct (t_socket _ (tuned_open url network q) _ E) as [n Hn].
  by rewrite list_lookup_fmap, Hn.
Qed.

(** ** Concrete runs *)

(** A [hexDataLength] that only looks at lengths. *)
Definition lengthOfHex (s : string) : option Z :=
  if String.prefix "0x" s then Some (Z.of_nat (String.length s - 2) / 2) else None.

Definition tx1 : string := "0x1111111111111111111111111111111111111111111111111111111111111111".
Definition tx2 : string := "0x2222222222222222222222222222222222222222222222222222222222222222".

(** Block 8 is announced before block 7 has been passed on: the listeners get block 8. *)
Lemma every_block_reaches_every_listener_witness :
  let p := run lengthOfHex created
             [On (EventName "block") 1; Once (EventName "block") 2; On (EventName tx1) 3;
              OpenWebSocket "ws:" 1] in
  let between := [Announce BasicProvider 6; Off (EventName tx1) 3; On (EventName "block") 4;
                  Announce (source p) 8] in
  _blockListeners p <> [] /\
  deferred (turn lengthOfHex (run lengthOfHex p (Announce (source p) 7 :: between)) BlockTimeout)
  = [(1%nat, OfBlock (Some 8)); (2%nat, OfBlock (Some 8)); (4%nat, OfBlock (Some 8))].
Proof.
  split; [vm_compute; discriminate|].
  eapply eq_trans; [apply (every_block_reaches_every_listener lengthOfHex
    [On (EventName "block") 1; Once (EventName "block") 2; On (EventName tx1) 3; OpenWebSocket "ws:" 1] 7);
    vm_compute; [discriminate | reflexivity]|].
  vm_compute. reflexivity.
Defined.

Lemma once_is_at_most_once_witness :
  (callsOf 2 (called (run lengthOfHex created
     [Once (EventName "block") 2; On (EventName "block") 1; Announce BasicProvider 7;
      Announce BasicProvider 8; BlockTimeout; DeferredRuns; DeferredRuns; Announce BasicProvider 9;
      BlockTimeout; DeferredRuns])) <= 1)%nat.
Proof. apply (once_is_at_most_once lengthOfHex 2). vm_compute. reflexivity. Defined.

Lemma once_leaves_subscriptions_witness :
  lengthOfHex "block" <> Some 32 /\
  subscribed BasicProvider (run lengthOfHex created (flat_map (onceRound 5) [1; 2; 3])) = 3%nat.
Proof.
  assert (lengthOfHex "block" <> Some 32) as H by (vm_compute; discriminate).
  split; [exact H|]. apply (once_leaves_subscriptions lengthOfHex 5 [1; 2; 3] H).
Defined.

Lemma socket_discipline_witness :
  orderly lengthOfHex (turn lengthOfHex created (OpenWebSocket "ws:" 1)) /\
  reconnections (turn lengthOfHex created (OpenWebSocket "ws:" 1)) = ∅.
Proof.
  assert (orderly lengthOfHex (turn lengthOfHex created (OpenWebSocket "ws:" 1))) as H
    by (apply orderly_turn; [constructor|done]).
  split; [exact H|]. apply (socket_discipline _ _ 0 H). reflexivity.
Defined.

Lemma closing_while_disconnected_reopens_witness :
  let p := turn lengthOfHex (turn lengthOfHex created (OpenWebSocket "ws:" 1)) (ConnectionLost 0) in
  orderly lengthOfHex p /\ 0%nat ∈ reconnections p /\
  exists i, _wsProvider (run lengthOfHex p [CloseWebSocket; Reconnect 0]) = Some i.
Proof.
  set (p := turn lengthOfHex (turn lengthOfHex created (OpenWebSocket "ws:" 1)) (ConnectionLost 0)).
  assert (orderly lengthOfHex p) as H by (apply orderly_turn; [apply orderly_turn; [constructor|done]|done]).
  assert (0%nat ∈ reconnections p) as Hid by (apply (bool_decide_unpack _); vm_compute; exact I).
  split; [exact H|]. split; [exact Hid|].
  destruct (closing_while_disconnected_reopens lengthOfHex p 0 H Hid) as (i & Hi & _). exists i. exact Hi.
Defined.

(** Whether a promise is still wanted is looked up by the listener alone: after a listener has
    changed from one transaction to another it is called, once, with the receipt of the first. *)
Example receipt_of_another_transaction :
  let p := run lengthOfHex created
             [Once (EventName tx1) 1; Off (EventName tx1) 1; Once (EventName tx2) 1;
              Fetched 0 (Ok (Some (mkReceipt tx1 7 1))); Fetched 1 (Ok (Some (mkReceipt tx2 8 1)));
              DeferredRuns; DeferredRuns] in
  called p = [(1%nat, OfReceipt (mkReceipt tx1 7 1))] /\ _blockListeners p = [].
Proof. vm_compute. done. Qed.
