(* ===== verification/AugmentedReads.v ===== *)
(** * Reading through a provider with a WebSocket beside it

    The requests of [packages/providers/src/WebSocketAugmentedProvider.ts]: which of the two
    connections answers, and how glitches of load-balanced nodes are waited out, a node that
    does not know a block yet which another has announced, or whose latest block lags behind.

    What the two connections answer differs from moment to moment. A moment is what is found
    when a request is made: whether the socket is ready, how either connection answers, and
    the last block that was seen when the answer arrives. A request that is repeated is a
    function of the list of its moments; it is [None] while it goes on. *)

From S2P Require Import Prelude JsString EthersReadable AugmentedProvider.
From stdpp Require Import list.
From Stdlib Require Import Ascii String.

Local Open Scope string_scope.
Local Open Scope Z_scope.

(** ** Answers *)

(** What is thrown: an object with a message that is a string or without one, [null], or a
    value that is no object; [BadProperty] is the [TypeError] of reading a property of [null]. *)
Inductive Exception := Thrown (message : option string) | ThrownNull | ThrownPrimitive | BadProperty.

(** How a promise settles. *)
Inductive Outcome (T : Type) := Resolved (t : T) | Rejected (e : Exception).
Arguments Resolved {T} t.
Arguments Rejected {T} e.

(** [None]: [error.message] cannot be read. *)
Definition isHeaderNotFoundError (error : Exception) : option bool :=
  match error with
  | Thrown (Some message) =>
      Some (includesString "header not found" message
            || includesString "request is not supported because your node is running with state pruning" message)
  | Thrown None | ThrownPrimitive | BadProperty => Some false
  | ThrownNull => None
  end.

(** The hashes of a block's transactions. *)
Definition Block : Type := list string.

Record Connection := mkConnection {
  c_call : string -> option BlockTag -> Outcome string;
  c_getBalance : string -> option BlockTag -> Outcome Z;
  c_getTransaction : string -> Outcome (option string);
  c_getTransactionReceipt : string -> Outcome (option Receipt);
  c_getTransactionCount : string -> option BlockTag -> Outcome Z;
  c_getBlock : BlockTag -> Outcome (option Block);
  c_getBlockWithTransactions : BlockTag -> Outcome (option Block);
  c_waitForTransaction : string -> option Z -> Z -> Outcome Receipt
}.

(** [socket] is there when [_wsProvider] is and is ready. *)
Record Moment := mkMoment { basic : Connection; socket : option Connection; seenBlock : Z }.

(** The connection that [this._wsProvider?.isReady] chooses. *)
Definition chosen (m : Moment) : Connection := default (basic m) (socket m).

Definition getTransactionReceipt (hash : string) (m : Moment) : Outcome (option Receipt) :=
  c_getTransactionReceipt (chosen m) hash.
Definition getTransactionCount (address : string) (blockTag : option BlockTag) (m : Moment) : Outcome Z :=
  c_getTransactionCount (chosen m) address blockTag.
Definition getBlock (block : BlockTag) (m : Moment) : Outcome (option Block) := c_getBlock (chosen m) block.
Definition getBlockWithTransactions (block : BlockTag) (m : Moment) : Outcome (option Block) :=
  c_getBlockWithTransactions (chosen m) block.

(** ** Requests at the block that was seen last *)

Fixpoint _retrySeenBlock {T} (perform : Moment -> Outcome T) (startingBlock : Z) (moments : list Moment) :
    option (Outcome T) :=
  match moments with
  | [] => None
  | m :: moments =>
      match perform m with
      | Resolved ret => Some (Resolved ret)
      | Rejected error =>
          if negb (seenBlock m =? startingBlock) then Some (Rejected error)
          else
            match isHeaderNotFoundError error with
            | None => Some (Rejected BadProperty)
            | Some false => Some (Rejected error)
            | Some true => _retrySeenBlock perform startingBlock moments
            end
      end
  end.

(** [_seenBlock] is the last block seen when the request is made. *)
Definition retryIfSeen {T} (perform : Moment -> Outcome T) (resolvedBlockTag : option BlockTag)
    (_seenBlock : Z) (moments : list Moment) : option (Outcome T) :=
  if decide (resolvedBlockTag = Some (BlockNumber _seenBlock)) then _retrySeenBlock perform _seenBlock moments
  else perform <$> head moments.

Definition call (transaction : string) (resolvedBlockTag : option BlockTag) :=
  retryIfSeen (fun m => c_call (chosen m) transaction resolvedBlockTag) resolvedBlockTag.

Definition getBalance (address : string) (resolvedBlockTag : option BlockTag) :=
  retryIfSeen (fun m => c_getBalance (chosen m) address resolvedBlockTag) resolvedBlockTag.

(** ** Transactions and their receipts *)

(** [socketFirst]: whether, of two promises, the socket's settles first. *)
Definition getTransaction (transactionHash : string) (socketFirst : bool) (m : Moment) : Outcome (option string) :=
  let base := c_getTransaction (basic m) transactionHash in
  match socket m with
  | None => base
  | Some s =>
      let ws := c_getTransaction s transactionHash in
      let '(first, second) := if socketFirst then (ws, base) else (base, ws) in
      match first with
      | Rejected error => Rejected error
      | Resolved (Some tx) => Resolved (Some tx)
      | Resolved None => second
      end
  end.

(** The moments are those of the requests for the block. *)
Fixpoint _blockContainsTx (blockNumber : Z) (txHash : string) (moments : list Moment) : option (Outcome bool) :=
  match moments with
  | [] => None
  | m :: moments =>
      match getBlock (BlockNumber blockNumber) m with
      | Rejected error => Some (Rejected error)
      | Resolved None => _blockContainsTx blockNumber txHash moments
      | Resolved (Some block) => Some (Resolved (existsb (String.eqb txHash) block))
      end
  end.

(** Each round is the moment of its request for the receipt, and those of the requests for
    the latest block. *)
Fixpoint _getTransactionReceiptFromLatest (txHash : string) (latestBlock : option Z)
    (rounds : list (Moment * list Moment)) : option (Outcome (option Receipt)) :=
  match rounds with
  | [] => None
  | (m, blocks) :: rounds =>
      match getTransactionReceipt txHash m with
      | Rejected error => Some (Rejected error)
      | Resolved receipt =>
          match latestBlock, receipt with
          | None, _ => Some (Resolved receipt)
          | Some latest, None =>
              match _blockContainsTx latest txHash blocks with
              | None => None
              | Some (Rejected error) => Some (Rejected error)
              | Some (Resolved false) => Some (Resolved None)
              | Some (Resolved true) => _getTransactionReceiptFromLatest txHash latestBlock rounds
              end
          | Some latest, Some r =>
              if latest <=? blockNumber r + confirmations r - 1 then Some (Resolved receipt)
              else _getTransactionReceiptFromLatest txHash latestBlock rounds
          end
      end
  end.

Definition confirmedBy (required : option Z) (r : Receipt) : bool :=
  match required with None => true | Some required => required <=? confirmations r end.

(** The loop of [waitForTransaction]: each pass has the rounds of its request, and the block
    that is announced next. *)
Fixpoint waitLoop (txHash : string) (required latestBlock : option Z)
    (passes : list (list (Moment * list Moment) * Z)) : option (Outcome Receipt) :=
  match passes with
  | [] => None
  | (rounds, next) :: passes =>
      match _getTransactionReceiptFromLatest txHash latestBlock rounds with
      | None => None
      | Some (Rejected error) => Some (Rejected error)
      | Some (Resolved (Some r)) =>
          if confirmedBy required r then Some (Resolved r) else waitLoop txHash required (Some next) passes
      | Some (Resolved None) => waitLoop txHash required (Some next) passes
      end
  end.

Definition waitForTransaction (txHash : string) (required timeout : option Z) (now : Moment)
    (passes : list (list (Moment * list Moment) * Z)) : option (Outcome Receipt) :=
  match timeout with
  | Some timeout => Some (c_waitForTransaction (basic now) txHash required timeout)
  | None => waitLoop txHash required None passes
  end.

(** ** Waiting out a node that lags behind *)

Section Retrying.
Context {T : Type} (perform : Moment -> Outcome T) (startingBlock : Z).

(** The answer of a node that does not know the block yet. *)
Definition headerNotFound (o : Outcome T) : Prop :=
  match o with Rejected error => isHeaderNotFoundError error = Some true | Resolved _ => False end.

(** An answer that is waited out: the header is not found and no newer block was seen. *)
Definition glitch (m : Moment) : Prop := headerNotFound (perform m) /\ seenBlock m = startingBlock.

(** What an answer is passed on as. *)
Definition passedOn (o : Outcome T) : Outcome T :=
  match o with Rejected ThrownNull => Rejected BadProperty | _ => o end.

Definition answer (m : Moment) : Outcome T :=
  if seenBlock m =? startingBlock then passedOn (perform m) else perform m.

Lemma retry_glitch m ms : glitch m -> _retrySeenBlock perform startingBlock (m :: ms) = _retrySeenBlock perform startingBlock ms.
Proof.
  intros [Hh Hs]. cbn. unfold headerNotFound in Hh. destruct (perform m); [done|]. by rewrite Hs, Z.eqb_refl, Hh.
Qed.

Lemma retry_answer m ms : ~ glitch m -> _retrySeenBlock perform startingBlock (m :: ms) = Some (answer m).
Proof.
  unfold glitch, headerNotFound, answer. intros Hm. cbn.
  destruct (perform m) as [t|error]; [by destruct (_ =? _)|].
  destruct (Z.eqb_spec (seenBlock m) startingBlock); cbn; [|done].
  destruct error as [[message|]| | |]; cbn in *; try done. destruct (_ || _); [|done]. by destruct Hm.
Qed.

#[export] Instance glitch_dec m : Decision (glitch m).
Proof. unfold glitch, headerNotFound. destruct (perform m); apply _. Defined.

(** The result is the first answer that is not a glitch; there is none yet while all are. *)
Lemma retry_spec ms :
  (Forall glitch ms /\ _retrySeenBlock perform startingBlock ms = None) \/
  exists pre m post, ms = (pre ++ m :: post)%list /\ Forall glitch pre /\ ~ glitch m /\
    _retrySeenBlock perform startingBlock ms = Some (answer m).
Proof.
  induction ms as [|m ms IH]; [by left|]. destruct (decide (glitch m)) as [Hm|Hm].
  - rewrite retry_glitch by done. destruct IH as [[Hf Hr]|(pre & m' & post & -> & Hf & Hn & Hr)].
    + left. by split; [constructor|].
    + right. exists (m :: pre), m', post. by split; [|split; [constructor|]].
  - right. exists [], m, ms. split_and!; [done|constructor|done|by apply retry_answer].
Qed.
End Retrying.

(** A call at the block that was seen last ends with the first answer that is not a
    header-not-found error given while no newer block has been seen, so such an error is only reported once
    a newer block is known; it goes on for as long as there is no such answer, and at any other
    block it ends with the first answer. *)
Theorem call_waits_out_glitches transaction tag seen ms :
  let perform m := c_call (chosen m) transaction tag in
  (tag <> Some (BlockNumber seen) -> call transaction tag seen ms = perform <$> head ms) /\
  (tag = Some (BlockNumber seen) ->
    (call transaction tag seen ms = None <-> Forall (glitch perform seen) ms) /\
    forall o, call transaction tag seen ms = Some o ->
      exists m, m ∈ ms /\ o = answer perform seen m /\ (headerNotFound o -> seenBlock m <> seen)).
Proof.
  intros perform. unfold call, retryIfSeen. change (fun m => c_call (chosen m) transaction tag) with perform.
  split; intros Ht; [by rewrite decide_False|]. rewrite decide_True by done.
  destruct (retry_spec perform seen ms) as [[Hf Hr]|(pre & m & post & -> & Hf & Hn & Hr)]; rewrite Hr.
  - split; [done|]. discriminate.
  - split.
    + split; [discriminate|]. intros Hall. apply Forall_app in Hall as [_ Hall]. by inversion Hall.
    + intros o [= <-]. exists m. split; [apply elem_of_app; right; left|]. split; [done|].
      intros Hh E. apply Hn. split; [|done]. unfold answer in Hh. rewrite E, Z.eqb_refl in Hh.
      destruct (perform m) as [|[| | |]]; try exact Hh. discriminate Hh.
Qed.

(** ** Receipts that are not out of date *)















(** ** A request ends when a node has caught up *)

(** A round that ends the request, for good or bad. *)
Definition decisive (hash : string) (latestBlock : option Z) (round : Moment * list Moment) : Prop :=
  match getTransactionReceipt hash round.1, latestBlock with
  | Rejected _, _ | _, None => True
  | Resolved (Some r), Some latest => latest <= blockNumber r + confirmations r - 1
  | Resolved None, Some latest =>
      _blockContainsTx latest hash round.2 <> None /\
      _blockContainsTx latest hash round.2 <> Some (Resolved true)
  end.

(** The node of a round that finds no receipt answers for the block in the end. *)
Definition answers (hash : string) (latestBlock : option Z) (round : Moment * list Moment) : Prop :=
  forall latest, latestBlock = Some latest -> getTransactionReceipt hash round.1 = Resolved None ->
  _blockContainsTx latest hash round.2 <> None.

(** C32. The request for an up-to-date receipt ends with the first decisive round: as soon as
    a node has caught up. *)
Theorem receipt_request_ends hash latestBlock rounds :
  Forall (answers hash latestBlock) rounds ->
  (_getTransactionReceiptFromLatest hash latestBlock rounds <> None <-> Exists (decisive hash latestBlock) rounds).
Proof.
  induction 1 as [|[m blocks] rounds Ha _ IH]; cbn; [by rewrite Exists_nil|]. rewrite Exists_cons, <-IH.
  unfold decisive, answers in *. cbn in *. destruct (getTransactionReceipt hash m) as [[r|]|].
  - destruct latestBlock as [latest|]; [|naive_solver]. destruct (Z.leb_spec latest (blockNumber r + confirmations r - 1)).
    + naive_solver.
    + split; [by right|]. intros [|]; [lia|done].
  - destruct latestBlock as [latest|]; [|naive_solver]. specialize (Ha latest eq_refl eq_refl).
    destruct (_blockContainsTx latest hash blocks) as [[[]|]|]; naive_solver.
  - naive_solver.
Qed.

(** ** Asking both connections *)

(** When neither connection fails, a transaction is found exactly when one of them knows it,
    whichever answers first, and what is found is what one of them said; a failure of the
    connection that answers last only matters when the first one does not know the transaction. *)
Theorem getTransaction_asks_both hash socketFirst m s :
  socket m = Some s ->
  let base := c_getTransaction (basic m) hash in
  let ws := c_getTransaction s hash in
  (forall b w, base = Resolved b -> ws = Resolved w ->
    exists tx, getTransaction hash socketFirst m = Resolved tx /\ (tx = b \/ tx = w) /\ (tx = None <-> b = None /\ w = None)) /\
  (forall error, getTransaction hash socketFirst m = Rejected error ->
    (if socketFirst then ws else base) = Rejected error \/
    ((if socketFirst then ws else base) = Resolved None /\ (if socketFirst then base else ws) = Rejected error)).
Proof.
  intros Es base ws. unfold getTransaction. rewrite Es. fold base ws. split.
  - intros b w -> ->. destruct socketFirst, b, w; eexists; split; try done; naive_solver.
  - intros error. destruct socketFirst; [destruct ws as [[]|]|destruct base as [[]|]]; naive_solver.
Qed.

(** ** Concrete requests *)

(** Two nodes: one that lags behind and one that knows block 7, with the transaction in it. *)
Definition nothing {T} : Outcome T := Rejected (Thrown (Some "unsupported")).
Definition lagging : Connection :=
  mkConnection (fun _ _ => Rejected (Thrown (Some "header not found"))) (fun _ _ => nothing)
    (fun _ => Resolved None) (fun _ => Resolved None) (fun _ _ => nothing) (fun _ => Resolved None)
    (fun _ => nothing) (fun _ _ _ => nothing).
Definition current : Connection :=
  mkConnection (fun _ _ => Resolved "0x2a") (fun _ _ => nothing)
    (fun _ => Resolved (Some "tx")) (fun _ => Resolved (Some (mkReceipt "0xab" 7 1))) (fun _ _ => nothing)
    (fun _ => Resolved (Some ["0xab"])) (fun _ => nothing) (fun _ _ _ => nothing).

Example call_after_two_glitches :
  call "f()" (Some (BlockNumber 7)) 7
    [mkMoment lagging None 7; mkMoment current (Some lagging) 7; mkMoment lagging (Some current) 7]
  = Some (Resolved "0x2a").
Proof. reflexivity. Qed.

(** The receipt is only known to the second node, which also knows block 7. *)
Example wait_through_a_lagging_node :
  waitForTransaction "0xab" None None (mkMoment lagging None 6)
    [([(mkMoment lagging None 6, [])], 7);
     ([(mkMoment lagging None 7, [mkMoment lagging None 7; mkMoment current None 7]); (mkMoment current None 7, [])], 8)]
  = Some (Resolved (mkReceipt "0xab" 7 1)).
Proof. reflexivity. Qed.



Lemma receipt_request_ends_witness :
  _getTransactionReceiptFromLatest "0xab" (Some 7)
    [(mkMoment lagging None 7, [mkMoment current None 7]); (mkMoment current None 7, [])] <> None.
Proof.
  apply (receipt_request_ends "0xab" (Some 7)
    [(mkMoment lagging None 7, [mkMoment current None 7]); (mkMoment current None 7, [])]).
  - repeat constructor; intros latest [= <-]; vm_compute; discriminate.
  - right. left. vm_compute. discriminate.
Defined.

Lemma getTransaction_asks_both_witness :
  exists tx, getTransaction "0xab" true (mkMoment current (Some lagging) 7) = Resolved tx /\ tx <> None.
Proof.
  destruct (getTransaction_asks_both "0xab" true (mkMoment current (Some lagging) 7) lagging eq_refl) as [H _].
  destruct (H (Some "tx") None eq_refl eq_refl) as (tx & Htx & _ & Hn). exists tx. split; [exact Htx|].
  intros E. apply Hn in E as [E _]. discriminate E.
Defined.
