(* ===== verification/ReactBindings.v ===== *)
(** * The React bindings of the store

    [packages/lib-react/src]: the comparison of values, the hooks that read the store through
    a selector or a reducer, and the component that starts a store and provides it.

    Of React, a mounted component is what it keeps between renders. A render happens because
    one was asked for or because the component's surroundings render; its effects run later,
    and the store may change in between. Stores, selectors and reducers are compared by
    identity, so they are numbers here, with their meaning as a function of the number. *)

From S2P Require Import Prelude JsString JsNumber.
From stdpp Require Import gmap sets list.
From Stdlib Require Import Floats.SpecFloat Ascii String.

Local Open Scope string_scope.

(** ** Comparison *)

#[export] Instance spec_float_eq_dec : EqDecision spec_float.
Proof. solve_decision. Defined.

(** Objects and functions are known by their identity. *)
Inductive Value :=
| Undefined
| Null
| Boolean (b : bool)
| Number (x : number)
| Text (s : string)
| Function (id : positive)
| Object (id : positive).

#[export] Instance Value_eq_dec : EqDecision Value.
Proof. solve_decision. Defined.

(** The properties that an object has itself, in order. *)
Definition Properties : Type := list (string * Value).
Definition Heap : Type := gmap positive Properties.

(** [Object.is]: a number has one representation here, [NaN] and either zero included. *)
Definition objectIs (a b : Value) : bool := bool_decide (a = b).

Definition get (o : Properties) (key : string) : option Value :=
  snd <$> List.find (fun p => String.eqb key p.1) o.

Definition hasOwnProperty (o : Properties) (key : string) : bool := if get o key then true else false.

(** [o[key]] *)
Definition property (o : Properties) (key : string) : Value := default Undefined (get o key).

Definition shallowEquals (a b : Properties) : bool :=
  let keysA := a.*1 in
  let keysB := b.*1 in
  Nat.eqb (List.length keysA) (List.length keysB) &&
  forallb (fun key => hasOwnProperty b key && objectIs (property a key) (property b key)) keysA.

Definition isObject (a : Value) : bool := match a with Object _ => true | _ => false end.

Definition propertiesOf (h : Heap) (a : Value) : Properties :=
  match a with Object id => default [] (h !! id) | _ => [] end.

Definition equals (h : Heap) (a b : Value) : bool :=
  if isObject a && isObject b then shallowEquals (propertiesOf h a) (propertiesOf h b) else objectIs a b.

(** ** Hooks *)

(** [useLiquityStore], of what the context holds. *)
Definition useLiquityStore (context : option nat) : result nat :=
  match context with
  | Some store => Ok store
  | None => Err (JsError "You must provide a LiquityStore via LiquityStoreProvider")
  end.

Section Selector.
Context {St S : Type} (equals : S -> S -> bool) (meaning : nat -> St -> S).

(** [states] are those of the stores; [rendered] the store and the selector of the last
    render, [shown] its result; [subscription] what the effect has subscribed with; [asked]
    whether another render was asked for.  [window] is history: whether the rendered store
    was updated since the last render while the hook was not subscribed to it. *)
Record Selector := mkSelector {
  s_states : nat -> St;
  s_rendered : nat * nat;
  s_shown : S;
  s_subscription : option (nat * nat);
  s_asked : bool;
  s_window : bool
}.

Definition selectNow (x : Selector) : S := meaning (s_rendered x).2 (s_states x (s_rendered x).1).

(** The first render. *)
Definition selectorMounts (states : nat -> St) (store select : nat) : Selector :=
  mkSelector states (store, select) (meaning select (states store)) None false false.

Definition setState (states : nat -> St) (store : nat) (new : St) : nat -> St :=
  fun i => if decide (i = store) then new else states i.

Definition selectorEffect (x : Selector) : Selector :=
  mkSelector (s_states x) (s_rendered x) (s_shown x) (Some (s_rendered x)) (s_asked x) (s_window x).

Definition useLiquitySelector (store select : nat) (x : Selector) : Selector :=
  mkSelector (s_states x) (store, select) (meaning select (s_states x store)) (s_subscription x) false
    false.

(** A store is updated, and calls what is subscribed. *)
Definition storeUpdates (store : nat) (new : St) (x : Selector) : Selector :=
  let old := s_states x store in
  mkSelector (setState (s_states x) store new) (s_rendered x) (s_shown x) (s_subscription x)
    (s_asked x ||
     match s_subscription x with
     | Some (store', select) =>
         if decide (store' = store) then negb (equals (meaning select new) (meaning select old)) else false
     | None => false
     end)
    (s_window x || bool_decide ((s_rendered x).1 = store /\ s_subscription x <> Some (s_rendered x))).

Inductive SelectorEvent :=
| SUpdate (store : nat) (new : St)
| SRender (store select : nat)
| SEffect.

Definition selectorTurn (x : Selector) (e : SelectorEvent) : Selector :=
  match e with
  | SUpdate store new => storeUpdates store new x
  | SRender store select => useLiquitySelector store select x
  | SEffect => selectorEffect x
  end.
End Selector.

Arguments SUpdate {St} store new.
Arguments SRender {St} store select.
Arguments SEffect {St}.
Arguments s_shown {St S}.
Arguments s_asked {St S}.
Arguments s_window {St S}.
Arguments s_subscription {St S}.
Arguments s_rendered {St S}.
Arguments s_states {St S}.

Section Reducer.
Context {St S A : Type} (equals : S -> S -> bool) (init : St -> S).

(** What is dispatched: [stateChange] is left out, which is computed from the other two. *)
Inductive Action := Own (a : A) | UpdateStore (newState oldState : St).

Context (reduce : nat -> S -> Action -> S).

(** [r_current] is [state.current]. *)
Record Reducer := mkReducer {
  r_states : nat -> St;
  r_rendered : nat * nat;
  oldStore : nat;
  r_current : S;
  r_shown : S;
  r_subscription : option (nat * nat);
  r_asked : bool
}.

Definition reducerMounts (states : nat -> St) (store reducer : nat) : Reducer :=
  mkReducer states (store, reducer) store (init (states store)) (init (states store)) None false.

Definition dispatch (reducer : nat) (action : Action) (x : Reducer) : Reducer :=
  let newState := reduce reducer (r_current x) action in
  let changes := negb (equals newState (r_current x)) in
  mkReducer (r_states x) (r_rendered x) (oldStore x) (if changes then newState else r_current x)
    (r_shown x) (r_subscription x) (r_asked x || changes).

Definition reducerUpdates (store : nat) (new : St) (x : Reducer) : Reducer :=
  let old := r_states x store in
  let x := mkReducer (setState (r_states x) store new) (r_rendered x) (oldStore x) (r_current x)
             (r_shown x) (r_subscription x) (r_asked x) in
  match r_subscription x with
  | Some (store', reducer) => if decide (store' = store) then dispatch reducer (UpdateStore new old) x else x
  | None => x
  end.

Definition reducerEffect (x : Reducer) : Reducer :=
  mkReducer (r_states x) (r_rendered x) (oldStore x) (r_current x) (r_shown x) (Some (r_rendered x))
    (r_asked x).

Definition useLiquityReducer (store reducer : nat) (x : Reducer) : Reducer :=
  let replaced := negb (Nat.eqb (oldStore x) store) in
  let state := if replaced then init (r_states x store) else r_current x in
  mkReducer (r_states x) (store, reducer) store state state (r_subscription x) false.

Inductive ReducerEvent :=
| RUpdate (store : nat) (new : St)
| RRender (store reducer : nat)
| REffect
| RDispatch (a : A).

Definition reducerTurn (x : Reducer) (e : ReducerEvent) : Reducer :=
  match e with
  | RUpdate store new => reducerUpdates store new x
  | RRender store reducer => useLiquityReducer store reducer x
  | REffect => reducerEffect x
  | RDispatch a => dispatch (r_rendered x).2 (Own a) x
  end.
End Reducer.

(** ** The provider *)

(** [p_store] is the property, [p_effect] the store of the effect that ran last; of the stores,
    which have [onLoaded] set and which are started. *)
Record StoreProvider := mkStoreProvider {
  p_store : nat; p_effect : option nat; onLoadedSet : gset nat; started : gset nat;
  loadedStore : option nat
}.

Definition providerMounts (store : nat) : StoreProvider := mkStoreProvider store None ∅ ∅ None.

Inductive ProviderEvent := PRender (store : nat) | PEffect | PLoaded (store : nat).

(** The effect: what the last one has left is cleaned up if the store is another. *)
Definition providerEffect (x : StoreProvider) : StoreProvider :=
  if decide (p_effect x = Some (p_store x)) then x
  else
    let x := match p_effect x with
             | Some old =>
                 mkStoreProvider (p_store x) None (onLoadedSet x ∖ {[ old ]}) (started x ∖ {[ old ]}) None
             | None => x
             end in
    mkStoreProvider (p_store x) (Some (p_store x)) (onLoadedSet x ∪ {[ p_store x ]})
      (started x ∪ {[ p_store x ]}) (loadedStore x).

Definition providerTurn (x : StoreProvider) (e : ProviderEvent) : StoreProvider :=
  match e with
  | PRender store => mkStoreProvider store (p_effect x) (onLoadedSet x) (started x) (loadedStore x)
  | PEffect => providerEffect x
  | PLoaded store =>
      if decide (store ∈ onLoadedSet x) then
        mkStoreProvider (p_store x) (p_effect x) (onLoadedSet x) (started x) (Some store)
      else x
  end.

(** What the children find in the context; [None] while the loader is shown. *)
Definition LiquityStoreProvider (x : StoreProvider) : option nat := loadedStore x.

Arguments Own {St A}.
Arguments UpdateStore {St A}.
Arguments RUpdate {St A}.
Arguments RRender {St A}.
Arguments REffect {St A}.
Arguments RDispatch {St A}.
Arguments r_current {St S}.
Arguments r_shown {St S}.
Arguments r_asked {St S}.
Arguments r_rendered {St S}.
Arguments r_subscription {St S}.
Arguments r_states {St S}.
Arguments oldStore {St S}.

(** ** The comparison is an equivalence *)

Definition wellFormed (h : Heap) : Prop := map_Forall (fun _ (o : Properties) => NoDup o.*1) h.

Lemma get_None o key : get o key = None <-> key ∉ o.*1.
Proof.
  unfold get. induction o as [|[k v] o IH]; cbn; [set_solver|].
  destruct (String.eqb_spec key k) as [->|Hne]; cbn; [set_solver|]. rewrite IH. set_solver.
Qed.

Lemma get_Some o key : is_Some (get o key) <-> key ∈ o.*1.
Proof.
  rewrite <-not_eq_None_Some, get_None. destruct (decide (key ∈ o.*1)); naive_solver.
Qed.

(** Two objects are equal exactly when they have the same properties, in whatever order. *)
Lemma shallowEquals_spec a b : NoDup a.*1 -> NoDup b.*1 ->
  shallowEquals a b = true <-> forall key, get a key = get b key.
Proof.
  intros Ha Hb. unfold shallowEquals. rewrite andb_true_iff, Nat.eqb_eq, forallb_forall. split.
  - intros [Hlen Hall].
    assert (forall key, key ∈ a.*1 -> is_Some (get b key) /\ get a key = get b key) as Hkeys.
    { intros key Hk. pose proof (Hall key (proj1 (list_elem_of_In _ _) Hk)) as Hp.
      apply get_Some in Hk as [v Hv]. unfold hasOwnProperty, objectIs, property in Hp. rewrite Hv in Hp.
      destruct (get b key) as [w|]; [|done]. cbn in Hp. apply bool_decide_eq_true in Hp as <-. by split. }
    assert (incl b.*1 a.*1) as Hincl.
    { apply NoDup_length_incl; [by apply NoDup_ListNoDup|lia|].
      intros key Hk%list_elem_of_In. by apply list_elem_of_In, get_Some, Hkeys. }
    intros key. destruct (decide (key ∈ a.*1)) as [Hk|Hn]; [by apply Hkeys|].
    rewrite (proj2 (get_None a key) Hn). symmetry. apply get_None.
    intros Hk. by apply Hn, list_elem_of_In, Hincl, list_elem_of_In.
  - intros Hget. assert (forall key, key ∈ a.*1 <-> key ∈ b.*1) as Hkeys.
    { intros key. by rewrite <-!get_Some, Hget. }
    split.
    + apply NoDup_ListNoDup in Ha, Hb. apply Nat.le_antisymm; apply NoDup_incl_length; try done;
        intros key Hk; apply list_elem_of_In, Hkeys, list_elem_of_In, Hk.
    + intros key Hk%list_elem_of_In%get_Some. unfold hasOwnProperty, objectIs, property. rewrite <-Hget.
      destruct (get a key); [|by destruct Hk]. by apply bool_decide_eq_true.
Qed.

Lemma propertiesOf_NoDup h a : wellFormed h -> NoDup (propertiesOf h a).*1.
Proof.
  intros Hh. destruct a; cbn; try constructor. destruct (h !! id) as [o|] eqn:E; [exact (Hh _ _ E)|constructor].
Qed.

Lemma equals_spec h a b : wellFormed h ->
  equals h a b = true <->
  if isObject a && isObject b then forall key, get (propertiesOf h a) key = get (propertiesOf h b) key else a = b.
Proof.
  intros Hh. unfold equals. destruct (isObject a && isObject b).
  - apply shallowEquals_spec; by apply propertiesOf_NoDup.
  - apply bool_decide_eq_true.
Qed.

(** The comparison of the hooks is an equivalence on values: reflexive (also on [NaN]),
    symmetric, although it only looks for the keys of one object in the other, and transitive. *)
Theorem equals_equivalence h : wellFormed h -> Equivalence (fun a b => equals h a b = true).
Proof.
  intros Hh. split.
  - intros a. apply equals_spec; [done|]. by destruct (isObject a && isObject a).
  - intros a b. rewrite !equals_spec, (andb_comm (isObject b)) by done. destruct (_ && _); [|done]. naive_solver.
  - intros a b c. rewrite !equals_spec by done.
    destruct (isObject a) eqn:Ea, (isObject b) eqn:Eb, (isObject c) eqn:Ec; cbn; intros H1 H2;
      try congruence; try (by rewrite ?H1, ?H2).
Qed.

Section Laws.
Context {S : Type} (equals : S -> S -> bool) {Heq : Equivalence (fun a b => equals a b = true)}.

Lemma same_refl s : equals s s = true.
Proof. exact (@Equivalence_Reflexive _ _ Heq s). Qed.
Lemma same_sym s s' : equals s s' = true -> equals s' s = true.
Proof. exact (@Equivalence_Symmetric _ _ Heq s s'). Qed.
Lemma same_trans s s' s'' : equals s s' = true -> equals s' s'' = true -> equals s s'' = true.
Proof. exact (@Equivalence_Transitive _ _ Heq s s' s''). Qed.
End Laws.

(** ** A selector shows the state of the store *)

Section Selecting.
Context {St S : Type} (equals : S -> S -> bool) (meaning : nat -> St -> S).
Context {Heq : Equivalence (fun a b => equals a b = true)}.

Lemma setState_same (states : nat -> St) i new : setState states i new i = new.
Proof. unfold setState. by rewrite decide_True. Qed.

Lemma setState_other (states : nat -> St) i j new : i <> j -> setState states i new j = states j.
Proof. intros H. unfold setState. by rewrite decide_False. Qed.

Definition isCurrent (x : @Selector St S) : Prop :=
  s_window x = false -> s_asked x = false -> equals (s_shown x) (selectNow meaning x) = true.

Lemma selectorTurn_current x e : isCurrent x -> isCurrent (selectorTurn equals meaning x e).
Proof.
  intros Hx. destruct e as [store new|store select|]; cbn; [|intros _ _; by apply same_refl|exact Hx].
  intros [Hw Hn]%orb_false_iff [Ha Hs]%orb_false_iff. cbn in *. specialize (Hx Hw Ha).
  apply bool_decide_eq_false in Hn. unfold selectNow in *. cbn. destruct (s_rendered x) as [store' select] eqn:Er.
  cbn in *. destruct (decide (store' = store)) as [->|Hne]; [|by rewrite setState_other].
  rewrite setState_same. destruct (decide (s_subscription x = Some (store, select))) as [E|]; [|naive_solver].
  rewrite E, decide_True in Hs by done. apply negb_false_iff in Hs. apply same_sym in Hs; [|done]. by eapply same_trans.
Qed.

(** A component that reads the store through a selector shows what the selector gives on the
    present state, up to the comparison, whenever no render is outstanding and the store was not
    updated between the last render and its effect; updates for which the selector gives an
    equal value cause no render. *)
Theorem selector_is_current states store select events :
  let x := fold_left (selectorTurn equals meaning) events (selectorMounts meaning states store select) in
  s_window x = false -> s_asked x = false -> equals (s_shown x) (selectNow meaning x) = true.
Proof.
  intros x. change (isCurrent x). subst x.
  assert (isCurrent (selectorMounts meaning states store select)) as H by (intros _ _; by apply same_refl).
  revert H. generalize (selectorMounts meaning states store select).
  induction events as [|e events IH]; intros x Hx; [exact Hx|]. apply IH. by apply selectorTurn_current.
Qed.
End Selecting.

(** ** A reducer follows the store *)

Section Reducing.
Context {St S A : Type} (equals : S -> S -> bool) (init : St -> S) (reduce : nat -> S -> @Action St A -> S).
Context (store reducer : nat).

(** The actions of a component that keeps its store and its reducer: its own and the updates. *)
Fixpoint actionsOf (old : St) (events : list ReducerEvent) : list (@Action St A) :=
  match events with
  | [] => []
  | RUpdate store' new :: events =>
      if decide (store' = store) then UpdateStore new old :: actionsOf new events else actionsOf old events
  | RDispatch a :: events => Own a :: actionsOf old events
  | _ :: events => actionsOf old events
  end.

Definition steady (e : @ReducerEvent St A) : Prop :=
  match e with RRender store' reducer' => store' = store /\ reducer' = reducer | _ => True end.

Record subscribedTo (x : @Reducer St S) : Prop := {
  st_rendered : r_rendered x = (store, reducer);
  st_subscription : r_subscription x = Some (store, reducer);
  st_store : oldStore x = store;
  st_shown : r_asked x = false -> r_shown x = r_current x
}.

(** A step of the state: a result that compares equal is dropped, and the old state kept. *)
Definition kept (s : S) (action : @Action St A) : S :=
  let s' := reduce reducer s action in if equals s' s then s else s'.

Lemma dispatched action x : subscribedTo x ->
  subscribedTo (dispatch equals reduce reducer action x) /\
  r_current (dispatch equals reduce reducer action x) = kept (r_current x) action.
Proof.
  intros [Hr Hs Ho Ha]. unfold dispatch, kept. cbn. destruct (equals _ _); cbn.
  - split; [|done]. split; cbn; try done. by rewrite orb_false_r.
  - split; [|done]. split; cbn; try done. by rewrite orb_true_r.
Qed.

Lemma reducer_run x events : subscribedTo x -> Forall steady events ->
  let y := fold_left (reducerTurn equals init reduce) events x in
  subscribedTo y /\ r_current y = fold_left kept (actionsOf (r_states x store) events) (r_current x).
Proof.
  intros Hx Hs. revert x Hx. induction Hs as [|e events He _ IH]; intros x Hx; cbn; [done|].
  assert (forall action (y : @Reducer St S), subscribedTo y -> r_current y = r_current x ->
    let z := fold_left (reducerTurn equals init reduce) events (dispatch equals reduce reducer action y) in
    subscribedTo z /\ r_current z =
      fold_left kept (actionsOf (r_states y store) events) (kept (r_current x) action)) as Hact.
  { intros action y Hy E. destruct (dispatched action y Hy) as [Hd Hc]. destruct (IH _ Hd) as [Hz Hf].
    split; [exact Hz|]. etrans; [exact Hf|]. by rewrite Hc, E. }
  destruct e as [store' new|store' reducer'| |a]; cbn.
  - unfold reducerUpdates. rewrite (st_subscription _ Hx). set (y := mkReducer _ _ _ _ _ _ _).
    assert (subscribedTo y) as Hy by (destruct Hx; by split).
    change (r_subscription y) with (Some (store, reducer)). cbv beta iota.
    destruct (decide (store' = store)) as [->|Hne].
    + rewrite decide_True by done. pose proof (Hact (UpdateStore new (r_states x store)) y Hy eq_refl) as H.
      cbn in H. by rewrite setState_same in H.
    + rewrite decide_False by congruence. pose proof (IH y Hy) as H. cbn in H. by rewrite setState_other in H.
  - destruct He as [-> ->]. pose proof Hx as [Hr Hsub Ho Ha]. unfold useLiquityReducer. rewrite Ho, Nat.eqb_refl. cbn.
    apply (IH (mkReducer _ _ _ _ _ _ _)). by split.
  - apply (IH (reducerEffect x)). destruct Hx as [Hr Hsub Ho Ha]. split; cbn; by rewrite ?Hr.
  - pose proof Hx as [Hr _ _ _]. rewrite Hr. cbn. by apply Hact.
Qed.

(** Keeping equal states makes no difference to a reducer that respects the comparison. *)
Lemma kept_fold s s' actions :
  Equivalence (fun a b => equals a b = true) ->
  (forall s s' action, equals s s' = true -> equals (reduce reducer s action) (reduce reducer s' action) = true) ->
  equals s s' = true -> equals (fold_left kept actions s) (fold_left (reduce reducer) actions s') = true.
Proof.
  intros Heq Hproper. revert s s'. induction actions as [|a actions IH]; intros s s' H; cbn; [done|].
  apply IH. specialize (Hproper s s' a H). unfold kept. destruct (equals (reduce reducer s a) s) eqn:E; [|done].
  eapply same_trans; [done| |exact Hproper]. by apply same_sym.
Qed.

(** C30. While a component keeps its store and its reducer, its state is what the reducer makes of
    the initial one by every action dispatched and every update of the store since the hook
    subscribed, in order and each update with the state before it, where a result that compares
    equal to the state is dropped; what it shows is its state whenever no render is outstanding.
    For a reducer that respects the comparison that is the plain fold of the reducer, up to the
    comparison; for another one, results may be lost. *)
Theorem reducer_follows_store states events : Forall steady events ->
  let x := fold_left (reducerTurn equals init reduce) (REffect :: events) (reducerMounts init states store reducer) in
  r_current x = fold_left kept (actionsOf (states store) events) (init (states store)) /\
  (r_asked x = false -> r_shown x = r_current x) /\
  (Equivalence (fun a b => equals a b = true) ->
   (forall s s' action, equals s s' = true -> equals (reduce reducer s action) (reduce reducer s' action) = true) ->
   equals (r_current x) (fold_left (reduce reducer) (actionsOf (states store) events) (init (states store))) = true).
Proof.
  intros He x. unfold x. cbn [fold_left].
  destruct (reducer_run (reducerTurn equals init reduce (reducerMounts init states store reducer) REffect) events)
    as [[] Hc]; [by split|done|]. split; [exact Hc|]. split; [done|]. intros Heq Hproper.
  rewrite Hc. apply kept_fold; [done..|]. by apply same_refl.
Qed.
End Reducing.

(** ** One store runs at a time *)

(** The stores that a provider has to do with. *)
Record oneStore (x : StoreProvider) : Prop := {
  o_started s : s ∈ started x <-> p_effect x = Some s;
  o_listened s : s ∈ onLoadedSet x <-> p_effect x = Some s;
  o_loaded s : loadedStore x = Some s -> p_effect x = Some s
}.

Lemma providerEffect_store x : p_effect (providerEffect x) = Some (p_store x).
Proof. unfold providerEffect. case_decide; [done|]. by destruct (p_effect x). Qed.

Lemma providerTurn_oneStore x e : oneStore x -> oneStore (providerTurn x e).
Proof.
  intros [H1 H2 H3]. destruct e as [s| |s]; cbn; [by split| |].
  - unfold providerEffect. destruct (decide (p_effect x = Some (p_store x))) as [|Hne]; [by split|].
    destruct (p_effect x) as [old|] eqn:E; split; cbn; intros s;
      rewrite ?elem_of_union, ?elem_of_difference, ?elem_of_singleton, ?H1, ?H2; try specialize (H3 s); naive_solver.
  - case_decide as Hs; [|by split]. split; cbn; try done. intros s' [= <-]. by apply H2.
Qed.

(** Whatever stores a provider is given and whenever they finish loading: the started store, the
    one whose loading is listened to and the one of the last effect are the same; the children
    see that one or the loader, and after the effects it is the one that was given. *)
Theorem provider_runs_one_store store events :
  let x := fold_left providerTurn events (providerMounts store) in
  (forall s, s ∈ started x <-> p_effect x = Some s) /\ (forall s, s ∈ onLoadedSet x <-> p_effect x = Some s) /\
  (forall s, LiquityStoreProvider x = Some s -> p_effect x = Some s) /\
  p_effect (providerTurn x PEffect) = Some (p_store x).
Proof.
  assert (oneStore (providerMounts store)) as H0 by (split; cbn; set_solver).
  revert H0. generalize (providerMounts store).
  induction events as [|e events IH]; intros x Hx; [|by apply IH, providerTurn_oneStore].
  destruct Hx as [H1 H2 H3]. split_and!; try done. apply providerEffect_store.
Qed.

(** ** Concrete components *)

#[export] Instance eqb_equivalence : Equivalence (fun a b => Z.eqb a b = true).
Proof.
  split; intros a; [apply Z.eqb_refl|intros b; rewrite !Z.eqb_eq; congruence|].
  intros b c. rewrite !Z.eqb_eq. congruence.
Defined.

Lemma equals_equivalence_witness :
  let h : Heap := {[ 1%positive := [("a", Null); ("b", Number S754_nan)]; 2%positive := [("b", Number S754_nan); ("a", Null)] ]} in
  wellFormed h /\ equals h (Object 2) (Object 1) = true.
Proof.
  intros h. assert (wellFormed h) as Hh by (apply (bool_decide_unpack _); vm_compute; exact I).
  split; [exact Hh|]. apply (@Equivalence_Symmetric _ _ (equals_equivalence h Hh)). vm_compute. reflexivity.
Defined.

(** Shallow: an object is not equal to its copy when a property holds another object. *)
Example nested_objects_differ :
  let h : Heap := {[ 1%positive := [("a", Object 3)]; 2%positive := [("a", Object 4)]; 3%positive := []; 4%positive := [] ]} in
  equals h (Object 3) (Object 4) = true /\ equals h (Object 1) (Object 2) = false.
Proof. vm_compute. done. Qed.

Definition half (select : nat) (z : Z) : Z := z / 2.

Lemma selector_is_current_witness :
  s_shown (fold_left (selectorTurn Z.eqb half) [SEffect; SUpdate 0 8%Z; SRender 0 0; SUpdate 0 9%Z]
    (selectorMounts half (fun _ => 6%Z) 0 0)) = 4%Z.
Proof.
  apply Z.eqb_eq.
  exact (selector_is_current Z.eqb half (fun _ => 6%Z) 0 0
    [SEffect; SUpdate 0 8%Z; SRender 0 0; SUpdate 0 9%Z] eq_refl eq_refl).
Defined.

(** An update between the first render and the effect is missed: no render is asked for, and
    what is shown is out of date until the next update that matters. *)
Example selector_misses_an_update :
  let x := fold_left (selectorTurn Z.eqb half) [SUpdate 0 8%Z; SEffect] (selectorMounts half (fun _ => 6%Z) 0 0) in
  s_asked x = false /\ s_shown x = 3%Z /\ selectNow half x = 4%Z.
Proof. vm_compute. done. Qed.

Definition addUp (reducer : nat) (s : Z) (action : @Action Z Z) : Z :=
  match action with Own a => s + a | UpdateStore new old => s + new - old end%Z.

(** A comparison that does not tell small numbers apart: adding up does not respect it. *)
Definition coarse (a b : Z) : bool := Z.eqb (a / 10) (b / 10).

Lemma reducer_follows_store_witness :
  r_current (fold_left (reducerTurn Z.eqb id addUp) [REffect; RDispatch 5%Z; RUpdate 0 8%Z; RRender 0 0; RUpdate 0 9%Z]
    (reducerMounts id (fun _ => 6%Z) 0 0)) = 14%Z /\
  r_current (fold_left (reducerTurn coarse id addUp) [REffect; RDispatch 5%Z; RDispatch 5%Z; RDispatch 5%Z]
    (reducerMounts id (fun _ => 0%Z) 0 0)) = 0%Z.
Proof.
  split.
  - apply Z.eqb_eq.
    refine (proj2 (proj2 (reducer_follows_store Z.eqb id addUp 0 0 (fun _ => 6%Z)
      [RDispatch 5%Z; RUpdate 0 8%Z; RRender 0 0; RUpdate 0 9%Z] _)) eqb_equivalence _).
    + repeat constructor.
    + intros s s' a H%Z.eqb_eq. rewrite H. apply Z.eqb_refl.
  - refine (eq_trans (proj1 (reducer_follows_store coarse id addUp 0 0 (fun _ => 0%Z)
      [RDispatch 5%Z; RDispatch 5%Z; RDispatch 5%Z] _)) eq_refl). repeat constructor.
Defined.

(** The state of a reducer also misses an update before the effect, and for good: what comes
    later starts from the update's result. *)
Example reducer_misses_an_update :
  let x := fold_left (reducerTurn Z.eqb id addUp) [RUpdate 0 8%Z; REffect; RUpdate 0 9%Z; RRender 0 0]
             (reducerMounts id (fun _ => 6%Z) 0 0) in
  r_shown x = 7%Z /\ r_states x 0 = 9%Z.
Proof. vm_compute. done. Qed.
