(* ===== verification/Connecting.v ===== *)
(** * Connecting

    [packages/lib-ethers/src/EthersLiquityConnection.ts], with [_Multicall.ts], the connection to
    the contracts of [contracts.ts] and the factories of [ReadableEthersLiquity] and
    [EthersLiquity].

    Providers and signers are third-party: a provider is known by its number and what it says of
    its network, a signer by what it says of its address and by its provider.  The table of
    deployments is read from files and is a parameter. *)

From S2P Require Import Prelude BigNumber Decimal.
From stdpp Require Import list pretty.
From Stdlib Require Import Ascii String.

Local Open Scope string_scope.
Local Open Scope Z_scope.

(** ** What is connected *)

Record Provider := mkProvider { pr_id : nat; getNetwork : result Z }.
Record Signer := mkSigner { sg_id : nat; getAddress : result string; sg_provider : option Provider }.

Inductive SignerOrProvider := ASigner (s : Signer) | AProvider (p : Provider).

(** [_LiquityDeploymentJSON]; of the addresses, the table by the contracts' names. *)
Record Deployment := mkDeployment {
  dp_chainId : Z;
  dp_addresses : list (string * string);
  dp_version : string;
  dp_deploymentDate : Z;
  dp_startBlock : Z;
  dp_bootstrapPeriod : Z;
  dp_totalStabilityPoolLQTYReward : string;
  dp_liquidityMiningLQTYRewardRate : string;
  dp_priceFeedIsTestnet : bool;
  dp_uniTokenIsMock : bool;
  dp_isDev : bool
}.

(** [EthersLiquityConnectionOptionalParams] *)
Record OptionalParams := mkOptional {
  op_userAddress : option string; op_frontendTag : option string; op_useStore : option string
}.

Definition noParams : OptionalParams := mkOptional None None None.

(** A contract: its address, its name among the interfaces, and what it is connected through. *)
Record Contract := mkContract { ct_address : string; ct_abi : string; ct_through : SignerOrProvider }.

(** [_InternalEthersLiquityConnection] *)
Record Connection := mkConnection {
  provider : Provider;
  signer : option Signer;
  _contracts : list (string * Contract);
  _multicall : option Contract;
  deployment : Deployment;
  totalStabilityPoolLQTYReward : Decimal;
  liquidityMiningLQTYRewardRate : Decimal;
  userAddress : option string;
  frontendTag : option string;
  useStore : option string
}.

(** ** The contracts *)

(** [getAbi]: the name of the interface of each contract. *)
Definition getAbi (priceFeedIsTestnet uniTokenIsMock : bool) (key : string) : string :=
  if String.eqb key "priceFeed" then (if priceFeedIsTestnet then "priceFeedTestnetAbi" else "priceFeedAbi")
  else if String.eqb key "uniToken" then (if uniTokenIsMock then "erc20MockAbi" else "iERC20Abi")
  else key +:+ "Abi".

Definition mapLiquityContracts {T U} (f : T -> string -> U) (contracts : list (string * T)) : list (string * U) :=
  List.map (fun c => (c.1, f c.2 c.1)) contracts.

Definition _connectToContracts (signerOrProvider : SignerOrProvider) (d : Deployment) : list (string * Contract) :=
  let abi := getAbi (dp_priceFeedIsTestnet d) (dp_uniTokenIsMock d) in
  mapLiquityContracts (fun address key => mkContract address (abi key) signerOrProvider) (dp_addresses d).

Definition multicallAddress (chainId : Z) : option string :=
  if chainId =? 1 then Some "0xeefba1e63905ef1d7acba5a8513c70307c1ce441"
  else if chainId =? 3 then Some "0x53c43764255c17bd724f74c4ef150724ac50a3ed"
  else if chainId =? 4 then Some "0x42ad527de7d4e9d9d011ac45b31d8551f8fe9821"
  else if chainId =? 5 then Some "0x77dca2c955b15e9de4dbbcf1246b4b85b651e50e"
  else if chainId =? 42 then Some "0x2cc8688c5f75e365aaeeb4ea8d6a480405a48d2a"
  else None.

Definition _connectToMulticall (p : Provider) (chainId : Z) : option Contract :=
  (fun address => mkContract address "multicallAbi" (AProvider p)) <$> multicallAddress chainId.

(** ** The connection *)

Section Connecting.
Context `{BN : BigNumber}.
Context (deployments : Z -> option Deployment).

Definition validStoreOptions : list string := ["blockPolled"].

Definition connectionFrom (p : Provider) (s : option Signer) (contracts : list (string * Contract))
    (multicall : option Contract) (d : Deployment) (optionalParams : option OptionalParams) : result Connection :=
  let params := default noParams optionalParams in
  guard (match op_useStore params with Some store => existsb (String.eqb store) validStoreOptions | None => true end)
  else JsError ("Invalid useStore value " +:+ default "" (op_useStore params)) in
  let* total := Decimal.from (FromString (dp_totalStabilityPoolLQTYReward d)) in
  let* rate := Decimal.from (FromString (dp_liquidityMiningLQTYRewardRate d)) in
  Ok (mkConnection p s contracts multicall d total rate (op_userAddress params) (op_frontendTag params)
        (op_useStore params)).

Definition getProviderAndSigner (signerOrProvider : SignerOrProvider) : result (Provider * option Signer) :=
  match signerOrProvider with
  | ASigner s =>
      match sg_provider s with
      | Some p => Ok (p, Some s)
      | None => Err (JsError "Signer must have a Provider")
      end
  | AProvider p => Ok (p, None)
  end.

Definition _connectToDeployment (d : Deployment) (signerOrProvider : SignerOrProvider)
    (optionalParams : option OptionalParams) : result Connection :=
  let* ps := getProviderAndSigner signerOrProvider in
  connectionFrom ps.1 ps.2 (_connectToContracts signerOrProvider d) None d optionalParams.

Definition _connectByChainId (p : Provider) (s : option Signer) (chainId : Z)
    (optionalParams : option OptionalParams) : result Connection :=
  match deployments chainId with
  | Some d =>
      connectionFrom p s (_connectToContracts (AProvider p) d) (_connectToMulticall p chainId) d optionalParams
  | None => Err (JsError ("Unsupported network (chainId = " +:+ pretty chainId +:+ ")"))
  end.

(** The optional parameters with the signer's address. *)
Definition withUser (s : Signer) (optionalParams : option OptionalParams) : result (option OptionalParams) :=
  match optionalParams ≫= op_userAddress with
  | Some _ => Err (JsError "Can't override userAddress when connecting through Signer")
  | None =>
      let* address := getAddress s in
      let params := default noParams optionalParams in
      Ok (Some (mkOptional (Some address) (op_frontendTag params) (op_useStore params)))
  end.

Definition _connect (signerOrProvider : SignerOrProvider) (optionalParams : option OptionalParams) :
    result Connection :=
  let* ps := getProviderAndSigner signerOrProvider in
  let* params := match ps.2 with Some s => withUser s optionalParams | None => Ok optionalParams end in
  let* chainId := getNetwork ps.1 in
  _connectByChainId ps.1 ps.2 chainId params.

(** ** Access *)

Definition _requireSigner (c : Connection) : result Signer :=
  match signer c with Some s => Ok s | None => Err (JsError "Must be connected through a Signer") end.

Definition _requireFrontendAddress (c : Connection) : result string :=
  match frontendTag c with Some tag => Ok tag | None => Err (JsError "A frontend address is required") end.

Definition _usingStore (c : Connection) : bool := if useStore c then true else false.

(** ** What is made of a connection *)

Inductive Readable := PlainReadable (c : Connection) | BlockPolledReadable (c : Connection).
Inductive Liquity := PlainLiquity (r : Readable) | LiquityWithStore (r : Readable).

(** [ReadableEthersLiquity._from] *)
Definition readableFrom (c : Connection) : Readable :=
  match useStore c with
  | Some store => if String.eqb store "blockPolled" then BlockPolledReadable c else PlainReadable c
  | None => PlainReadable c
  end.

(** [ReadableEthersLiquity.connect] *)
Definition connectReadable (signerOrProvider : SignerOrProvider) (optionalParams : option OptionalParams) :
    result Readable :=
  let* c := _connect signerOrProvider optionalParams in Ok (readableFrom c).

(** [EthersLiquity._from] *)
Definition liquityFrom (c : Connection) : Liquity :=
  if _usingStore c then LiquityWithStore (readableFrom c) else PlainLiquity (readableFrom c).

(** [EthersLiquity.connect] *)
Definition connect (signerOrProvider : SignerOrProvider) (optionalParams : option OptionalParams) : result Liquity :=
  let* c := _connect signerOrProvider optionalParams in Ok (liquityFrom c).

(** ** Who is connected *)

Lemma connectionFrom_Ok p s contracts multicall d params c :
  connectionFrom p s contracts multicall d params = Ok c ->
  provider c = p /\ signer c = s /\ _contracts c = contracts /\ _multicall c = multicall /\ deployment c = d /\
  userAddress c = (params ≫= op_userAddress) /\ frontendTag c = (params ≫= op_frontendTag) /\
  useStore c = (params ≫= op_useStore) /\ (useStore c = None \/ useStore c = Some "blockPolled").
Proof.
  unfold connectionFrom. intros H. inv_ok. destruct params as [[u t [store|]]|]; cbn in *; split_and!; auto.
  rewrite orb_false_r in *. match goal with H : String.eqb _ _ = true |- _ => apply String.eqb_eq in H as -> end. auto.
Qed.

(** Whoever connects: the deployment is that of the provider's network and its contracts are
    read through the provider; through a signer the user is the signer, and naming another is
    refused; through a provider the user is whoever was named, if anyone; a store that is asked
    for is the block-polled one, in front of the reader as well. *)
Theorem connect_attributes signerOrProvider params l :
  connect signerOrProvider params = Ok l ->
  exists c, _connect signerOrProvider params = Ok c /\ l = liquityFrom c /\
    (exists chainId, getNetwork (provider c) = Ok chainId /\ deployments chainId = Some (deployment c)) /\
    Forall (fun contract => ct_through contract.2 = AProvider (provider c)) (_contracts c) /\
    match signerOrProvider with
    | ASigner s =>
        signer c = Some s /\ sg_provider s = Some (provider c) /\ (params ≫= op_userAddress) = None /\
        exists address, getAddress s = Ok address /\ userAddress c = Some address
    | AProvider p => signer c = None /\ provider c = p /\ userAddress c = (params ≫= op_userAddress)
    end /\
    (l = PlainLiquity (PlainReadable c) /\ (params ≫= op_useStore) = None \/
     l = LiquityWithStore (BlockPolledReadable c) /\ (params ≫= op_useStore) = Some "blockPolled").
Proof.
  intros (c & Hc & [= <-])%bind_Ok. exists c. split; [done|]. split; [done|].
  unfold _connect in Hc. apply bind_Ok in Hc as ([p s] & Hps & Hc). apply bind_Ok in Hc as (params' & Hp & Hc).
  apply bind_Ok in Hc as (chainId & Hn & Hc). cbn in *. unfold _connectByChainId in Hc.
  destruct (deployments chainId) as [d|] eqn:Ed; [|done].
  apply connectionFrom_Ok in Hc as (E1 & E2 & E3 & _ & E5 & E6 & _ & E8 & Hs). subst p.
  assert ((params' ≫= op_useStore) = (params ≫= op_useStore)) as Es.
  { destruct s as [s|]; [|by injection Hp as ->]. unfold withUser in Hp.
    destruct (params ≫= op_userAddress); [done|]. apply bind_Ok in Hp as (address & _ & [= <-]). by destruct params. }
  split; [exists chainId; by subst|]. split; [|split].
  - rewrite E3. unfold _connectToContracts, mapLiquityContracts. apply Forall_forall.
    intros x Hx%list_elem_of_In%in_map_iff. by destruct Hx as (y & <- & _).
  - destruct signerOrProvider as [s'|p']; cbn in Hps.
    + destruct (sg_provider s') as [p'|] eqn:Esp; [|done]. injection Hps as -> <-. unfold withUser in Hp.
      destruct (params ≫= op_userAddress) eqn:Eu; [done|]. apply bind_Ok in Hp as (address & Ha & [= <-]).
      split_and!; try done. exists address. by split.
    + injection Hps as -> <-. by injection Hp as <-.
  - rewrite <-Es, <-E8. unfold liquityFrom, readableFrom, _usingStore. destruct Hs as [-> | ->]; [by left|by right].
Qed.
End Connecting.

(** ** A concrete connection *)

Definition mainnet : Deployment :=
  mkDeployment 1 [("troveManager", "0xA39739EF8b0231DbFA0DcdA07d7e29faAbCf4bb2"); ("priceFeed", "0x4c517D4e2C851CA76d7eC94B805269Df0f2201De")]
    "d8c9c7bc54be7a0ff51ff6b3b9d4c8f7f3f0f8e3" 1617611299000 12178551 1209600 "32000000" "0.257201646090534979"
    false false false.

Definition deploymentOf (chainId : Z) : option Deployment := if chainId =? 1 then Some mainnet else None.

Definition node : Provider := mkProvider 0 (Ok 1).
Definition alice : Signer := mkSigner 0 (Ok "0xA") (Some node).

Lemma connect_attributes_witness :
  exists l c, connect (BN := ZBN) deploymentOf (ASigner alice) (Some (mkOptional None None (Some "blockPolled"))) = Ok l /\
    l = LiquityWithStore (BlockPolledReadable c) /\ userAddress c = Some "0xA".
Proof.
  pose proof (fun l => connect_attributes (BN := ZBN) deploymentOf (ASigner alice)
    (Some (mkOptional None None (Some "blockPolled"))) l) as H.
  destruct (connect (BN := ZBN) deploymentOf (ASigner alice) (Some (mkOptional None None (Some "blockPolled")))) as [l|e] eqn:E.
  - destruct (H l eq_refl) as (c & _ & _ & _ & _ & (_ & _ & _ & address & Ha & Hu) & Hs). exists l, c.
    split; [reflexivity|]. split; [|rewrite Hu; symmetry; exact (f_equal (fun r => match r with Ok a => Some a | Err _ => None end) Ha)].
    destruct Hs as [[_ Hs]|[Hs _]]; [discriminate Hs|exact Hs].
  - exfalso. vm_compute in E. discriminate E.
Defined.

(** Where the protocol is not deployed there is nothing to connect to. *)
Example unsupported_network :
  connect (BN := ZBN) deploymentOf (AProvider (mkProvider 1 (Ok 10))) None
  = Err (JsError "Unsupported network (chainId = 10)").
Proof. vm_compute. reflexivity. Qed.
