(* ===== verification/Observation.v ===== *)
(** * Observing the protocol through events

    [packages/lib-ethers/src/ObservableEthersLiquity.ts]: a watch listens to the events of
    some contracts, waits until none has come for a while, and then reads what is watched at
    the latest block that an event came from.

    Contracts, event filters and reading are those of ethers and of [ReadableEthersLiquity]:
    an event reaches a listener once for every filter it matches that the listener is attached
    with. What a read gives is not looked at here, only the block it is made at and the order
    in which answers arrive. The operations of
    [packages/contracts/contracts/BorrowerOperations.sol] come in by the events that they
    emit. *)

From S2P Require Import Prelude.
From stdpp Require Import gmap sets list sorting.
From Stdlib Require Import Ascii String.

Local Open Scope string_scope.
Local Open Scope Z_scope.

(** ** Events *)

Inductive LogEvent :=
| EtherSent (toAddress : string)
| TroveUpdatedByTroveManager (borrower : string)
| TroveUpdatedByBorrowerOperations (borrower : string)
| UserDepositChanged (depositor : string)
| Transfer (from to : string).

(** ** Watches *)

Inductive Watch :=
| WatchTotalRedistributed
| WatchTroveWithoutRewards (address : string)
| WatchNumberOfTroves
| WatchTotal
| WatchStabilityDeposit (address : string)
| WatchLUSDInStabilityPool
| WatchLUSDBalance (address : string).

(** The function that returns a watch that has an address: [address ??=
    _requireAddress(connection)]. *)
Definition watchOf (watch : string -> Watch) (userAddress address : option string) : result Watch :=
  match address, userAddress with
  | Some address, _ | None, Some address => Ok (watch address)
  | None, None => Err (JsError "A user address is required")
  end.

Definition watchTroveWithoutRewards := watchOf WatchTroveWithoutRewards.
Definition watchStabilityDeposit := watchOf WatchStabilityDeposit.
Definition watchLUSDBalance := watchOf WatchLUSDBalance.

Definition watchPrice : result Watch := Err (JsError "Method not implemented.").

Section Watching.
(** The addresses of the pools. *)
Context (defaultPool stabilityPool : string).

(** How often an event calls the debounced listener of a watch. *)
Definition calls (w : Watch) (e : LogEvent) : nat :=
  let once b := if b : bool then 1%nat else 0%nat in
  match w, e with
  | WatchTotalRedistributed, EtherSent to => once (String.eqb to defaultPool)
  | WatchTroveWithoutRewards address, TroveUpdatedByTroveManager borrower
  | WatchTroveWithoutRewards address, TroveUpdatedByBorrowerOperations borrower =>
      once (String.eqb borrower address)
  | WatchNumberOfTroves, TroveUpdatedByTroveManager _ | WatchTotal, TroveUpdatedByTroveManager _ => 1%nat
  | WatchStabilityDeposit address, UserDepositChanged depositor => once (String.eqb depositor address)
  | WatchStabilityDeposit address, EtherSent to => once (String.eqb to stabilityPool)
  | WatchLUSDInStabilityPool, Transfer from to =>
      (once (String.eqb from stabilityPool) + once (String.eqb to stabilityPool))%nat
  | WatchLUSDBalance address, Transfer from to =>
      (once (String.eqb from address) + once (String.eqb to address))%nat
  | _, _ => 0%nat
  end.

(** ** Debouncing *)

(** [reads] are the blocks that were read at, in order; [answered] those of the answers that
    the callback was called with. *)
Record Watcher := mkWatcher {
  attached : bool;
  timeoutId : option nat;
  latestBlock : Z;
  timers : gset nat;
  nextTimer : nat;
  reads : list Z;
  inFlight : list Z;
  answered : list Z
}.

Definition watching : Watcher := mkWatcher true None 0 ∅ 0 [] [] [].

(** The function that [debounce] returns. *)
Definition debounced (blockNumber : option Z) (x : Watcher) : Watcher :=
  let latest :=
    match blockNumber with
    | Some n => if latestBlock x <? n then n else latestBlock x
    | None => latestBlock x
    end in
  let cleared := match timeoutId x with Some id => timers x ∖ {[ id ]} | None => timers x end in
  mkWatcher (attached x) (Some (nextTimer x)) latest (cleared ∪ {[ nextTimer x ]}) (S (nextTimer x))
    (reads x) (inFlight x) (answered x).

Definition timeout (id : nat) (x : Watcher) : Watcher :=
  if decide (id ∈ timers x) then
    mkWatcher (attached x) None (latestBlock x) (timers x ∖ {[ id ]}) (nextTimer x)
      (reads x ++ [latestBlock x])%list (inFlight x ++ [latestBlock x])%list (answered x)
  else x.

(** The function that a watch returns. *)
Definition unwatch (x : Watcher) : Watcher :=
  mkWatcher false (timeoutId x) (latestBlock x) (timers x) (nextTimer x) (reads x) (inFlight x) (answered x).

(** A read answers: which of those in flight is not up to the watch. *)
Definition answer (i : nat) (x : Watcher) : Watcher :=
  match inFlight x !! i with
  | Some block =>
      mkWatcher (attached x) (timeoutId x) (latestBlock x) (timers x) (nextTimer x) (reads x)
        (delete i (inFlight x)) (answered x ++ [block])%list
  | None => x
  end.

Inductive Event :=
| Logged (e : LogEvent) (blockNumber : option Z)
| Timeout (id : nat)
| Unwatch
| Answer (i : nat).

Definition turn (w : Watch) (x : Watcher) (e : Event) : Watcher :=
  match e with
  | Logged e blockNumber => if attached x then Nat.iter (calls w e) (debounced blockNumber) x else x
  | Timeout id => timeout id x
  | Unwatch => unwatch x
  | Answer i => answer i x
  end.

Definition run (w : Watch) (x : Watcher) (events : list Event) : Watcher := fold_left (turn w) events x.

(** ** What a watch has heard *)

(** The block that is to be read after some events: the latest they came from. *)
Definition latestOf (blocks : list (option Z)) : Z :=
  fold_left (fun latest b => match b with Some n => Z.max latest n | None => latest end) blocks 0.

(** The events that concern a watch until it is ended. *)
Fixpoint heard (w : Watch) (events : list Event) : list (option Z) :=
  match events with
  | [] => []
  | Logged e blockNumber :: events =>
      (List.repeat blockNumber (calls w e) ++ heard w events)%list
  | Unwatch :: _ => []
  | _ :: events => heard w events
  end.

(** With [hs] heard so far: a timer is pending and is the one that is remembered, or the last
    read was made at the latest block; reads never go back. *)
Record settled (hs : list (option Z)) (x : Watcher) : Prop := {
  s_latest : latestBlock x = latestOf hs;
  s_timers : timers x = match timeoutId x with Some id => {[ id ]} | None => ∅ end;
  s_fresh id : id ∈ timers x -> (id < nextTimer x)%nat;
  s_idle : timeoutId x = None -> last (reads x) = (match hs with [] => None | _ => Some (latestOf hs) end);
  s_sorted : StronglySorted Z.le (reads x);
  s_bounded : Forall (fun b => b <= latestBlock x) (reads x)
}.

Lemma latestOf_app hs b : latestOf (hs ++ [b]) = match b with Some n => Z.max (latestOf hs) n | None => latestOf hs end.
Proof. unfold latestOf. by rewrite fold_left_app. Qed.

Lemma debounced_settled hs b x : settled hs x -> settled (hs ++ [b]) (debounced b x) /\
  timeoutId (debounced b x) <> None /\ attached (debounced b x) = attached x.
Proof.
  intros [Hl Ht Hf Hi Hs Hb]. split; [|done].
  assert (latestBlock x <= latestBlock (debounced b x) /\ latestBlock (debounced b x) = latestOf (hs ++ [b])) as [Hle E].
  { rewrite latestOf_app, <-Hl. cbn. destruct b as [n|]; [|lia]. destruct (Z.ltb_spec (latestBlock x) n); lia. }
  split; [exact E| | |done|done|].
  - cbn. rewrite Ht. destruct (timeoutId x); set_solver.
  - cbn. intros id. rewrite Ht. destruct (timeoutId x); set_solver.
  - eapply Forall_impl; [exact Hb|]. cbn beta. intros; lia.
Qed.

Lemma debounced_times k hs b x : settled hs x ->
  settled (hs ++ List.repeat b k) (Nat.iter k (debounced b) x) /\
  attached (Nat.iter k (debounced b) x) = attached x.
Proof.
  intros Hx. induction k as [|k [IH Ha]]; [by rewrite app_nil_r|].
  replace (List.repeat b (S k)) with (List.repeat b k ++ [b])%list by (symmetry; apply List.repeat_cons).
  rewrite app_assoc. destruct (debounced_settled _ b _ IH) as (H & _ & Ha').
  split; [exact H|]. by rewrite <-Ha.
Qed.

Lemma timeout_settled hs id x : (hs = [] -> timeoutId x = None) -> settled hs x -> settled hs (timeout id x).
Proof.
  intros Hne [Hl Ht Hf Hi Hs Hb]. unfold timeout. case_decide as Hid; [|by split].
  split; cbn; try done.
  - rewrite Ht in *. destruct (timeoutId x); set_solver.
  - set_solver.
  - intros _. rewrite last_snoc, Hl. destruct hs; [|done]. rewrite Ht, Hne in Hid by done. set_solver.
  - apply StronglySorted_app_2; [|done|repeat constructor]. intros b b' Hb1 ->%list_elem_of_singleton.
    rewrite Forall_forall in Hb. auto.
  - apply Forall_app. split; [done|]. repeat constructor. lia.
Qed.

(** What is kept of a watch, whether it has been ended or not. *)
Record kept (hs : list (option Z)) (x : Watcher) : Prop := {
  k_settled : settled hs x;
  k_silent : hs = [] -> timeoutId x = None
}.

Lemma turn_kept w hs x e : kept hs x ->
  kept (hs ++ if attached x then match e with Logged e b => List.repeat b (calls w e) | _ => [] end else [])
    (turn w x e) /\
  attached (turn w x e) = (attached x && match e with Unwatch => false | _ => true end).
Proof.
  intros [Hs Hn]. destruct e as [e b|id| |i]; cbn.
  - destruct (attached x) eqn:Ea; [|rewrite app_nil_r; split; [by split|done]].
    destruct (debounced_times (calls w e) hs b x Hs) as [Hs' Ha]. split; [|by rewrite Ha].
    split; [exact Hs'|]. intros [-> Hr]%app_nil. destruct (calls w e); [|done]. by apply Hn.
  - replace (hs ++ (if attached x then [] else []))%list with hs by (destruct (attached x); by rewrite app_nil_r).
    split; [|unfold timeout; case_decide; cbn; by rewrite andb_true_r]. split; [by apply timeout_settled|].
    unfold timeout. by case_decide.
  - replace (hs ++ (if attached x then [] else []))%list with hs by (destruct (attached x); by rewrite app_nil_r).
    split; [|by rewrite andb_false_r]. destruct Hs. by split.
  - replace (hs ++ (if attached x then [] else []))%list with hs by (destruct (attached x); by rewrite app_nil_r).
    unfold answer. rewrite andb_true_r. case_match; [|by split; [split|]].
    destruct Hs. by split; [split; [split|]|].
Qed.

Lemma run_kept w hs x events : kept hs x ->
  kept (hs ++ if attached x then heard w events else []) (run w x events).
Proof.
  revert hs x. induction events as [|e events IH]; intros hs x Hx; cbn.
  - replace (hs ++ (if attached x then [] else []))%list with hs by (destruct (attached x); by rewrite app_nil_r).
    exact Hx.
  - destruct (turn_kept w hs x e Hx) as [Ht Ha]. specialize (IH _ _ Ht). rewrite Ha, <-app_assoc in IH.
    destruct (attached x), e; cbn in IH |- *; rewrite ?app_nil_r in *; exact IH.
Qed.

Lemma latestOf_bound hs n : Some n ∈ hs -> n <= latestOf hs.
Proof.
  induction hs as [|b hs IH] using rev_ind; [set_solver|]. rewrite latestOf_app, elem_of_app, list_elem_of_singleton.
  intros [Hn%IH| <-]; [destruct b; lia|lia].
Qed.

(** C31. However events, timers and answers come: of the timers at most one is pending; when none is,
    the last read was made at the latest block of an event that concerns what is watched, if
    there was any, and when one is, its firing makes that read; and the blocks that are read at
    never go back. *)
Theorem watch_reads_latest w events :
  let x := run w watching events in
  let hs := heard w events in
  (forall n, Some n ∈ hs -> n <= latestOf hs) /\
  (timers x = ∅ -> last (reads x) = match hs with [] => None | _ => Some (latestOf hs) end) /\
  (forall id, id ∈ timers x -> timers x = {[ id ]} /\ last (reads (turn w x (Timeout id))) = Some (latestOf hs)) /\
  StronglySorted Z.le (reads x).
Proof.
  intros x hs. assert (kept [] watching) as H0 by (split; [split; cbn; try done; constructor|done]).
  pose proof (run_kept w [] watching events H0) as [[Hl Ht Hf Hi Hs Hb] Hn]. cbn in *. fold x hs in Hl, Ht, Hf, Hi, Hs, Hb, Hn.
  split_and!; [apply latestOf_bound| | |done].
  - intros E. apply Hi. rewrite E in Ht. destruct (timeoutId x); [|done]. set_solver.
  - intros id Hid. split.
    + rewrite Ht in *. destruct (timeoutId x); [|set_solver]. apply elem_of_singleton in Hid. by subst.
    + unfold timeout. rewrite decide_True by done. cbn. by rewrite last_snoc, Hl.
Qed.

(** Ending a watch does not stop it at once: a timer that is pending still fires and makes
    one read, whose answer is still reported; nothing is read after that. *)
Theorem unwatch_leaves_one_read w before after :
  let x := run w watching before in
  let y := run w x (Unwatch :: after) in
  reads y = reads x \/ (timers x <> ∅ /\ reads y = (reads x ++ [latestOf (heard w before)])%list).
Proof.
  intros x y. assert (kept [] watching) as H0 by (split; [split; cbn; try done; constructor|done]).
  pose proof (run_kept w [] watching before H0) as [[Hl Ht _ _ _ _] _]. cbn -[latestOf] in Hl, Ht. fold x in Hl, Ht.
  assert (forall z, attached z = false -> timers z = match timeoutId z with Some id => {[ id ]} | None => ∅ end ->
    reads (run w z after) = reads z \/ (timers z <> ∅ /\ reads (run w z after) = (reads z ++ [latestBlock z])%list)) as H.
  { clear. induction after as [|e events IH]; intros z Ha Ht; [by left|]. cbn.
    destruct e as [e b|id| |i]; cbn.
    - rewrite Ha. by apply IH.
    - unfold timeout. case_decide as Hid; [|by apply IH]. right. split; [set_solver|].
      destruct (IH (mkWatcher (attached z) None (latestBlock z) (timers z ∖ {[ id ]}) (nextTimer z)
        (reads z ++ [latestBlock z])%list (inFlight z ++ [latestBlock z])%list (answered z))) as [E|[Hne E]]; cbn in *; try done.
      + rewrite Ht in *. destruct (timeoutId z); set_solver.
      + exfalso. apply Hne. rewrite Ht in *. destruct (timeoutId z); set_solver.
    - by apply (IH (unwatch z)).
    - unfold answer. destruct (inFlight z !! i); [|by apply IH]. by apply (IH (mkWatcher _ _ _ _ _ _ _ _)). }
  destruct (H (unwatch x) eq_refl Ht) as [E|[Hne E]]; [by left|right]. split; [exact Hne|]. by rewrite <-Hl.
Qed.

(** ** Opening a Trove *)

(** The events of [BorrowerOperations.openTrove]: the fee is minted for the stakers, the loan
    for the borrower and the gas compensation for the gas pool. *)
Definition emittedByOpenTrove (lqtyStaking gasPool zero borrower : string) : list LogEvent :=
  [Transfer zero lqtyStaking; Transfer zero borrower; Transfer zero gasPool;
   TroveUpdatedByBorrowerOperations borrower].

(** Those who watch the number of Troves, or the total of collateral and debt, only listen to
    the TroveManager: however many Troves are opened, they read nothing. *)
Theorem openings_go_unnoticed w lqtyStaking gasPool zero (openings : list (string * Z)) :
  w = WatchNumberOfTroves \/ w = WatchTotal ->
  let events := flat_map (fun o => List.map (fun e => Logged e (Some o.2))
    (emittedByOpenTrove lqtyStaking gasPool zero o.1)) openings in
  run w watching events = watching.
Proof.
  intros Hw events. subst events. induction openings as [|o openings IH]; [done|].
  cbn [flat_map]. unfold run. rewrite fold_left_app. destruct Hw as [-> | ->]; exact IH.
Qed.
End Watching.

(** ** Concrete watches *)

(** A transfer to oneself calls the listener twice, and it still reads once. *)
Example one_read_for_several_events :
  let x := run "0xD" "0xS" (WatchLUSDBalance "0xA") watching
             [Logged (Transfer "0xA" "0xA") (Some 5); Logged (Transfer "0xB" "0xC") (Some 9);
              Logged (Transfer "0xB" "0xA") (Some 7); Logged (Transfer "0xA" "0xB") (Some 6);
              Timeout 0; Timeout 3] in
  reads x = [7] /\ timers x = ∅.
Proof. vm_compute. done. Qed.

(** The answers of two reads may cross: the callback is called last with the older value. *)
Example answers_may_cross :
  answered (run "0xD" "0xS" WatchLUSDInStabilityPool watching
    [Logged (Transfer "0xS" "0xA") (Some 5); Timeout 0; Logged (Transfer "0xA" "0xS") (Some 6); Timeout 1;
     Answer 1; Answer 0]) = [6; 5].
Proof. vm_compute. reflexivity. Qed.

Lemma openings_go_unnoticed_witness :
  reads (run "0xD" "0xS" WatchNumberOfTroves watching
    (flat_map (fun o => List.map (fun e => Logged e (Some o.2)) (emittedByOpenTrove "0xL" "0xG" "0x0" o.1))
       [("0xA", 5); ("0xB", 6)])) = [].
Proof.
  exact (f_equal reads (openings_go_unnoticed "0xD" "0xS" WatchNumberOfTroves "0xL" "0xG" "0x0"
    [("0xA", 5); ("0xB", 6)] (or_introl eq_refl))).
Defined.
