(* ===== verification/SubgraphClient.v ===== *)
(** * Reading the subgraph

    [packages/lib-subgraph/src/SubgraphLiquity.ts] and [Query.ts]: the reader of the protocol
    that asks the subgraph, whose store is that of [GraphStore].

    The server that answers GraphQL queries and the Apollo client are third-party. A query is
    answered from the store as it is when the query arrives: the fields that are asked for,
    [BigInt] and [BigDecimal] as strings, and an error when a field that cannot be null is;
    how [BigDecimal]s are printed and how Troves are listed are parameters, and so is ethers'
    [getAddress]. Requests that are made together are answered one by one, perhaps from
    different stores. *)

From S2P Require Import Prelude JsString BigNumber Decimal Trove TroveTheory ReadableLiquity EthersReadable GraphStore.
From Stdlib Require Import Ascii String.

Local Open Scope string_scope.
Local Open Scope Z_scope.

(** ** Answers *)

(** [BigInt] as a string *)
Definition printBigInt (z : Z) : string :=
  if z <? 0 then "-" +:+ numeral_show 10 (- z) else numeral_show 10 z.

(** The fields of the fragment [TroveRawFields]. *)
Record RawTrove := mkRawTrove {
  ownerId : string; rawStatus : string; rt_collateral : string; rt_debt : string; rt_stake : string;
  rt_snapshotCollateral : string; rt_snapshotDebt : string
}.

Inductive OrderDirection := asc | desc.

(** A field that cannot be null. *)
Definition nonNull (z : option Z) : result string :=
  match z with Some z => Ok (printBigInt z) | None => Err (JsError "Null value resolved for non-null field") end.

Definition lowerChar (c : ascii) : ascii :=
  let n := Ascii.nat_of_ascii c in
  if (65 <=? n)%nat && (n <=? 90)%nat then Ascii.ascii_of_nat (n + 32) else c.

Fixpoint toLowerCase (s : string) : string :=
  match s with EmptyString => EmptyString | String c s => String (lowerChar c) (toLowerCase s) end.

Definition normalizeAddress (address : option string) : result string :=
  match address with
  | Some address => Ok (toLowerCase address)
  | None => Err (JsError "An address is required")
  end.

(** The status of a Trove is the string itself; the names of the statuses. *)
Definition statusOf (s : string) : result UserTroveStatus :=
  if String.eqb s "open" then Ok open
  else if String.eqb s "closedByOwner" then Ok closedByOwner
  else if String.eqb s "closedByLiquidation" then Ok closedByLiquidation
  else if String.eqb s "closedByRedemption" then Ok closedByRedemption
  else Err (JsError "no such status").

Section Client.
Context `{BN : BigNumber} `{BD : BigDecimal}.
Context (getAddress : string -> result string) (printBigDecimal : bd -> string).
Context (listTroves : Store -> OrderDirection -> Z -> Z -> list TroveEntity).

Definition decimalify (bigNumberString : string) : result Decimal := Decimal.fromBigNumberString bigNumberString.

Definition answerTrove (t : TroveEntity) : result RawTrove :=
  let* collateral := nonNull (rawCollateral t) in
  let* debt := nonNull (rawDebt t) in
  let* stake := nonNull (rawStake t) in
  let* snapshotCollateral := nonNull (rawSnapshotOfTotalRedistributedCollateral t) in
  let* snapshotDebt := nonNull (rawSnapshotOfTotalRedistributedDebt t) in
  Ok (mkRawTrove (t_owner t) (t_status t) collateral debt stake snapshotCollateral snapshotDebt).

(** [global.currentSystemState] *)
Definition systemState (s : Store) : option SystemStateEntity :=
  g ← global s; id ← currentSystemState g; systemStates s !! id.

(** ** Queries *)

Definition numberOfTroves (s : Store) : Z :=
  match global s with Some g => counter g numberOfOpenTroves | None => 0 end.

Definition totalRedistributed (s : Store) : result Trove :=
  match global s with
  | Some g =>
      let* collateral := decimalify (printBigInt (rawTotalRedistributedCollateral g)) in
      let* debt := decimalify (printBigInt (rawTotalRedistributedDebt g)) in
      Ok (mkTrove collateral debt)
  | None => Ok _emptyTrove
  end.

Definition price (s : Store) : result Decimal :=
  Decimal.from
    match systemState s ≫= ss_price with
    | Some price => FromString (printBigDecimal price)
    | None => FromNumber "200"
    end.

(** What [total] constructs its Trove with: the two strings, as they are. *)
Definition total (s : Store) : option (string * string) :=
  (fun ss => (printBigDecimal (totalCollateral ss), printBigDecimal (totalDebt ss))) <$> systemState s.

Definition tokensInStabilityPool (s : Store) : result Decimal :=
  Decimal.from
    match systemState s with
    | Some ss => FromString (printBigDecimal (GraphStore.tokensInStabilityPool ss))
    | None => FromNumber "0"
    end.

Definition troveFromRawFields (raw : RawTrove) : result TroveWithPendingRedistribution :=
  let* owner := getAddress (ownerId raw) in
  let* status := statusOf (rawStatus raw) in
  let* collateral := decimalify (rt_collateral raw) in
  let* debt := decimalify (rt_debt raw) in
  let* stake := decimalify (rt_stake raw) in
  let* snapshotCollateral := decimalify (rt_snapshotCollateral raw) in
  let* snapshotDebt := decimalify (rt_snapshotDebt raw) in
  Ok (mkPending (mkUserTrove (mkTrove collateral debt) owner status) stake
        (mkTrove snapshotCollateral snapshotDebt)).

Definition troveBeforeRedistribution (s : Store) (address : string) : result TroveWithPendingRedistribution :=
  match user ← users s !! address; id ← u_trove user; troves s !! id with
  | Some t => let* raw := answerTrove t in troveFromRawFields raw
  | None => Ok (newPending address nonExistent)
  end.

Definition queryTroves (s : Store) (orderDirection : OrderDirection) (startingAt first : Z) :
    result (list TroveWithPendingRedistribution) :=
  let* raws := traverse answerTrove (listTroves s orderDirection startingAt first) in
  traverse troveFromRawFields raws.

(** ** The reader *)

Definition getTotalRedistributed := totalRedistributed.
Definition getNumberOfTroves := numberOfTroves.
Definition getPrice := price.
Definition getTotal := total.
Definition getLUSDInStabilityPool := tokensInStabilityPool.

Definition getTroveBeforeRedistribution (address : option string) (s : Store) :
    result TroveWithPendingRedistribution :=
  let* address := normalizeAddress address in troveBeforeRedistribution s address.

(** The two requests see the stores [s] and [s']. *)
Definition getTrove (address : option string) (s s' : Store) : result UserTrove :=
  let* trove := getTroveBeforeRedistribution address s in
  let* totalRedistributed := getTotalRedistributed s' in
  TroveWithPendingRedistribution.applyRedistribution trove totalRedistributed.

Definition getTroves (params : TroveListingParams) (s s' : Store) : result Troves :=
  let* totalRedistributed :=
    if beforeRedistribution params then Ok None
    else let* totalRedistributed := getTotalRedistributed s in Ok (Some totalRedistributed) in
  let* _troves :=
    queryTroves s' (match sortedBy params with ascendingCollateralRatio => asc | descendingCollateralRatio => desc end)
      (default 0 (startingAt params)) (first params) in
  match totalRedistributed with
  | Some totalRedistributed =>
      rmap CurrentTroves
        (traverse (fun trove => TroveWithPendingRedistribution.applyRedistribution trove totalRedistributed) _troves)
  | None => Ok (StoredTroves _troves)
  end.

(** The attempts of [waitForBlock], each a query at the block: how many were made. *)
Fixpoint waitForBlock (attempts : list (result unit)) : option nat :=
  match attempts with
  | [] => None
  | Ok _ :: _ => Some 1%nat
  | Err _ :: attempts => S <$> waitForBlock attempts
  end.
End Client.

(** ** The two readers agree *)

Section Agreement.
Context `{BNL : BigNumberLaws} `{BD : BigDecimal}.
Context (getAddress : string -> result string) (contracts : Contracts) (connection : Connection) (s : Store).

Notation latest := (mkOverrides None None).

(** The store has the totals that the contracts have at the block that is read. *)
Record mirrorsTotals : Prop := {
  mt_global : is_Some (global s);
  mt_collateral g : global s = Some g -> 0 <= rawTotalRedistributedCollateral g /\
    troveManager_L_ETH contracts latest = Ok (rawTotalRedistributedCollateral g);
  mt_debt g : global s = Some g -> 0 <= rawTotalRedistributedDebt g /\
    troveManager_L_LUSDDebt contracts latest = Ok (rawTotalRedistributedDebt g)
}.

(** The store has the Trove [t] of [a] as the contracts have it, whatever its status: an open one
    with the same amounts, a closed one with nothing left.  Its owner is saved in lower case, and
    [owner] is the address with its checksum. *)
Record mirrorsTrove (a owner : string) (t : TroveEntity) : Prop := {
  mo_found : exists u id, users s !! toLowerCase a = Some u /\ u_trove u = Some id /\ troves s !! id = Some t;
  mo_owner : getAddress (t_owner t) = Ok owner;
  mo_amounts : exists coll debt stake ETH LUSDDebt b snapshots st,
    rawCollateral t = Some coll /\ rawDebt t = Some debt /\ rawStake t = Some stake /\
    rawSnapshotOfTotalRedistributedCollateral t = Some ETH /\
    rawSnapshotOfTotalRedistributedDebt t = Some LUSDDebt /\
    Forall (fun z => 0 <= z) [coll; debt; stake; ETH; LUSDDebt] /\
    troveManager_Troves contracts a latest = Ok b /\
    troveManager_rewardSnapshots contracts a latest = Ok snapshots /\
    statusOf (t_status t) = Ok st /\ userTroveStatusFrom (bt_status b) = Ok st /\
    if bt_status b =? 1
    then bt_coll b = coll /\ bt_debt b = debt /\ bt_stake b = stake /\ snapshots = (ETH, LUSDDebt)
    else coll = 0 /\ debt = 0 /\ stake = 0
}.

(** Neither knows a Trove of [a]. *)
Record mirrorsNone (a : string) : Prop := {
  mn_unknown : (user ← users s !! toLowerCase a; id ← u_trove user; troves s !! id) = None;
  mn_contracts : exists b snapshots, troveManager_Troves contracts a latest = Ok b /\ bt_status b = 0 /\
    troveManager_rewardSnapshots contracts a latest = Ok snapshots
}.

(** A [BigInt] is read as the same number from the subgraph's string and from the contract's. *)
Lemma decimalify_agrees z : 0 <= z -> decimalify (printBigInt z) = EthersReadable.decimalify z.
Proof.
  intros Hz. unfold decimalify, EthersReadable.decimalify, printBigInt, Decimal.fromBigNumberString.
  destruct (Z.ltb_spec z 0); [lia|].
  rewrite bn_from_decimal by (try apply numeral_show_ok; try apply numeral_show_nonempty; lia).
  rewrite numeral_show_val by lia. by rewrite bn_from_toHexString.
Qed.

Lemma total_agrees : mirrorsTotals ->
  getTotalRedistributed s = ReadableEthersLiquity.getTotalRedistributed contracts None.
Proof.
  intros [[g Hg] Hc Hd]. destruct (Hc g Hg) as [Hc0 Hc'], (Hd g Hg) as [Hd0 Hd'].
  unfold getTotalRedistributed, totalRedistributed, ReadableEthersLiquity.getTotalRedistributed. cbn.
  by rewrite Hg, Hc', Hd', !decimalify_agrees.
Qed.

(** Nothing is due to a Trove without a stake. *)
Lemma stakeless_redistribution c d owner st snapshot total :
  TroveWithPendingRedistribution.applyRedistribution
    (mkPending (mkUserTrove (mkTrove c d) owner st) Decimal.ZERO snapshot) total
  = Ok (mkUserTrove (mkTrove c d) owner st).
Proof.
  unfold TroveWithPendingRedistribution.applyRedistribution. cbn [snapshotOfTotalRedistributed stake p_userTrove ut_trove
    ownerAddress status]. rewrite subtract_troveE. cbn [bind]. rewrite multiply_troveE. cbn [bind].
  change (big Decimal.ZERO) with 0. rewrite !Z.mul_0_r. change (0 / Decimal.DIGITS) with 0.
  unfold Trove.add. cbn [collateral debt]. rewrite !addE. cbn [bind]. change (big (dec 0)) with 0.
  by rewrite !Z.add_0_r, !dec_big.
Qed.

(** The Trove as of a given owner. *)
Definition withOwner (owner : string) (t : UserTrove) : UserTrove := mkUserTrove (ut_trove t) owner (status t).

Lemma applyRedistribution_owner trove a owner st stake snapshot total :
  TroveWithPendingRedistribution.applyRedistribution (mkPending (mkUserTrove trove owner st) stake snapshot) total
  = rmap (withOwner owner) (TroveWithPendingRedistribution.applyRedistribution
      (mkPending (mkUserTrove trove a st) stake snapshot) total).
Proof.
  unfold TroveWithPendingRedistribution.applyRedistribution. cbn.
  destruct (Trove.subtract total snapshot) as [since|]; [|done]. cbn.
  destruct (Trove.multiply since stake) as [share|]; [|done]. cbn.
  by destruct (Trove.add trove share).
Qed.

(** What the contracts' reader finds is of the address that was asked for. *)
Lemma own_address a trove :
  ReadableEthersLiquity.getTroveBeforeRedistribution contracts connection (Some a) None = Ok trove ->
  ownerAddress (p_userTrove trove) = a.
Proof.
  unfold ReadableEthersLiquity.getTroveBeforeRedistribution. cbn.
  destruct (troveManager_Troves contracts a latest) as [b|]; [|done]. cbn.
  destruct (troveManager_rewardSnapshots contracts a latest) as [[ETH LUSDDebt]|]; [|done]. cbn.
  destruct (userTroveStatusFrom (bt_status b)) as [st|]; [|done]. cbn.
  destruct (bt_status b =? 1); [|by intros [= <-]]. unfold pendingFrom. intros H. inv_ok. done.
Qed.

Lemma own_trove a t :
  ReadableEthersLiquity.getTrove contracts connection (Some a) None = Ok t -> withOwner a t = t.
Proof.
  unfold ReadableEthersLiquity.getTrove. intros (p & Hp%own_address & (total & _ & Ha)%bind_Ok)%bind_Ok.
  revert Ha. unfold TroveWithPendingRedistribution.applyRedistribution. intros H. inv_ok.
  unfold withOwner; cbn. by subst.
Qed.

(** A known Trove. *)
Lemma trove_agrees a owner t total : mirrorsTrove a owner t ->
  exists p p',
    getTroveBeforeRedistribution getAddress (Some a) s = Ok p /\
    ReadableEthersLiquity.getTroveBeforeRedistribution contracts connection (Some a) None = Ok p' /\
    TroveWithPendingRedistribution.applyRedistribution p total
    = rmap (withOwner owner) (TroveWithPendingRedistribution.applyRedistribution p' total).
Proof.
  intros [(u & id & Hu & Hid & Ht) Ho (coll & debt & stake & ETH & LUSDDebt & b & [ETH' LUSDDebt'] & st & E1 & E2 & E3 &
    E4 & E5 & Hnn & Hb & Hr & Hst & Hbst & Hcase)].
  repeat (apply Forall_cons in Hnn as [? Hnn]).
  unfold getTroveBeforeRedistribution, troveBeforeRedistribution, ReadableEthersLiquity.getTroveBeforeRedistribution. cbn.
  rewrite Hu. cbn. rewrite Hid. cbn. rewrite Ht, Hb. cbn. rewrite Hr. cbn. rewrite Hbst. cbn.
  unfold answerTrove. rewrite E1, E2, E3, E4, E5. cbn. unfold troveFromRawFields. cbn.
  rewrite Ho, Hst. cbn. rewrite !decimalify_agrees by done. rewrite !EthersReadable.decimalifyE by done. cbn.
  destruct (bt_status b =? 1).
  - destruct Hcase as (-> & -> & -> & [= -> ->]). unfold pendingFrom. rewrite !EthersReadable.decimalifyE by done. cbn.
    eexists _, _. split; [done|]. split; [done|]. apply applyRedistribution_owner.
  - destruct Hcase as (-> & -> & ->). eexists _, _. split; [done|]. split; [done|].
    etrans; [apply stakeless_redistribution|]. unfold newPending.
    rewrite (stakeless_redistribution Decimal.ZERO Decimal.ZERO). done.
Qed.

(** A user without a Trove. *)
Lemma none_agrees a : mirrorsNone a ->
  getTroveBeforeRedistribution getAddress (Some a) s = Ok (newPending (toLowerCase a) nonExistent) /\
  ReadableEthersLiquity.getTroveBeforeRedistribution contracts connection (Some a) None
  = Ok (newPending a nonExistent).
Proof.
  intros [Hu (b & snapshots & Hb & Hst & Hr)]. split.
  - unfold getTroveBeforeRedistribution, troveBeforeRedistribution. cbn. by rewrite Hu.
  - unfold ReadableEthersLiquity.getTroveBeforeRedistribution. cbn. rewrite Hb. cbn. rewrite Hr. cbn.
    destruct snapshots. by rewrite Hst.
Qed.

(** C16. Where the subgraph has indexed the block that is read, its reader and the reader of the
    contracts give the same redistributed totals, and the same Trove for every user: an open
    one with its share of what was redistributed since, a closed one with its status, and none.
    They differ in the owner's address only: the contracts' reader gives the address it was asked
    for, the subgraph's the one with the checksum where it knows the Trove and the one in lower
    case where it does not, so for an address with its checksum known Troves are equal. *)
Theorem readers_agree a : mirrorsTotals ->
  getTotalRedistributed s = ReadableEthersLiquity.getTotalRedistributed contracts None /\
  (forall owner t, mirrorsTrove a owner t ->
    getTrove getAddress (Some a) s s
    = rmap (withOwner owner) (ReadableEthersLiquity.getTrove contracts connection (Some a) None)) /\
  (mirrorsNone a ->
    getTrove getAddress (Some a) s s
    = rmap (withOwner (toLowerCase a)) (ReadableEthersLiquity.getTrove contracts connection (Some a) None)) /\
  (forall t, mirrorsTrove a a t ->
    getTrove getAddress (Some a) s s = ReadableEthersLiquity.getTrove contracts connection (Some a) None).
Proof.
  intros Hm. pose proof (total_agrees Hm) as Ht.
  assert (forall owner t, mirrorsTrove a owner t ->
    getTrove getAddress (Some a) s s
    = rmap (withOwner owner) (ReadableEthersLiquity.getTrove contracts connection (Some a) None)) as Hknown.
  { intros owner t Ho. unfold getTrove, ReadableEthersLiquity.getTrove. rewrite Ht.
    destruct (ReadableEthersLiquity.getTotalRedistributed contracts None) as [total|e].
    - destruct (trove_agrees a owner t total Ho) as (p & p' & -> & -> & Hp). exact Hp.
    - by destruct (trove_agrees a owner t _emptyTrove Ho) as (p & p' & -> & -> & _). }
  split; [exact Ht|]. split; [exact Hknown|]. split.
  - intros [Hs He]%none_agrees. unfold getTrove, ReadableEthersLiquity.getTrove. rewrite Ht, Hs, He. cbn.
    destruct (ReadableEthersLiquity.getTotalRedistributed contracts None); [|done]. cbn.
    apply applyRedistribution_owner.
  - intros t Ho. rewrite (Hknown a t Ho).
    destruct (ReadableEthersLiquity.getTrove contracts connection (Some a) None) as [x|] eqn:Hx; [|done].
    cbn. by rewrite (own_trove a x).
Qed.
End Agreement.

(** ** Waiting for a block *)

(** [waitForBlock] ends with the first query that succeeds, and only then. *)
Lemma waitForBlock_ends attempts n :
  waitForBlock attempts = Some n <->
  exists pre post, attempts = (pre ++ Ok tt :: post)%list /\ List.length pre = pred n /\ n <> O /\
    Forall (fun r => exists e, r = Err e) pre.
Proof.
  revert n. induction attempts as [|[[]|e] attempts IH]; intros n; cbn.
  - split; [done|]. intros ([|] & post & [=] & _).
  - split.
    + intros [= <-]. exists [], attempts. by repeat split.
    + intros ([|r pre] & post & E & Hl & Hn & Hf); [|apply Forall_cons in Hf as [[e ->] _]; by injection E].
      cbn in Hl. f_equal. lia.
  - split.
    + intros (m & (pre & post & -> & Hl & Hn & Hf)%IH & ->)%fmap_Some. exists (Err e :: pre), post.
      split_and!; [done|cbn; lia|done|]. by constructor; [eexists|].
    + intros ([|r pre] & post & E & Hl & Hn & Hf); [discriminate E|]. injection E as <- ->.
      apply Forall_cons in Hf as [_ Hf]. apply fmap_Some. exists (pred n). cbn in Hl. split; [|lia].
      apply IH. exists pre, post. split_and!; [done|lia|lia|done].
Qed.

(** ** A concrete subgraph *)

Section Sample.
Local Existing Instance QBD.

(** The Trove of ["0xA"], as it was after [ETH] had been redistributed per unit staked. *)
Definition sampleTrove (ETH : Z) : TroveEntity :=
  mkTroveEntity "0xa" "0xa" "open" (bd_fromString "2") (bd_fromString "200")
    (Some (2 * 10 ^ 18)) (Some (200 * 10 ^ 18)) (Some (2 * 10 ^ 18)) (Some ETH) (Some 0) (Some 1).

Definition sampleGlobal (L_ETH : Z) : Global :=
  mkGlobal (fun _ => 1) (bd_fromString "0") (bd_fromString "0") L_ETH 0 None None None None.

Definition sampleUser : UserEntity := mkUser "0xa" (Some "0xa") None None None (bd_fromString "0").

Definition sampleStore (L_ETH snapshotETH : Z) : Store :=
  mkStore (Some (sampleGlobal L_ETH)) ∅ {[ "0xa" := sampleUser ]}
    {[ "0xa" := sampleTrove snapshotETH ]} ∅ ∅ ∅ ∅ ∅ ∅ ∅ ∅ ∅ ∅ ∅ ∅ ∅ ∅.

Definition checksum (a : string) : result string := Ok (if String.eqb a "0xa" then "0xA" else a).

(** The contracts of the same moment. *)
Definition contractsOf (L_ETH snapshotETH : Z) : Contracts :=
  let zero (_ : Overrides) := Ok 0 in
  let none (_ : string) (_ : Overrides) := Ok 0 in
  let trove a := if String.eqb a "0xA" then mkBackendTrove a (2 * 10 ^ 18) (200 * 10 ^ 18) (2 * 10 ^ 18) 1 0 0
                 else mkBackendTrove a 0 0 0 0 0 0 in
  mkContracts (fun _ => Ok L_ETH) zero (fun a _ => Ok (trove a))
    (fun a _ => Ok (if String.eqb a "0xA" then snapshotETH else 0, 0)) (fun _ => Ok 1) zero zero
    zero zero zero zero zero (fun _ _ => Ok ("0x0", 0)) none none none zero (fun _ _ => Ok (false, 0)) zero none none none
    (fun _ _ _ => Ok 0) "0x2" zero zero zero zero none none none none none none zero
    (fun _ _ _ => Ok []) None (fun _ => Ok 3600) (fun _ _ => Ok 0).

Lemma readers_agree_witness :
  let s := sampleStore (10 ^ 17) (4 * 10 ^ 16) in
  let contracts := contractsOf (10 ^ 17) (4 * 10 ^ 16) in
  let connection := mkConnection None None (dec 0) in
  mirrorsTotals contracts s /\ mirrorsTrove checksum contracts s "0xA" "0xA" (sampleTrove (4 * 10 ^ 16)) /\
  mirrorsNone contracts s "0xB" /\
  getTrove (BN := ZBN) checksum (Some "0xA") s s = ReadableEthersLiquity.getTrove (BN := ZBN) contracts connection (Some "0xA") None.
Proof.
  intros s contracts connection.
  assert (mirrorsTotals contracts s) as Ht.
  { split; [eexists; reflexivity| |]; intros g E; injection E as <-; split; cbn; (lia || reflexivity). }
  assert (mirrorsTrove checksum contracts s "0xA" "0xA" (sampleTrove (4 * 10 ^ 16))) as Ho.
  { split; [|reflexivity|].
    { exists sampleUser, "0xa". split_and!; [|reflexivity|]; change (toLowerCase "0xA") with "0xa";
        apply lookup_singleton_eq. }
    do 8 eexists. split_and!; try reflexivity; [repeat constructor; cbn; lia|]. cbn. split_and!; reflexivity. }
  assert (mirrorsNone contracts s "0xB") as Hn.
  { split.
    - change (toLowerCase "0xB") with "0xb". cbn [users s sampleStore].
      by rewrite lookup_singleton_ne by discriminate.
    - exists (mkBackendTrove "0xB" 0 0 0 0 0 0), (0, 0). split_and!; reflexivity. }
  split; [exact Ht|]. split; [exact Ho|]. split; [exact Hn|].
  exact (proj2 (proj2 (proj2 (readers_agree (BN := ZBN) checksum contracts connection s "0xA" Ht))) _ Ho).
Defined.

(** The two requests of [getTrove] may be answered from different blocks: when the totals are
    older than the Trove, nothing counts as redistributed since. *)
Example requests_of_different_blocks :
  rmap (fun t => big (collateral (ut_trove t)))
    (getTrove (BN := ZBN) checksum (Some "0xA") (sampleStore (10 ^ 17) (4 * 10 ^ 16)) (sampleStore (10 ^ 17) (4 * 10 ^ 16)))
  = Ok (2 * 10 ^ 18 + 12 * 10 ^ 16) /\
  rmap (fun t => big (collateral (ut_trove t)))
    (getTrove (BN := ZBN) checksum (Some "0xA") (sampleStore (10 ^ 17) (4 * 10 ^ 16)) (sampleStore (10 ^ 16) (4 * 10 ^ 16)))
  = Ok (2 * 10 ^ 18).
Proof. vm_compute. done. Qed.
End Sample.
