(* ===== verification/Liquidation.v ===== *)
(** * The liquidation of one Trove by the contracts

    [packages/contracts/contracts/TroveManager.sol]: [liquidate] for a single Trove, in normal and
    in recovery mode, with the amounts it offsets and redistributes and with its reverts.  It is
    the specification of what the frontend says can be liquidated ([RiskyTroves]).  What is paid
    out afterwards is left out. *)

From S2P Require Import Prelude LiquityMath.
From Stdlib Require Import ZArith.

Local Open Scope Z_scope.

(** What [liquidate] reads: the price, the LUSD in the Stability Pool, the amounts of the system,
    the number of Troves (the length of [TroveOwners] and the size of [sortedTroves]), whether the
    Trove is active, and its collateral and debt with pending rewards. *)
Record LiquidationState := mkLiquidationState {
  l_price : Z;
  l_LUSDInStabPool : Z;
  l_entireSystemColl : Z;
  l_entireSystemDebt : Z;
  l_numberOfTroves : Z;
  l_sortedTroves : Z;
  l_active : bool;
  l_coll : Z;
  l_debt : Z
}.

Record LiquidationValues := mkValues {
  entireTroveDebt : Z;
  entireTroveColl : Z;
  collGasCompensation : Z;
  LUSDGasCompensation : Z;
  debtToOffset : Z;
  collToSendToSP : Z;
  debtToRedistribute : Z;
  collToRedistribute : Z;
  collSurplus : Z
}.

Module Liquidation.
Definition _100pct : Z := 1000000000000000000.
Definition PERCENT_DIVISOR : Z := 200.

Definition zeroVals : LiquidationValues := mkValues 0 0 0 0 0 0 0 0 0.

Definition _getCollGasCompensation (_entireColl : Z) : Z := _entireColl / PERCENT_DIVISOR.

(** [(debtToOffset, collToSendToSP, debtToRedistribute, collToRedistribute)] *)
Definition _getOffsetAndRedistributionVals (_debt _coll _LUSDInStabPool : Z) :
    result (Z * Z * Z * Z) :=
  if 0 <? _LUSDInStabPool then
    let debtToOffset := Z.min _debt _LUSDInStabPool in
    let* p := SafeMath.mul _coll debtToOffset in
    let* collToSendToSP := SafeMath.div p _debt in
    let* debtToRedistribute := SafeMath.sub _debt debtToOffset in
    let* collToRedistribute := SafeMath.sub _coll collToSendToSP in
    Ok (debtToOffset, collToSendToSP, debtToRedistribute, collToRedistribute)
  else Ok (0, 0, _debt, _coll).

Definition _getCappedOffsetVals (_entireTroveDebt _entireTroveColl _price : Z) :
    result LiquidationValues :=
  let* p := SafeMath.mul _entireTroveDebt LiquityBase.MCR in
  let* cappedCollPortion := SafeMath.div p _price in
  let gas := _getCollGasCompensation cappedCollPortion in
  let* toSP := SafeMath.sub cappedCollPortion gas in
  let* surplus := SafeMath.sub _entireTroveColl cappedCollPortion in
  Ok (mkValues _entireTroveDebt _entireTroveColl gas LiquityBase.LUSD_GAS_COMPENSATION
        _entireTroveDebt toSP 0 0 surplus).

(** The check of [_closeTrove], on the length of [TroveOwners] and on the size of [sortedTroves]. *)
Definition _requireMoreThanOneTroveInSystem (TroveOwnersArrayLength sortedTrovesSize : Z) : result unit :=
  guard (1 <? TroveOwnersArrayLength) && (1 <? sortedTrovesSize) else Revert in Ok tt.

Definition _liquidateNormalMode (s : LiquidationState) (_LUSDInStabPool : Z) :
    result LiquidationValues :=
  let gas := _getCollGasCompensation (l_coll s) in
  let* collToLiquidate := SafeMath.sub (l_coll s) gas in
  let* '(offset, toSP, debtLeft, collLeft) :=
    _getOffsetAndRedistributionVals (l_debt s) collToLiquidate _LUSDInStabPool in
  let* _ := _requireMoreThanOneTroveInSystem (l_numberOfTroves s) (l_sortedTroves s) in
  Ok (mkValues (l_debt s) (l_coll s) gas LiquityBase.LUSD_GAS_COMPENSATION
        offset toSP debtLeft collLeft 0).

Definition _liquidateRecoveryMode (s : LiquidationState) (_ICR _LUSDInStabPool _TCR : Z) :
    result LiquidationValues :=
  if l_numberOfTroves s <=? 1 then Ok zeroVals
  else
    let gas := _getCollGasCompensation (l_coll s) in
    let* collToLiquidate := SafeMath.sub (l_coll s) gas in
    if _ICR <=? _100pct then
      let* _ := _requireMoreThanOneTroveInSystem (l_numberOfTroves s) (l_sortedTroves s) in
      Ok (mkValues (l_debt s) (l_coll s) gas LiquityBase.LUSD_GAS_COMPENSATION
            0 0 (l_debt s) collToLiquidate 0)
    else if (_100pct <? _ICR) && (_ICR <? LiquityBase.MCR) then
      let* '(offset, toSP, debtLeft, collLeft) :=
        _getOffsetAndRedistributionVals (l_debt s) collToLiquidate _LUSDInStabPool in
      let* _ := _requireMoreThanOneTroveInSystem (l_numberOfTroves s) (l_sortedTroves s) in
      Ok (mkValues (l_debt s) (l_coll s) gas LiquityBase.LUSD_GAS_COMPENSATION
            offset toSP debtLeft collLeft 0)
    else if (LiquityBase.MCR <=? _ICR) && (_ICR <? _TCR) && (l_debt s <=? _LUSDInStabPool) then
      let* _ := guard negb (_LUSDInStabPool =? 0) else Revert in Ok tt in
      let* v := _getCappedOffsetVals (l_debt s) (l_coll s) (l_price s) in
      let* _ := _requireMoreThanOneTroveInSystem (l_numberOfTroves s) (l_sortedTroves s) in
      Ok v
    else Ok zeroVals.

(** One round of [_getTotalFromBatchLiquidate_RecoveryMode]: the values of the Trove. *)
Definition _getTotalFromBatchLiquidate_RecoveryMode (s : LiquidationState) :
    result LiquidationValues :=
  if negb (l_active s) then Ok zeroVals
  else
    let* ICR := LiquityMath._computeCR (l_coll s) (l_debt s) (l_price s) in
    if (LiquityBase.MCR <=? ICR) && (l_LUSDInStabPool s =? 0) then Ok zeroVals
    else
      let* TCR := LiquityMath._computeCR (l_entireSystemColl s) (l_entireSystemDebt s) (l_price s) in
      let* v := _liquidateRecoveryMode s ICR (l_LUSDInStabPool s) TCR in
      let* _ := SafeMath.sub (l_LUSDInStabPool s) (debtToOffset v) in
      let* debtAfter := SafeMath.sub (l_entireSystemDebt s) (debtToOffset v) in
      let* c := SafeMath.sub (l_entireSystemColl s) (collToSendToSP v) in
      let* c := SafeMath.sub c (collGasCompensation v) in
      let* collAfter := SafeMath.sub c (collSurplus v) in
      let* _ := LiquityMath._computeCR collAfter debtAfter (l_price s) in
      Ok v.

(** One round of [_getTotalsFromBatchLiquidate_NormalMode]. *)
Definition _getTotalsFromBatchLiquidate_NormalMode (s : LiquidationState) :
    result LiquidationValues :=
  let* ICR := LiquityMath._computeCR (l_coll s) (l_debt s) (l_price s) in
  if ICR <? LiquityBase.MCR then
    let* v := _liquidateNormalMode s (l_LUSDInStabPool s) in
    let* _ := SafeMath.sub (l_LUSDInStabPool s) (debtToOffset v) in
    Ok v
  else Ok zeroVals.

Definition _checkRecoveryMode (s : LiquidationState) : result bool :=
  let* TCR := LiquityMath._computeCR (l_entireSystemColl s) (l_entireSystemDebt s) (l_price s) in
  Ok (TCR <? LiquityBase.CCR).

(** [liquidate(_borrower)]: [batchLiquidateTroves] on an array with one Trove, whose totals are
    the values of that Trove. *)
Definition liquidate (s : LiquidationState) : result LiquidationValues :=
  guard l_active s else Revert in
  let* recoveryModeAtStart := _checkRecoveryMode s in
  let* totals := if recoveryModeAtStart then _getTotalFromBatchLiquidate_RecoveryMode s
                 else _getTotalsFromBatchLiquidate_NormalMode s in
  guard 0 <? entireTroveDebt totals else Revert in Ok totals.
End Liquidation.

(** ** Which Troves are liquidated *)

Section liquidate.
Import Liquidation.
Implicit Types s : LiquidationState.

(** The amounts of a running system: none negative, the Trove part of the system, in debt, and
    the products within 256 bits. *)
Record sound s : Prop := {
  sound_price : 0 < l_price s;
  sound_pool : 0 <= l_LUSDInStabPool s < 2 ^ 256;
  sound_coll : 0 <= l_coll s <= l_entireSystemColl s;
  sound_debt : 0 < l_debt s <= l_entireSystemDebt s;
  sound_systemDebt : l_entireSystemDebt s < 2 ^ 192;
  sound_systemColl : l_entireSystemColl s < 2 ^ 128;
  sound_priceBound : l_price s < 2 ^ 128;
  sound_debtBound : l_debt s < 2 ^ 128
}.

(** The collateral ratio, for a debt that is not zero. *)
Definition CR (coll debt price : Z) : Z := if 0 <? debt then coll * price / debt else 2 ^ 256 - 1.

Lemma computeCRE coll debt price :
  0 <= coll < 2 ^ 128 -> 0 <= price < 2 ^ 128 ->
  LiquityMath._computeCR coll debt price = Ok (CR coll debt price).
Proof.
  intros. unfold LiquityMath._computeCR, CR, SafeMath.mul.
  destruct (Z.ltb_spec 0 debt); [|done]. rewrite uintE by nia. cbn [bind]. by rewrite safe_divE.
Qed.

Lemma subUE a b : 0 <= b <= a -> a < 2 ^ 256 -> SafeMath.sub a b = Ok (a - b).
Proof. intros. unfold SafeMath.sub. apply uintE. lia. Qed.

Lemma gas_bounds c : 0 <= c -> 0 <= _getCollGasCompensation c <= c.
Proof.
  intros. unfold _getCollGasCompensation, PERCENT_DIVISOR. split; [apply Z.div_pos; lia|].
  apply Z.div_le_upper_bound; lia.
Qed.

(** What is offset and redistributed adds up to the debt and the collateral. *)
Lemma offset_shares debt coll pool :
  0 < debt < 2 ^ 128 -> 0 <= coll < 2 ^ 128 -> 0 <= pool ->
  exists o c d r, _getOffsetAndRedistributionVals debt coll pool = Ok (o, c, d, r) /\
    0 <= o <= pool /\ 0 <= c /\ 0 <= d /\ 0 <= r /\ o + d = debt /\ c + r = coll.
Proof.
  intros Hd Hc Hp. unfold _getOffsetAndRedistributionVals, SafeMath.mul.
  destruct (Z.ltb_spec 0 pool); [|eexists _, _, _, _; split; [done|]; lia].
  rewrite uintE by nia. cbn [bind]. rewrite safe_divE by lia. cbn [bind].
  assert (0 <= coll * Z.min debt pool / debt <= coll) as Hq.
  { split; [apply Z.div_pos; nia|]. apply Z.div_le_upper_bound; nia. }
  rewrite !subUE by lia. cbn [bind]. eexists _, _, _, _. split; [done|]. lia.
Qed.

(** The Troves that are liquidated in a mode: below the minimum ratio, or in recovery mode, below
    the total ratio with a Stability Pool that takes the whole debt. *)
Definition liquidated (recoveryMode : bool) s : bool :=
  let ICR := CR (l_coll s) (l_debt s) (l_price s) in
  let TCR := CR (l_entireSystemColl s) (l_entireSystemDebt s) (l_price s) in
  (ICR <? LiquityBase.MCR) ||
  (recoveryMode && (ICR <? TCR) && (l_debt s <=? l_LUSDInStabPool s)).

(** The values of a liquidated Trove: its debt and collateral are shared out in full. *)
Definition sharesOut s (v : LiquidationValues) : Prop :=
  entireTroveDebt v = l_debt s /\ entireTroveColl v = l_coll s /\
  debtToOffset v + debtToRedistribute v = l_debt s /\
  collToSendToSP v + collToRedistribute v + collGasCompensation v + collSurplus v = l_coll s /\
  0 <= debtToOffset v <= l_LUSDInStabPool s /\
  0 <= debtToRedistribute v /\ 0 <= collToSendToSP v /\ 0 <= collToRedistribute v /\
  0 <= collGasCompensation v /\ 0 <= collSurplus v.

Definition moreThanOne s : Prop := 1 < l_numberOfTroves s /\ 1 < l_sortedTroves s.

Lemma more_than_one s :
  moreThanOne s -> _requireMoreThanOneTroveInSystem (l_numberOfTroves s) (l_sortedTroves s) = Ok tt.
Proof.
  intros []. unfold _requireMoreThanOneTroveInSystem.
  by destruct (Z.ltb_spec 1 (l_numberOfTroves s)), (Z.ltb_spec 1 (l_sortedTroves s)); try lia.
Qed.

Lemma normalMode_liquidates s :
  sound s -> moreThanOne s ->
  exists v, _liquidateNormalMode s (l_LUSDInStabPool s) = Ok v /\ sharesOut s v.
Proof.
  intros [] Hn. unfold _liquidateNormalMode. pose proof (gas_bounds (l_coll s)).
  rewrite subUE by lia. cbn [bind].
  destruct (offset_shares (l_debt s) (l_coll s - _getCollGasCompensation (l_coll s)) (l_LUSDInStabPool s))
    as (o & c & d & r & -> & ?); [lia..|]. cbn [bind]. rewrite more_than_one by done.
  eexists. split; [done|]. unfold sharesOut; cbn. lia.
Qed.

(** The part of the collateral that pays for the debt at the minimum ratio. *)
Lemma capped_shares s :
  sound s -> LiquityBase.MCR <= CR (l_coll s) (l_debt s) (l_price s) -> l_debt s <= l_LUSDInStabPool s ->
  exists v, _getCappedOffsetVals (l_debt s) (l_coll s) (l_price s) = Ok v /\ sharesOut s v.
Proof.
  intros [] HM Hp. unfold CR in HM. destruct (Z.ltb_spec 0 (l_debt s)); [|lia].
  unfold _getCappedOffsetVals, SafeMath.mul. unfold LiquityBase.MCR in *.
  rewrite uintE by lia. cbn [bind]. rewrite safe_divE by done. cbn [bind].
  assert (1100000000000000000 * l_debt s <= l_coll s * l_price s) as HM'.
  { pose proof (Z.mul_div_le (l_coll s * l_price s) (l_debt s)). nia. }
  set (q := l_debt s * 1100000000000000000 / l_price s).
  assert (0 <= q <= l_coll s) as Hq.
  { split; [apply Z.div_pos; lia|]. apply Z.div_le_upper_bound; lia. }
  pose proof (gas_bounds q). rewrite !subUE by lia. cbn [bind].
  eexists. split; [done|]. unfold sharesOut; cbn. lia.
Qed.

(** What a Trove yields in recovery mode: nothing, or all it has. *)
Lemma recoveryMode_liquidates s :
  sound s -> moreThanOne s ->
  let ICR := CR (l_coll s) (l_debt s) (l_price s) in
  exists v,
    _liquidateRecoveryMode s ICR (l_LUSDInStabPool s)
      (CR (l_entireSystemColl s) (l_entireSystemDebt s) (l_price s)) = Ok v /\
    (if liquidated true s then sharesOut s v else v = zeroVals).
Proof.
  intros Hs Hn ICR. pose proof (normalMode_liquidates s Hs Hn) as Hnormal.
  pose proof (capped_shares s Hs) as Hcapped. destruct Hs.
  unfold _liquidateRecoveryMode, liquidated. fold ICR in Hcapped |- *.
  destruct (Z.leb_spec (l_numberOfTroves s) 1); [destruct Hn; lia|]. pose proof (gas_bounds (l_coll s)).
  rewrite subUE by lia. cbn [bind]. rewrite more_than_one by done. cbn [bind].
  unfold _liquidateNormalMode in Hnormal. rewrite subUE, more_than_one in Hnormal by (done || lia). cbn [bind] in Hnormal.
  destruct (Z.leb_spec ICR _100pct) as [Hlow|Hlow].
  - destruct (Z.ltb_spec ICR LiquityBase.MCR); [|by unfold _100pct, LiquityBase.MCR in *; lia]. cbn [orb].
    eexists. split; [done|]. unfold sharesOut; cbn. lia.
  - destruct (Z.ltb_spec _100pct ICR); [|lia].
    destruct (Z.ltb_spec ICR LiquityBase.MCR) as [Hmcr|Hmcr]; cbn [andb orb]; [done|].
    destruct (Z.leb_spec LiquityBase.MCR ICR); [|lia]. cbn [andb].
    destruct (ICR <? _); cbn [andb]; [|by eexists].
    destruct (Z.leb_spec (l_debt s) (l_LUSDInStabPool s)) as [Hpool|Hpool]; [|by eexists].
    destruct (Z.eqb_spec (l_LUSDInStabPool s) 0); [lia|]. cbn [negb bind].
    destruct (Hcapped Hmcr Hpool) as (v & -> & Hv). cbn [bind]. by exists v.
Qed.

Definition recoveryModeOf s : bool :=
  CR (l_entireSystemColl s) (l_entireSystemDebt s) (l_price s) <? LiquityBase.CCR.

Lemma computeCR_trove s :
  sound s -> LiquityMath._computeCR (l_coll s) (l_debt s) (l_price s) = Ok (CR (l_coll s) (l_debt s) (l_price s)).
Proof. intros []. apply computeCRE; lia. Qed.

Lemma computeCR_system s :
  sound s -> LiquityMath._computeCR (l_entireSystemColl s) (l_entireSystemDebt s) (l_price s)
             = Ok (CR (l_entireSystemColl s) (l_entireSystemDebt s) (l_price s)).
Proof. intros []. apply computeCRE; lia. Qed.

(** The round of a batch in each mode. *)
Lemma recovery_round s :
  sound s -> moreThanOne s -> l_active s = true ->
  exists v, _getTotalFromBatchLiquidate_RecoveryMode s = Ok v /\
    (if liquidated true s then sharesOut s v else v = zeroVals).
Proof.
  intros Hs Hn Ha. destruct (recoveryMode_liquidates s Hs Hn) as (v & Hv & Hshares).
  unfold _getTotalFromBatchLiquidate_RecoveryMode. rewrite Ha, computeCR_trove by done. cbn [negb bind].
  pose proof Hs as [].
  destruct (Z.leb_spec LiquityBase.MCR (CR (l_coll s) (l_debt s) (l_price s))) as [Hm|Hm];
    [destruct (Z.eqb_spec (l_LUSDInStabPool s) 0) as [Hz|Hz]|]; cbn [andb].
  { exists zeroVals. split; [done|]. unfold liquidated. rewrite Hz.
    destruct (Z.ltb_spec (CR (l_coll s) (l_debt s) (l_price s)) LiquityBase.MCR); [lia|].
    destruct (Z.leb_spec (l_debt s) 0); [lia|]. by rewrite andb_false_r. }
  all: rewrite computeCR_system by done; cbn [bind]; rewrite Hv; cbn [bind]; exists v;
    assert (0 <= debtToOffset v <= l_debt s /\ debtToOffset v <= l_LUSDInStabPool s /\
      0 <= collToSendToSP v /\ 0 <= collGasCompensation v /\ 0 <= collSurplus v /\
      collToSendToSP v + collGasCompensation v + collSurplus v <= l_coll s)
      by (destruct (liquidated true s); [unfold sharesOut in Hshares; lia | subst v; cbn; lia]);
    rewrite !subUE by lia; cbn [bind]; rewrite subUE by lia; cbn [bind]; rewrite subUE by lia; cbn [bind];
    rewrite computeCRE by lia; done.
Qed.

Lemma normal_round s :
  sound s -> moreThanOne s ->
  exists v, _getTotalsFromBatchLiquidate_NormalMode s = Ok v /\
    (if liquidated false s then sharesOut s v else v = zeroVals).
Proof.
  intros Hs Hn. destruct (normalMode_liquidates s Hs Hn) as (v & Hv & Hshares).
  unfold _getTotalsFromBatchLiquidate_NormalMode, liquidated. rewrite computeCR_trove by done. cbn [bind].
  destruct (CR _ _ _ <? LiquityBase.MCR); cbn [andb orb]; [|by eexists].
  rewrite Hv. cbn [bind]. exists v. pose proof Hs as []. unfold sharesOut in *.
  by rewrite subUE by lia.
Qed.

(** A Trove is liquidated exactly when its mode has it so, sharing out all it has. *)
Lemma liquidate_decides s :
  sound s -> moreThanOne s -> l_active s = true ->
  if liquidated (recoveryModeOf s) s
  then exists v, liquidate s = Ok v /\ sharesOut s v
  else liquidate s = Err Revert.
Proof.
  intros Hs Hn Ha. destruct (recovery_round s Hs Hn Ha) as (v1 & H1 & Hv1).
  destruct (normal_round s Hs Hn) as (v2 & H2 & Hv2). pose proof (sound_debt s Hs).
  unfold liquidate, _checkRecoveryMode. rewrite Ha, computeCR_system by done. cbn [bind].
  fold (recoveryModeOf s). destruct (recoveryModeOf s).
  - rewrite H1. cbn [bind]. destruct (liquidated true s); [|by rewrite Hv1].
    exists v1. destruct (Z.ltb_spec 0 (entireTroveDebt v1)); [done | unfold sharesOut in Hv1; lia].
  - rewrite H2. cbn [bind]. destruct (liquidated false s); [|by rewrite Hv2].
    exists v2. destruct (Z.ltb_spec 0 (entireTroveDebt v2)); [done | unfold sharesOut in Hv2; lia].
Qed.
End liquidate.
