(* ===== verification/TroveForms.v ===== *)
(** * The forms of a Trove

    [packages/dev-frontend/src/components/Trove/Adjusting.tsx], [Opening.tsx] and
    [src/hooks/useStableTroveChange.ts]: what is shown and offered for the amounts typed into the
    forms, and how the amounts follow the store.

    A rendering is a function of the state of the component and of what its hooks return; what it
    throws is a failure of the component.  Effects run after the rendering.  The balance of the
    Bitcoin wallet, converted by code outside the repository, is the amount [availableEth]. *)

From S2P Require Import Prelude JsString BigNumber Decimal DecimalText DecimalArith Constants Trove TroveTheory Validation.
From Stdlib Require Import Ascii String.

Local Open Scope string_scope.
Local Open Scope Z_scope.

(** What a form shows and offers. *)
Record FormView := mkView {
  v_isDirty : bool;
  v_fee : Decimal;
  v_totalDebt : Decimal;
  v_maxBorrowingRate : Decimal;
  v_trove : Trove;
  v_maxCollateral : Decimal;
  v_collateralMaxedOut : bool;
  v_collateralRatio : option Decimal;
  v_change : option (TroveChange Decimal);
  v_description : option TroveDescription
}.

(** [{ ...validationContext, accountBalance }] *)
Definition withAccountBalance (sel : TroveSelectedState) (b : Decimal) : TroveSelectedState :=
  mkSelected (sel_price sel) (sel_total sel) b (sel_lusdBalance sel) (sel_numberOfTroves sel).

Definition withLusdBalance (sel : TroveSelectedState) (b : Decimal) : TroveSelectedState :=
  mkSelected (sel_price sel) (sel_total sel) (sel_accountBalance sel) b (sel_numberOfTroves sel).

(** ** Adjusting *)

Module Adjusting.
Section Adjusting.
Context `{BN : BigNumber}.

Definition feeFrom (original edited : Trove) (borrowingRate : Decimal) : result Decimal :=
  let* change := Trove.whatChanged original edited borrowingRate in
  match change with
  | Some (Creation p) => Decimal.mul (c_borrowLUSD p) borrowingRate
  | Some (Adjustment p _) =>
      match borrowLUSD p with
      | Some b => Decimal.mul b borrowingRate
      | None => Ok Decimal.ZERO
      end
  | _ => Ok Decimal.ZERO
  end.

Definition applyUnsavedCollateralChanges (unsavedChanges : Difference) (trove : Trove) :
    result Decimal :=
  match Difference.absoluteValue unsavedChanges with
  | None => Ok (collateral trove)
  | Some a =>
      if Difference.positive unsavedChanges then Decimal.add (collateral trove) a
      else if Difference.negative unsavedChanges then
        if Decimal.ltD a (collateral trove) then Decimal.sub (collateral trove) a
        else Ok (collateral trove)
      else Ok (collateral trove)
  end.

Definition applyUnsavedNetDebtChanges (unsavedChanges : Difference) (trove : Trove) :
    result Decimal :=
  let* net := Trove.netDebt trove in
  match Difference.absoluteValue unsavedChanges with
  | None => Ok net
  | Some a =>
      if Difference.positive unsavedChanges then Decimal.add net a
      else if Difference.negative unsavedChanges then
        if Decimal.ltD a net then Decimal.sub net a else Ok net
      else Ok net
  end.

(** The state of the component; [runeBalanceSeen] is the dependency of its memo when it last
    ran, [None] before the first rendering. *)
Record AdjustingState := mkState {
  f_collateral : Decimal;
  f_netDebt : Decimal;
  previousTrove : Trove;
  runeBalanceSeen : option (option string)
}.

(** The initial values of the hooks. *)
Definition mount (trove : Trove) : result AdjustingState :=
  let* net := Trove.netDebt trove in
  Ok (mkState (collateral trove) net trove None).

Definition setCollateral (s : AdjustingState) (c : Decimal) : AdjustingState :=
  mkState c (f_netDebt s) (previousTrove s) (runeBalanceSeen s).
Definition setNetDebt (s : AdjustingState) (n : Decimal) : AdjustingState :=
  mkState (f_collateral s) n (previousTrove s) (runeBalanceSeen s).
Definition setPrevious (s : AdjustingState) (t : Trove) : AdjustingState :=
  mkState (f_collateral s) (f_netDebt s) t (runeBalanceSeen s).
Definition setSeen (s : AdjustingState) (b : option string) : AdjustingState :=
  mkState (f_collateral s) (f_netDebt s) (previousTrove s) (Some b).

(** The memo that replaces the balance of the context, which is a fresh object in each
    rendering; an empty balance is falsy. *)
Definition memo (s : AdjustingState) (runeBalance : option string)
    (validationContext : TroveSelectedState) : result (AdjustingState * TroveSelectedState) :=
  if bool_decide (runeBalanceSeen s = Some runeBalance) then Ok (s, validationContext)
  else
    let* validationContext :=
      match runeBalance with
      | Some b =>
          if String.eqb b "" then Ok validationContext
          else let* d := Decimal.from (FromString b) in Ok (withLusdBalance validationContext d)
      | None => Ok validationContext
      end in
    Ok (setSeen s runeBalance, validationContext).

(** The effect that carries unsaved changes over to the new Trove. *)
Definition rebaseCollateral (s : AdjustingState) (trove : Trove) : result AdjustingState :=
  if negb (Decimal.eqD (collateral (previousTrove s)) (collateral trove)) then
    let* unsavedChanges :=
      Difference.between (Some (FromDecimal (f_collateral s)))
        (Some (FromDecimal (collateral (previousTrove s)))) in
    let* nextCollateral := applyUnsavedCollateralChanges unsavedChanges trove in
    Ok (setCollateral s nextCollateral)
  else Ok s.

Definition rebaseNetDebt (s : AdjustingState) (trove : Trove) : result AdjustingState :=
  let* before := Trove.netDebt (previousTrove s) in
  let* now := Trove.netDebt trove in
  if negb (Decimal.eqD before now) then
    let* unsavedChanges :=
      Difference.between (Some (FromDecimal (f_netDebt s))) (Some (FromDecimal before)) in
    let* nextNetDebt := applyUnsavedNetDebtChanges unsavedChanges trove in
    Ok (setNetDebt s nextNetDebt)
  else Ok s.

(** The new state, and whether one of the amounts was set. *)
Definition followTrove (s : AdjustingState) (trove : Trove) : result (AdjustingState * bool) :=
  let* before := Trove.netDebt (previousTrove s) in
  let* now := Trove.netDebt trove in
  let set := negb (Decimal.eqD (collateral (previousTrove s)) (collateral trove)) ||
             negb (Decimal.eqD before now) in
  let* s := rebaseCollateral s trove in
  let* s := rebaseNetDebt s trove in
  Ok (setPrevious s trove, set).

(** What the hooks return in a rendering: the Trove, the price in the selected state, the
    borrowing rate, the balances. *)
Record AdjustingProps := mkProps {
  trove : UserTrove;
  borrowingRate : Decimal;
  selectedState : TroveSelectedState;
  availableEth : Decimal;
  runeBalance : option string
}.

(** The fee and the total debt for the net debt in the form. *)
Definition feeOf (t : Trove) (rate netDebt : Decimal) : result Decimal :=
  let* net := Trove.netDebt t in
  let isDebtIncrease := Decimal.gtD netDebt net in
  let* debtIncreaseAmount := if isDebtIncrease then Decimal.sub netDebt net else Ok Decimal.ZERO in
  if isDebtIncrease then
    let* d := Decimal.add (debt t) debtIncreaseAmount in
    feeFrom t (mkTrove (collateral t) d) rate
  else Ok Decimal.ZERO.

Definition totalDebtOf (netDebt fee : Decimal) : result Decimal :=
  let* r := Decimal.toString LUSD_LIQUIDATION_RESERVE None in
  let* withReserve := Decimal.add netDebt (FromString r) in
  let* f := Decimal.toString fee None in
  Decimal.add withReserve (FromString f).

(** One rendering: the new state, and the view unless the Trove isn't open. *)
Definition render (p : AdjustingProps) (s : AdjustingState) :
    result (AdjustingState * option FormView) :=
  let t := ut_trove (trove p) in
  let rate := borrowingRate p in
  let* net := Trove.netDebt t in
  let* '(s, validationContext) := memo s (runeBalance p) (selectedState p) in
  let isDirty := negb (Decimal.eqD (f_collateral s) (collateral t)) ||
                 negb (Decimal.eqD (f_netDebt s) net) in
  let* fee := feeOf t rate (f_netDebt s) in
  let* totalDebt := totalDebtOf (f_netDebt s) fee in
  let* maxBorrowingRate := Decimal.add rate (FromNumber "0.005") in
  let updatedTrove := if isDirty then mkTrove (f_collateral s) totalDebt else t in
  let* maxCollateral := Decimal.add (collateral t) (availableEth p) in
  let price := sel_price (selectedState p) in
  let* collateralRatio :=
    if negb (Decimal.isZero (f_collateral s)) && negb (Decimal.isZero (f_netDebt s))
    then rmap Some (Trove.collateralRatio updatedTrove price) else Ok None in
  let* '(change, description) :=
    validateTroveChange t updatedTrove rate (withAccountBalance validationContext (availableEth p)) in
  if bool_decide (status (trove p) <> open) then Ok (s, None)
  else
    Ok (s, Some (mkView isDirty fee totalDebt maxBorrowingRate updatedTrove maxCollateral
                   (Decimal.eqD (f_collateral s) maxCollateral) collateralRatio
                   change description)).

(** A rendering with its effect.  An amount that the effect sets makes the component render
    again; the effect of that rendering finds the Trove unchanged ([followTrove_idle]). *)
Definition cycle (p : AdjustingProps) (s : AdjustingState) :
    result (AdjustingState * option FormView) :=
  let* '(s, view) := render p s in
  let* '(s, set) := followTrove s (ut_trove (trove p)) in
  if set then render p s else Ok (s, view).

(** The form on the page. *)
Record Form := mkForm {
  props : AdjustingProps;
  state : AdjustingState;
  view : option FormView
}.

(** What happens to it: its hooks return something else, amounts are typed, the edit is reset. *)
Inductive AdjustingEvent :=
| StoreChanged (p : AdjustingProps)
| CollateralTyped (amount : string)
| NetDebtTyped (amount : string)
| ResetPressed.

Definition rerender (p : AdjustingProps) (s : AdjustingState) : result Form :=
  let* '(s, v) := cycle p s in Ok (mkForm p s v).

Definition start (p : AdjustingProps) : result Form :=
  let* s := mount (ut_trove (trove p)) in rerender p s.

(** An amount that can't be read throws in the handler, which changes nothing. *)
Definition handle (f : Form) (e : AdjustingEvent) : result Form :=
  match e with
  | StoreChanged p => rerender p (state f)
  | CollateralTyped amount =>
      match Decimal.from (FromString amount) with
      | Ok c => rerender (props f) (setCollateral (state f) c)
      | Err _ => Ok f
      end
  | NetDebtTyped amount =>
      match Decimal.from (FromString amount) with
      | Ok n => rerender (props f) (setNetDebt (state f) n)
      | Err _ => Ok f
      end
  | ResetPressed =>
      let t := ut_trove (trove (props f)) in
      let* net := Trove.netDebt t in
      rerender (props f) (setNetDebt (setCollateral (state f) (collateral t)) net)
  end.

Fixpoint run (f : Form) (es : list AdjustingEvent) : result Form :=
  match es with
  | [] => Ok f
  | e :: es => let* f := handle f e in run f es
  end.
End Adjusting.
End Adjusting.

(** ** Opening *)

Module Opening.
Section Opening.
Context `{BN : BigNumber}.

(** [Decimal.from(0.0000001)]; the number prints as [1e-7]. *)
Definition GAS_ROOM_ETH : result Decimal := Decimal.from (FromNumber "1e-7").

Record OpeningState := mkState { o_collateral : Decimal; o_borrowAmount : Decimal }.

Definition mount : OpeningState := mkState Decimal.ZERO Decimal.ZERO.

(** [parseUnits("7", 13)], in base units. *)
Definition defaultCollateral : result Decimal := Decimal.fromBigNumberString "70000000000000".

(** The effect that fills an empty form. *)
Definition fillDefaults (s : OpeningState) : result OpeningState :=
  if Decimal.isZero (o_collateral s) && Decimal.isZero (o_borrowAmount s) then
    let* c := defaultCollateral in Ok (mkState c LUSD_MINIMUM_NET_DEBT)
  else Ok s.

Definition render (rate : Decimal) (selectedState : TroveSelectedState) (accountBalance : Decimal)
    (s : OpeningState) : result FormView :=
  let* maxBorrowingRate := Decimal.add rate (FromNumber "0.005") in
  let* fee := Decimal.mul (o_borrowAmount s) rate in
  let* withReserve := Decimal.add (o_borrowAmount s) LUSD_LIQUIDATION_RESERVE in
  let* totalDebt := Decimal.add withReserve fee in
  let isDirty := negb (Decimal.isZero (o_collateral s)) || negb (Decimal.isZero (o_borrowAmount s)) in
  let trove := if isDirty then mkTrove (o_collateral s) totalDebt else _emptyTrove in
  let* gasRoom := GAS_ROOM_ETH in
  let* maxCollateral :=
    if Decimal.gtD accountBalance gasRoom then Decimal.sub accountBalance gasRoom
    else Ok Decimal.ZERO in
  let* collateralRatio :=
    if negb (Decimal.isZero (o_collateral s)) && negb (Decimal.isZero (o_borrowAmount s))
    then rmap Some (Trove.collateralRatio trove (sel_price selectedState)) else Ok None in
  let* '(change, description) :=
    validateTroveChange _emptyTrove trove rate (withAccountBalance selectedState accountBalance) in
  Ok (mkView isDirty fee totalDebt maxBorrowingRate trove maxCollateral
        (Decimal.eqD (o_collateral s) maxCollateral) collateralRatio change description).

Inductive OpeningEvent :=
| CollateralTyped (amount : string)
| BorrowAmountTyped (amount : string)
| ResetPressed.

(** A handler, and the effect after the rendering that follows. *)
Definition handle (s : OpeningState) (e : OpeningEvent) : result OpeningState :=
  let s :=
    match e with
    | CollateralTyped amount =>
        match Decimal.from (FromString amount) with
        | Ok c => mkState c (o_borrowAmount s)
        | Err _ => s
        end
    | BorrowAmountTyped amount =>
        match Decimal.from (FromString amount) with
        | Ok b => mkState (o_collateral s) b
        | Err _ => s
        end
    | ResetPressed => mount
    end in
  fillDefaults s.

Fixpoint run (s : OpeningState) (es : list OpeningEvent) : result OpeningState :=
  match es with
  | [] => Ok s
  | e :: es => let* s := handle s e in run s es
  end.
End Opening.
End Opening.

(** ** The change that is kept while its content is the same *)

Module useStableTroveChange.
Section useStableTroveChange.
Context `{BN : BigNumber}.

Definition paramsEq (a b : option Decimal) : bool :=
  match a, b with
  | Some a, Some b => Decimal.eqD a b
  | None, None => true
  | _, _ => false
  end.

(** The four optional parameters of a change, in the order they are compared:
    [borrowLUSD], [repayLUSD], [depositCollateral], [withdrawCollateral]. *)
Definition params (c : TroveChange Decimal) : list (option Decimal) :=
  match c with
  | Creation p => [Some (c_borrowLUSD p); None; Some (c_depositCollateral p); None]
  | Closure p => [None; x_repayLUSD p; None; Some (x_withdrawCollateral p)]
  | Adjustment p _ => [borrowLUSD p; repayLUSD p; depositCollateral p; withdrawCollateral p]
  | InvalidCreation _ _ => []
  end.

Definition sameType (a b : TroveChange Decimal) : bool :=
  match a, b with
  | Creation _, Creation _ | Closure _, Closure _ | Adjustment _ _, Adjustment _ _
  | InvalidCreation _ _, InvalidCreation _ _ => true
  | _, _ => false
  end.

Definition equals (a b : TroveChange Decimal) : bool :=
  sameType a b && forallb (fun '(x, y) => paramsEq x y) (zip (params a) (params b)).

(** The effect: what it sets the state to, if anything. *)
Definition effect (stableTroveChange troveChange : option (TroveChange Decimal)) :
    option (option (TroveChange Decimal)) :=
  match stableTroveChange, troveChange with
  | Some a, Some b => if negb (equals a b) then Some troveChange else None
  | None, None => None
  | _, _ => Some troveChange
  end.

(** The state after a rendering with the change and its effect. *)
Definition settle (stable change : option (TroveChange Decimal)) : option (TroveChange Decimal) :=
  default stable (effect stable change).
End useStableTroveChange.
End useStableTroveChange.

(** ** Amounts that follow the Trove *)

Section following.
Context `{BNL : BigNumberLaws}.
Implicit Types t : Trove.
Implicit Types a c d n : Decimal.

(** The net debt of a Trove that covers the liquidation reserve. *)
Definition net t : Z := big (debt t) - big LUSD_LIQUIDATION_RESERVE.

Definition covered t : Prop := big LUSD_LIQUIDATION_RESERVE <= big (debt t).

(** Amounts far below the infinite one. *)
Definition small (z : Z) : Prop := z < 2 ^ 254.

Lemma netE t : covered t -> Trove.netDebt t = Ok (dec (net t)).
Proof. apply netDebtE. Qed.

Lemma net_nonneg t : covered t -> 0 <= net t.
Proof. unfold covered, net. lia. Qed.

(** What is left of an edit by [d] when the amount it is made to becomes [new]. *)
Definition rebased (new d : Z) : Z := if (0 <=? d) || (- d <? new) then d else 0.

(** Both functions apply a difference to an amount in the same way. *)
Definition applyUnsaved (base : Decimal) (u : Difference) : result Decimal :=
  match Difference.absoluteValue u with
  | None => Ok base
  | Some a =>
      if Difference.positive u then Decimal.add base a
      else if Difference.negative u then
        if Decimal.ltD a base then Decimal.sub base a else Ok base
      else Ok base
  end.

Lemma applyUnsaved_rebased base a b :
  big a < 2 ^ 256 - 1 -> big b < 2 ^ 256 - 1 ->
  (let* u := Difference.between (Some (FromDecimal a)) (Some (FromDecimal b)) in applyUnsaved base u)
  = Ok (dec (big base + rebased (big base) (big a - big b))).
Proof.
  intros Ha Hb. unfold Difference.between. cbn [Decimal.from bind].
  rewrite !infiniteE.
  destruct (Z.eqb_spec (big a) (2 ^ 256 - 1)), (Z.eqb_spec (big b) (2 ^ 256 - 1)); try lia.
  rewrite !gtDE. unfold rebased.
  assert (forall z, z = big base -> Ok base = Ok (dec z)) as Hbase by (intros z ->; by rewrite dec_big).
  destruct (Z.ltb_spec (big b) (big a)).
  - rewrite subE by lia. unfold applyUnsaved; cbn [bind option_fmap fmap option_map absValue Difference.absoluteValue Difference.positive sign mbind option_bind]. rewrite addE, big_dec by lia. zcase.
  - destruct (Z.ltb_spec (big a) (big b)).
    + rewrite subE by lia. unfold applyUnsaved; cbn [bind option_fmap fmap option_map absValue Difference.absoluteValue Difference.positive Difference.negative sign mbind option_bind]. rewrite ltDE, big_dec by lia.
      destruct (Z.ltb_spec (big b - big a) (big base)).
      * rewrite subE by (rewrite big_dec; lia). rewrite big_dec by lia.
        destruct (Z.leb_spec 0 (big a - big b)); [lia|].
        destruct (Z.ltb_spec (- (big a - big b)) (big base)); [|lia]. cbn [orb]. do 2 f_equal. lia.
      * destruct (Z.leb_spec 0 (big a - big b)); [lia|].
        destruct (Z.ltb_spec (- (big a - big b)) (big base)); [lia|]. cbn [orb]. apply Hbase. lia.
    + cbn. replace (big a - big b) with 0 by lia. cbn. apply Hbase. lia.
Qed.

(** The amount in a form after the amount [old] of the Trove has become [new]. *)
Definition carried (old new x : Z) : Z :=
  if old =? new then x else new + rebased new (x - old).

Lemma rebaseCollateralE s t :
  big (Adjusting.f_collateral s) < 2 ^ 256 - 1 ->
  big (collateral (Adjusting.previousTrove s)) < 2 ^ 256 - 1 ->
  Adjusting.rebaseCollateral s t
  = Ok (Adjusting.setCollateral s
          (dec (carried (big (collateral (Adjusting.previousTrove s))) (big (collateral t))
                  (big (Adjusting.f_collateral s))))).
Proof.
  intros Hc Hp. unfold Adjusting.rebaseCollateral, carried. rewrite eqDE.
  destruct (_ =? _); cbn [negb]; [by rewrite dec_big; destruct s|].
  pose proof (applyUnsaved_rebased (collateral t) _ _ Hc Hp) as H.
  unfold applyUnsaved in H. unfold Adjusting.applyUnsavedCollateralChanges.
  destruct (Difference.between _ _) as [u|]; [|done]. cbn [bind] in *. by rewrite H.
Qed.

Lemma rebaseNetDebtE s t :
  big (Adjusting.f_netDebt s) < 2 ^ 256 - 1 -> big (debt (Adjusting.previousTrove s)) < 2 ^ 256 - 1 ->
  covered (Adjusting.previousTrove s) -> covered t ->
  Adjusting.rebaseNetDebt s t
  = Ok (Adjusting.setNetDebt s
          (dec (carried (net (Adjusting.previousTrove s)) (net t) (big (Adjusting.f_netDebt s))))).
Proof.
  intros Hn Hp Hcp Hct. unfold Adjusting.rebaseNetDebt, carried.
  pose proof (net_nonneg _ Hcp). pose proof (net_nonneg _ Hct).
  rewrite !netE by done. cbn [bind]. rewrite eqDE, !big_dec by done.
  destruct (Z.eqb_spec (net (Adjusting.previousTrove s)) (net t)); cbn [negb]; [by rewrite dec_big; destruct s|].
  assert (big (dec (net (Adjusting.previousTrove s))) < 2 ^ 256 - 1) as Hp'.
  { rewrite big_dec by done. unfold net. unfold covered in Hcp. blia. }
  pose proof (applyUnsaved_rebased (dec (net t)) _ _ Hn Hp') as H'.
  unfold applyUnsaved in H'. unfold Adjusting.applyUnsavedNetDebtChanges.
  destruct (Difference.between _ _) as [u|]; [|done]. cbn [bind] in *. rewrite netE by done. cbn [bind].
  rewrite H'. by rewrite !big_dec by done.
Qed.

(** The effect in one equation. *)
Lemma followTroveE s t :
  let p := Adjusting.previousTrove s in
  big (Adjusting.f_collateral s) < 2 ^ 256 - 1 -> big (Adjusting.f_netDebt s) < 2 ^ 256 - 1 ->
  big (collateral p) < 2 ^ 256 - 1 -> big (debt p) < 2 ^ 256 - 1 -> covered p -> covered t ->
  Adjusting.followTrove s t
  = Ok (Adjusting.mkState
          (dec (carried (big (collateral p)) (big (collateral t)) (big (Adjusting.f_collateral s))))
          (dec (carried (net p) (net t) (big (Adjusting.f_netDebt s))))
          t (Adjusting.runeBalanceSeen s),
        negb (big (collateral p) =? big (collateral t)) || negb (net p =? net t)).
Proof.
  intros p Hc Hn Hpc Hpd Hp Ht. unfold Adjusting.followTrove. fold p. rewrite !netE by done. cbn [bind].
  rewrite rebaseCollateralE by done. cbn [bind]. rewrite rebaseNetDebtE by done. cbn [bind].
  rewrite !eqDE, !big_dec by (by apply net_nonneg). done.
Qed.

Lemma carried_same x y : carried x x y = y.
Proof. unfold carried. by rewrite Z.eqb_refl. Qed.

(** The effect of a rendering with the Trove it has followed does nothing. *)
Lemma followTrove_idle s t :
  Adjusting.previousTrove s = t -> covered t ->
  big (Adjusting.f_collateral s) < 2 ^ 256 - 1 -> big (Adjusting.f_netDebt s) < 2 ^ 256 - 1 ->
  big (collateral t) < 2 ^ 256 - 1 -> big (debt t) < 2 ^ 256 - 1 ->
  Adjusting.followTrove s t = Ok (s, false).
Proof.
  intros <- ?????. rewrite followTroveE by done. rewrite !carried_same, !Z.eqb_refl, !dec_big.
  by destruct s.
Qed.
End following.

(** ** What is offered for an edit *)

Section offered.
Context `{BNL : BigNumberLaws}.
Implicit Types t : Trove.
Implicit Types rate : Decimal.

(** The difference between the Trove and the edited Trove, in the parameters of an adjustment. *)
Definition collateralEdit (x y : Z) : option (CollateralChange Decimal) :=
  if x =? y then None
  else Some (if x <? y then DepositCollateral (dec (y - x)) else WithdrawCollateral (dec (x - y))).

Definition debtEdit (rate : Decimal) (x y : Z) : option (DebtChange Decimal) :=
  if x =? y then None
  else Some (if x <? y then BorrowLUSD (dec (unapplied rate (y - x))) else RepayLUSD (dec (x - y))).

Lemma indebted_nonempty t : 0 < big (debt t) -> Trove.isEmpty t = false.
Proof.
  intros H. rewrite isEmptyE. destruct (Z.eqb_spec (big (debt t)) 0); [lia|]. by rewrite andb_false_r.
Qed.

Lemma whatChanged_indebted a b rate :
  0 < big (debt a) -> 0 < big (debt b) ->
  exists z, Trove.whatChanged a b rate
  = Ok (if (big (collateral a) =? big (collateral b)) && (big (debt a) =? big (debt b)) then None
        else Some (Adjustment (mkAdjustment (collateralEdit (big (collateral a)) (big (collateral b)))
                                 (debtEdit rate (big (debt a)) (big (debt b)))) z)).
Proof.
  intros Ha Hb. unfold Trove.whatChanged, collateralEdit, debtEdit.
  rewrite !indebted_nonempty, !eqDE, debtChangeE, collateralChangeE by done. cbn [bind].
  destruct (Z.eqb_spec (big (collateral a)) (big (collateral b))),
    (Z.eqb_spec (big (debt a)) (big (debt b))); cbn [andb];
    [by exists None | by eexists | by eexists | by eexists].
Qed.

(** The fee on an increase of the net debt, as the form computes it. *)
Definition feeOn (rate : Decimal) (increase : Z) : Z :=
  if 0 <? increase then unapplied rate increase * big rate / Decimal.DIGITS else 0.

Lemma feeOn_nonneg rate x : 0 <= feeOn rate x.
Proof.
  unfold feeOn. zcase. pose proof (unapplied_nonneg rate x). apply Z.div_pos; [bnia | done].
Qed.

Lemma feeOfE t rate n :
  covered t -> Adjusting.feeOf t rate n = Ok (dec (feeOn rate (big n - net t))).
Proof.
  intros Ht. pose proof (net_nonneg _ Ht). unfold Adjusting.feeOf. rewrite netE by done. cbn [bind].
  rewrite gtDE, big_dec by done. unfold feeOn.
  destruct (Z.ltb_spec (net t) (big n)), (Z.ltb_spec 0 (big n - net t)); try lia; [|done].
  rewrite subE, big_dec by (rewrite ?big_dec; lia). cbn [bind]. rewrite addE, big_dec by lia. cbn [bind].
  assert (0 < big (debt t)).
  { unfold covered in Ht. change (big LUSD_LIQUIDATION_RESERVE) with 100000000000000000 in Ht. lia. }
  unfold Adjusting.feeFrom.
  destruct (whatChanged_indebted t (mkTrove (collateral t) (dec (big (debt t) + (big n - net t)))) rate)
    as (z & ->); [done | cbn [debt]; rewrite big_dec; lia|].
  cbn [collateral debt bind]. rewrite Z.eqb_refl, big_dec by lia. unfold debtEdit.
  destruct (Z.eqb_spec (big (debt t)) (big (debt t) + (big n - net t))); [lia|].
  destruct (Z.ltb_spec (big (debt t)) (big (debt t) + (big n - net t))); [|lia]. cbn [andb borrowLUSD a_debt].
  rewrite mulE. replace (big (debt t) + (big n - net t) - big (debt t)) with (big n - net t) by lia.
  by rewrite big_dec by (apply unapplied_nonneg; lia).
Qed.

Lemma add_read d (x : Decimalish) e :
  Decimal.from x = Ok e -> Decimal.add d x = Ok (dec (big d + big e)).
Proof. intros H. rewrite <- addE. unfold Decimal.add. by rewrite H. Qed.

Lemma add_printed d e :
  big e < 2 ^ 256 - 1 ->
  exists s, Decimal.toString e None = Ok s /\ Decimal.add d (FromString s) = Ok (dec (big d + big e)).
Proof.
  intros He. destruct (printed_and_read e) as (s & Hs & Hr).
  { intros ->. change (big Decimal.INFINITY) with (2 ^ 256 - 1) in He. lia. }
  exists s. split; [done|]. by apply add_read.
Qed.

Lemma totalDebtOfE n fee :
  big fee < 2 ^ 256 - 1 ->
  Adjusting.totalDebtOf n fee = Ok (dec (big n + big LUSD_LIQUIDATION_RESERVE + big fee)).
Proof.
  intros Hf. unfold Adjusting.totalDebtOf.
  destruct (add_printed n LUSD_LIQUIDATION_RESERVE) as (r & -> & Hr); [done|].
  cbn [bind]. rewrite Hr. cbn [bind].
  destruct (add_printed (dec (big n + big LUSD_LIQUIDATION_RESERVE)) fee) as (f & -> & Hf'); [done|].
  cbn [bind]. rewrite Hf'.
  rewrite big_dec; [done|]. pose proof (big_nonneg n). by change (big LUSD_LIQUIDATION_RESERVE) with 100000000000000000; lia.
Qed.

(** The amount borrowed for an increase of the net debt: the fee in the form is the one on the
    increase that has the fee taken out once, so the amount falls short of the increase by the
    square of the rate. *)
Lemma borrowed_for_increase rate x :
  0 < x ->
  let b := unapplied rate (x + feeOn rate x) in
  b <= x /\ (x - b - 1) * (feeFactor rate * feeFactor rate) <= x * (big rate * big rate).
Proof.
  intros Hx b. pose proof (feeFactor_pos rate) as HF. pose proof (big_nonneg rate) as Hr.
  pose proof (feeOn_nonneg rate x) as Hf0. subst b. unfold feeOn in *.
  destruct (Z.ltb_spec 0 x); [|lia].
  set (b0 := unapplied rate x) in *. set (f := b0 * big rate / Decimal.DIGITS) in *.
  assert (0 < Decimal.DIGITS) as HD by done.
  assert (Decimal.DIGITS * f <= b0 * big rate) as Hf1 by (apply Z.mul_div_le; lia).
  assert (b0 * big rate < Decimal.DIGITS * f + Decimal.DIGITS) as Hf2.
  { pose proof (Z.mul_succ_div_gt (b0 * big rate) Decimal.DIGITS HD). fold f in H0. lia. }
  assert (feeFactor rate = Decimal.DIGITS + big rate) as HFe by done.
  set (F := feeFactor rate) in *. set (D := Decimal.DIGITS) in *.
  assert (b0 * F <= x * D + (F - 1)) as Hb1 by (unfold b0, unapplied; fold F D; rewrite Z.mul_comm; apply Z.mul_div_le; lia).
  assert (x * D <= b0 * F) as Hb2.
  { pose proof (Z.mul_succ_div_gt (x * D + (F - 1)) F HF) as H2. unfold b0, unapplied; fold F D. lia. }
  assert (b0 <= x) as Hb3.
  { destruct (Z.le_gt_cases b0 x) as [|Hgt]; [done|].
    assert ((x + 1) * F <= b0 * F) by (apply Z.mul_le_mono_nonneg_r; lia). nia. }
  assert (b0 * big rate <= x * big rate) as Hb4 by (apply Z.mul_le_mono_nonneg_r; lia).
  assert (x * F = x * D + x * big rate) as HxF by (rewrite HFe; ring).
  change (unapplied rate (x + f)) with (((x + f) * D + (F - 1)) / F).
  split.
  - apply div_le_iff; [lia|]. lia.
  - pose proof (Z.mul_succ_div_gt ((x + f) * D + (F - 1)) F HF) as H3.
    set (b := ((x + f) * D + (F - 1)) / F) in *.
    assert ((x + f) * D <= b * F) as H4 by lia.
    assert ((x + f) * D * F <= b * F * F) as H5 by (apply Z.mul_le_mono_nonneg_r; lia).
    assert (b0 * big rate * F < (D * f + D) * F) as H6 by (apply Z.mul_lt_mono_pos_r; lia).
    assert (x * D * big rate <= b0 * F * big rate) as H7 by (apply Z.mul_le_mono_nonneg_r; lia).
    assert (D * F <= F * F) as H8 by (apply Z.mul_le_mono_nonneg_r; lia).
    assert (x * (F * F) = x * D * F + x * D * big rate + x * (big rate * big rate)) as H9
      by (rewrite HFe; ring).
    lia.
Qed.

Lemma feeOn_le rate x : big rate < Decimal.DIGITS -> feeOn rate x <= Z.max 0 x.
Proof.
  intros Hr. unfold feeOn. destruct (Z.ltb_spec 0 x); [|lia].
  pose proof (big_nonneg rate).
  assert (unapplied rate x <= x) as Hu.
  { unfold unapplied. pose proof (feeFactor_pos rate). apply div_le_iff; [done|]. unfold feeFactor. nia. }
  apply div_le_iff; [done|]. pose proof (unapplied_nonneg rate x). unfold Decimal.DIGITS in *. nia.
Qed.

(** What validation makes of a change that exists. *)
Lemma validate_offers a b rate sel :
  big rate < Decimal.DIGITS ->
  (Trove.isEmpty b = true -> Trove.isEmpty a = false -> big LUSD_LIQUIDATION_RESERVE <= big (debt a)) ->
  exists change new offered description,
    Trove.whatChanged a b rate = Ok change /\ Trove.apply a change rate = Ok new /\ roughly rate b new /\
    validateTroveChange a b rate sel = Ok (offered, description) /\ (offered = None \/ offered = change).
Proof.
  intros Hr Hc. destruct (whatChanged_leads_to a b rate Hr Hc) as (change & new & Hw & Ha & Hn).
  destruct change as [change|].
  - destruct (validation_verdict _ _ _ sel _ _ Hw Ha) as (o & _ & Hv).
    exists (Some change), new. destruct o; eexists _, _; (split_and!; [done..|exact Hv|auto]).
  - exists None, new, None, None. split_and!; try done; [|by left].
    unfold validateTroveChange. by rewrite Hw.
Qed.
End offered.

(** ** The form for adjusting *)

Section adjusting.
Context `{BNL : BigNumberLaws}.
Import Adjusting.
Implicit Types p : AdjustingProps.
Implicit Types s : AdjustingState.

Definition now p : Trove := ut_trove (trove p).

(** What the hooks return when nothing is out of the ordinary: a Trove that covers the
    reserve, a rate below one, amounts far from infinite, a balance that can be read. *)
Record fair p : Prop := {
  fair_covered : covered (now p);
  fair_rate : big (borrowingRate p) < Decimal.DIGITS;
  fair_collateral : small (big (collateral (now p)));
  fair_debt : small (big (debt (now p)));
  fair_rune b : runeBalance p = Some b -> b = "" \/ exists d, Decimal.from (FromString b) = Ok d
}.

Lemma memoE p s sel :
  fair p -> exists sel', memo s (runeBalance p) sel = Ok (setSeen s (runeBalance p), sel') /\
    (runeBalanceSeen s = Some (runeBalance p) -> sel' = sel).
Proof.
  intros Hp. unfold memo. case_bool_decide as Hseen.
  - exists sel. split; [|done]. destruct s; cbn in *. by rewrite Hseen.
  - destruct (runeBalance p) as [b|] eqn:Hb; [|by exists sel].
    destruct (fair_rune p Hp b Hb) as [->|[d Hd]]; [by exists sel|].
    destruct (String.eqb b ""); [by exists sel|]. rewrite Hd. by eexists.
Qed.

(** What a rendering makes of the amounts in the form. *)
Definition viewOf p s (v : FormView) : Prop :=
  let t := now p in
  let n := big (f_netDebt s) in
  let f := feeOn (borrowingRate p) (n - net t) in
  let dirty := negb (big (f_collateral s) =? big (collateral t)) || negb (n =? net t) in
  exists change new,
    v_isDirty v = dirty /\ v_fee v = dec f /\
    v_totalDebt v = dec (n + big LUSD_LIQUIDATION_RESERVE + f) /\
    v_trove v = (if dirty then mkTrove (f_collateral s) (v_totalDebt v) else t) /\
    Trove.whatChanged t (v_trove v) (borrowingRate p) = Ok change /\
    Trove.apply t change (borrowingRate p) = Ok new /\ roughly (borrowingRate p) (v_trove v) new /\
    (v_change v = None \/ v_change v = change).

Lemma renderE p s :
  fair p -> big (f_netDebt s) < 2 ^ 255 ->
  exists v, viewOf p s v /\
    render p s = Ok (setSeen s (runeBalance p), if bool_decide (status (trove p) = open) then Some v else None).
Proof.
  intros Hp Hs. pose proof (fair_covered p Hp) as Hc. pose proof (fair_rate p Hp) as Hr.
  pose proof (net_nonneg _ Hc) as Hnet. set (t := now p) in *.
  pose proof (feeOn_nonneg (borrowingRate p) (big (f_netDebt s) - net t)) as Hf0.
  pose proof (feeOn_le (borrowingRate p) (big (f_netDebt s) - net t) Hr) as Hf1.
  pose proof (big_nonneg (f_netDebt s)) as Hn0.
  unfold render. fold (now p). fold t. rewrite netE by done. cbn [bind].
  destruct (memoE p s (selectedState p) Hp) as (sel & -> & _). cbn [bind f_netDebt f_collateral setSeen].
  rewrite feeOfE by done. cbn [bind]. rewrite totalDebtOfE by (rewrite big_dec; lia). cbn [bind].
  rewrite (add_read _ _ MINIMUM_BORROWING_RATE) by (read (Literal "0" (Some "005") None)). cbn [bind].
  rewrite addE. cbn [bind]. rewrite !eqDE, !big_dec by done.
  set (f := feeOn _ _) in *. set (R := big LUSD_LIQUIDATION_RESERVE).
  assert (0 < R) as HR by done.
  set (dirty := negb _ || negb _).
  set (u := if dirty then mkTrove (f_collateral s) (dec (big (f_netDebt s) + R + f)) else t).
  assert (exists o, (if negb (Decimal.isZero (f_collateral s)) && negb (Decimal.isZero (f_netDebt s))
    then rmap Some (Trove.collateralRatio u (sel_price (selectedState p))) else Ok None) = Ok o) as [o ->].
  { destruct (_ && _); [|by eexists]. rewrite collateralRatioE. by eexists. }
  cbn [bind].
  assert (0 < big (debt u)) as Hu.
  { subst u. destruct dirty; [cbn [debt]; rewrite big_dec; lia | unfold covered in Hc; lia]. }
  destruct (validate_offers t u (borrowingRate p) (withAccountBalance sel (availableEth p)) Hr)
    as (change & new & offered & description & Hw & Ha & Hn & -> & Ho).
  { by rewrite indebted_nonempty. }
  cbn [bind]. eexists (mkView _ _ _ _ _ _ _ _ _ _). split; [|by repeat case_bool_decide].
  exists change, new. cbn [v_isDirty v_fee v_totalDebt v_trove v_change]. split_and!; done.
Qed.

(** C37. The change the form offers asks for what was typed: the collateral moves by exactly the
    edit, net debt below the present one is repaid exactly, and for an increase of the net debt
    the amount borrowed falls short of it by no more than the square of the borrowing rate (and
    one unit); it leads to the total debt that is shown, up to one unit. *)
Theorem adjusting_asks_for_edit p s s' v ch :
  fair p -> big (f_netDebt s) < 2 ^ 255 ->
  render p s = Ok (s', Some v) -> v_change v = Some ch ->
  let t := now p in
  let rate := borrowingRate p in
  let x := big (f_netDebt s) - net t in
  exists d z new,
    ch = Adjustment (mkAdjustment (collateralEdit (big (collateral t)) (big (f_collateral s))) d) z /\
    (x = 0 -> d = None) /\ (x < 0 -> d = Some (RepayLUSD (dec (- x)))) /\
    (0 < x -> exists b, d = Some (BorrowLUSD b) /\ big b <= x /\
       (x - big b - 1) * (feeFactor rate * feeFactor rate) <= x * (big rate * big rate)) /\
    Trove.apply t (Some ch) rate = Ok new /\
    roughly rate (mkTrove (f_collateral s) (v_totalDebt v)) new.
Proof.
  intros Hp Hs Hrender Hch t rate x.
  destruct (renderE p s Hp Hs) as (v' & Hv & Hr). rewrite Hrender in Hr.
  assert (v' = v) as -> by (case_bool_decide; naive_solver).
  destruct Hv as (change & new & Hdirty & Hfee & Htotal & Htrove & Hw & Ha & Hn & [Hnone|Ho]); [congruence|].
  fold t rate x in Hfee, Htotal, Htrove, Hw, Ha, Hn. rewrite Hch in Ho. subst change.
  pose proof (fair_covered p Hp) as Hc. fold t in Hc. pose proof (net_nonneg _ Hc) as Hnet.
  pose proof (feeOn_nonneg rate x) as Hf0. pose proof (big_nonneg (f_netDebt s)) as Hn0.
  assert (0 < big LUSD_LIQUIDATION_RESERVE) as HR by done.
  assert (0 < big (debt t)) as Ht by (unfold covered in Hc; lia).
  destruct (negb _ || negb _) eqn:Hd.
  2:{ rewrite Htrove in Hw. unfold Trove.whatChanged in Hw. rewrite !eqDE, !Z.eqb_refl in Hw. discriminate Hw. }
  rewrite Htrove in Hw, Hn.
  destruct (whatChanged_indebted t (mkTrove (f_collateral s) (v_totalDebt v)) rate) as (z & Hz);
    [done | cbn [debt]; rewrite Htotal, big_dec; lia|].
  rewrite Hz in Hw. destruct (_ && _); [done|]. injection Hw as <-. cbn [collateral debt] in *.
  set (d := debtEdit rate (big (debt t)) (big (v_totalDebt v))) in *.
  assert (big (v_totalDebt v) - big (debt t) = x + feeOn rate x) as Hdiff.
  { rewrite Htotal, big_dec by lia. unfold x, net. lia. }
  exists d, z, new. split; [done|]. unfold d, debtEdit, feeOn in *.
  destruct (Z.eqb_spec (big (debt t)) (big (v_totalDebt v))) as [He|He],
    (Z.ltb_spec (big (debt t)) (big (v_totalDebt v))) as [Hl|Hl]; destruct (Z.ltb_spec 0 x);
    split_and!; try done; try lia; intros Hx; try lia.
  - exists (dec (unapplied rate (big (v_totalDebt v) - big (debt t)))).
    pose proof (borrowed_for_increase rate x Hx) as Hb. unfold feeOn in Hb.
    destruct (Z.ltb_spec 0 x); [|lia]. rewrite <- Hdiff in Hb.
    rewrite big_dec by (apply unapplied_nonneg; lia). split; [done|]. exact Hb.
  - do 3 f_equal. lia.
Qed.

(** *** Edits as offsets *)

(** The abstract form: the Trove, and by how much each amount is edited. *)
Record Edits := mkEdits { onTrove : Trove; editedCollateral : Z; editedNetDebt : Z }.

Definition kept (old new d : Z) : Z := if old =? new then d else rebased new d.

Definition followed (E : Edits) t : Edits :=
  mkEdits t (kept (big (collateral (onTrove E))) (big (collateral t)) (editedCollateral E))
    (kept (net (onTrove E)) (net t) (editedNetDebt E)).

Definition edit (E : Edits) (e : AdjustingEvent) : Edits :=
  match e with
  | StoreChanged p => followed E (now p)
  | CollateralTyped amount =>
      match Decimal.from (FromString amount) with
      | Ok c => mkEdits (onTrove E) (big c - big (collateral (onTrove E))) (editedNetDebt E)
      | Err _ => E
      end
  | NetDebtTyped amount =>
      match Decimal.from (FromString amount) with
      | Ok n => mkEdits (onTrove E) (editedCollateral E) (big n - net (onTrove E))
      | Err _ => E
      end
  | ResetPressed => mkEdits (onTrove E) 0 0
  end.

Definition fairEvent (e : AdjustingEvent) : Prop :=
  match e with
  | StoreChanged p => fair p
  | CollateralTyped amount | NetDebtTyped amount =>
      forall d, Decimal.from (FromString amount) = Ok d -> small (big d)
  | ResetPressed => True
  end.

(** The amounts of a state are those of a Trove with edits. *)
Definition amountsAre s (E : Edits) : Prop :=
  big (f_collateral s) = big (collateral (onTrove E)) + editedCollateral E /\
  big (f_netDebt s) = net (onTrove E) + editedNetDebt E /\
  small (editedCollateral E) /\ small (editedNetDebt E).

(** A form that shows a Trove with edits: the amounts are theirs, and the view is a rendering of
    the amounts, there as long as the Trove is open. *)
Definition shows (f : Form) (E : Edits) : Prop :=
  now (props f) = onTrove E /\ fair (props f) /\ previousTrove (state f) = onTrove E /\
  amountsAre (state f) E /\
  exists v, viewOf (props f) (state f) v /\
    view f = if bool_decide (status (trove (props f)) = open) then Some v else None.

Lemma carried_kept old new d : carried old new (old + d) = new + kept old new d.
Proof. unfold carried, kept. destruct (Z.eqb_spec old new); [lia|]. do 2 f_equal. lia. Qed.

Lemma kept_bounds old new d :
  0 <= old + d -> 0 <= new -> small d -> 0 <= new + kept old new d /\ small (kept old new d).
Proof.
  unfold kept, rebased, small. destruct (Z.eqb_spec old new); [lia|].
  destruct (Z.leb_spec 0 d), (Z.ltb_spec (- d) new); cbn [orb]; lia.
Qed.

Lemma viewOf_amounts p s s2 v :
  f_collateral s = f_collateral s2 -> f_netDebt s = f_netDebt s2 -> viewOf p s v -> viewOf p s2 v.
Proof. unfold viewOf. by intros -> ->. Qed.

(** A rendering with its effect, on a state whose last Trove was a fair one. *)
Lemma rerender_shows p s E :
  fair p -> covered (onTrove E) -> small (big (collateral (onTrove E))) -> small (big (debt (onTrove E))) ->
  previousTrove s = onTrove E -> amountsAre s E ->
  exists f, rerender p s = Ok f /\ shows f (followed E (now p)) /\ props f = p.
Proof.
  intros Hp Hcov Hsc Hsd Hprev (Hc & Hn & Hec & Hen). pose proof (fair_covered p Hp) as Hcp.
  pose proof (net_nonneg _ Hcov). pose proof (net_nonneg _ Hcp).
  pose proof (fair_collateral p Hp) as Hpc. pose proof (fair_debt p Hp) as Hpd.
  assert (net (onTrove E) <= big (debt (onTrove E))) as Hnd by (unfold net; blia).
  assert (net (now p) <= big (debt (now p))) as Hnp by (unfold net; blia).
  pose proof (big_nonneg (collateral (now p))). pose proof (big_nonneg (f_collateral s)).
  pose proof (big_nonneg (f_netDebt s)).
  destruct (kept_bounds (big (collateral (onTrove E))) (big (collateral (now p))) (editedCollateral E))
    as [Hk1 Hk2]; [lia..|done|].
  destruct (kept_bounds (net (onTrove E)) (net (now p)) (editedNetDebt E)) as [Hk3 Hk4]; [lia..|done|].
  unfold small in *.
  unfold rerender, cycle. destruct (renderE p s Hp) as (v & Hv & ->); [lia|]. cbn [bind].
  fold (now p). rewrite followTroveE; cbn [setSeen previousTrove f_collateral f_netDebt];
    rewrite ?Hprev; try done; try lia.
  rewrite Hc, Hn, !carried_kept. cbn [bind runeBalanceSeen].
  set (s' := mkState _ _ _ _).
  assert (amountsAre s' (followed E (now p))) as Hs'.
  { unfold amountsAre, followed, s'; cbn. rewrite !big_dec by done. done. }
  destruct (negb _ || negb _) eqn:Hset.
  - destruct (renderE p s' Hp) as (v' & Hv' & ->); [unfold s'; cbn; rewrite big_dec; lia|]. cbn [bind].
    eexists. split; [done|]. split; [|done]. split_and!; try done. by exists v'.
  - apply orb_false_iff in Hset as [Hq1%negb_false_iff%Z.eqb_eq Hq2%negb_false_iff%Z.eqb_eq].
    eexists. split; [done|]. split; [|done]. split_and!; try done. exists v. split; [|done].
    eapply viewOf_amounts; [| |exact Hv]; cbn [f_collateral f_netDebt state]; apply big_inj;
      unfold s'; cbn; rewrite big_dec by done; unfold kept; rewrite ?Hq1, ?Hq2, Z.eqb_refl; lia.
Qed.

Lemma followed_same E t : t = onTrove E -> followed E t = E.
Proof. intros ->. unfold followed, kept. rewrite !Z.eqb_refl. by destruct E. Qed.

(** An edited state of a form, rendered again. *)
Lemma edited_shows f E s E' :
  shows f E -> previousTrove s = onTrove E -> onTrove E' = onTrove E -> amountsAre s E' ->
  exists f', rerender (props f) s = Ok f' /\ shows f' E'.
Proof.
  intros (Hnow & Hfair & _) Hprev HE Hs.
  destruct (rerender_shows (props f) s E' Hfair) as (f' & Hf & Hshows & _); rewrite ?HE, ?Hprev; try done.
  1-3: rewrite <- Hnow; apply Hfair.
  exists f'. split; [done|]. rewrite followed_same in Hshows by congruence. done.
Qed.

Lemma handle_shows f E e :
  shows f E -> fairEvent e -> exists f', handle f e = Ok f' /\ shows f' (edit E e).
Proof.
  intros Hf He. pose proof Hf as (Hnow & Hfair & Hprev & (Hc & Hn & Hec & Hen) & _).
  assert (small 0) as H0 by done.
  destruct e as [p|amount|amount|]; cbn [handle edit fairEvent] in *.
  - destruct (rerender_shows p (state f) E He) as (f' & -> & Hs & _); try done; [..|by exists f'].
    1-3: rewrite <- Hnow; apply Hfair.
  - destruct (Decimal.from _) as [c|]; [|by exists f]. specialize (He c eq_refl).
    eapply edited_shows; try done. unfold amountsAre, small in *; cbn. split_and!; try done; blia.
  - destruct (Decimal.from _) as [n|]; [|by exists f]. specialize (He n eq_refl).
    assert (covered (onTrove E)) as Hcov by (rewrite <- Hnow; apply Hfair). apply net_nonneg in Hcov.
    eapply edited_shows; try done. unfold amountsAre, small in *; cbn. split_and!; try done; blia.
  - fold (now (props f)). rewrite netE by apply Hfair. cbn [bind].
    eapply edited_shows; try done. unfold amountsAre; cbn.
    rewrite Hnow, big_dec by (rewrite <- Hnow; apply net_nonneg, Hfair). split_and!; try done; lia.
Qed.

Lemma run_shows es f E :
  shows f E -> Forall fairEvent es -> exists f', run f es = Ok f' /\ shows f' (foldl edit E es).
Proof.
  intros Hf Hes. revert f E Hf. induction Hes as [|e es He _ IH]; intros f E Hf; [by exists f|].
  destruct (handle_shows f E e Hf He) as (f' & Hh & Hs). cbn [run foldl]. rewrite Hh. by apply IH.
Qed.

Lemma start_shows p : fair p -> exists f, start p = Ok f /\ shows f (mkEdits (now p) 0 0).
Proof.
  intros Hp. unfold start. unfold mount. fold (now p). rewrite netE by apply Hp. cbn [bind].
  destruct (rerender_shows p (mkState (collateral (now p)) (dec (net (now p))) (now p) None)
    (mkEdits (now p) 0 0) Hp) as (f & -> & Hf & _); try done; try apply Hp.
  - unfold amountsAre; cbn. rewrite big_dec by apply net_nonneg, Hp. unfold small. split_and!; lia.
  - exists f. split; [done|]. by rewrite followed_same in Hf.
Qed.

(** C19. Whatever is typed, reset and stored, in any order: while the Troves cover the liquidation
    reserve the form does not fail, and its amounts are the latest Trove's plus the edits, an
    edit being given up only when it would leave nothing of an amount that has changed; the
    view is a rendering of these amounts.  A Trove that does not cover the reserve, as a
    closed one, makes the component fail whatever its state. *)
Theorem adjusting_keeps_edits p es :
  fair p -> Forall fairEvent es ->
  (exists f, (let* f := start p in run f es) = Ok f /\ shows f (foldl edit (mkEdits (now p) 0 0) es)) /\
  (forall f p', ~ covered (now p') -> exists m, handle f (StoreChanged p') = Err (JsError m)).
Proof.
  intros Hp Hes. split.
  - destruct (start_shows p Hp) as (f & -> & Hf). by apply run_shows.
  - intros f p' Hc. unfold covered in Hc. cbn [handle]. unfold rerender, cycle, render. fold (now p').
    unfold Trove.netDebt at 1. rewrite ltDE.
    destruct (Z.ltb_spec (big (debt (now p'))) (big LUSD_LIQUIDATION_RESERVE)); [|lia].
    destruct (toString_total LUSD_LIQUIDATION_RESERVE) as [r ->]. by eexists.
Qed.

(** The balance of the wallet is used in the first rendering that finds it: in the next one with
    the same balance, what is offered is validated with the balance of the store. *)
Theorem rune_balance_used_once p s s1 v1 s2 v2 :
  fair p -> big (f_netDebt s) < 2 ^ 255 ->
  render p s = Ok (s1, Some v1) -> render p s1 = Ok (s2, Some v2) ->
  validateTroveChange (now p) (v_trove v2) (borrowingRate p)
    (withAccountBalance (selectedState p) (availableEth p)) = Ok (v_change v2, v_description v2).
Proof.
  intros Hp Hs H1 H2.
  destruct (renderE p s Hp Hs) as (w1 & _ & Hr1). rewrite H1 in Hr1. injection Hr1 as -> _.
  unfold render in H2. fold (now p) in H2. inv_ok. destruct v0 as [s0 sel].
  destruct (memoE p (setSeen s (runeBalance p)) (selectedState p) Hp) as (sel' & Hm & Hsel).
  rewrite Hm in Hv0. injection Hv0 as <- <-. rewrite (Hsel eq_refl) in H2.
  inv_ok; match goal with H : validateTroveChange _ _ _ _ = Ok ?w |- _ => destruct w end;
    by case_bool_decide; simplify_eq.
Qed.
End adjusting.

(** ** The form for opening *)

Section opening.
Context `{BNL : BigNumberLaws}.
Import Opening.
Implicit Types s : OpeningState.
Implicit Types rate : Decimal.

Lemma defaultCollateralE : defaultCollateral = Ok (dec 70000000000000).
Proof.
  unfold defaultCollateral, Decimal.fromBigNumberString. rewrite bn_from_decimal by done. cbn [bind].
  by rewrite newE.
Qed.

Lemma gasRoomE : GAS_ROOM_ETH = Ok (dec 100000000000).
Proof. unfold GAS_ROOM_ETH. read (Literal "1" None (Some (ESMinus, "7"))). Qed.

Definition isFilled s : Prop := 0 < big (o_collateral s) \/ 0 < big (o_borrowAmount s).

Lemma fillDefaults_fills s : exists s', fillDefaults s = Ok s' /\ isFilled s' /\ (isFilled s -> s' = s).
Proof.
  unfold fillDefaults, isFilled. rewrite !isZeroE.
  destruct (Z.eqb_spec (big (o_collateral s)) 0), (Z.eqb_spec (big (o_borrowAmount s)) 0); cbn [andb];
    [rewrite defaultCollateralE; cbn [bind]|..]; eexists; (split; [done|]); cbn;
    (split; [|intros []; done || lia]); try (blia); left; done.
Qed.

Lemma run_filled es s : isFilled s -> exists s', run s es = Ok s' /\ isFilled s'.
Proof.
  revert s. induction es as [|e es IH]; intros s Hs; [by exists s|].
  cbn [run]. unfold handle.
  match goal with |- context [fillDefaults ?x] => destruct (fillDefaults_fills x) as (s' & -> & Hf & _) end.
  by apply IH.
Qed.

(** Taking the fee out of a net debt that was composed of an amount and its fee gives the
    amount back, whatever the roundings. *)
Lemma unapply_composed rate b :
  0 <= b -> unapplied rate (b + b * big rate / Decimal.DIGITS) = b.
Proof.
  intros Hb. pose proof (feeFactor_pos rate) as HF. pose proof (big_nonneg rate).
  assert (0 < Decimal.DIGITS) as HD by done.
  pose proof (Z.div_mod (b * big rate) Decimal.DIGITS ltac:(lia)) as Hdm.
  pose proof (Z.mod_pos_bound (b * big rate) Decimal.DIGITS HD) as Hm.
  unfold unapplied. set (q := b * big rate / Decimal.DIGITS) in *. set (D := Decimal.DIGITS) in *.
  assert (feeFactor rate = D + big rate) as HFe by done. set (F := feeFactor rate) in *.
  assert (b * F = b * D + b * big rate) as HbF by (rewrite HFe; ring).
  apply Z.le_antisymm; [apply div_le_iff; [done|] | apply le_div_iff; [done|]]; lia.
Qed.

Definition feeFor rate s : Z := big (o_borrowAmount s) * big rate / Decimal.DIGITS.
Definition totalFor rate s : Z := big (o_borrowAmount s) + big LUSD_LIQUIDATION_RESERVE + feeFor rate s.

Lemma feeFor_nonneg rate s : 0 <= feeFor rate s.
Proof. apply Z.div_pos; [bnia | done]. Qed.

Lemma totalFor_large rate s : big LUSD_LIQUIDATION_RESERVE <= totalFor rate s.
Proof. unfold totalFor. pose proof (feeFor_nonneg rate s). blia. Qed.

(** The change from nothing to the Trove of the form. *)
Lemma composed_change rate s :
  Trove.whatChanged _emptyTrove (mkTrove (o_collateral s) (dec (totalFor rate s))) rate
  = Ok (Some (Creation (mkCreation (o_collateral s) (o_borrowAmount s)))).
Proof.
  pose proof (totalFor_large rate s) as Hl. assert (0 < big LUSD_LIQUIDATION_RESERVE) as HR by done.
  unfold Trove.whatChanged. rewrite !eqDE, ltDE. cbn [collateral debt _emptyTrove].
  change (big Decimal.ZERO) with 0. rewrite big_dec by lia.
  destruct (Z.eqb_spec 0 (totalFor rate s)); [lia|].
  rewrite andb_false_r, (proj2 (isEmpty_true _) eq_refl).
  destruct (Z.ltb_spec (totalFor rate s) (big LUSD_LIQUIDATION_RESERVE)); [lia|].
  rewrite netDebtE; cbn [debt]; rewrite big_dec by lia; [|done]. cbn [bind].
  rewrite unapplyFeeE. cbn [bind]. rewrite big_dec by lia.
  fold (unapplied rate (totalFor rate s - big LUSD_LIQUIDATION_RESERVE)).
  replace (totalFor rate s - big LUSD_LIQUIDATION_RESERVE) with (big (o_borrowAmount s) + feeFor rate s)
    by (unfold totalFor; lia).
  unfold feeFor. by rewrite unapply_composed, dec_big by blia.
Qed.

(** A rendering of a form that is filled in. *)
Lemma openRenderE rate sel (balance : Decimal) s offered description :
  isFilled s ->
  validateTroveChange _emptyTrove (mkTrove (o_collateral s) (dec (totalFor rate s))) rate
    (withAccountBalance sel balance) = Ok (offered, description) ->
  exists v, render rate sel balance s = Ok v /\ v_totalDebt v = dec (totalFor rate s) /\
    v_fee v = dec (feeFor rate s) /\ v_trove v = mkTrove (o_collateral s) (v_totalDebt v) /\
    v_change v = offered.
Proof.
  intros Hs Hv. pose proof (feeFor_nonneg rate s) as Hf. pose proof (big_nonneg (o_borrowAmount s)).
  assert (0 < big LUSD_LIQUIDATION_RESERVE) as HR by done.
  unfold render. rewrite (add_read _ _ MINIMUM_BORROWING_RATE) by (read (Literal "0" (Some "005") None)).
  cbn [bind]. rewrite mulE. cbn [bind]. fold (feeFor rate s). rewrite addE. cbn [bind].
  rewrite addE, !big_dec by lia. fold (totalFor rate s). cbn [bind].
  rewrite gasRoomE. cbn [bind]. rewrite gtDE.
  assert (exists m, (if big (dec 100000000000) <? big balance then Decimal.sub balance (dec 100000000000)
    else Ok Decimal.ZERO) = Ok m) as [m ->].
  { destruct (Z.ltb_spec (big (dec 100000000000)) (big balance)); [rewrite subE by lia|]; by eexists. }
  cbn [bind].
  assert (negb (Decimal.isZero (o_collateral s)) || negb (Decimal.isZero (o_borrowAmount s)) = true) as ->.
  { rewrite !isZeroE. destruct Hs; destruct (Z.eqb_spec (big (o_collateral s)) 0),
      (Z.eqb_spec (big (o_borrowAmount s)) 0); done || lia. }
  match goal with |- context [if negb (Decimal.isZero (o_collateral s)) && ?b then ?x else ?y] =>
    assert (exists r, (if negb (Decimal.isZero (o_collateral s)) && b then x else y) = Ok r) as [r ->] end.
  { destruct (_ && _); [rewrite collateralRatioE|]; by eexists. }
  cbn [bind]. rewrite Hv. cbn [bind]. by eexists (mkView _ _ _ _ _ _ _ _ _ _).
Qed.

(** However the form for opening a Trove is filled in and reset, it is never left empty, and
    what it offers is to open a Trove with exactly the amounts typed: the fee that the form
    adds to the debt comes out of it again without a trace of rounding.  It is offered exactly
    when the protocol's requirements are met. *)
Theorem opening_asks_for_amounts rate sel (balance : Decimal) es :
  big rate < Decimal.DIGITS ->
  exists s v new,
    (let* s := fillDefaults mount in run s es) = Ok s /\ isFilled s /\
    render rate sel balance s = Ok v /\
    let creation := Creation (mkCreation (o_collateral s) (o_borrowAmount s)) in
    big (v_totalDebt v) = big (o_borrowAmount s) + big LUSD_LIQUIDATION_RESERVE + big (v_fee v) /\
    v_trove v = mkTrove (o_collateral s) (v_totalDebt v) /\
    Trove.apply _emptyTrove (Some creation) rate = Ok new /\ roughly rate (v_trove v) new /\
    (v_change v = Some creation \/ v_change v = None) /\
    (v_change v = Some creation <-> acceptable (withAccountBalance sel balance) _emptyTrove new creation).
Proof.
  intros Hr. destruct (fillDefaults_fills mount) as (s0 & -> & Hs0 & _). cbn [bind].
  destruct (run_filled es s0 Hs0) as (s & Hrun & Hs). exists s.
  pose proof (composed_change rate s) as Hw. pose proof (feeFor_nonneg rate s) as Hf.
  destruct (whatChanged_leads_to _emptyTrove (mkTrove (o_collateral s) (dec (totalFor rate s))) rate Hr)
    as (ch & new & Hw' & Ha & Hn); [intros _; by rewrite (proj2 (isEmpty_true _) eq_refl)|].
  rewrite Hw in Hw'. injection Hw' as <-.
  destruct (validation_verdict _ _ _ (withAccountBalance sel balance) _ _ Hw Ha) as (o & Ho & Hv).
  assert (exists offered description, (match o with
    | None => (Some (Creation (mkCreation (o_collateral s) (o_borrowAmount s))), Some (ChangeDescription
        (describeChange (Creation (mkCreation (o_collateral s) (o_borrowAmount s))))))
    | Some _ => (None, o) end) = (offered, description) /\
    (offered = Some (Creation (mkCreation (o_collateral s) (o_borrowAmount s))) <-> o = None) /\
    (offered = Some (Creation (mkCreation (o_collateral s) (o_borrowAmount s))) \/ offered = None))
    as (offered & description & Heq & Hoff & Hor) by (destruct o; naive_solver).
  rewrite Heq in Hv. destruct (openRenderE rate sel balance s _ _ Hs Hv) as (v & Hv' & Ht & Hfee & Htr & <-).
  exists v, new. cbv zeta. rewrite Htr, Ht, Hfee, !big_dec by (done || pose proof (totalFor_large rate s);
    assert (0 < big LUSD_LIQUIDATION_RESERVE) by done; lia).
  split_and!; try done. by rewrite Hoff.
Qed.
End opening.

(** ** The stable change *)

Section stable.
Context `{BNL : BigNumberLaws}.
Import useStableTroveChange.
Implicit Types a b c : TroveChange Decimal.

(** What of a change is sent: its kind and its amounts. *)
Definition request c : nat * list (option Decimal) :=
  (match c with InvalidCreation _ _ => 0 | Creation _ => 1 | Closure _ => 2 | Adjustment _ _ => 3 end%nat,
   params c).

Lemma paramsEq_true (x y : option Decimal) : paramsEq x y = true <-> x = y.
Proof. destruct x, y; cbn; rewrite ?eqD_true; naive_solver. Qed.

Lemma paramsEq_all (x y z w x' y' z' w' : option Decimal) :
  forallb (fun '(x, y) => paramsEq x y) (zip [x; y; z; w] [x'; y'; z'; w']) = true <->
  [x; y; z; w] = [x'; y'; z'; w'].
Proof.
  cbn [zip zip_with forallb]. rewrite !andb_true_iff, !paramsEq_true. split.
  - by intros (-> & -> & -> & -> & _).
  - by intros [= -> -> -> ->].
Qed.

Lemma equals_request a b : equals a b = true <-> request a = request b.
Proof.
  unfold equals, request. destruct a, b; cbn [sameType params andb];
    try (split; intros H; discriminate H); try done;
    rewrite paramsEq_all; (split; [by intros -> | intros H; exact (f_equal snd H)]).
Qed.

(** The stable change is the same object while the kind and the amounts of the present change
    are the same, has them after each effect, and its effect comes to rest: rendering again
    sets nothing, so what is confirmed is what is shown. *)
Theorem stable_change_is_current stable change :
  let stable' := settle stable change in
  request <$> stable' = request <$> change /\
  effect stable' change = None /\
  (request <$> stable = request <$> change -> stable' = stable).
Proof.
  assert (forall x, equals x x = true) as Hrefl by (intros x; by apply equals_request).
  unfold settle, effect. destruct stable as [a|], change as [b|]; cbn [default from_option]; try done.
  - destruct (equals a b) eqn:He; cbn [negb default from_option id].
    + rewrite He. apply equals_request in He. cbn. by rewrite He.
    + rewrite Hrefl. split_and!; [done..|]. cbn. intros [= H]. 
      rewrite (proj2 (equals_request a b)) in He; [discriminate|]. by unfold request; f_equal.
  - cbn. by rewrite Hrefl.
Qed.
End stable.

(** ** Instances *)

(** A Trove of 1 BTC that owes 1,000.1 LUSD, at a price of 200 and a rate of 0.5%. *)
Definition formTrove : Trove := mkTrove (dec 10000000000000000000) (dec 1000100000000000000000).
Definition formProps : Adjusting.AdjustingProps :=
  Adjusting.mkProps (mkUserTrove formTrove "0xabc" open) (dec 5000000000000000) sampleSelected
    (dec 1000000000000000000) None.
(** The same after a redistribution. *)
Definition laterProps : Adjusting.AdjustingProps :=
  Adjusting.mkProps
    (mkUserTrove (mkTrove (dec 10100000000000000000) (dec 1010100000000000000000)) "0xabc" open)
    (dec 5000000000000000) sampleSelected (dec 1000000000000000000) (Some "12").

Lemma formProps_fair : fair formProps.
Proof. by split. Qed.

Lemma laterProps_fair : fair laterProps.
Proof.
  split; try done. intros b [= <-]. right. eexists. vm_compute. reflexivity.
Qed.

(** 100 LUSD more are typed before the redistribution: they are still asked for after it. *)
Lemma adjusting_keeps_edits_witness :
  exists f, (let* f := Adjusting.start formProps in
             Adjusting.run f [Adjusting.NetDebtTyped "1100"; Adjusting.StoreChanged laterProps]) = Ok f /\
    shows f (mkEdits (now laterProps) 0 100000000000000000000).
Proof.
  apply (adjusting_keeps_edits formProps
    [Adjusting.NetDebtTyped "1100"; Adjusting.StoreChanged laterProps] formProps_fair).
  constructor; [|constructor; [exact laterProps_fair|constructor]].
  intros d Hd. vm_compute in Hd. injection Hd as <-. reflexivity.
Defined.

Definition formEdit : Adjusting.AdjustingState :=
  Adjusting.mkState (dec 10000000000000000000) (dec 1100000000000000000000) formTrove (Some None).

Lemma adjusting_asks_for_edit_witness :
  exists v ch, Adjusting.render formProps formEdit = Ok (formEdit, Some v) /\ v_change v = Some ch /\
    exists b, 0 < 100000000000000000000 - big b <= 2500000000000000 /\
      a_debt (match ch with Adjustment p _ => p | _ => mkAdjustment None None end) = Some (BorrowLUSD b).
Proof.
  destruct (Adjusting.render formProps formEdit) as [[s' [v|]]|] eqn:Hr; [|vm_compute in Hr; discriminate Hr..].
  destruct (v_change v) as [ch|] eqn:Hch;
    [|vm_compute in Hr; injection Hr as _ <-; discriminate Hch].
  exists v, ch.
  destruct (adjusting_asks_for_edit formProps formEdit s' v ch formProps_fair ltac:(done) Hr Hch)
    as (d & z & new & -> & _ & _ & Hb & _).
  destruct Hb as (b & -> & Hb); [reflexivity|].
  split; [f_equal; vm_compute in Hr; by injection Hr as <- _|]. split; [exact Hch|].
  exists b. split; [|reflexivity].
  vm_compute in Hr. injection Hr as _ <-. vm_compute in Hch. injection Hch as Hc _. subst. by vm_compute.
Defined.

Lemma opening_asks_for_amounts_witness :
  exists s v new,
    (let* s := Opening.fillDefaults Opening.mount in
     Opening.run s [Opening.CollateralTyped "1"; Opening.ResetPressed; Opening.BorrowAmountTyped "104"]) = Ok s /\
    isFilled s /\ Opening.render (dec 5000000000000000) sampleSelected (dec 1000000000000000000) s = Ok v /\
    Trove.apply _emptyTrove (Some (Creation (mkCreation (Opening.o_collateral s) (Opening.o_borrowAmount s))))
      (dec 5000000000000000) = Ok new /\ roughly (dec 5000000000000000) (v_trove v) new.
Proof.
  destruct (opening_asks_for_amounts (dec 5000000000000000) sampleSelected (dec 1000000000000000000)
    [Opening.CollateralTyped "1"; Opening.ResetPressed; Opening.BorrowAmountTyped "104"])
    as (s & v & new & Hs & Hf & Hv & _ & _ & Ha & Hn & _); [reflexivity|].
  exists s, v, new. repeat split; try assumption; apply Hn.
Defined.

Lemma stable_change_is_current_witness :
  useStableTroveChange.settle (Some (Adjustment (mkAdjustment None (Some (RepayLUSD (dec 1)))) None))
    (Some (Adjustment (mkAdjustment None (Some (RepayLUSD (dec 1)))) (Some ZeroDebt)))
  = Some (Adjustment (mkAdjustment None (Some (RepayLUSD (dec 1)))) None).
Proof. apply stable_change_is_current. reflexivity. Defined.
