(* ===== verification/RiskyTroves.v ===== *)
(** * The list of risky Troves

    [packages/dev-frontend/src/components/RiskyTroves.tsx]: which Troves the list lets anybody
    liquidate, and the pages of the list: what is requested, which answer is shown, and how the
    page follows the number of Troves. *)

From S2P Require Import Prelude JsString BigNumber Decimal DecimalArith Constants LiquityMath Trove TroveTheory Liquidation.
From Stdlib Require Import Ascii String.

Local Open Scope string_scope.
Local Open Scope list_scope.
Local Open Scope Z_scope.

(** ** What can be liquidated *)

(** [select] of the component. *)
Record RiskySelection := mkRisky {
  numberOfTroves : Z;
  price : Decimal;
  recoveryMode : bool;
  totalCollateralRatio : Decimal;
  lusdInStabilityPool : Decimal;
  blockTag : option Z
}.

Section decisions.
Context `{BN : BigNumber}.

Definition select (numberOfTroves : Z) (price : Decimal) (total : Trove)
    (lusdInStabilityPool : Decimal) (blockTag : option Z) : result RiskySelection :=
  let* recoveryMode := Trove.collateralRatioIsBelowCritical total price in
  let* totalCollateralRatio := Trove.collateralRatio total price in
  Ok (mkRisky numberOfTroves price recoveryMode totalCollateralRatio lusdInStabilityPool blockTag).

Definition liquidatableInNormalMode (trove : UserTrove) (price : Decimal) : result (bool * string) :=
  let* below := Trove.collateralRatioIsBelowMinimum (ut_trove trove) price in
  Ok (below, "Collateral ratio not low enough").

Definition liquidatableInRecoveryMode (trove : UserTrove)
    (price totalCollateralRatio lusdInStabilityPool : Decimal) : result (bool * string) :=
  let* collateralRatio := Trove.collateralRatio (ut_trove trove) price in
  if Decimal.gteD collateralRatio MINIMUM_COLLATERAL_RATIO &&
     Decimal.ltD collateralRatio totalCollateralRatio
  then Ok (Decimal.lteD (debt (ut_trove trove)) lusdInStabilityPool,
           "There's not enough MIDL•RUNE•STABLECOIN in the Stability pool to cover the debt")
  else liquidatableInNormalMode trove price.

(** What the button of [TroveAction] requires. *)
Definition requires (trove : UserTrove) (sel : RiskySelection) : result (bool * string) :=
  if recoveryMode sel
  then liquidatableInRecoveryMode trove (price sel) (totalCollateralRatio sel) (lusdInStabilityPool sel)
  else liquidatableInNormalMode trove (price sel).

Inductive Danger := success | warning | danger.

(** The colour of the collateral ratio of a row. *)
Definition dangerOf (collateralRatio : Decimal) : result Danger :=
  if Decimal.gtD collateralRatio CRITICAL_COLLATERAL_RATIO then Ok success
  else let* b := Decimal.gt collateralRatio (FromNumber "1.2") in
       Ok (if b then warning else danger).

(** The rows of the table: a Trove that has been liquidated since is left out. *)
Definition rows (troves : list UserTrove) : list UserTrove :=
  filter (fun t => negb (Trove.isEmpty (ut_trove t))) troves.
End decisions.

(** ** Pages *)

(** The parameters of [getTroves], sorted by ascending collateral ratio. *)
Record TroveRequest := mkTroveRequest {
  first : Z;
  startingAt : Z;
  requestBlockTag : option Z
}.

(** The state of the component.  Requests are numbered; only the latest is mounted.  [reload] is
    the identity of its object; the dependencies of an effect are those of its last run. *)
Record RiskyTroves := mkRiskyTroves {
  sel : RiskySelection;
  page : Z;
  reload : nat;
  requestDeps : option (Z * Z * nat);
  reloadDeps : option Z;
  latest : nat;
  request : option TroveRequest;
  troves : option (list UserTrove);
  loading : bool
}.

Section pages.
Context (pageSize : Z).

(** [Math.ceil(numberOfTroves / pageSize) || 1] *)
Definition numberOfPages (n : Z) : Z :=
  let c := (n + pageSize - 1) / pageSize in if c =? 0 then 1 else c.

Definition clampedPage (r : RiskyTroves) : Z :=
  Z.min (page r) (numberOfPages (numberOfTroves (sel r)) - 1).

(** The first and last number on the page: "a-b of n". *)
Definition range (r : RiskyTroves) : Z * Z :=
  (clampedPage r * pageSize + 1,
   Z.min ((clampedPage r + 1) * pageSize) (numberOfTroves (sel r))).

Definition setPage (r : RiskyTroves) (p : Z) : RiskyTroves :=
  mkRiskyTroves (sel r) p (reload r) (requestDeps r) (reloadDeps r) (latest r) (request r)
    (troves r) (loading r).

Definition forceReload (r : RiskyTroves) : RiskyTroves :=
  mkRiskyTroves (sel r) (page r) (S (reload r)) (requestDeps r) (reloadDeps r) (latest r) (request r)
    (troves r) (loading r).

Definition setSel (r : RiskyTroves) (s : RiskySelection) : RiskyTroves :=
  mkRiskyTroves s (page r) (reload r) (requestDeps r) (reloadDeps r) (latest r) (request r)
    (troves r) (loading r).

(** The effects of a rendering, in order; [clampedPage] is that of the rendering. *)
Definition clampEffect (clamped : Z) (r : RiskyTroves) : RiskyTroves :=
  if negb (page r =? clamped) then setPage r clamped else r.

Definition requestEffect (clamped : Z) (reloadSeen : nat) (r : RiskyTroves) : RiskyTroves :=
  if bool_decide (requestDeps r = Some (clamped, pageSize, reloadSeen)) then r
  else
    mkRiskyTroves (sel r) (page r) (reload r) (Some (clamped, pageSize, reloadSeen)) (reloadDeps r)
      (S (latest r)) (Some (mkTroveRequest pageSize (clamped * pageSize) (blockTag (sel r))))
      (troves r) true.

Definition reloadEffect (r : RiskyTroves) : RiskyTroves :=
  let n := numberOfTroves (sel r) in
  if bool_decide (reloadDeps r = Some n) then r
  else
    let r := forceReload r in
    mkRiskyTroves (sel r) (page r) (reload r) (requestDeps r) (Some n) (latest r) (request r)
      (troves r) (loading r).

Definition effects (r : RiskyTroves) : RiskyTroves :=
  let clamped := clampedPage r in
  reloadEffect (requestEffect clamped (reload r) (clampEffect clamped r)).

(** Rendering until nothing is set: the second round finds the page clamped, and the third finds
    everything as it is ([pages_settle]). *)
Definition settle (r : RiskyTroves) : RiskyTroves := effects (effects r).

Definition mount (s : RiskySelection) : RiskyTroves :=
  settle (mkRiskyTroves s 0 0 None None 0 None None true).

Inductive RiskyEvent :=
| StoreChanged (s : RiskySelection)
| NextPage
| PreviousPage
| ReloadPressed
| Answered (request : nat) (l : list UserTrove)
| RequestFailed (request : nat).

Definition step (r : RiskyTroves) (e : RiskyEvent) : RiskyTroves :=
  match e with
  | StoreChanged s => settle (setSel r s)
  | NextPage =>
      if clampedPage r <? numberOfPages (numberOfTroves (sel r)) - 1
      then settle (setPage r (clampedPage r + 1)) else r
  | PreviousPage =>
      if 0 <? clampedPage r then settle (setPage r (clampedPage r - 1)) else r
  | ReloadPressed => settle (forceReload r)
  | Answered i l =>
      if (i =? latest r)%nat then
        mkRiskyTroves (sel r) (page r) (reload r) (requestDeps r) (reloadDeps r) (latest r) (request r)
          (Some l) false
      else r
  | RequestFailed _ => r
  end.

Definition run (r : RiskyTroves) (es : list RiskyEvent) : RiskyTroves := foldl step r es.
End pages.

(** ** The list agrees with the contracts *)

Section agreement.
Context `{BNL : BigNumberLaws}.

(** What the contracts read of the Trove when it is liquidated, as of the state that the list
    shows; an open Trove has one owner and one node of the sorted list. *)
Definition asShown (u : UserTrove) (total : Trove) (s : RiskySelection) : LiquidationState :=
  mkLiquidationState (big (price s)) (big (lusdInStabilityPool s)) (big (collateral total))
    (big (debt total)) (numberOfTroves s) (numberOfTroves s) true (big (collateral (ut_trove u))) (big (debt (ut_trove u))).

Lemma ratio_CR (t : Trove) (p : Decimal) : ratio t p = CR (big (collateral t)) (big (debt t)) (big p).
Proof.
  unfold ratio, CR. pose proof (big_nonneg (debt t)).
  destruct (Z.eqb_spec (big (debt t)) 0), (Z.ltb_spec 0 (big (debt t))); done || lia.
Qed.

(** The decision of the list is the one of the contracts' rounds. *)
Lemma requires_liquidated u n p total pool tag s :
  select n p total pool tag = Ok s ->
  exists reason,
    requires u s = Ok (liquidated (recoveryModeOf (asShown u total s)) (asShown u total s), reason).
Proof.
  unfold select. rewrite belowCriticalE, collateralRatioE. cbn [bind]. intros [= <-].
  unfold requires, recoveryModeOf, asShown; cbn [recoveryMode price totalCollateralRatio lusdInStabilityPool
    l_price l_LUSDInStabPool l_entireSystemColl l_entireSystemDebt numberOfTroves].
  rewrite ratio_CR. change (big CRITICAL_COLLATERAL_RATIO) with LiquityBase.CCR.
  unfold liquidated, liquidatableInRecoveryMode, liquidatableInNormalMode; cbn [l_price l_LUSDInStabPool
    l_entireSystemColl l_entireSystemDebt l_coll l_debt].
  rewrite belowMinimumE, collateralRatioE. cbn [bind]. rewrite gteDE, ltDE, lteDE, !big_dec by
    (rewrite <- ?ratio_CR; apply ratio_nonneg). rewrite !ratio_CR.
  change (big MINIMUM_COLLATERAL_RATIO) with LiquityBase.MCR.
  destruct (_ <? LiquityBase.CCR); cbn [andb]; [|rewrite orb_false_r; by eexists].
  destruct (Z.leb_spec LiquityBase.MCR (CR (big (collateral (ut_trove u))) (big (debt (ut_trove u))) (big p))),
    (Z.ltb_spec (CR (big (collateral (ut_trove u))) (big (debt (ut_trove u))) (big p)) LiquityBase.MCR);
    try lia; cbn [andb orb]; [|by eexists].
  destruct (_ <? _); cbn [andb]; by eexists.
Qed.

(** C17. As long as the state shown is the present one and more than one Trove is left, the list lets
    a Trove be liquidated exactly when the contracts liquidate it, in normal as in recovery mode,
    and they then share out its whole debt and collateral; otherwise they revert. *)
Theorem list_refines_liquidate u n p total pool tag s :
  select n p total pool tag = Ok s -> sound (asShown u total s) -> 1 < n ->
  exists allowed reason, requires u s = Ok (allowed, reason) /\
    if allowed
    then exists v, Liquidation.liquidate (asShown u total s) = Ok v /\ sharesOut (asShown u total s) v
    else Liquidation.liquidate (asShown u total s) = Err Revert.
Proof.
  intros Hs Hsound Hn. destruct (requires_liquidated u _ _ _ _ _ _ Hs) as [reason Hr].
  eexists _, reason. split; [exact Hr|]. apply liquidate_decides; try done.
  unfold select in Hs. inv_ok. by simplify_eq.
Qed.
End agreement.

(** ** The page follows the store *)

Section paging.
Context (pageSize : Z) (pageSize_pos : 0 < pageSize).
Implicit Types r : RiskyTroves.

Lemma numberOfPages_bounds n :
  0 <= n ->
  1 <= numberOfPages pageSize n /\
  (numberOfPages pageSize n - 1) * pageSize <= Z.max 0 (n - 1) /\ n <= numberOfPages pageSize n * pageSize.
Proof.
  intros Hn. unfold numberOfPages.
  pose proof (Z.div_mod (n + pageSize - 1) pageSize ltac:(lia)).
  pose proof (Z.mod_pos_bound (n + pageSize - 1) pageSize pageSize_pos).
  assert (0 <= (n + pageSize - 1) / pageSize) by (apply Z.div_pos; lia).
  destruct (Z.eqb_spec ((n + pageSize - 1) / pageSize) 0); nia.
Qed.

(** Nothing is left to do for the effects. *)
Definition rests r : Prop :=
  page r = clampedPage pageSize r /\ requestDeps r = Some (page r, pageSize, reload r) /\
  reloadDeps r = Some (numberOfTroves (sel r)).

(** A round of effects in one equation. *)
Lemma effectsE r :
  let c := clampedPage pageSize r in
  let n := numberOfTroves (sel r) in
  let same := bool_decide (requestDeps r = Some (c, pageSize, reload r)) in
  effects pageSize r =
  mkRiskyTroves (sel r) c (if bool_decide (reloadDeps r = Some n) then reload r else S (reload r))
    (Some (c, pageSize, reload r)) (Some n)
    (if same then latest r else S (latest r))
    (if same then request r else Some (mkTroveRequest pageSize (c * pageSize) (blockTag (sel r))))
    (troves r) (if same then loading r else true).
Proof.
  intros c n same. unfold effects. fold c.
  assert (clampEffect c r = setPage r c) as ->.
  { unfold clampEffect. destruct (Z.eqb_spec (page r) c) as [<-|]; [by destruct r|done]. }
  unfold requestEffect, setPage, reloadEffect, forceReload, n, same; cbn. clearbody c.
  repeat case_bool_decide; cbn in *; simplify_eq; try done; by destruct r; cbn in *; subst.
Qed.

Lemma effects_rest r : rests r -> effects pageSize r = r.
Proof.
  intros (Hp & Hd & Hn). rewrite effectsE, <- Hp. rewrite !bool_decide_eq_true_2 by done.
  destruct r; cbn in *. by subst.
Qed.

(** Two rounds of effects are enough. *)
Lemma pages_settle r : rests (settle pageSize r).
Proof.
  unfold settle. rewrite (effectsE (effects pageSize r)). set (r1 := effects pageSize r).
  assert (clampedPage pageSize r1 = page r1) as Hc.
  { unfold r1. rewrite effectsE. unfold clampedPage; cbn. lia. }
  assert (reloadDeps r1 = Some (numberOfTroves (sel r1))) as Hn by (unfold r1; by rewrite effectsE).
  rewrite (bool_decide_eq_true_2 (reloadDeps r1 = _)) by done. unfold rests, clampedPage in *; cbn. by rewrite Hc.
Qed.

(** What a settled component keeps: the answers of the latest request, or it waits for it. *)
Lemma settle_facts r :
  let r' := settle pageSize r in
  sel r' = sel r /\ page r' = clampedPage pageSize r /\ troves r' = troves r /\
  ((latest r' = latest r /\ loading r' = loading r /\ request r' = request r) \/
   ((latest r < latest r')%nat /\ loading r' = true /\
    exists tag, request r' = Some (mkTroveRequest pageSize (page r' * pageSize) tag))).
Proof.
  unfold settle. rewrite (effectsE (effects pageSize r)). rewrite effectsE. unfold clampedPage; cbn.
  set (m := numberOfPages pageSize (numberOfTroves (sel r)) - 1).
  replace (Z.min (Z.min (page r) m) m) with (Z.min (page r) m) by lia.
  split_and!; try done. repeat case_bool_decide; cbn in *; simplify_eq; try (by left); try (exfalso; lia);
    right; (split; [lia|]); (split; [done|]); by eexists.
Qed.

(** The latest request is the one its effect last ran for. *)
Definition asked r : Prop :=
  exists c k tag, requestDeps r = Some (c, pageSize, k) /\
    request r = Some (mkTroveRequest pageSize (c * pageSize) tag).

Lemma effects_asked r : asked r \/ requestDeps r = None -> asked (effects pageSize r).
Proof.
  intros H. rewrite effectsE. unfold asked; cbn. case_bool_decide as Hd; [|by eexists _, _, _].
  destruct H as [(c & k & tag & Hc & Hr)|Hnone]; [|congruence].
  rewrite Hd in Hc. injection Hc as <- <-. by eexists _, _, tag.
Qed.

Lemma settle_asked r : asked r \/ requestDeps r = None -> asked (settle pageSize r).
Proof. intros H. unfold settle. apply effects_asked. left. by apply effects_asked. Qed.

(** A settled component, and where the list that is shown comes from. *)
Definition good (s0 : RiskySelection) (es : list RiskyEvent) r : Prop :=
  rests r /\ asked r /\ 0 <= page r /\ 0 <= numberOfTroves (sel r) /\
  (loading r = false -> exists es1 l es2,
     es = es1 ++ Answered (latest r) l :: es2 /\
     latest (run pageSize (mount pageSize s0) es1) = latest r /\ troves r = Some l).

Lemma clampedPage_bounds r :
  0 <= page r -> 0 <= numberOfTroves (sel r) ->
  0 <= clampedPage pageSize r < numberOfPages pageSize (numberOfTroves (sel r)).
Proof. intros Hp Hn. pose proof (numberOfPages_bounds _ Hn). unfold clampedPage. lia. Qed.

(** An event that makes a good component render again. *)
Lemma settle_good s0 es e r r' :
  good s0 es r -> asked r' -> 0 <= page r' -> 0 <= numberOfTroves (sel r') ->
  latest r' = latest r -> loading r' = loading r -> troves r' = troves r ->
  good s0 (es ++ [e]) (settle pageSize r').
Proof.
  intros (_ & _ & _ & _ & Hshown) Ha Hp Hn Hl Hlo Ht.
  destruct (settle_facts r') as (Hsel & Hpage & Htroves & Hcase).
  unfold good. split_and!; [apply pages_settle | apply settle_asked; by left | | by rewrite Hsel |].
  - rewrite Hpage. by apply clampedPage_bounds.
  - intros Hfalse. destruct Hcase as [(Hlat & Hload & _)|(_ & Hload & _)]; [|congruence].
    rewrite Hload, Hlo in Hfalse. destruct (Hshown Hfalse) as (es1 & l & es2 & -> & H1 & H2).
    exists es1, l, (es2 ++ [e]). rewrite Hlat, Hl, Htroves, Ht, <- app_assoc. done.
Qed.

Lemma same_good s0 es e r : good s0 es r -> good s0 (es ++ [e]) r.
Proof.
  intros (H1 & H2 & H3 & H4 & Hshown). split_and!; try done. intros Hf.
  destruct (Hshown Hf) as (es1 & l & es2 & -> & ? & ?). exists es1, l, (es2 ++ [e]). by rewrite <- app_assoc.
Qed.

Definition fairEvent (e : RiskyEvent) : Prop :=
  match e with StoreChanged s => 0 <= numberOfTroves s | _ => True end.

Lemma step_good s0 es e r :
  good s0 es r -> r = run pageSize (mount pageSize s0) es -> fairEvent e ->
  good s0 (es ++ [e]) (step pageSize r e).
Proof.
  intros Hr Hrun He. pose proof Hr as (Hrest & Hask & Hp & Hn & _).
  pose proof (clampedPage_bounds r Hp Hn) as Hc.
  destruct e as [s| | | |i l|i]; cbn [step].
  - by eapply settle_good.
  - destruct (Z.ltb_spec (clampedPage pageSize r) (numberOfPages pageSize (numberOfTroves (sel r)) - 1));
      [eapply settle_good; try done; cbn; lia | by apply same_good].
  - destruct (Z.ltb_spec 0 (clampedPage pageSize r));
      [eapply settle_good; try done; cbn; lia | by apply same_good].
  - by eapply settle_good.
  - destruct (Nat.eqb_spec i (latest r)) as [->|]; [|by apply same_good].
    unfold good, rests, asked in *; cbn. split_and!; try apply Hrest; try done.
    intros _. exists es, l, []. by rewrite <- Hrun.
  - by apply same_good.
Qed.

Lemma mount_good s0 : 0 <= numberOfTroves s0 -> good s0 [] (mount pageSize s0).
Proof.
  intros Hn. unfold mount. set (r := mkRiskyTroves _ _ _ _ _ _ _ _ _).
  destruct (settle_facts r) as (Hsel & Hpage & _ & Hcase). unfold good.
  split_and!; [apply pages_settle | apply settle_asked; by right | | by rewrite Hsel |].
  - rewrite Hpage. by apply clampedPage_bounds.
  - intros Hf. destruct Hcase as [(_ & Hload & _)|(_ & Hload & _)]; rewrite Hload in Hf; discriminate Hf.
Qed.

Lemma run_good s0 es :
  0 <= numberOfTroves s0 -> Forall fairEvent es -> good s0 es (run pageSize (mount pageSize s0) es).
Proof.
  intros Hn. induction es as [|e es IH] using rev_ind; intros Hes; [by apply mount_good|].
  apply Forall_app in Hes as [Hes [He _]%Forall_cons].
  unfold run in *. rewrite foldl_app. apply step_good; auto.
Qed.

(** However the store, the buttons, the answers and failures of requests come: the page shown
    exists and is the one requested last, within the number of Troves; what is shown while not
    loading is the answer to that very request, given after it was made; its answer ends the
    loading, and no other answer changes anything. *)
Theorem list_shows_latest_page s0 es :
  0 <= numberOfTroves s0 -> Forall fairEvent es ->
  let r := run pageSize (mount pageSize s0) es in
  let n := numberOfTroves (sel r) in
  0 <= page r < numberOfPages pageSize n /\ (page r = 0 \/ page r * pageSize < n) /\
  (exists tag, request r = Some (mkTroveRequest pageSize (page r * pageSize) tag)) /\
  (loading r = false -> exists es1 l es2,
     es = es1 ++ Answered (latest r) l :: es2 /\
     latest (run pageSize (mount pageSize s0) es1) = latest r /\ troves r = Some l) /\
  (forall l, troves (step pageSize r (Answered (latest r) l)) = Some l /\
             loading (step pageSize r (Answered (latest r) l)) = false) /\
  (forall i l, i <> latest r -> step pageSize r (Answered i l) = r).
Proof.
  intros Hn Hes r n. destruct (run_good s0 es Hn Hes) as (Hrest & Hask & Hp & Hn' & Hshown). fold r in Hrest, Hask, Hp, Hn', Hshown.
  pose proof (clampedPage_bounds r Hp Hn') as Hc. destruct Hrest as (Hpage & Hdeps & _). rewrite <- Hpage in Hc.
  pose proof (numberOfPages_bounds _ Hn') as Hpages. fold n in Hc, Hpages, Hn'.
  split_and!; try apply Hc.
  - destruct (Z.eqb_spec (page r) 0); [by left|]. right. nia.
  - destruct Hask as (c & k & tag & Hd & ->). rewrite Hdeps in Hd. injection Hd as <- _. by eexists.
  - exact Hshown.
  - intros l. cbn [step]. by rewrite Nat.eqb_refl.
  - intros i l Hi. cbn [step]. by destruct (Nat.eqb_spec i (latest r)).
Qed.
End paging.

(** ** Instances *)

Definition riskySelection : RiskySelection :=
  mkRisky 25 (dec 200000000000000000000) false (dec 2000000000000000000) (dec 5000000000000000000) (Some 7).

(** The second of three pages, of which the list then loses two. *)
Lemma list_shows_latest_page_witness :
  let r := run 10 (mount 10 riskySelection)
             [NextPage; Answered 3 []; StoreChanged (mkRisky 4 (dec 1) false (dec 1) (dec 1) None)] in
  0 <= page r < numberOfPages 10 (numberOfTroves (sel r)).
Proof.
  apply (list_shows_latest_page 10 ltac:(lia) riskySelection
    [NextPage; Answered 3 []; StoreChanged (mkRisky 4 (dec 1) false (dec 1) (dec 1) None)]); [done|].
  by repeat constructor.
Defined.

(** A Trove of 1 BTC that owes 170 LUSD at a price of 200, in a system below 150%. *)
Definition riskyTrove : UserTrove :=
  mkUserTrove (mkTrove (dec 1000000000000000000) (dec 170000000000000000000)) "0xdef" open.
Definition riskyTotal : Trove := mkTrove (dec 100000000000000000000) (dec 16000000000000000000000).
Definition riskyPool : Decimal := dec 500000000000000000000.

Lemma list_refines_liquidate_witness :
  exists s allowed reason,
    select 3 (dec 200000000000000000000) riskyTotal riskyPool None = Ok s /\
    requires riskyTrove s = Ok (allowed, reason) /\
    (if allowed
     then exists v, Liquidation.liquidate (asShown riskyTrove riskyTotal s) = Ok v /\
            sharesOut (asShown riskyTrove riskyTotal s) v
     else Liquidation.liquidate (asShown riskyTrove riskyTotal s) = Err Revert).
Proof.
  eexists. destruct (list_refines_liquidate riskyTrove 3 (dec 200000000000000000000) riskyTotal riskyPool None
    (mkRisky 3 (dec 200000000000000000000) true (dec 1250000000000000000) riskyPool None))
    as (allowed & reason & Hr & Hl); [reflexivity | by split | done |].
  exists allowed, reason. split; [reflexivity|]. by split.
Defined.
