(* ===== verification/MidlActions.v ===== *)
(** * Trove operations through Bitcoin

    [packages/dev-frontend/src/components/Trove/hooks]: [useOpenTrove], [useAdjustTrove],
    [useCloseTrove], [useLiquidate] and [useLiquidateUpTo], and [TroveAction.tsx], which chooses
    between the first three.  An operation is an intention to execute an EVM transaction, signed
    for a Bitcoin transaction and broadcast with it.

    An operation is the list of its effects with its result: an [await] that fails throws, and
    what has been done before stays done.  The hooks of the wallet are a record of functions. *)

From S2P Require Import Prelude JsString BigNumber Decimal DecimalArith Trove.
From Stdlib Require Import Ascii String.

Local Open Scope string_scope.
Local Open Scope list_scope.
Local Open Scope Z_scope.

(** What is thrown: the message, and [details] where the object has it. *)
Record Thrown := mkThrown { message : string; details : option string }.

Definition thrown (m : string) : Thrown := mkThrown m None.

(** The request that was populated: target, data and value. *)
Record RawTransaction := mkRaw { to : string; data : string; value : option Z }.

(** An intention, as given to the wallet. *)
Inductive Intention :=
| EvmTransaction (tx : RawTransaction) (satoshis : option Z)
| WithRunes (tx : RawTransaction) (rune : string) (amount : Z)
| Approve (token spender : string)
| CompleteTx (assetsToWithdraw : list string).

(** The states the hooks set, all for their [transactionId]; a hash may be undefined. *)
Inductive HookState :=
| waitingForApproval
| waitingForConfirmationMidl (tx : option string)
| failed (message : string).

Record BtcTransaction := mkBtc { btc_id : string; btc_hex : string }.

Inductive Effect :=
| SetState (s : HookState)
| ClearIntentions
| AddIntention (i : Intention)
| Finalize (assetsToWithdrawSize : option Z)
| Send (btcTransaction : string) (serializedTransactions : list string)
| SendRaw (serializedTransaction : string)
| Broadcast (btcTransaction : string).

(** ** Programs with effects *)

Definition Act (A : Type) : Type := list Effect * (A + Thrown).

Definition ret {A} (a : A) : Act A := ([], inl a).
Definition throw {A} (e : Thrown) : Act A := ([], inr e).
Definition does (e : Effect) : Act unit := ([e], inl tt).

(** The effect of a call, then its outcome. *)
Definition call {A} (e : Effect) (r : A + Thrown) : Act A := ([e], r).

Definition andThen {A B} (m : Act A) (k : A -> Act B) : Act B :=
  match m with
  | (t, inl a) => let '(t', r) := k a in (t ++ t', r)
  | (t, inr e) => (t, inr e)
  end.

Definition catch {A} (m : Act A) (h : Thrown -> Act A) : Act A :=
  match m with
  | (t, inl a) => (t, inl a)
  | (t, inr e) => let '(t', r) := h e in (t ++ t', r)
  end.

Declare Scope act_scope.
Delimit Scope act_scope with act.
Notation "'await' x ':=' m 'in' k" := (andThen m (fun x => k))
  (at level 10, x name, m at level 200, k at level 200) : act_scope.
Notation "m ';;;' k" := (andThen m (fun _ => k)) (at level 100, right associativity) : act_scope.

(** [useMutation]: what the mutation throws goes to [onError]. *)
Definition mutate (m : Act unit) (onError : Thrown -> HookState) : list Effect :=
  match m with
  | (t, inl _) => t
  | (t, inr e) => t ++ [SetState (onError e)]
  end.

(** ** The wallet and what surrounds it *)

Record Wallet := mkWallet {
  addTxIntention : Intention -> Intention + Thrown;
  addCompleteTxIntention : Intention -> Intention + Thrown;
  finalizeBTCTransaction : option Z -> BtcTransaction + Thrown;
  (** the position of the intention among those to sign, for a wallet that is asked each time *)
  signIntention : nat -> Intention -> string -> string + Thrown;
  sendBTCTransactions : string -> list string -> list string + Thrown;
  storeIntentions : option (list Intention);
  sendRawTransaction : option (string -> string + Thrown);
  broadcastTransaction : string -> unit + Thrown;
  convertETHtoBTC : Z -> Z;
  lusdToken : string;
  executorAddress : string
}.

Section hooks.
Context (W : Wallet).
Local Open Scope act_scope.

Definition add (i : Intention) : Act Intention := call (AddIntention i) (addTxIntention W i).
Definition addComplete (i : Intention) : Act Intention :=
  call (AddIntention i) (addCompleteTxIntention W i).
Definition finalize (n : option Z) : Act BtcTransaction :=
  call (Finalize n) (finalizeBTCTransaction W n).

(** The loop that signs: an intention that can't be signed is logged and left out. *)
Fixpoint signAll (i : nat) (intentions : list Intention) (txId : string) : list string :=
  match intentions with
  | [] => []
  | x :: rest =>
      match signIntention W i x txId with
      | inl s => s :: signAll (S i) rest txId
      | inr _ => signAll (S i) rest txId
      end
  end.

(** The end that the first three hooks share. *)
Definition signAndSend (btcTx : BtcTransaction) (intentions : list Intention) : Act unit :=
  let serializedTransactions := signAll 0 intentions (btc_id btcTx) in
  await txHash := call (Send (btc_hex btcTx) serializedTransactions)
                    (sendBTCTransactions W (btc_hex btcTx) serializedTransactions) in
  does (SetState (waitingForConfirmationMidl (List.last (map Some txHash) None))).

Definition tryAgain (e : Thrown) : HookState := failed "Failed to send transaction (try again)".

Definition notEnoughBTC : string :=
  "BTC balance is not enough to cover tx costs. Please fund your account and try again".

(** *** [useOpenTrove] *)

(** [rawPopulatedTransaction.value.toBigInt()] *)
Definition toBigInt (v : option Z) : Act Z :=
  match v with
  | Some z => ret z
  | None => throw (thrown "Cannot read properties of undefined (reading 'toBigInt')")
  end.

Definition openTroveBody (populated : RawTransaction + Thrown) : Act unit :=
  await raw := ([], populated) in
  does ClearIntentions ;;;
  await v := toBigInt (value raw) in
  await i1 := add (EvmTransaction raw (Some (convertETHtoBTC W v))) in
  await i2 := add (Approve (lusdToken W) (executorAddress W)) in
  await i3 := addComplete (CompleteTx [lusdToken W]) in
  await btcTx := finalize (Some 1) in
  signAndSend btcTx [i1; i2; i3].

Definition openTrove (populated : RawTransaction + Thrown) : list Effect :=
  mutate
    (does (SetState waitingForApproval) ;;;
     catch (openTroveBody populated) (fun e =>
       let m := if String.eqb (message e) "No selected UTXOs" then notEnoughBTC else message e in
       does (SetState (failed m))))
    tryAgain.

(** *** [useAdjustTrove] *)

Definition isPositive (d : option Decimal) : bool :=
  match d with Some d => 0 <? big d | None => false end.

Definition adjustTroveBody (params : TroveAdjustmentParams Decimal)
    (populated : RawTransaction + Thrown) : Act unit :=
  await raw := ([], populated) in
  does ClearIntentions ;;;
  await i1 := add (EvmTransaction raw
    (Some (convertETHtoBTC W (match value raw with Some v => v + 200000 | None => 0 end)))) in
  await more :=
    (if isPositive (borrowLUSD params) then
       await i2 := add (Approve (lusdToken W) (executorAddress W)) in
       await i3 := addComplete (CompleteTx [lusdToken W]) in
       ret [i2; i3]
     else ret []) in
  await btcTx := finalize (Some (if isPositive (withdrawCollateral params) then 1 else 0)) in
  signAndSend btcTx (i1 :: more).

Definition adjustTrove (params : TroveAdjustmentParams Decimal)
    (populated : RawTransaction + Thrown) : list Effect :=
  mutate (adjustTroveBody params populated) tryAgain.

(** *** [useCloseTrove] *)

(** [balance] is the outcome of reading the balance of the rune as a decimal, and [repayLUSD]
    the amount in the parameters with what [BigInt(parseEther(repayLUSD.toString()))] makes of
    it; both may be missing. *)
Definition closeTroveBody (repayLUSD : option (Decimal * Z)) (populated : RawTransaction + Thrown) :
    Act unit :=
  await raw := ([], populated) in
  does ClearIntentions ;;;
  match repayLUSD with
  | None => throw (thrown "Cannot read properties of undefined (reading 'toString')")
  | Some (_, amount) =>
      await i1 := add (WithRunes (mkRaw (to raw) (data raw) None) "17036:1" amount) in
      await i2 := addComplete (CompleteTx []) in
      await btcTx := finalize None in
      signAndSend btcTx [i1; i2]
  end.

Definition closeTroveFailure (repayLUSD : option (Decimal * Z)) (balance : Decimal + Thrown)
    (e : Thrown) : Act unit :=
  let m := message e in
  let m := if String.eqb m "No selected UTXOs" then notEnoughBTC else m in
  let m := if String.eqb m "No ordinals UTXOs"
           then "MIDL•RUNE•STABLECOIN balance is not enough to cover tx" else m in
  await m :=
    (if String.eqb m "Insufficient funds" then
       match balance, repayLUSD with
       | inl b, Some (r, _) =>
           ret (if big b <? big r then "MIDL•RUNE•STABLECOIN balance is not enough" else notEnoughBTC)
       | inr e, _ => throw e
       | inl _, None => throw (thrown "invalid Decimalish value")
       end
     else ret m) in
  does (SetState (failed m)).

Definition closeTrove (repayLUSD : option (Decimal * Z)) (balance : Decimal + Thrown)
    (populated : RawTransaction + Thrown) : list Effect :=
  mutate
    (does (SetState waitingForApproval) ;;;
     catch (closeTroveBody repayLUSD populated) (closeTroveFailure repayLUSD balance))
    tryAgain.

(** *** [useLiquidate] and [useLiquidateUpTo] *)

Definition onErrorDetails (e : Thrown) : HookState :=
  match details e with
  | Some d => failed d
  | None => failed "Failed to send transaction (try again)"
  end.

(** The loop over the intentions of the store; without a wallet client a hash is undefined. *)
Fixpoint signAndSendRaw (i : nat) (intentions : list Intention) (btcTx : BtcTransaction)
    (txId : option string) : Act (option string) :=
  match intentions with
  | [] => ret txId
  | it :: rest =>
      await signed := ([], signIntention W i it (btc_id btcTx)) in
      await hash :=
        match sendRawTransaction W with
        | Some send => await h := call (SendRaw signed) (send signed) in ret (Some h)
        | None => ret None
        end in
      let truthy := match txId with Some t => negb (String.eqb t "") | None => false end in
      signAndSendRaw (S i) rest btcTx (if truthy then txId else hash)
  end.

Definition liquidateBody (populated : RawTransaction + Thrown) : Act unit :=
  does (SetState waitingForApproval) ;;;
  await raw := ([], populated) in
  does ClearIntentions ;;;
  await i1 := add (EvmTransaction (mkRaw (to raw) (data raw) None) None) in
  await btcTx := finalize None in
  await txId := signAndSendRaw 0 (default [] (storeIntentions W)) btcTx None in
  does (SetState (waitingForConfirmationMidl txId)) ;;;
  call (Broadcast (btc_hex btcTx)) (broadcastTransaction W (btc_hex btcTx)).

Definition liquidate (populated : RawTransaction + Thrown) : list Effect :=
  mutate (liquidateBody populated) onErrorDetails.

Definition liquidateUpToBody (populated : RawTransaction + Thrown) : Act unit :=
  does (SetState waitingForApproval) ;;;
  await raw := ([], populated) in
  does ClearIntentions ;;;
  await i1 := add (EvmTransaction (mkRaw (to raw) (data raw) None) None) in
  ret tt.

Definition liquidateUpTo (populated : RawTransaction + Thrown) : list Effect :=
  mutate (liquidateUpToBody populated) onErrorDetails.

(** *** [TroveAction] *)

(** What a press of the button does for a change, each operation with its own populated request. *)
Definition troveAction (change : TroveChange Decimal) (parsed : Z) (balance : Decimal + Thrown)
    (populateOpen populateAdjust populateClose : RawTransaction + Thrown) : list Effect :=
  match change with
  | Creation _ => openTrove populateOpen
  | Adjustment p _ => adjustTrove p populateAdjust
  | Closure p => closeTrove ((fun d => (d, parsed)) <$> x_repayLUSD p) balance populateClose
  | InvalidCreation _ _ => []
  end.
End hooks.

(** ** How an operation ends *)

Section endings.
Context (W : Wallet).
Implicit Types t : list Effect.

(** Effects before an operation ends: nothing is sent, and no state is set but the first. *)
Definition quiet (e : Effect) : bool :=
  match e with
  | SetState waitingForApproval | ClearIntentions | AddIntention _ | Finalize _ => true
  | _ => false
  end.

(** The intentions given to the wallet. *)
Definition added (t : list Effect) : list Intention :=
  omap (fun e => match e with AddIntention i => Some i | _ => None end) t.

(** The intentions the wallet made of them. *)
Definition madeOf (i o : Intention) : Prop :=
  addTxIntention W i = inl o \/ addCompleteTxIntention W i = inl o.

(** What is sent: the Bitcoin transaction that was finalized, with the signatures for it of the
    intentions added, in order, as far as they could be signed. *)
Definition sends t (btc : BtcTransaction) (xs : list Intention) : Prop :=
  Forall2 madeOf (added t) xs /\
  exists n, last t = Some (Finalize n) /\ finalizeBTCTransaction W n = inl btc.

Inductive ends : list Effect -> Prop :=
| ends_sent t btc xs hashes :
    forallb quiet t = true -> sends t btc xs ->
    sendBTCTransactions W (btc_hex btc) (signAll W 0 xs (btc_id btc)) = inl hashes ->
    ends (t ++ [Send (btc_hex btc) (signAll W 0 xs (btc_id btc));
                SetState (waitingForConfirmationMidl (List.last (map Some hashes) None))])
| ends_send_failed t btc xs e m :
    forallb quiet t = true -> sends t btc xs ->
    sendBTCTransactions W (btc_hex btc) (signAll W 0 xs (btc_id btc)) = inr e ->
    ends (t ++ [Send (btc_hex btc) (signAll W 0 xs (btc_id btc)); SetState (failed m)])
| ends_failed t m : forallb quiet t = true -> ends (t ++ [SetState (failed m)]).

(** A program that ends well once its failure is shown: it fails quietly or while sending, or
    it has sent. *)
Definition endsWell (pre : list Effect) (m : Act unit) : Prop :=
  match m with
  | (t, inl _) => ends (pre ++ t)
  | (t, inr _) => forall x, ends (pre ++ t ++ [SetState (failed x)])
  end.

Lemma endsWell_throw pre (e : Thrown) : forallb quiet pre = true -> endsWell pre ([], inr e).
Proof. intros H x. by apply ends_failed. Qed.

Lemma endsWell_call {A} pre e (r : A + Thrown) (k : A -> Act unit) :
  forallb quiet (pre ++ [e]) = true ->
  (forall a, r = inl a -> endsWell (pre ++ [e]) (k a)) ->
  endsWell pre (andThen (call e r) k).
Proof.
  intros Hq Hk. unfold andThen, call. destruct r as [a|f].
  - specialize (Hk a eq_refl). destruct (k a) as [t [u|f]]; cbn in *; by rewrite <- app_assoc in Hk || (intros x; specialize (Hk x); by rewrite <- app_assoc in Hk).
  - intros x. cbn. replace (pre ++ [e; SetState (failed x)]) with ((pre ++ [e]) ++ [SetState (failed x)])
      by by rewrite <- app_assoc. by apply ends_failed.
Qed.

Lemma endsWell_pure {A} pre (r : A + Thrown) (k : A -> Act unit) :
  forallb quiet pre = true -> (forall a, r = inl a -> endsWell pre (k a)) ->
  endsWell pre (andThen ([], r) k).
Proof.
  intros Hq Hk. unfold andThen. destruct r as [a|f].
  - specialize (Hk a eq_refl). by destruct (k a).
  - by apply endsWell_throw.
Qed.

Lemma endsWell_signAndSend pre btc xs :
  forallb quiet pre = true -> sends pre btc xs -> endsWell pre (signAndSend W btc xs).
Proof.
  intros Hq Hs. unfold signAndSend, call, andThen, does.
  destruct (sendBTCTransactions W _ _) as [hashes|e] eqn:He; cbn.
  - by eapply ends_sent.
  - intros x. by eapply ends_send_failed.
Qed.

Lemma andThen_andThen {A B C} (m : Act A) (f : A -> Act B) (g : B -> Act C) :
  andThen (andThen m f) g = andThen m (fun a => andThen (f a) g).
Proof.
  destruct m as [t [a|e]]; cbn; [|done]. destruct (f a) as [t' [b|e]]; cbn; [|done].
  destruct (g b). by rewrite app_assoc.
Qed.

(** Steps through the calls of a body, to its end. *)
Ltac walk :=
  repeat match goal with
  | |- endsWell _ (andThen (andThen _ _) _) => rewrite andThen_andThen
  | |- endsWell _ (andThen ([], _) _) => apply endsWell_pure; [reflexivity|intros; simplify_eq]
  | |- endsWell _ (andThen (add _ _) _) => apply endsWell_call; [reflexivity|intros]
  | |- endsWell _ (andThen (addComplete _ _) _) => apply endsWell_call; [reflexivity|intros]
  | |- endsWell _ (andThen (finalize _ _) _) => apply endsWell_call; [reflexivity|intros]
  | |- endsWell _ (andThen (does ?e) _) => apply (endsWell_call _ e (inl tt)); [reflexivity|intros]
  | |- endsWell _ (signAndSend _ _ _) =>
      apply endsWell_signAndSend; [reflexivity|];
      split; [repeat first [apply Forall2_nil_2 | apply Forall2_cons_2; [by (left + right)|]]
             | eexists; split; [reflexivity|done]]
  end; cbn [app] in *.

Lemma openTroveBody_ends populated :
  endsWell [SetState waitingForApproval] (openTroveBody W populated).
Proof.
  unfold openTroveBody. walk. destruct (value a) as [z|]; unfold toBigInt, ret, throw; [|by apply endsWell_throw].
  walk.
Qed.

Lemma adjustTroveBody_ends p populated : endsWell [] (adjustTroveBody W p populated).
Proof.
  unfold adjustTroveBody. walk. destruct (isPositive (borrowLUSD p)); unfold ret; walk.
Qed.

Lemma closeTroveBody_ends repay populated :
  endsWell [SetState waitingForApproval] (closeTroveBody W repay populated).
Proof. unfold closeTroveBody. walk. destruct repay as [[d amount]|]; [walk | by apply endsWell_throw]. Qed.

(** The failure of a body is shown, by its handler or by that of the mutation. *)
Lemma mutate_ends pre m onError :
  endsWell pre m -> (forall e, exists x, onError e = failed x) -> ends (pre ++ mutate m onError).
Proof.
  intros Hm Ho. destruct m as [t [u|e]]; [done|]. destruct (Ho e) as [x Hx]. cbn. rewrite Hx. apply Hm.
Qed.

Lemma caught_ends pre m h onError :
  endsWell pre m ->
  (forall e, exists x, h e = does (SetState (failed x)) \/ (exists e', h e = ([], inr e') /\ onError e' = failed x)) ->
  ends (pre ++ mutate (catch m h) onError).
Proof.
  intros Hm Hh. destruct m as [t [u|e]]; [done|]. destruct (Hh e) as [x [He|(e' & He & Hx)]]; cbn; rewrite He; cbn.
  - apply Hm.
  - rewrite app_nil_r, Hx. apply Hm.
Qed.

Lemma closeTroveFailure_shows repay balance e :
  exists x, closeTroveFailure repay balance e = does (SetState (failed x)) \/
    (exists e', closeTroveFailure repay balance e = ([], inr e') /\ tryAgain e' = failed x).
Proof.
  unfold closeTroveFailure. destruct (String.eqb _ "Insufficient funds"); [|by eexists; left].
  destruct balance as [b|f]; [destruct repay as [[r z]|]|]; cbn;
    [by eexists; left | by eexists; right; eexists | by eexists; right; eexists].
Qed.

(** C18. Opening, adjusting and closing a Trove end in one of three ways, whatever the wallet does: the
    Bitcoin transaction finalized for the intentions is sent, with the signatures of those that
    could be signed, and its last hash is waited for; or sending it fails, or nothing is
    sent, and the failure is shown.  Nothing is sent twice. *)
Theorem operations_end p repay balance populated :
  ends (openTrove W populated) /\ ends (adjustTrove W p populated) /\
  ends (closeTrove W repay balance populated).
Proof.
  split_and!.
  - unfold openTrove. set (m := catch _ _).
    replace (mutate _ _) with ([SetState waitingForApproval] ++ mutate m tryAgain)
      by (unfold m; by destruct (catch _ _) as [t []]).
    unfold m. apply caught_ends; [apply openTroveBody_ends|]. intros e. by eexists; left.
  - apply (mutate_ends []); [apply adjustTroveBody_ends|]. intros e. by eexists.
  - unfold closeTrove. set (m := catch _ _).
    replace (mutate _ _) with ([SetState waitingForApproval] ++ mutate m tryAgain)
      by (unfold m; by destruct (catch _ _) as [t []]).
    unfold m. apply caught_ends; [apply closeTroveBody_ends|]. apply closeTroveFailure_shows.
Qed.


(** The liquidation of a Trove is waited for before the Bitcoin transaction is broadcast: it ends
    with a broadcast that succeeded, or with the failure of one of its calls. *)
Theorem liquidate_ends populated :
  (exists t tx btc, liquidate W populated = t ++ [SetState (waitingForConfirmationMidl tx); Broadcast (btc_hex btc)] /\
     finalizeBTCTransaction W None = inl btc /\ broadcastTransaction W (btc_hex btc) = inl tt) \/
  (exists t e, liquidate W populated = t ++ [SetState (onErrorDetails e)]).
Proof.
  unfold liquidate, mutate. destruct (liquidateBody W populated) as [t [u|e]] eqn:Hb; [left|by right; eexists _, e].
  unfold liquidateBody in Hb. cbn in Hb. destruct populated as [raw|]; [|discriminate Hb]. cbn in Hb.
  destruct (addTxIntention W _) as [i|]; [|discriminate Hb]. cbn in Hb.
  destruct (finalizeBTCTransaction W None) as [btc|] eqn:Hf; [|discriminate Hb].
  destruct (signAndSendRaw W 0 _ btc None) as [t' [txId|]]; [|discriminate Hb]. cbn in Hb.
  destruct (broadcastTransaction W (btc_hex btc)) as [[]|] eqn:Hbr; [|discriminate Hb].
  injection Hb as <- _. eexists (_ :: _ :: _ :: _ :: t'), txId, btc. by rewrite <- Hbr.
Qed.

(** Liquidating up to a number of Troves sends nothing: when all its calls succeed, the last state
    that is set is the one of waiting for approval. *)
Theorem liquidateUpTo_stays_waiting populated :
  forallb (fun e => quiet e || match e with SetState (failed _) => true | _ => false end)
    (liquidateUpTo W populated) = true /\
  (forall raw i, populated = inl raw ->
     addTxIntention W (EvmTransaction (mkRaw (to raw) (data raw) None) None) = inl i ->
     liquidateUpTo W populated = [SetState waitingForApproval; ClearIntentions;
                                  AddIntention (EvmTransaction (mkRaw (to raw) (data raw) None) None)]).
Proof.
  split.
  - unfold liquidateUpTo, liquidateUpToBody. destruct populated as [raw|e]; cbn.
    + destruct (addTxIntention W _) as [i|e]; cbn; [done|]. unfold onErrorDetails. by destruct (details e).
    + unfold onErrorDetails. by destruct (details e).
  - intros raw i -> Hi. unfold liquidateUpTo, liquidateUpToBody, add, call. cbn. by rewrite Hi.
Qed.

(** When every intention can be signed, all of them are sent, in order. *)
Lemma signAll_complete k xs txId :
  (forall j x, exists s, signIntention W j x txId = inl s) -> List.length (signAll W k xs txId) = List.length xs.
Proof.
  intros H. revert k. induction xs as [|x xs IH]; intros k; [done|]. cbn.
  destruct (H k x) as [s ->]. cbn. by rewrite IH.
Qed.

End endings.
