(* ===== verification/BondPanes.v ===== *)
(** * Swapping and liquidity panes

    [packages/dev-frontend/src/components/Bonds/views]: [swapping/SwapPane.tsx],
    [managing/DepositPane.tsx], [managing/WithdrawPane.tsx], [managing/StakePane.tsx] and
    [managing/UnstakePane.tsx].  The first three show an amount that is asked of a contract a
    moment after the input has changed, and derive from it the least amount that the
    transaction accepts.

    A pane is a machine of events: its effect starts a run whenever the input or another
    dependency changes, and ends the one before; timers and answers of runs that have ended
    change nothing. *)

From S2P Require Import Prelude JsString BigNumber Decimal DecimalText DecimalArith Constants JsNumber BondMath BondInfo BondApi BondView.
From Stdlib Require Import Ascii String.

Local Open Scope string_scope.
Local Open Scope list_scope.
Local Open Scope Z_scope.

(** ** An amount that follows an input *)

Inductive Phase := Unasked | Waiting | Asking | Settled | Broken.

#[export] Instance Phase_eq_dec : EqDecision Phase.
Proof. solve_decision. Defined.

(** [shown] is the state that the effect sets; runs of the effect are numbered. *)
Record Quotes (I Q : Type) := mkQuotes { input : I; shown : Q; runs : nat; phase : Phase }.
Arguments mkQuotes {I Q}.
Arguments input {I Q}.
Arguments shown {I Q}.
Arguments runs {I Q}.
Arguments phase {I Q}.

Inductive QuoteEvent (I A : Type) :=
| Changed (i : I)
| Fired
| Answered (run : nat) (a : A)
| Failed (run : nat).
Arguments Changed {I A}.
Arguments Fired {I A}.
Arguments Answered {I A}.
Arguments Failed {I A}.

Section quotes.
Context {I A Q : Type}.
(** What is shown at once for an input that nothing is asked for; what the timer does before it
    asks; what is made of an answer. *)
Context (atOnce : I -> option Q) (onFire : Q -> Q) (digest : I -> A -> result Q).

Definition effect (i : I) (q : Quotes I Q) : Quotes I Q :=
  match atOnce i with
  | Some s => mkQuotes i s (S (runs q)) Unasked
  | None => mkQuotes i (shown q) (S (runs q)) Waiting
  end.

Definition step (q : Quotes I Q) (e : QuoteEvent I A) : Quotes I Q :=
  match e with
  | Changed i => effect i q
  | Fired =>
      if bool_decide (phase q = Waiting) then mkQuotes (input q) (onFire (shown q)) (runs q) Asking else q
  | Answered r a =>
      if (r =? runs q)%nat && bool_decide (phase q = Asking) then
        match digest (input q) a with
        | Ok s => mkQuotes (input q) s (runs q) Settled
        | Err _ => mkQuotes (input q) (shown q) (runs q) Broken
        end
      else q
  | Failed r =>
      if (r =? runs q)%nat && bool_decide (phase q = Asking)
      then mkQuotes (input q) (shown q) (runs q) Broken else q
  end.

Definition mount (i : I) (s : Q) : Quotes I Q := effect i (mkQuotes i s 0 Unasked).

Definition run (q : Quotes I Q) (es : list (QuoteEvent I A)) : Quotes I Q := foldl step q es.

(** Once an answer is shown, it is the one that was asked for the present input. *)
Definition current (i0 : I) (s0 : Q) (es : list (QuoteEvent I A)) (q : Quotes I Q) : Prop :=
  match phase q with
  | Unasked => atOnce (input q) = Some (shown q)
  | Settled => exists es1 a es2,
      es = es1 ++ Answered (runs q) a :: es2 /\
      runs (run (mount i0 s0) es1) = runs q /\ input (run (mount i0 s0) es1) = input q /\
      digest (input q) a = Ok (shown q)
  | _ => True
  end.

Lemma current_app i0 s0 es e q : current i0 s0 es q -> current i0 s0 (es ++ [e]) q.
Proof.
  unfold current. destruct (phase q); try done.
  intros (es1 & a & es2 & -> & H). exists es1, a, (es2 ++ [e]). by rewrite <- app_assoc.
Qed.

Lemma effect_current i0 s0 es i q : current i0 s0 es (effect i q).
Proof. unfold effect, current. by destruct (atOnce i) eqn:?. Qed.

Lemma run_current i0 s0 es : current i0 s0 es (run (mount i0 s0) es).
Proof.
  induction es as [|e es IH] using rev_ind; [apply effect_current|].
  unfold run in *. rewrite foldl_app. cbn [foldl]. set (q := foldl step _ es) in *.
  destruct e as [i| |r a|r]; cbn [step].
  - apply effect_current.
  - case_bool_decide; [done | by apply current_app].
  - destruct (Nat.eqb_spec r (runs q)) as [->|]; cbn [andb]; [|by apply current_app].
    case_bool_decide; [|by apply current_app].
    destruct (digest (input q) a) as [s|] eqn:Hd; [|done].
    unfold current; cbn. by exists es, a, [].
  - destruct (Nat.eqb_spec r (runs q)) as [->|]; cbn [andb]; [|by apply current_app].
    case_bool_decide; [done | by apply current_app].
Qed.
End quotes.

(** ** Swapping *)

Module SwapPane.
Section SwapPane.
Context `{BN : BigNumber}.

Record SwapInput := mkInput { inputToken : BLusdAmmTokenIndex; inputAmount : Decimal }.

(** The three states that an answer sets. *)
Record SwapQuote := mkQuote {
  outputAmount : option Decimal;
  exchangeRate : option Decimal;
  priceImpact : option Decimal
}.

Definition noQuote : SwapQuote := mkQuote None None None.

Definition marginalAmount : result Decimal := Decimal.div Decimal.ONE (FromNumber "1000").

(** The pool is asked for the output of the marginal amount, and for that of the input if it
    isn't zero; [getExpectedSwapOutput] is what it answers to the questions of one run.  A
    question that fails is the event [Failed]. *)
Definition digestSwap (i : SwapInput) (getExpectedSwapOutput : BLusdAmmTokenIndex -> Decimal -> Decimal) :
    result SwapQuote :=
  let* marginalAmount := marginalAmount in
  let marginalOutput := getExpectedSwapOutput (inputToken i) marginalAmount in
  let outputAmount :=
    match Decimal.nonZero (inputAmount i) with
    | Some _ => Some (getExpectedSwapOutput (inputToken i) (inputAmount i))
    | None => None
    end in
  let* marginalExchangeRate := Decimal.div marginalOutput marginalAmount in
  let* exchangeRate :=
    match outputAmount with
    | Some o => rmap Some (Decimal.div o (inputAmount i))
    | None => Ok None
    end in
  let* priceImpact :=
    match exchangeRate with
    | Some r =>
        if Decimal.lteD r marginalExchangeRate then
          let* d := Decimal.sub marginalExchangeRate r in Decimal.div d marginalExchangeRate
        else Ok Decimal.ZERO
    | None => Ok Decimal.ZERO
    end in
  Ok (mkQuote (Some (default Decimal.ZERO outputAmount))
        (Some (default marginalExchangeRate exchangeRate)) (Some priceImpact)).

Definition stepSwap := step (fun _ : SwapInput => None) (fun _ : SwapQuote => noQuote) digestSwap.
Definition mountSwap (inputToken : BLusdAmmTokenIndex) : Quotes SwapInput SwapQuote :=
  mount (fun _ => None) (mkInput inputToken Decimal.ZERO) noQuote.

Inductive SlippageTolerance := half | one | custom.

Definition checkSlippageTolerance (value : string) : result SlippageTolerance :=
  if String.eqb value "half" then Ok half
  else if String.eqb value "one" then Ok one
  else if String.eqb value "custom" then Ok custom
  else Err (JsError ("invalid slippage tolerance choice " +:+ dquote +:+ value +:+ dquote)).

(** A custom tolerance typed as a percentage; what can't be read is forgotten. *)
Definition customTolerance (typed : string) : option Decimal :=
  match (let* d := Decimal.from (FromString typed) in Decimal.div d (FromNumber "100")) with
  | Ok t => Some t
  | Err _ => None
  end.

Definition isSlippageToleranceInvalid (choice : SlippageTolerance) (customSlippageTolerance : option Decimal) :
    result bool :=
  match choice, customSlippageTolerance with
  | custom, None => Ok true
  | custom, Some t =>
      let* small := Decimal.lt t (FromNumber "0.001") in
      Ok (small || Decimal.gtD t Decimal.ONE)
  | _, _ => Ok false
  end.

Definition slippageTolerance (choice : SlippageTolerance) (customSlippageTolerance : option Decimal) :
    result (option Decimal) :=
  match choice with
  | half => rmap Some (Decimal.from (FromNumber "0.005"))
  | one => rmap Some (Decimal.from (FromNumber "0.01"))
  | custom => Ok customSlippageTolerance
  end.

(** [handleConfirmPressed]: what is dispatched with [CONFIRM_PRESSED], if anything. *)
Definition handleConfirmPressed (q : Quotes SwapInput SwapQuote) (choice : SlippageTolerance)
    (customSlippageTolerance : option Decimal) : result (option Payload) :=
  match outputAmount (shown q) with
  | None => Ok None
  | Some out =>
      let* tolerance := slippageTolerance choice customSlippageTolerance in
      let* invalid := isSlippageToleranceInvalid choice customSlippageTolerance in
      match tolerance, invalid with
      | Some tolerance, false =>
          let* minOutputFactor := Decimal.sub Decimal.ONE tolerance in
          let* minOutputAmount := Decimal.mul out minOutputFactor in
          Ok (Some (SwapPayload (inputAmount (input q)) minOutputAmount))
      | _, _ => Ok None
      end
  end.

(** Whether the button to confirm is disabled. *)
Definition confirmDisabled (q : Quotes SwapInput SwapQuote) (inputTokenBalance : Decimal)
    (choice : SlippageTolerance) (customSlippageTolerance : option Decimal)
    (status : TransactionStatus) : result bool :=
  let* invalid := isSlippageToleranceInvalid choice customSlippageTolerance in
  Ok (Decimal.isZero (inputAmount (input q)) ||
      match outputAmount (shown q) with None => true | Some _ => false end ||
      Decimal.gtD (inputAmount (input q)) inputTokenBalance || invalid ||
      match status with StatusPENDING => true | _ => false end).
End SwapPane.
End SwapPane.

(** ** Depositing liquidity *)

Module DepositPane.
Section DepositPane.
Context `{BN : BigNumber}.

Record DepositInput := mkInput { bLusdAmount : Decimal; lusdAmount : Decimal }.

Definition zeroAtOnce (i : DepositInput) : option Decimal :=
  if Decimal.isZero (bLusdAmount i) && Decimal.isZero (lusdAmount i) then Some Decimal.ZERO else None.

Definition stepDeposit := step zeroAtOnce (fun lpTokens : Decimal => lpTokens)
  (fun (_ : DepositInput) (expectedLpTokens : Decimal) => Ok expectedLpTokens).
Definition mountDeposit : Quotes DepositInput Decimal :=
  mount zeroAtOnce (mkInput Decimal.ZERO Decimal.ZERO) Decimal.ZERO.

Definition poolBalanceRatio (bLusdAmmBLusdBalance bLusdAmmLusdBalance : option Decimal) : result Decimal :=
  match bLusdAmmBLusdBalance, bLusdAmmLusdBalance with
  | Some b, Some l => Decimal.div l b
  | _, _ => Ok Decimal.ONE
  end.

(** [handleSetAmount]; of the tokens only these two are used. *)
Definition handleSetAmount (i : DepositInput) (shouldDepositBalanced : bool) (ratio : Decimal)
    (bLUSD : bool) (amount : Decimal) : result DepositInput :=
  if bLUSD then
    let* l := if shouldDepositBalanced then Decimal.mul ratio amount else Ok (lusdAmount i) in
    Ok (mkInput amount l)
  else
    let* b := if shouldDepositBalanced then Decimal.div amount ratio else Ok (bLusdAmount i) in
    Ok (mkInput b amount).

(** [handleToggleShouldDepositBalanced] *)
Definition handleToggleBalanced (i : DepositInput) (shouldDepositBalanced : bool) : DepositInput * bool :=
  (if shouldDepositBalanced then i else mkInput Decimal.ZERO Decimal.ZERO, negb shouldDepositBalanced).

Definition needsApproval (amount : Decimal) (isApproved : bool) : result bool :=
  let* positive := Decimal.gt amount (FromNumber "0") in Ok (positive && negb isApproved).

Definition handleApprovePressed (i : DepositInput) (a : Approvals) (zapper : option string) : result Payload :=
  let* l := needsApproval (lusdAmount i) (isLusdApprovedWithAmmZapper a) in
  let* b := needsApproval (bLusdAmount i) (isBLusdApprovedWithAmmZapper a) in
  Ok (ApprovePressedPayload ((if l then [(LUSD, zapper)] else []) ++ (if b then [(BLUSD, zapper)] else []))).

Definition handleConfirmPressed (q : Quotes DepositInput Decimal) (shouldStakeInGauge : bool) : Payload :=
  ManagePayload (addLiquidityPayload (bLusdAmount (input q)) (lusdAmount (input q)) (shown q) shouldStakeInGauge).

(** Whether the button to confirm is shown and enabled. *)
Definition confirmEnabled (q : Quotes DepositInput Decimal) (a : Approvals)
    (bLusdBalance lusdBalance : option Decimal) (status : TransactionStatus) : result bool :=
  let i := input q in
  let* l := needsApproval (lusdAmount i) (isLusdApprovedWithAmmZapper a) in
  let* b := needsApproval (bLusdAmount i) (isBLusdApprovedWithAmmZapper a) in
  Ok (negb (l || b) &&
      negb ((Decimal.isZero (bLusdAmount i) && Decimal.isZero (lusdAmount i)) ||
            (Decimal.gtD (bLusdAmount i) (default Decimal.ZERO bLusdBalance) ||
             Decimal.gtD (lusdAmount i) (default Decimal.ZERO lusdBalance)) ||
            match status with StatusPENDING => true | _ => false end)).
End DepositPane.
End DepositPane.

(** ** Withdrawing liquidity *)

Module WithdrawPane.
Section WithdrawPane.
Context `{BN : BigNumber}.

Inductive Output := both | only (token : BLusdAmmTokenIndex).

Record WithdrawInput := mkInput { burnLpTokens : Decimal; output : Output }.

(** A [Map] from tokens to amounts, as the list of its entries. *)
Definition Withdrawal : Type := list (BLusdAmmTokenIndex * Decimal).

Definition get (w : Withdrawal) (t : BLusdAmmTokenIndex) : option Decimal :=
  snd <$> List.find (fun e => bool_decide (e.1 = t)) w.

Definition zeros : Withdrawal := [(BLUSD, Decimal.ZERO); (LUSD, Decimal.ZERO)].

Definition zeroAtOnce (i : WithdrawInput) : option Withdrawal :=
  if Decimal.isZero (burnLpTokens i)
  then Some (match output i with both => zeros | only t => [(t, Decimal.ZERO)] end)
  else None.

Definition stepWithdraw := step zeroAtOnce (fun w : Withdrawal => w)
  (fun (_ : WithdrawInput) (expectedWithdrawal : Withdrawal) => Ok expectedWithdrawal).
Definition mountWithdraw : Quotes WithdrawInput Withdrawal :=
  mount zeroAtOnce (mkInput Decimal.ZERO both) zeros.

(** [1 - curveSlippage] as a number prints as [0.999]. *)
Definition afterSlippage (d : option Decimal) : result (option Decimal) :=
  match d with
  | Some d => rmap Some (Decimal.mul d (FromNumber "0.999"))
  | None => Ok None
  end.

(** [handleConfirmPressed].  A minimum is compared with [Decimal.ZERO] by identity; being a new
    object it differs whatever its value, so only a missing amount stops the dispatch. *)
Definition handleConfirmPressed (q : Quotes WithdrawInput Withdrawal) : result (option Payload) :=
  let burn := burnLpTokens (input q) in
  match output (input q) with
  | both =>
      let* b := afterSlippage (get (shown q) BLUSD) in
      let* l := afterSlippage (get (shown q) LUSD) in
      match b, l with
      | Some b, Some l => Ok (Some (ManagePayload (removeLiquidityPayload burn b l)))
      | _, _ => Ok None
      end
  | only t =>
      let* m := afterSlippage (get (shown q) t) in
      match m with
      | Some m => Ok (Some (ManagePayload (removeLiquidityOneCoinPayload burn t m)))
      | None => Ok None
      end
  end.

Definition needsApproval (i : WithdrawInput) (a : Approvals) : bool :=
  match output i with only BLUSD => false | _ => negb (isBLusdLpApprovedWithAmmZapper a) end.

Definition handleApprovePressed (i : WithdrawInput) (a : Approvals) (zapper : option string) : Payload :=
  ApprovePressedPayload (if needsApproval i a then [(BLUSD_LUSD_LP, zapper)] else []).

Definition confirmEnabled (q : Quotes WithdrawInput Withdrawal) (a : Approvals)
    (lpTokenBalance : option Decimal) (status : TransactionStatus) : bool :=
  negb (needsApproval (input q) a) &&
  negb (Decimal.isZero (burnLpTokens (input q)) ||
        Decimal.gtD (burnLpTokens (input q)) (default Decimal.ZERO lpTokenBalance) ||
        match status with StatusPENDING => true | _ => false end).
End WithdrawPane.
End WithdrawPane.

(** ** Staking *)

Module StakePane.
Section StakePane.
Context `{BN : BigNumber}.

Definition handleApprovePressed (isBLusdLpApprovedWithGauge : bool) (gauge : option string) : Payload :=
  ApprovePressedPayload (if isBLusdLpApprovedWithGauge then [] else [(BLUSD_LUSD_LP, gauge)]).

Definition handleConfirmPressed (stakeAmount : Decimal) : Payload :=
  ManagePayload (stakeLiquidityPayload stakeAmount).
End StakePane.
End StakePane.

Module UnstakePane.
Definition handleConfirmPressed (unstakeAmount : Decimal) : Payload :=
  ManagePayload (unstakeLiquidityPayload unstakeAmount).
End UnstakePane.

(** ** What is confirmed *)

Section confirming.
Context `{BNL : BigNumberLaws}.

Definition runSwap token es := run (fun _ : SwapPane.SwapInput => None) (fun _ => SwapPane.noQuote)
  SwapPane.digestSwap (SwapPane.mountSwap token) es.

Definition runDeposit es := run DepositPane.zeroAtOnce (fun l : Decimal => l)
  (fun (_ : DepositPane.DepositInput) (l : Decimal) => Ok l) DepositPane.mountDeposit es.

Definition runWithdraw es := run WithdrawPane.zeroAtOnce (fun w : WithdrawPane.Withdrawal => w)
  (fun (_ : WithdrawPane.WithdrawInput) (w : WithdrawPane.Withdrawal) => Ok w) WithdrawPane.mountWithdraw es.

Lemma mul_read d (x : Decimalish) e :
  Decimal.from x = Ok e -> Decimal.mul d x = Ok (dec (big d * big e / Decimal.DIGITS)).
Proof. intros H. rewrite <- mulE. unfold Decimal.mul. by rewrite H. Qed.

(** A valid tolerance is at most one. *)
Lemma tolerance_bounded choice custom tolerance :
  SwapPane.slippageTolerance choice custom = Ok (Some tolerance) ->
  SwapPane.isSlippageToleranceInvalid choice custom = Ok false ->
  big tolerance <= Decimal.DIGITS.
Proof.
  unfold SwapPane.slippageTolerance, SwapPane.isSlippageToleranceInvalid. destruct choice.
  - replace (Decimal.from (FromNumber "0.005")) with (Ok (dec 5000000000000000))
      by (symmetry; read (Literal "0" (Some "005") None)). by intros [= <-] _.
  - replace (Decimal.from (FromNumber "0.01")) with (Ok (dec 10000000000000000))
      by (symmetry; read (Literal "0" (Some "01") None)). by intros [= <-] _.
  - intros [= ->]. destruct (Decimal.lt _ _) as [small|]; [|done]. cbn [bind]. rewrite gtDE.
    intros [= [_ H]%orb_false_iff]. apply Z.ltb_ge in H. exact H.
Qed.

Lemma swap_confirm_inv q choice custom p :
  SwapPane.handleConfirmPressed q choice custom = Ok (Some p) ->
  exists out tolerance,
    SwapPane.outputAmount (shown q) = Some out /\
    SwapPane.slippageTolerance choice custom = Ok (Some tolerance) /\ big tolerance <= Decimal.DIGITS /\
    p = SwapPayload (SwapPane.inputAmount (input q))
          (dec (big out * (Decimal.DIGITS - big tolerance) / Decimal.DIGITS)).
Proof.
  unfold SwapPane.handleConfirmPressed. destruct (SwapPane.outputAmount _) as [out|]; [|done].
  destruct (SwapPane.slippageTolerance _ _) as [[tolerance|]|] eqn:Ht; [|by destruct (SwapPane.isSlippageToleranceInvalid _ _)|done].
  cbn [bind]. destruct (SwapPane.isSlippageToleranceInvalid _ _) as [[]|] eqn:Hi; try done. cbn [bind].
  pose proof (tolerance_bounded _ _ _ Ht Hi) as Hb.
  rewrite subE by exact Hb. cbn [bind]. change (big Decimal.ONE) with Decimal.DIGITS. rewrite mulE. cbn [bind].
  rewrite big_dec by lia. intros [= <-]. by exists out, tolerance.
Qed.

(** C38. Once the expected output is shown, the swap that is confirmed sells the amount in the form for at
    least what the pool answered that it gives for that very amount of that very token, less the
    tolerance chosen, rounded down; no answer to an earlier input can take its place. *)
Theorem swap_protects_quote token es choice custom p :
  let q := runSwap token es in
  phase q = Settled ->
  SwapPane.handleConfirmPressed q choice custom = Ok (Some p) ->
  let amount := SwapPane.inputAmount (input q) in
  exists es1 pool es2 tolerance,
    es = es1 ++ Answered (runs q) pool :: es2 /\
    runs (runSwap token es1) = runs q /\ input (runSwap token es1) = input q /\
    SwapPane.slippageTolerance choice custom = Ok (Some tolerance) /\ big tolerance <= Decimal.DIGITS /\
    p = SwapPayload amount
          (dec ((if Decimal.isZero amount then 0 else big (pool (SwapPane.inputToken (input q)) amount))
                * (Decimal.DIGITS - big tolerance) / Decimal.DIGITS)).
Proof.
  intros q Hq Hp amount. destruct (swap_confirm_inv q choice custom p Hp) as (o & tolerance & Ho & Ht & Hb & ->).
  assert (current (fun _ : SwapPane.SwapInput => None) (fun _ => SwapPane.noQuote) SwapPane.digestSwap
    (SwapPane.mkInput token Decimal.ZERO) SwapPane.noQuote es q) as H by apply run_current.
  unfold current in H. rewrite Hq in H.
  destruct H as (es1 & pool & es2 & Hes & Hr & Hi & Hd).
  exists es1, pool, es2, tolerance. split_and!; try done.
  assert (big o = if Decimal.isZero amount then 0 else big (pool (SwapPane.inputToken (input q)) amount)) as ->;
    [|done].
  unfold SwapPane.digestSwap in Hd. apply bind_Ok in Hd as (m & _ & Hd). apply bind_Ok in Hd as (r & _ & Hd).
  apply bind_Ok in Hd as (x & _ & Hd). apply bind_Ok in Hd as (y & _ & Hd). injection Hd as Hd.
  rewrite <- Hd in Ho. cbn [SwapPane.outputAmount] in Ho. injection Ho as <-.
  unfold Decimal.nonZero, amount. by destruct (Decimal.isZero _).
Qed.

(** With a balanced deposit, one amount follows the other in the ratio of the pool, up to one
    unit; the amount typed is kept. *)
Theorem deposit_is_balanced i (b l ratio amount : Decimal) bLUSD :
  0 < big b -> 0 < big l -> DepositPane.poolBalanceRatio (Some b) (Some l) = Ok ratio -> 0 < big ratio ->
  exists i', DepositPane.handleSetAmount i true ratio bLUSD amount = Ok i' /\
    (if bLUSD then DepositPane.bLusdAmount i' = amount /\
       big (DepositPane.lusdAmount i') = big amount * big ratio / Decimal.DIGITS
     else DepositPane.lusdAmount i' = amount /\
       big (DepositPane.bLusdAmount i') = big amount * Decimal.DIGITS / big ratio) /\
    big ratio = big l * Decimal.DIGITS / big b.
Proof.
  intros Hb Hl Hr Hpos. unfold DepositPane.poolBalanceRatio in Hr. rewrite divE in Hr by done.
  assert (big ratio = big l * Decimal.DIGITS / big b) as Hratio.
  { injection Hr as <-. by rewrite big_dec by (apply Z.div_pos; blia). }
  clear Hr. pose proof (big_nonneg amount). unfold DepositPane.handleSetAmount. destruct bLUSD.
  - rewrite mulE. cbn [bind]. eexists. split; [done|]. cbn [DepositPane.bLusdAmount DepositPane.lusdAmount].
    rewrite big_dec by (apply Z.div_pos; [lia|done]). by rewrite Z.mul_comm.
  - rewrite divE by done. cbn [bind]. eexists. split; [done|]. cbn [DepositPane.bLusdAmount DepositPane.lusdAmount].
    by rewrite big_dec by (apply Z.div_pos; blia).
Qed.

(** What is confirmed before the answer: for a moment after the input has changed, and for as long
    as its answer takes in the liquidity panes, the new amounts go with the minimum of the old
    ones, which is zero when nothing has been asked before; the buttons of these panes depend on
    the input only, not on whether its answer has come. *)
Theorem confirmed_before_the_answer :
  (forall q i choice custom amount minimum,
     SwapPane.handleConfirmPressed q choice custom = Ok (Some (SwapPayload amount minimum)) ->
     SwapPane.handleConfirmPressed (SwapPane.stepSwap q (Changed i)) choice custom
     = Ok (Some (SwapPayload (SwapPane.inputAmount i) minimum))) /\
  (forall b l stake,
     big b <> 0 ->
     DepositPane.handleConfirmPressed (runDeposit [Changed (DepositPane.mkInput b l); Fired]) stake
     = ManagePayload (addLiquidityPayload b l Decimal.ZERO stake)) /\
  (forall burn,
     big burn <> 0 ->
     let q := runWithdraw [Changed (WithdrawPane.mkInput burn WithdrawPane.both); Fired] in
     WithdrawPane.handleConfirmPressed q
     = Ok (Some (ManagePayload (removeLiquidityPayload burn Decimal.ZERO Decimal.ZERO)))) /\
  (forall q q' a b l status, input q = input q' ->
     DepositPane.confirmEnabled q a b l status = DepositPane.confirmEnabled q' a b l status) /\
  (forall q q' a l status, input q = input q' ->
     WithdrawPane.confirmEnabled q a l status = WithdrawPane.confirmEnabled q' a l status).
Proof.
  split_and!.
  - intros q i choice custom amount minimum H.
    unfold SwapPane.handleConfirmPressed, SwapPane.stepSwap, step, effect in *; cbn [shown input] in *.
    destruct (SwapPane.outputAmount (shown q)) as [out|]; [|done].
    destruct (SwapPane.slippageTolerance _ _) as [tolerance|]; [|done]. cbn [bind] in *.
    destruct (SwapPane.isSlippageToleranceInvalid _ _) as [[]|]; cbn [bind] in *;
      destruct tolerance as [tolerance|]; try done.
    destruct (Decimal.sub _ _) as [f|]; [|done]. cbn [bind] in *.
    destruct (Decimal.mul _ _) as [m|]; [|done]. cbn [bind] in *. by injection H as _ ->.
  - intros b l stake Hb. unfold runDeposit, run; cbn [foldl step effect].
    assert (DepositPane.zeroAtOnce (DepositPane.mkInput b l) = None) as Hz.
    { unfold DepositPane.zeroAtOnce; cbn. rewrite isZeroE. by destruct (Z.eqb_spec (big b) 0). }
    unfold effect. rewrite Hz. cbn. unfold DepositPane.mountDeposit, mount, effect, DepositPane.zeroAtOnce; cbn.
    by rewrite !isZeroE.
  - intros burn Hburn. unfold runWithdraw, run; cbn [foldl step].
    assert (WithdrawPane.zeroAtOnce (WithdrawPane.mkInput burn WithdrawPane.both) = None) as Hz.
    { unfold WithdrawPane.zeroAtOnce; cbn. rewrite isZeroE. by destruct (Z.eqb_spec (big burn) 0). }
    unfold effect. rewrite Hz. rewrite bool_decide_eq_true_2 by done.
    assert (shown WithdrawPane.mountWithdraw = WithdrawPane.zeros) as ->.
    { assert (WithdrawPane.zeroAtOnce (WithdrawPane.mkInput Decimal.ZERO WithdrawPane.both)
        = Some WithdrawPane.zeros) as Hm by (unfold WithdrawPane.zeroAtOnce; cbn; by rewrite isZeroE).
      unfold WithdrawPane.mountWithdraw, mount, effect. by rewrite Hm. }
    unfold WithdrawPane.handleConfirmPressed; cbn [input shown WithdrawPane.output WithdrawPane.burnLpTokens].
    change (WithdrawPane.get WithdrawPane.zeros BLUSD) with (Some Decimal.ZERO).
    change (WithdrawPane.get WithdrawPane.zeros LUSD) with (Some Decimal.ZERO).
    unfold WithdrawPane.afterSlippage.
    by rewrite (mul_read _ _ (dec 999000000000000000)) by (read (Literal "0" (Some "999") None)).
  - intros q q' a b l status Hq. unfold DepositPane.confirmEnabled. by rewrite Hq.
  - intros q q' a l status Hq. unfold WithdrawPane.confirmEnabled. by rewrite Hq.
Qed.
End confirming.

(** ** Instances *)

(** 100 LUSD would buy 90 bLUSD: with the default tolerance at least 89.55 are asked for. *)
Lemma swap_protects_quote_witness :
  exists tolerance : Decimal, SwapPane.slippageTolerance SwapPane.half None = Ok (Some tolerance) /\
    SwapPayload (dec 100000000000000000000) (dec 89550000000000000000)
    = SwapPayload (dec 100000000000000000000)
        (dec (90000000000000000000 * (Decimal.DIGITS - big tolerance) / Decimal.DIGITS)).
Proof.
  destruct (swap_protects_quote LUSD
    [Changed (SwapPane.mkInput LUSD (dec 100000000000000000000)); Fired;
     Answered 2 (fun _ amount => dec (big amount * 9 / 10))] SwapPane.half None
    (SwapPayload (dec 100000000000000000000) (dec 89550000000000000000)))
    as (es1 & pool & es2 & tolerance & Hes & _ & _ & Ht & _ & Hp);
    [vm_compute; reflexivity | vm_compute; reflexivity |].
  exists tolerance. split; [exact Ht|]. vm_compute in Ht. injection Ht as <-. vm_compute. reflexivity.
Defined.

Lemma confirmed_before_the_answer_witness :
  DepositPane.handleConfirmPressed
    (runDeposit [Changed (DepositPane.mkInput (dec 1) Decimal.ZERO); Fired]) true
  = ManagePayload (addLiquidityPayload (dec 1) Decimal.ZERO Decimal.ZERO true).
Proof. apply confirmed_before_the_answer. discriminate. Defined.
