(* ===== verification/BorrowerOperations.v ===== *)
(** * What the contracts accept from a borrower

    [packages/contracts/contracts/BorrowerOperations.sol]: [openTrove], [_adjustTrove] and
    [closeTrove], with their requirements in the order in which they are made and the amounts of
    the Trove they lead to.  It is the specification of what the forms of the frontend offer
    ([BorrowingAgreement]).  Hints, the sorted list, rewards and the movement of tokens are left
    out; the amounts of a Trove are those with its rewards applied.

    The gas compensation is an argument: the deployed contracts and the SDK disagree on it. *)

From S2P Require Import Prelude LiquityMath Liquidation.
From Stdlib Require Import ZArith.

Local Open Scope Z_scope.

(** What the operations read, the borrowing rate after the decay of the base rate.  The number of
    Troves is counted twice on chain: as the owners and as the nodes of the sorted list. *)
Record BorrowerState := mkBorrower {
  b_price : Z;
  b_entireSystemColl : Z;
  b_entireSystemDebt : Z;
  b_numberOfTroves : Z;
  b_sortedTroves : Z;
  b_active : bool;
  b_coll : Z;
  b_debt : Z;
  b_borrowingRate : Z;
  b_lusdBalance : Z
}.

(** The collateral and debt of the Trove afterwards, and the fee. *)
Record BorrowerOutcome := mkOutcome { o_coll : Z; o_debt : Z; o_fee : Z }.

Module BorrowerOperations.
Section BorrowerOperations.
Context (LUSD_GAS_COMPENSATION : Z).

Definition require (b : bool) : result unit := guard b else Revert in Ok tt.

Definition _getCompositeDebt (_debt : Z) : result Z := SafeMath.add _debt LUSD_GAS_COMPENSATION.
Definition _getNetDebt (_debt : Z) : result Z := SafeMath.sub _debt LUSD_GAS_COMPENSATION.

(** *** Requirements *)

Definition _requireSingularCollChange (value _collWithdrawal : Z) : result unit :=
  require ((value =? 0) || (_collWithdrawal =? 0)).

Definition _requireNonZeroAdjustment (value _collWithdrawal _LUSDChange : Z) : result unit :=
  require (negb (value =? 0) || negb (_collWithdrawal =? 0) || negb (_LUSDChange =? 0)).

Definition _requireTroveisActive (active : bool) : result unit := require active.
Definition _requireTroveisNotActive (active : bool) : result unit := require (negb active).

Definition _requireNonZeroDebtChange (_LUSDChange : Z) : result unit := require (0 <? _LUSDChange).

Definition _requireNotInRecoveryMode (isRecoveryMode : bool) : result unit := require (negb isRecoveryMode).

Definition _requireNoCollWithdrawal (_collWithdrawal : Z) : result unit := require (_collWithdrawal =? 0).

Definition _requireICRisAboveMCR (_newICR : Z) : result unit := require (LiquityBase.MCR <=? _newICR).
Definition _requireICRisAboveCCR (_newICR : Z) : result unit := require (LiquityBase.CCR <=? _newICR).
Definition _requireNewICRisAboveOldICR (_newICR _oldICR : Z) : result unit := require (_oldICR <=? _newICR).
Definition _requireNewTCRisAboveCCR (_newTCR : Z) : result unit := require (LiquityBase.CCR <=? _newTCR).

Definition _requireAtLeastMinNetDebt (_netDebt : Z) : result unit :=
  require (LiquityBase.MIN_NET_DEBT <=? _netDebt).

Definition _requireValidLUSDRepayment (_currentDebt _debtRepayment : Z) : result unit :=
  let* most := SafeMath.sub _currentDebt LUSD_GAS_COMPENSATION in
  require (_debtRepayment <=? most).

Definition _requireSufficientLUSDBalance (balance _debtRepayment : Z) : result unit :=
  require (_debtRepayment <=? balance).

Definition _requireValidMaxFeePercentage (_maxFeePercentage : Z) (_isRecoveryMode : bool) : result unit :=
  if _isRecoveryMode then require (_maxFeePercentage <=? LiquityMath.DECIMAL_PRECISION)
  else require ((LiquityBase.BORROWING_FEE_FLOOR <=? _maxFeePercentage) &&
                (_maxFeePercentage <=? LiquityMath.DECIMAL_PRECISION)).

Definition _requireUserAcceptsFee (_fee _amount _maxFeePercentage : Z) : result unit :=
  let* p := SafeMath.mul _fee LiquityMath.DECIMAL_PRECISION in
  let* feePercentage := SafeMath.div p _amount in
  require (feePercentage <=? _maxFeePercentage).

(** *** Helpers *)

(** [TroveManager._calcBorrowingFee] *)
Definition _calcBorrowingFee (_borrowingRate _LUSDDebt : Z) : result Z :=
  let* p := SafeMath.mul _borrowingRate _LUSDDebt in SafeMath.div p LiquityMath.DECIMAL_PRECISION.

Definition _triggerBorrowingFee (s : BorrowerState) (_LUSDAmount _maxFeePercentage : Z) : result Z :=
  let* LUSDFee := _calcBorrowingFee (b_borrowingRate s) _LUSDAmount in
  let* _ := _requireUserAcceptsFee LUSDFee _LUSDAmount _maxFeePercentage in
  Ok LUSDFee.

Definition _getCollChange (_collReceived _requestedCollWithdrawal : Z) : Z * bool :=
  if negb (_collReceived =? 0) then (_collReceived, true) else (_requestedCollWithdrawal, false).

Definition change (isIncrease : bool) (amount by_ : Z) : result Z :=
  if isIncrease then SafeMath.add amount by_ else SafeMath.sub amount by_.

Definition _getNewTroveAmounts (_coll _debt _collChange : Z) (_isCollIncrease : bool)
    (_debtChange : Z) (_isDebtIncrease : bool) : result (Z * Z) :=
  let* newColl := change _isCollIncrease _coll _collChange in
  let* newDebt := change _isDebtIncrease _debt _debtChange in
  Ok (newColl, newDebt).

Definition _getNewICRFromTroveChange (_coll _debt _collChange : Z) (_isCollIncrease : bool)
    (_debtChange : Z) (_isDebtIncrease : bool) (_price : Z) : result Z :=
  let* '(newColl, newDebt) :=
    _getNewTroveAmounts _coll _debt _collChange _isCollIncrease _debtChange _isDebtIncrease in
  LiquityMath._computeCR newColl newDebt _price.

Definition _getNewNominalICRFromTroveChange (_coll _debt _collChange : Z) (_isCollIncrease : bool)
    (_debtChange : Z) (_isDebtIncrease : bool) : result Z :=
  let* '(newColl, newDebt) :=
    _getNewTroveAmounts _coll _debt _collChange _isCollIncrease _debtChange _isDebtIncrease in
  LiquityMath._computeNominalCR newColl newDebt.

Definition _getNewTCRFromTroveChange (s : BorrowerState) (_collChange : Z) (_isCollIncrease : bool)
    (_debtChange : Z) (_isDebtIncrease : bool) (_price : Z) : result Z :=
  let* totalColl := change _isCollIncrease (b_entireSystemColl s) _collChange in
  let* totalDebt := change _isDebtIncrease (b_entireSystemDebt s) _debtChange in
  LiquityMath._computeCR totalColl totalDebt _price.

Definition _checkRecoveryMode (s : BorrowerState) : result bool :=
  let* TCR := LiquityMath._computeCR (b_entireSystemColl s) (b_entireSystemDebt s) (b_price s) in
  Ok (TCR <? LiquityBase.CCR).

(** [newTCR] is computed in normal mode only. *)
Definition _requireValidAdjustmentInCurrentMode (s : BorrowerState) (_isRecoveryMode : bool)
    (_collWithdrawal : Z) (_isDebtIncrease : bool) (oldICR newICR collChange : Z) (isCollIncrease : bool)
    (netDebtChange : Z) : result unit :=
  if _isRecoveryMode then
    let* _ := _requireNoCollWithdrawal _collWithdrawal in
    if _isDebtIncrease then
      let* _ := _requireICRisAboveCCR newICR in
      _requireNewICRisAboveOldICR newICR oldICR
    else Ok tt
  else
    let* _ := _requireICRisAboveMCR newICR in
    let* newTCR :=
      _getNewTCRFromTroveChange s collChange isCollIncrease netDebtChange _isDebtIncrease (b_price s) in
    _requireNewTCRisAboveCCR newTCR.

(** *** The operations *)

Definition openTrove (s : BorrowerState) (_maxFeePercentage _LUSDAmount value : Z) :
    result BorrowerOutcome :=
  let* isRecoveryMode := _checkRecoveryMode s in
  let* _ := _requireValidMaxFeePercentage _maxFeePercentage isRecoveryMode in
  let* _ := _requireTroveisNotActive (b_active s) in
  let* LUSDFee :=
    if isRecoveryMode then Ok 0 else _triggerBorrowingFee s _LUSDAmount _maxFeePercentage in
  let* netDebt := SafeMath.add _LUSDAmount LUSDFee in
  let* _ := _requireAtLeastMinNetDebt netDebt in
  let* compositeDebt := _getCompositeDebt netDebt in
  let* _ := require (0 <? compositeDebt) in
  let* ICR := LiquityMath._computeCR value compositeDebt (b_price s) in
  let* NICR := LiquityMath._computeNominalCR value compositeDebt in
  let* _ :=
    if isRecoveryMode then _requireICRisAboveCCR ICR
    else
      let* _ := _requireICRisAboveMCR ICR in
      let* newTCR := _getNewTCRFromTroveChange s value true compositeDebt true (b_price s) in
      _requireNewTCRisAboveCCR newTCR in
  Ok (mkOutcome value compositeDebt LUSDFee).

(** [_adjustTrove] for the borrower's own Trove. *)
Definition _adjustTrove (s : BorrowerState) (_collWithdrawal _LUSDChange : Z) (_isDebtIncrease : bool)
    (_maxFeePercentage value : Z) : result BorrowerOutcome :=
  let* isRecoveryMode := _checkRecoveryMode s in
  let* _ :=
    if _isDebtIncrease then
      let* _ := _requireValidMaxFeePercentage _maxFeePercentage isRecoveryMode in
      _requireNonZeroDebtChange _LUSDChange
    else Ok tt in
  let* _ := _requireSingularCollChange value _collWithdrawal in
  let* _ := _requireNonZeroAdjustment value _collWithdrawal _LUSDChange in
  let* _ := _requireTroveisActive (b_active s) in
  let '(collChange, isCollIncrease) := _getCollChange value _collWithdrawal in
  let* LUSDFee :=
    if _isDebtIncrease && negb isRecoveryMode
    then _triggerBorrowingFee s _LUSDChange _maxFeePercentage else Ok 0 in
  let* netDebtChange := SafeMath.add _LUSDChange LUSDFee in
  let* oldICR := LiquityMath._computeCR (b_coll s) (b_debt s) (b_price s) in
  let* newICR :=
    _getNewICRFromTroveChange (b_coll s) (b_debt s) collChange isCollIncrease netDebtChange
      _isDebtIncrease (b_price s) in
  let* _ := require (_collWithdrawal <=? b_coll s) in
  let* _ :=
    _requireValidAdjustmentInCurrentMode s isRecoveryMode _collWithdrawal _isDebtIncrease oldICR newICR
      collChange isCollIncrease netDebtChange in
  let* _ :=
    if negb _isDebtIncrease && (0 <? _LUSDChange) then
      let* net := _getNetDebt (b_debt s) in
      let* netAfter := SafeMath.sub net netDebtChange in
      let* _ := _requireAtLeastMinNetDebt netAfter in
      let* _ := _requireValidLUSDRepayment (b_debt s) netDebtChange in
      _requireSufficientLUSDBalance (b_lusdBalance s) netDebtChange
    else Ok tt in
  let* '(newColl, newDebt) :=
    _getNewTroveAmounts (b_coll s) (b_debt s) collChange isCollIncrease netDebtChange _isDebtIncrease in
  let* newNICR :=
    _getNewNominalICRFromTroveChange (b_coll s) (b_debt s) collChange isCollIncrease netDebtChange
      _isDebtIncrease in
  Ok (mkOutcome newColl newDebt LUSDFee).

(** [closeTrove], with the requirement of [TroveManager._closeTrove] that it is not the last. *)
Definition closeTrove (s : BorrowerState) : result BorrowerOutcome :=
  let* _ := _requireTroveisActive (b_active s) in
  let* isRecoveryMode := _checkRecoveryMode s in
  let* _ := _requireNotInRecoveryMode isRecoveryMode in
  let* repayment := SafeMath.sub (b_debt s) LUSD_GAS_COMPENSATION in
  let* _ := _requireSufficientLUSDBalance (b_lusdBalance s) repayment in
  let* newTCR := _getNewTCRFromTroveChange s (b_coll s) false (b_debt s) false (b_price s) in
  let* _ := _requireNewTCRisAboveCCR newTCR in
  let* _ := Liquidation._requireMoreThanOneTroveInSystem (b_numberOfTroves s) (b_sortedTroves s) in
  Ok (mkOutcome 0 0 0).
End BorrowerOperations.
End BorrowerOperations.

(** ** What is accepted *)

Section accepting.
Import BorrowerOperations.
Context (G : Z) (G_bounds : 0 <= G < 2 ^ 64).
Implicit Types s : BorrowerState.

(** The amounts of a running system: the Trove is part of it, and products stay within 256
    bits. *)
Record runs s : Prop := {
  runs_price : 0 <= b_price s < 2 ^ 126;
  runs_coll : 0 <= b_coll s <= b_entireSystemColl s;
  runs_debt : 0 <= b_debt s <= b_entireSystemDebt s;
  runs_systemColl : b_entireSystemColl s < 2 ^ 126;
  runs_systemDebt : b_entireSystemDebt s < 2 ^ 126;
  runs_rate : 0 <= b_borrowingRate s <= LiquityMath.DECIMAL_PRECISION
}.

(** A fee limit that the rate respects. *)
Definition acceptsFee s (max : Z) : Prop :=
  LiquityBase.BORROWING_FEE_FLOOR <= max <= LiquityMath.DECIMAL_PRECISION /\ b_borrowingRate s <= max.

Definition recoveryMode s : bool :=
  CR (b_entireSystemColl s) (b_entireSystemDebt s) (b_price s) <? LiquityBase.CCR.

Definition feeDue s (amount : Z) : Z :=
  if recoveryMode s then 0 else b_borrowingRate s * amount / LiquityMath.DECIMAL_PRECISION.

Definition openable s (amount value : Z) : bool :=
  let netDebt := amount + feeDue s amount in
  let ICR := CR value (netDebt + G) (b_price s) in
  negb (b_active s) && (LiquityBase.MIN_NET_DEBT <=? netDebt) &&
  if recoveryMode s then LiquityBase.CCR <=? ICR
  else (LiquityBase.MCR <=? ICR) &&
       (LiquityBase.CCR <=? CR (b_entireSystemColl s + value) (b_entireSystemDebt s + (netDebt + G)) (b_price s)).

Definition closable s : bool :=
  b_active s && negb (recoveryMode s) && (G <=? b_debt s) && (b_debt s - G <=? b_lusdBalance s) &&
  (LiquityBase.CCR <=? CR (b_entireSystemColl s - b_coll s) (b_entireSystemDebt s - b_debt s) (b_price s)) &&
  ((1 <? b_numberOfTroves s) && (1 <? b_sortedTroves s)).

(** An adjustment: collateral sent and withdrawn, and the change of the debt. *)
Definition newColl s (value withdrawal : Z) : Z := b_coll s + value - withdrawal.
Definition netChange s (amount : Z) (increase : bool) : Z :=
  if increase then amount + feeDue s amount else - amount.

Definition adjustable s (withdrawal amount : Z) (increase : bool) (value : Z) : bool :=
  let d := netChange s amount increase in
  let ICR := CR (newColl s value withdrawal) (b_debt s + d) (b_price s) in
  b_active s && (withdrawal <=? b_coll s) && (0 <=? b_debt s + d) &&
  (if recoveryMode s then
     (withdrawal =? 0) &&
     (negb increase || ((LiquityBase.CCR <=? ICR) && (CR (b_coll s) (b_debt s) (b_price s) <=? ICR)))
   else
     (LiquityBase.MCR <=? ICR) &&
     (LiquityBase.CCR <=? CR (b_entireSystemColl s + value - withdrawal) (b_entireSystemDebt s + d) (b_price s))) &&
  (increase || (amount =? 0) ||
   ((LiquityBase.MIN_NET_DEBT <=? b_debt s - G - amount) && (amount <=? b_lusdBalance s))).

Lemma requireE b : require b = if b then Ok tt else Err Revert.
Proof. done. Qed.

Lemma addUE a b : 0 <= a + b < 2 ^ 256 -> SafeMath.add a b = Ok (a + b).
Proof. apply uintE. Qed.

(** Subtraction reverts below zero. *)
Lemma sub_revertsE a b :
  0 <= b -> a < 2 ^ 256 -> SafeMath.sub a b = if b <=? a then Ok (a - b) else Err Revert.
Proof.
  intros. unfold SafeMath.sub, SafeMath.uint.
  destruct (Z.leb_spec b a), (Z.leb_spec 0 (a - b)); try lia; cbn [andb]; [|done].
  destruct (Z.ltb_spec (a - b) (2 ^ 256)); [done|lia].
Qed.

Lemma checkRecoveryModeE s : runs s -> _checkRecoveryMode s = Ok (recoveryMode s).
Proof. intros []. unfold _checkRecoveryMode, recoveryMode. rewrite computeCRE by lia. done. Qed.

Lemma fee_bounds s x : runs s -> 0 <= x -> 0 <= feeDue s x <= x.
Proof.
  intros [] Hx. unfold feeDue. destruct (recoveryMode s); [lia|].
  split; [apply Z.div_pos; [nia|done]|]. apply Z.div_le_upper_bound; [done|]. nia.
Qed.

Lemma triggerBorrowingFeeE s x max :
  runs s -> acceptsFee s max -> 0 < x < 2 ^ 127 ->
  _triggerBorrowingFee s x max = Ok (b_borrowingRate s * x / LiquityMath.DECIMAL_PRECISION).
Proof.
  intros [] [[]] Hx. unfold _triggerBorrowingFee, _calcBorrowingFee, _requireUserAcceptsFee, SafeMath.mul.
  unfold LiquityMath.DECIMAL_PRECISION in *. set (D := 1000000000000000000) in *.
  assert (0 <= b_borrowingRate s * x / D <= x) as Hf.
  { split; [apply Z.div_pos; [nia|done]|]. apply Z.div_le_upper_bound; [done|]. nia. }
  rewrite uintE by nia. cbn [bind]. rewrite safe_divE by done. cbn [bind].
  rewrite uintE by nia. cbn [bind]. rewrite safe_divE by lia. cbn [bind].
  rewrite requireE. destruct (Z.leb_spec (b_borrowingRate s * x / D * D / x) max) as [|Hm]; [done|].
  exfalso. assert (b_borrowingRate s * x / D * D / x <= b_borrowingRate s); [|lia].
  apply Z.div_le_upper_bound; [lia|].
  pose proof (Z.mul_div_le (b_borrowingRate s * x) D ltac:(done)). nia.
Qed.

Lemma computeNominalCR_ok c d : 0 <= c < 2 ^ 128 -> exists r, LiquityMath._computeNominalCR c d = Ok r.
Proof.
  intros. unfold LiquityMath._computeNominalCR, SafeMath.mul.
  destruct (Z.ltb_spec 0 d); [|by eexists].
  rewrite uintE by (unfold LiquityMath.NICR_PRECISION; nia). cbn [bind]. rewrite safe_divE by done. by eexists.
Qed.

Lemma openTroveE s max amount value :
  runs s -> acceptsFee s max -> 0 < amount < 2 ^ 126 -> 0 <= value < 2 ^ 126 ->
  openTrove G s max amount value =
  if openable s amount value
  then Ok (mkOutcome value (amount + feeDue s amount + G) (feeDue s amount))
  else Err Revert.
Proof.
  intros Hs Hm Ha Hv. unfold openTrove, openable. rewrite checkRecoveryModeE by done. cbn [bind].
  pose proof (fee_bounds s amount Hs ltac:(lia)) as Hf.
  assert (_requireValidMaxFeePercentage max (recoveryMode s) = Ok tt) as ->.
  { destruct Hm as [[]]. unfold _requireValidMaxFeePercentage. rewrite !requireE.
    destruct (recoveryMode s), (Z.leb_spec LiquityBase.BORROWING_FEE_FLOOR max),
      (Z.leb_spec max LiquityMath.DECIMAL_PRECISION); done || lia. }
  assert ((if recoveryMode s then Ok 0 else _triggerBorrowingFee s amount max) = Ok (feeDue s amount)) as Hfee.
  { unfold feeDue. destruct (recoveryMode s); [done|]. apply triggerBorrowingFeeE; [done..|lia]. }
  cbn [bind]. unfold _requireTroveisNotActive. rewrite requireE.
  destruct (negb (b_active s)); [|done]. cbn [bind andb]. rewrite Hfee. cbn [bind].
  rewrite addUE by lia. cbn [bind]. unfold _requireAtLeastMinNetDebt. rewrite requireE.
  destruct (LiquityBase.MIN_NET_DEBT <=? _); [|done]. cbn [bind andb].
  unfold _getCompositeDebt. rewrite addUE by lia. cbn [bind]. rewrite requireE.
  destruct (Z.ltb_spec 0 (amount + feeDue s amount + G)); [|lia]. cbn [bind].
  destruct Hs. rewrite computeCRE by lia. cbn [bind].
  destruct (computeNominalCR_ok value (amount + feeDue s amount + G) ltac:(lia)) as [n ->]. cbn [bind].
  unfold _requireICRisAboveCCR, _requireICRisAboveMCR, _requireNewTCRisAboveCCR, _getNewTCRFromTroveChange, change.
  destruct (recoveryMode s).
  - rewrite requireE. by destruct (_ <=? _).
  - rewrite !requireE. destruct (LiquityBase.MCR <=? _); [|done]. cbn [bind andb].
    rewrite !addUE by lia. cbn [bind]. rewrite computeCRE by lia. cbn [bind].
    rewrite requireE. by destruct (_ <=? _).
Qed.

Lemma closeTroveE s :
  runs s -> closeTrove G s = if closable s then Ok (mkOutcome 0 0 0) else Err Revert.
Proof.
  intros Hs. unfold closeTrove, closable, _requireTroveisActive, _requireNotInRecoveryMode,
    _requireSufficientLUSDBalance, _requireNewTCRisAboveCCR, Liquidation._requireMoreThanOneTroveInSystem,
    _getNewTCRFromTroveChange, change.
  rewrite checkRecoveryModeE, !requireE by done. destruct (b_active s); [|done]. cbn [bind andb].
  destruct (recoveryMode s); [done|]. cbn [negb bind andb]. destruct Hs.
  rewrite sub_revertsE by lia. destruct (G <=? b_debt s); [|done]. cbn [bind andb].
  rewrite requireE. destruct (b_debt s - G <=? b_lusdBalance s); [|done]. cbn [bind andb].
  rewrite !subUE by lia. cbn [bind]. rewrite computeCRE by lia. cbn [bind]. rewrite requireE.
  destruct (LiquityBase.CCR <=? _); [|done]. cbn [bind andb]. by destruct ((1 <? _) && _).
Qed.

(** The amounts that an adjustment leads to. *)
Lemma changeE (increase : bool) a x :
  0 <= a < 2 ^ 127 -> 0 <= x < 2 ^ 127 ->
  change increase a x =
  if 0 <=? a + (if increase then x else - x) then Ok (a + (if increase then x else - x)) else Err Revert.
Proof.
  intros Ha Hx. unfold change. destruct increase.
  - rewrite addUE by lia. by destruct (Z.leb_spec 0 (a + x)); [|lia].
  - rewrite sub_revertsE by lia. destruct (Z.leb_spec x a), (Z.leb_spec 0 (a + - x)); first [done | lia | f_equal; lia].
Qed.

(** One of the two collateral amounts is zero: what is sent, or what is withdrawn. *)
Lemma collChangeE a value w :
  0 <= a < 2 ^ 127 -> 0 <= value < 2 ^ 126 -> 0 <= w < 2 ^ 126 -> value = 0 \/ w = 0 ->
  let '(collChange, isCollIncrease) := _getCollChange value w in
  change isCollIncrease a collChange = if w <=? a then Ok (a + value - w) else Err Revert.
Proof.
  intros Ha Hv Hw Hone. unfold _getCollChange. destruct (Z.eqb_spec value 0) as [->|]; cbn [negb].
  - rewrite changeE by lia. destruct (Z.leb_spec 0 (a + - w)), (Z.leb_spec w a); first [done | lia | f_equal; lia].
  - destruct Hone as [Hz| ->]; [done|]. rewrite changeE by lia.
    destruct (Z.leb_spec 0 (a + value)), (Z.leb_spec 0 a); try lia. f_equal. lia.
Qed.

(** The requirements on the repayment of a debt. *)
Lemma repaymentE s amount :
  runs s -> 0 <= amount < 2 ^ 126 -> amount <= b_debt s ->
  (if 0 <? amount then
     let* net := _getNetDebt G (b_debt s) in
     let* netAfter := SafeMath.sub net amount in
     let* _ := _requireAtLeastMinNetDebt netAfter in
     let* _ := _requireValidLUSDRepayment G (b_debt s) amount in
     _requireSufficientLUSDBalance (b_lusdBalance s) amount
   else Ok tt)
  = if (amount =? 0) || ((LiquityBase.MIN_NET_DEBT <=? b_debt s - G - amount) && (amount <=? b_lusdBalance s))
    then Ok tt else Err Revert.
Proof.
  intros [] Ha Hd. destruct (Z.ltb_spec 0 amount), (Z.eqb_spec amount 0); try (done || lia); cbn [orb].
  unfold _getNetDebt, _requireAtLeastMinNetDebt, _requireValidLUSDRepayment, _requireSufficientLUSDBalance.
  assert (0 <= LiquityBase.MIN_NET_DEBT) by done.
  rewrite sub_revertsE by lia.
  destruct (Z.leb_spec G (b_debt s)); cbn [bind];
    [|destruct (Z.leb_spec LiquityBase.MIN_NET_DEBT (b_debt s - G - amount)); [lia|done]].
  rewrite sub_revertsE by lia.
  destruct (Z.leb_spec amount (b_debt s - G)); cbn [bind];
    [|destruct (Z.leb_spec LiquityBase.MIN_NET_DEBT (b_debt s - G - amount)); [lia|done]].
  rewrite requireE. destruct (LiquityBase.MIN_NET_DEBT <=? _); [|done]. cbn [bind andb].
  rewrite requireE. destruct (Z.leb_spec amount (b_debt s - G)); [|lia]. cbn [bind]. apply requireE.
Qed.

(** The requirements of the mode, for the amounts after the adjustment. *)
Lemma validAdjustmentE s w (increase : bool) oldICR ICR collChange isCollIncrease C d :
  runs s -> change isCollIncrease (b_entireSystemColl s) collChange = Ok C -> 0 <= C < 2 ^ 128 ->
  0 <= d < 2 ^ 127 -> 0 <= b_debt s + (if increase then d else - d) ->
  _requireValidAdjustmentInCurrentMode s (recoveryMode s) w increase oldICR ICR collChange isCollIncrease d
  = if (if recoveryMode s then
          (w =? 0) && (negb increase || ((LiquityBase.CCR <=? ICR) && (oldICR <=? ICR)))
        else
          (LiquityBase.MCR <=? ICR) &&
          (LiquityBase.CCR <=? CR C (b_entireSystemDebt s + (if increase then d else - d)) (b_price s)))
    then Ok tt else Err Revert.
Proof.
  intros [] HC HCb Hd Hpos. unfold _requireValidAdjustmentInCurrentMode, _requireNoCollWithdrawal,
    _requireICRisAboveCCR, _requireNewICRisAboveOldICR, _requireICRisAboveMCR, _requireNewTCRisAboveCCR,
    _getNewTCRFromTroveChange.
  destruct (recoveryMode s); rewrite !requireE.
  - destruct (w =? 0); [|done]. cbn [bind andb]. destruct increase; [|done].
    destruct (LiquityBase.CCR <=? ICR); [|done]. cbn [bind andb orb negb]. apply requireE.
  - destruct (LiquityBase.MCR <=? ICR); [|done]. cbn [bind andb]. rewrite HC. cbn [bind].
    rewrite changeE by lia. destruct (Z.leb_spec 0 (b_entireSystemDebt s + (if increase then d else - d)));
      [|lia].
    cbn [bind]. rewrite computeCRE by lia. cbn [bind]. apply requireE.
Qed.

Lemma adjustTroveE s withdrawal amount increase max value :
  runs s -> (increase = true -> acceptsFee s max /\ 0 < amount) ->
  0 <= withdrawal < 2 ^ 126 -> 0 <= amount < 2 ^ 126 -> 0 <= value < 2 ^ 126 ->
  value = 0 \/ withdrawal = 0 -> ~ (value = 0 /\ withdrawal = 0 /\ amount = 0) ->
  _adjustTrove G s withdrawal amount increase max value =
  if adjustable s withdrawal amount increase value
  then Ok (mkOutcome (newColl s value withdrawal) (b_debt s + netChange s amount increase)
             (if increase then feeDue s amount else 0))
  else Err Revert.
Proof.
  intros Hs Hinc Hw Ha Hv Hone Hsome. unfold _adjustTrove, adjustable, newColl.
  rewrite checkRecoveryModeE by done. cbn [bind].
  pose proof (fee_bounds s amount Hs ltac:(lia)) as Hf.
  assert ((if increase then
     let* _ := _requireValidMaxFeePercentage max (recoveryMode s) in _requireNonZeroDebtChange amount
   else Ok tt) = Ok tt) as ->.
  { destruct increase; [|done]. destruct (Hinc eq_refl) as [[[]] ?].
    unfold _requireValidMaxFeePercentage, _requireNonZeroDebtChange. rewrite !requireE.
    destruct (recoveryMode s), (Z.leb_spec LiquityBase.BORROWING_FEE_FLOOR max),
      (Z.leb_spec max LiquityMath.DECIMAL_PRECISION), (Z.ltb_spec 0 amount); done || lia. }
  assert (_requireSingularCollChange value withdrawal = Ok tt) as ->.
  { unfold _requireSingularCollChange. rewrite requireE.
    destruct (Z.eqb_spec value 0), (Z.eqb_spec withdrawal 0); done || lia. }
  assert (_requireNonZeroAdjustment value withdrawal amount = Ok tt) as ->.
  { unfold _requireNonZeroAdjustment. rewrite requireE.
    destruct (Z.eqb_spec value 0), (Z.eqb_spec withdrawal 0), (Z.eqb_spec amount 0); done || lia. }
  cbn [bind]. unfold _requireTroveisActive. rewrite requireE. destruct (b_active s); [|done]. cbn [bind andb].
  assert ((if increase && negb (recoveryMode s) then _triggerBorrowingFee s amount max else Ok 0)
          = Ok (if increase then feeDue s amount else 0)) as Hfee.
  { destruct increase; [|done]. unfold feeDue. destruct (recoveryMode s); [done|].
    apply triggerBorrowingFeeE; [done| apply Hinc; done |]. destruct (Hinc eq_refl). lia. }
  pose proof (collChangeE (b_coll s) value withdrawal) as Hc.
  pose proof (collChangeE (b_entireSystemColl s) value withdrawal) as HC.
  destruct (_getCollChange value withdrawal) as [collChange isCollIncrease].
  rewrite Hfee. cbn [bind]. set (fee := if increase then feeDue s amount else 0) in *.
  assert (0 <= fee <= amount) as Hfee' by (unfold fee; destruct increase; lia).
  rewrite addUE by lia. cbn [bind]. pose proof Hs as [].
  rewrite computeCRE by lia. cbn [bind].
  unfold _getNewICRFromTroveChange, _getNewNominalICRFromTroveChange, _getNewTroveAmounts.
  rewrite Hc by lia. destruct (Z.leb_spec withdrawal (b_coll s)) as [Hwc|]; [|done]. cbn [bind andb].
  rewrite changeE by lia.
  assert ((if increase then amount + fee else - (amount + fee)) = netChange s amount increase) as Hnet
    by (unfold netChange, fee; destruct increase; lia).
  rewrite Hnet.
  destruct (Z.leb_spec 0 (b_debt s + netChange s amount increase)) as [Hd|]; [|done]. cbn [bind andb].
  rewrite computeCRE by lia. cbn [bind]. rewrite requireE. cbn [bind].
  assert (change isCollIncrease (b_entireSystemColl s) collChange
          = Ok (b_entireSystemColl s + value - withdrawal)) as HC'.
  { rewrite HC by lia. by destruct (Z.leb_spec withdrawal (b_entireSystemColl s)); [|lia]. }
  rewrite (validAdjustmentE _ _ _ _ _ _ _ _ _ Hs HC') by (rewrite ?Hnet; lia). rewrite Hnet.
  destruct (if recoveryMode s then _ else _); cbn [bind andb]; [|done].
  destruct (computeNominalCR_ok (b_coll s + value - withdrawal)
    (b_debt s + netChange s amount increase) ltac:(lia)) as [n ->].
  destruct increase; cbn [negb andb orb]; [done|].
  replace (amount + fee) with amount by (unfold fee; lia). rewrite repaymentE by (done || (cbn in Hd; lia)).
  by destruct (_ || _).
Qed.
End accepting.
