(* ===== verification/BorrowingAgreement.v ===== *)
(** * The forms offer what the contracts accept

    What [validateTroveChange] ([Validation]) offers is accepted by the contract's operation that
    it stands for ([BorrowerOperations]) and leads to the Trove that was validated; what the
    contract accepts and the user can pay for is offered.  This holds for contracts that lock the
    liquidation reserve of the SDK; the deployed ones lock more
    ([deployed_contracts_differ]). *)

From S2P Require Import Prelude JsString BigNumber Decimal DecimalText DecimalArith Constants LiquityMath Trove TroveTheory Validation Liquidation RiskyTroves BorrowerOperations.
From Stdlib Require Import ZArith.

Local Open Scope Z_scope.

Section agreement.
Context `{BNL : BigNumberLaws}.
Implicit Types t : Trove.
Implicit Types s : BorrowerState.

(** The frontend shows the present state: the contracts' amounts are the selected ones, and the
    borrowing rate is the one charged now.  The contracts keep an owner and a node of the sorted
    list for each open Trove, so both counts are the selected one. *)
Record presents (sel : TroveSelectedState) (old : Trove) (rate : Decimal) s : Prop := {
  presents_price : b_price s = big (sel_price sel);
  presents_coll : b_entireSystemColl s = big (collateral (sel_total sel));
  presents_debt : b_entireSystemDebt s = big (debt (sel_total sel));
  presents_number : b_numberOfTroves s = sel_numberOfTroves sel;
  presents_list : b_sortedTroves s = sel_numberOfTroves sel;
  presents_active : b_active s = negb (Trove.isEmpty old);
  presents_troveColl : b_coll s = big (collateral old);
  presents_troveDebt : b_debt s = big (debt old);
  presents_balance : b_lusdBalance s = big (sel_lusdBalance sel);
  presents_rate : big rate = if recoveryMode s then 0 else b_borrowingRate s;
  presents_open : b_active s = true -> 1 <= b_numberOfTroves s
}.

(** Missing amounts are zero. *)
Definition amount (d : option Decimal) : Z := big (default Decimal.ZERO d).

(** The call of the contract for a change, with the arguments [PopulatableEthersLiquity] gives
    it; amounts that are missing are zero. *)
Definition execute (G : Z) (maxFee : Z) (change : TroveChange Decimal) s : result BorrowerOutcome :=
  match change with
  | Creation p => BorrowerOperations.openTrove G s maxFee (big (c_borrowLUSD p)) (big (c_depositCollateral p))
  | Adjustment p _ =>
      BorrowerOperations._adjustTrove G s (amount (withdrawCollateral p))
        (match borrowLUSD p with Some b => big b | None => amount (repayLUSD p) end)
        (match borrowLUSD p with Some _ => true | None => false end)
        maxFee (amount (depositCollateral p))
  | Closure _ => BorrowerOperations.closeTrove G s
  | InvalidCreation _ _ => Err Revert
  end.

(** The collateral that is sent is within the balance. *)
Definition affordable (sel : TroveSelectedState) (change : TroveChange Decimal) : Prop :=
  match change with
  | Creation p => big (c_depositCollateral p) <= big (sel_accountBalance sel)
  | Adjustment p _ =>
      forall d, depositCollateral p = Some d -> big d <= big (sel_accountBalance sel)
  | _ => True
  end.

(** The form asks for more than the contracts in one respect: the minimum is that of the amount
    borrowed, without the fee. *)
Definition borrowsMinimum (change : TroveChange Decimal) : Prop :=
  match change with
  | Creation p => big LUSD_MINIMUM_NET_DEBT <= big (c_borrowLUSD p)
  | _ => True
  end.

Definition leadsTo (o : BorrowerOutcome) t : Prop :=
  o_coll o = big (collateral t) /\ o_debt o = big (debt t).

Lemma applied_fee (rate : Decimal) x :
  applied rate x = x + big rate * x / Decimal.DIGITS.
Proof.
  unfold applied, feeFactor. replace (x * (Decimal.DIGITS + big rate)) with (x * Decimal.DIGITS + big rate * x) by ring.
  by rewrite Z.div_add_l.
Qed.

Lemma feeDueE sel old rate s x :
  presents sel old rate s -> applied rate x = x + feeDue s x.
Proof.
  intros H. rewrite applied_fee, (presents_rate _ _ _ _ H). unfold feeDue.
  by destruct (recoveryMode s).
Qed.

Lemma recoveryModeE sel old rate s :
  presents sel old rate s ->
  recoveryMode s = (ratio (sel_total sel) (sel_price sel) <? big CRITICAL_COLLATERAL_RATIO).
Proof.
  intros []. unfold recoveryMode. by rewrite presents_price0, presents_coll0, presents_debt0, ratio_CR.
Qed.

Lemma unapplied_le (rate : Decimal) x : 0 <= x -> 0 <= unapplied rate x <= x.
Proof.
  intros Hx. split; [by apply unapplied_nonneg|]. unfold unapplied. pose proof (feeFactor_pos rate).
  pose proof (big_nonneg rate).
  apply div_le_iff; [done|]. unfold feeFactor in *. nia.
Qed.

(** The total when the Trove is part of it. *)
Lemma totalAfter_CR (total old new : Trove) (price : Decimal) :
  big (collateral old) <= big (collateral total) -> big (debt old) <= big (debt total) ->
  ratio (totalAfter total old new) price =
  CR (big (collateral total) - big (collateral old) + big (collateral new))
     (big (debt total) - big (debt old) + big (debt new)) (big price).
Proof.
  intros Hc Hd. rewrite ratio_CR. unfold totalAfter; cbn [collateral debt].
  pose proof (big_nonneg (collateral new)). pose proof (big_nonneg (debt new)).
  rewrite !big_dec by lia. f_equal; lia.
Qed.

(** The amounts of an adjustment that the form computes towards [adjusted]: each present one is
    positive, at most one of a pair is present, and none takes more than there is. *)
Record computed old adjusted (p : TroveAdjustmentParams Decimal) : Prop := {
  computed_deposit : 0 <= amount (depositCollateral p) <= big (collateral adjusted);
  computed_withdrawal : 0 <= amount (withdrawCollateral p) <= big (collateral old);
  computed_borrow : 0 <= amount (borrowLUSD p) <= big (debt adjusted);
  computed_repayment : 0 <= amount (repayLUSD p) <= big (debt old);
  computed_deposits d : depositCollateral p = Some d -> 0 < big d;
  computed_withdrawals w : withdrawCollateral p = Some w -> 0 < big w;
  computed_borrows b : borrowLUSD p = Some b -> 0 < big b;
  computed_repayments r : repayLUSD p = Some r -> 0 < big r;
  computed_some : ~ (a_debt p = None /\ a_collateral p = None)
}.

Lemma adjustment_computed old adjusted (rate : Decimal) p z :
  Trove.whatChanged old adjusted rate = Ok (Some (Adjustment p z)) -> computed old adjusted p.
Proof.
  intros (_ & _ & Hd & Hc & Hne & _)%adjustment_inv.
  pose proof (big_nonneg (debt old)). pose proof (big_nonneg (debt adjusted)).
  pose proof (big_nonneg (collateral old)). pose proof (big_nonneg (collateral adjusted)).
  assert (big Decimal.ZERO = 0) as Hz by done.
  pose proof (unapplied_le rate (big (debt adjusted) - big (debt old))).
  pose proof (unapplied_pos rate (big (debt adjusted) - big (debt old))).
  destruct p as [c d]; cbn [a_debt a_collateral] in *.
  assert (forall x, 0 <= x -> big (dec x) = x) as Hbd by (intros; by apply big_dec).
  destruct d as [d|]; [destruct Hd as [Hdn Hd]; rewrite debtChangeE in Hd; injection Hd as <-;
    destruct (Z.ltb_spec (big (debt old)) (big (debt adjusted)))|];
  (destruct c as [c|]; [destruct Hc as [Hcn Hc]; rewrite collateralChangeE in Hc; injection Hc as <-;
    destruct (Z.ltb_spec (big (collateral old)) (big (collateral adjusted)))|]);
  constructor; unfold amount, depositCollateral, withdrawCollateral, borrowLUSD, repayLUSD;
    cbn [a_debt a_collateral default id]; try done;
    try (intros ? [= <-]); rewrite ?Hz, ?Hbd by lia; lia.
Qed.

(** What is set to zero is what the amounts leave. *)
Lemma adjustment_amounts old adjusted (rate : Decimal) p z new :
  Trove.whatChanged old adjusted rate = Ok (Some (Adjustment p z)) ->
  Trove.apply old (Some (Adjustment p z)) rate = Ok new ->
  big (collateral new) = big (collateral old) + amount (depositCollateral p) - amount (withdrawCollateral p) /\
  big (debt new) = big (debt old) + (applied rate (amount (borrowLUSD p)) - amount (repayLUSD p)).
Proof.
  intros Hw. pose proof (adjustment_computed _ _ _ _ _ Hw) as [].
  destruct (adjustment_inv _ _ _ _ _ Hw) as (_ & _ & Hd & Hc & _ & ->).
  rewrite apply_adjustmentE. intros [= <-]. cbn [collateral debt].
  assert (big Decimal.ZERO = 0) as Hz by done.
  assert (applied rate 0 = 0) as Ha by (unfold applied; by rewrite Z.mul_0_l).
  match goal with |- context [if ?b then Some ZeroDebt else ?o] => set (z := if b then Some ZeroDebt else o) end.
  assert (match z with Some ZeroCollateral => 0 | _ => collateral_after (a_collateral p) (big (collateral old)) end
          = collateral_after (a_collateral p) (big (collateral old))) as ->.
  { assert (z = Some ZeroCollateral -> big (collateral adjusted) = 0 /\ a_collateral p <> None) as Hzc.
    { unfold z. destruct (_ && _); [done|].
      destruct (Z.eqb_spec (big (collateral adjusted)) 0); cbn [andb]; [|done]. by case_bool_decide. }
    destruct z as [[]|]; try done. destruct (Hzc eq_refl) as [H0 Hsome].
    destruct (a_collateral p) as [c|]; [|done]. by rewrite (collateral_change_after old adjusted c) by apply Hc. }
  assert (match z with Some ZeroDebt => 0 | _ => debt_after rate (a_debt p) (big (debt old)) end
          = debt_after rate (a_debt p) (big (debt old))) as ->.
  { assert (z = Some ZeroDebt -> big (debt adjusted) = 0 /\ a_debt p <> None) as Hzd.
    { unfold z. destruct (Z.eqb_spec (big (debt adjusted)) 0); cbn [andb]; [|by repeat case_match].
      case_bool_decide; [by repeat case_match | done]. }
    destruct z as [[]|]; try done. destruct (Hzd eq_refl) as [H0 Hsome]. pose proof (big_nonneg (debt old)).
    destruct (a_debt p) as [d|]; [|done]. destruct Hd as [_ Hd]. rewrite debtChangeE in Hd. injection Hd as <-.
    rewrite H0. destruct (Z.ltb_spec (big (debt old)) 0); [lia|]. cbn [debt_after]. rewrite big_dec by lia. lia. }
  unfold amount, depositCollateral, withdrawCollateral, borrowLUSD, repayLUSD in *.
  pose proof (big_nonneg (debt old)). pose proof (big_nonneg (collateral old)).
  split.
  - destruct (a_collateral p) as [[c|c]|]; cbn [collateral_after default id] in *; rewrite ?Hz in *;
      rewrite big_dec by lia; lia.
  - destruct (a_debt p) as [[d|d]|]; cbn [debt_after default id] in *; rewrite ?Hz, ?Ha in *;
      [pose proof (applied_nonneg rate d)|..]; rewrite big_dec by lia; lia.
Qed.

Lemma creation_inv old adjusted (rate : Decimal) p new :
  Trove.whatChanged old adjusted rate = Ok (Some (Creation p)) ->
  Trove.apply old (Some (Creation p)) rate = Ok new ->
  old = _emptyTrove /\ big LUSD_LIQUIDATION_RESERVE <= big (debt adjusted) /\
  p = mkCreation (collateral adjusted) (dec (unapplied rate (big (debt adjusted) - big LUSD_LIQUIDATION_RESERVE))) /\
  collateral new = collateral adjusted /\
  big (debt new) = big LUSD_LIQUIDATION_RESERVE + applied rate (big (c_borrowLUSD p)).
Proof.
  unfold Trove.whatChanged. destruct (_ && _); [done|].
  destruct (Trove.isEmpty old) eqn:He; [|intros H; by inv_ok].
  apply isEmpty_true in He as ->. rewrite ltDE. intros H.
  destruct (Z.ltb_spec (big (debt adjusted)) (big LUSD_LIQUIDATION_RESERVE)); [done|].
  rewrite netDebtE in H by done. cbn [bind] in H. rewrite unapplyFeeE in H. cbn [bind] in H.
  injection H as <-. unfold Trove.apply. rewrite (proj2 (isEmpty_true _) eq_refl).
  cbn [c_borrowLUSD c_depositCollateral]. rewrite applyFeeE. cbn [bind]. rewrite addE. cbn [bind].
  intros [= <-]. cbn [collateral debt].
  rewrite (big_dec (_ - _)) by lia. split_and!; try done.
  set (borrow := dec (unapplied rate (big (debt adjusted) - big LUSD_LIQUIDATION_RESERVE))).
  change (dec (_ / feeFactor rate)) with borrow. fold (applied rate (big borrow)).
  pose proof (applied_nonneg rate borrow). pose proof (big_nonneg LUSD_LIQUIDATION_RESERVE).
  by rewrite !big_dec by (rewrite ?big_dec by done; lia).
Qed.

Lemma closure_inv old adjusted (rate : Decimal) p new :
  Trove.whatChanged old adjusted rate = Ok (Some (Closure p)) ->
  Trove.apply old (Some (Closure p)) rate = Ok new ->
  Trove.isEmpty old = false /\ new = _emptyTrove /\ big LUSD_LIQUIDATION_RESERVE <= big (debt old) /\
  amount (x_repayLUSD p) = big (debt old) - big LUSD_LIQUIDATION_RESERVE.
Proof.
  unfold Trove.whatChanged. destruct (_ && _); [done|].
  destruct (Trove.isEmpty old) eqn:He; [intros H; by inv_ok|].
  destruct (Trove.isEmpty adjusted); [|intros H; by inv_ok].
  intros H. apply bind_Ok in H as (n & Hn & [= <-]).
  unfold Trove.apply. rewrite He. intros [= <-]. cbn [x_repayLUSD].
  assert (big LUSD_LIQUIDATION_RESERVE <= big (debt old)) as Hc.
  { unfold Trove.netDebt in Hn. rewrite ltDE in Hn.
    destruct (Z.ltb_spec (big (debt old)) (big LUSD_LIQUIDATION_RESERVE)); [by inv_ok | done]. }
  split_and!; try done. rewrite netDebtE in Hn by done. injection Hn as <-.
  unfold amount, Decimal.nonZero. rewrite isZeroE, big_dec by lia.
  destruct (Z.eqb_spec (big (debt old) - big LUSD_LIQUIDATION_RESERVE) 0) as [->|]; cbn [negb default from_option id]; [done|].
  by rewrite big_dec by lia.
Qed.

(** ** Agreement, one kind of change at a time *)

Section changes.
Context (sel : TroveSelectedState) (old adjusted new : Trove) (rate : Decimal) (s : BorrowerState) (maxFee : Z).
Context (Hpresents : presents sel old rate s) (Hruns : runs s) (Hfee : acceptsFee s maxFee).
Context (Hsmall : big (collateral adjusted) < 2 ^ 126 /\ big (debt adjusted) < 2 ^ 126).

(** The tests of the contracts are the requirements of the frontend, in the same mode. *)
Ltac modes Hrec :=
  change LiquityBase.MIN_NET_DEBT with (big LUSD_MINIMUM_NET_DEBT);
  change LiquityBase.CCR with (big CRITICAL_COLLATERAL_RATIO);
  change LiquityBase.MCR with (big MINIMUM_COLLATERAL_RATIO);
  generalize dependent (big LUSD_MINIMUM_NET_DEBT);
  generalize dependent (big CRITICAL_COLLATERAL_RATIO);
  generalize (big MINIMUM_COLLATERAL_RATIO); intros MCR CCR Hrec; intros;
  rewrite Hrec;
  match type of Hrec with _ = (?a <? ?b) => destruct (Z.ltb_spec a b) end;
  rewrite ?andb_true_iff, ?orb_true_iff, ?negb_true_iff, ?Z.leb_le, ?Z.ltb_lt, ?Z.eqb_eq, ?Z.ltb_ge, ?Z.eqb_neq;
  intuition lia.

Lemma openable_acceptable p :
  Trove.whatChanged old adjusted rate = Ok (Some (Creation p)) ->
  Trove.apply old (Some (Creation p)) rate = Ok new ->
  affordable sel (Creation p) -> borrowsMinimum (Creation p) ->
  openable (big LUSD_LIQUIDATION_RESERVE) s (big (c_borrowLUSD p)) (big (c_depositCollateral p)) = true
  <-> acceptable sel old new (Creation p).
Proof.
  intros Hw Ha Haff Hmin. destruct (creation_inv _ _ _ _ _ Hw Ha) as (-> & Hres & Hp & Hc & Hd).
  rewrite (feeDueE _ _ _ _ _ Hpresents) in Hd. unfold acceptable, openable.
  rewrite totalAfter_CR by (apply (big_nonneg _)).
  change (big (collateral _emptyTrove)) with 0. change (big (debt _emptyTrove)) with 0. rewrite ratio_CR, Hd, Hc, !Z.sub_0_r.
  pose proof (recoveryModeE _ _ _ _ Hpresents) as Hrec. pose proof Hpresents as [].
  rewrite presents_active0, presents_price0, presents_coll0, presents_debt0.
  rewrite (proj2 (isEmpty_true _) eq_refl). cbn [negb andb].
  assert (c_depositCollateral p = collateral adjusted) as Hdep by by rewrite Hp.
  cbn [affordable borrowsMinimum] in Haff, Hmin. rewrite !Hdep in *. rewrite !ratio_CR in *. rewrite Hd, Hc.
  set (b := big (c_borrowLUSD p)) in *. pose proof (fee_bounds s b Hruns (big_nonneg _)) as Hf.
  replace (big LUSD_LIQUIDATION_RESERVE + (b + feeDue s b)) with (b + feeDue s b + big LUSD_LIQUIDATION_RESERVE) by lia.
  modes Hrec.
Qed.
(** The Trove is part of the system. *)
Lemma part_of_total :
  big (collateral old) <= big (collateral (sel_total sel)) /\ big (debt old) <= big (debt (sel_total sel)).
Proof. destruct Hpresents, Hruns. lia. Qed.

Lemma closable_acceptable p :
  Trove.whatChanged old adjusted rate = Ok (Some (Closure p)) ->
  Trove.apply old (Some (Closure p)) rate = Ok new ->
  closable (big LUSD_LIQUIDATION_RESERVE) s = true <-> acceptable sel old new (Closure p).
Proof.
  intros Hw Ha. destruct (closure_inv _ _ _ _ _ Hw Ha) as (He & -> & Hres & Hrepay).
  destruct part_of_total. unfold acceptable, closable. rewrite totalAfter_CR by done.
  change (big (collateral _emptyTrove)) with 0. change (big (debt _emptyTrove)) with 0. rewrite !Z.add_0_r.
  pose proof (recoveryModeE _ _ _ _ Hpresents) as Hrec. pose proof Hpresents as [].
  rewrite presents_active0, He, presents_price0, presents_coll0, presents_debt0, presents_troveColl0,
    presents_troveDebt0, presents_balance0, presents_number0, presents_list0. cbn [negb andb].
  rewrite presents_active0, He, presents_number0 in presents_open0. specialize (presents_open0 eq_refl).
  assert ((forall r, x_repayLUSD p = Some r -> big r <= big (sel_lusdBalance sel)) <->
          big (debt old) - big LUSD_LIQUIDATION_RESERVE <= big (sel_lusdBalance sel)) as ->.
  { unfold amount in Hrepay. pose proof (big_nonneg (sel_lusdBalance sel)).
    destruct (x_repayLUSD p) as [r|]; cbn [default from_option id] in Hrepay.
    - rewrite <- Hrepay. split; [auto|]. by intros ? ? [= <-].
    - change (big Decimal.ZERO) with 0 in Hrepay. split; [lia|]. intros _ ? [=]. }
  modes Hrec.
Qed.

(** The arguments of the contract for an adjustment. *)
Definition debtAmount (p : TroveAdjustmentParams Decimal) : Z :=
  match borrowLUSD p with Some b => big b | None => amount (repayLUSD p) end.
Definition isBorrowing (p : TroveAdjustmentParams Decimal) : bool :=
  match borrowLUSD p with Some _ => true | None => false end.

Lemma missing_zero (o : option Decimal) :
  (forall d, o = Some d -> 0 < big d) -> o = None <-> amount o = 0.
Proof.
  intros Hpos. destruct o as [d|]; [|done]. specialize (Hpos d eq_refl).
  unfold amount; cbn [default from_option id]. split; [done|lia].
Qed.

Lemma debtAmountE p z :
  Trove.whatChanged old adjusted rate = Ok (Some (Adjustment p z)) ->
  amount (borrowLUSD p) + feeDue s (amount (borrowLUSD p)) - amount (repayLUSD p)
  = netChange s (debtAmount p) (isBorrowing p) /\
  (forall P : Z -> Prop, (forall r, repayLUSD p = Some r -> P (big r)) <->
     (isBorrowing p = true \/ debtAmount p = 0 \/ P (debtAmount p))).
Proof.
  intros Hw. destruct (adjustment_computed _ _ _ _ _ Hw).
  assert (feeDue s 0 = 0) as H0.
  { unfold feeDue. rewrite Z.mul_0_r. by destruct (recoveryMode s). }
  assert (big Decimal.ZERO = 0) as Hz by done.
  unfold netChange, debtAmount, isBorrowing, amount, repayLUSD, borrowLUSD in *.
  destruct (a_debt p) as [[b|r]|]; cbn [default from_option id] in *; rewrite ?Hz, ?H0.
  - split; [lia|]. intros P. split; [by left|]. done.
  - specialize (computed_repayments0 r eq_refl). split; [lia|]. intros P. split; [by auto|].
    intros [?|[?|?]] ? [= <-]; [done|lia|done].
  - split; [lia|]. intros P. split; [by auto|]. done.
Qed.

Lemma adjustable_acceptable p z :
  Trove.whatChanged old adjusted rate = Ok (Some (Adjustment p z)) ->
  Trove.apply old (Some (Adjustment p z)) rate = Ok new ->
  affordable sel (Adjustment p z) ->
  adjustable (big LUSD_LIQUIDATION_RESERVE) s (amount (withdrawCollateral p)) (debtAmount p) (isBorrowing p)
    (amount (depositCollateral p)) = true
  <-> acceptable sel old new (Adjustment p z).
Proof.
  intros Hw Ha Haff. pose proof (adjustment_computed _ _ _ _ _ Hw) as [].
  destruct (adjustment_amounts _ _ _ _ _ _ Hw Ha) as [Hc Hd].
  destruct (adjustment_inv _ _ _ _ _ Hw) as (He & _).
  destruct part_of_total. unfold acceptable, adjustable, newColl. rewrite totalAfter_CR by done.
  pose proof (recoveryModeE _ _ _ _ Hpresents) as Hrec. pose proof Hpresents as [].
  rewrite (feeDueE _ _ _ _ _ Hpresents) in Hd. rewrite !ratio_CR in *. 
  rewrite presents_active0, He, presents_price0, presents_coll0, presents_debt0, presents_troveColl0,
    presents_troveDebt0, presents_balance0. cbn [negb andb].
  destruct (debtAmountE _ _ Hw) as [Hnet Hrepay]. rewrite Hnet in Hd.
  rewrite Hc, Hd, (missing_zero _ computed_withdrawals0).
  replace (big (collateral (sel_total sel)) - big (collateral old) + (big (collateral old)
    + amount (depositCollateral p) - amount (withdrawCollateral p)))
    with (big (collateral (sel_total sel)) + amount (depositCollateral p) - amount (withdrawCollateral p)) by lia.
  replace (big (debt (sel_total sel)) - big (debt old) + (big (debt old) + netChange s (debtAmount p) (isBorrowing p)))
    with (big (debt (sel_total sel)) + netChange s (debtAmount p) (isBorrowing p)) by lia.
  pose proof (big_nonneg (debt new)) as Hpos. rewrite Hd in Hpos.
  destruct (Z.leb_spec (amount (withdrawCollateral p)) (big (collateral old))); [|lia].
  destruct (Z.leb_spec 0 (big (debt old) + netChange s (debtAmount p) (isBorrowing p))); [|lia]. cbn [andb].
  rewrite (Hrepay (fun r => big LUSD_MINIMUM_DEBT <= big (debt old) + netChange s (debtAmount p) (isBorrowing p) /\
             r <= big (sel_lusdBalance sel))).
  assert (borrowLUSD p <> None <-> isBorrowing p = true) as -> by (unfold isBorrowing; by destruct (borrowLUSD p)).
  cbn [affordable] in Haff.
  assert (big LUSD_MINIMUM_DEBT = big LUSD_LIQUIDATION_RESERVE + big LUSD_MINIMUM_NET_DEBT) as -> by done.
  set (ICR := CR (_ + _ - _) (big (debt old) + _) _). set (oldICR := CR (big (collateral old)) _ _).
  set (TCR := CR (_ + _ - _) (big (debt (sel_total sel)) + _) _). clearbody ICR oldICR TCR.
  unfold netChange. clear - Hrec Haff.
  destruct (isBorrowing p); cbn [negb orb]; modes Hrec.
Qed.
(** The arguments are within the bounds of the contract's arithmetic, and at most one of the
    collateral amounts is given. *)
Lemma adjustment_arguments p z :
  Trove.whatChanged old adjusted rate = Ok (Some (Adjustment p z)) ->
  (isBorrowing p = true -> 0 < debtAmount p) /\
  0 <= amount (withdrawCollateral p) < 2 ^ 126 /\ 0 <= debtAmount p < 2 ^ 126 /\
  0 <= amount (depositCollateral p) < 2 ^ 126 /\
  (amount (depositCollateral p) = 0 \/ amount (withdrawCollateral p) = 0) /\
  ~ (amount (depositCollateral p) = 0 /\ amount (withdrawCollateral p) = 0 /\ debtAmount p = 0).
Proof.
  intros Hw. destruct (adjustment_computed _ _ _ _ _ Hw). destruct part_of_total.
  pose proof Hruns as []. pose proof Hpresents as [].
  unfold isBorrowing, debtAmount, amount, depositCollateral, withdrawCollateral, repayLUSD, borrowLUSD in *.
  assert (big Decimal.ZERO = 0) as Hz by done.
  destruct (a_debt p) as [[b|r]|], (a_collateral p) as [[d|w]|]; cbn [default from_option id] in *; rewrite ?Hz in *;
    repeat match goal with H : forall x, Some ?y = Some x -> _ |- _ => specialize (H y eq_refl) end;
    try (split_and!; intros; first [done | lia]); exfalso; by apply computed_some0.
Qed.

Lemma execute_accepts change :
  Trove.whatChanged old adjusted rate = Ok (Some change) ->
  Trove.apply old (Some change) rate = Ok new ->
  affordable sel change -> borrowsMinimum change ->
  (acceptable sel old new change -> exists o,
     execute (big LUSD_LIQUIDATION_RESERVE) maxFee change s = Ok o /\ leadsTo o new) /\
  (~ acceptable sel old new change ->
     execute (big LUSD_LIQUIDATION_RESERVE) maxFee change s = Err Revert).
Proof.
  intros Hw Ha Haff Hmin. assert (0 <= big LUSD_LIQUIDATION_RESERVE < 2 ^ 64) as HG by done.
  destruct change as [inv e|p|p|p z]; cbn [execute].
  - split; [done|]. done.
  - pose proof (openable_acceptable _ Hw Ha Haff Hmin) as Hiff.
    destruct (creation_inv _ _ _ _ _ Hw Ha) as (_ & Hres & Hp & Hc & Hd).
    cbn [borrowsMinimum] in Hmin. change (big LUSD_MINIMUM_NET_DEBT) with 5000000000000000000 in Hmin.
    assert (big (c_depositCollateral p) = big (collateral new)) as Hdep by by rewrite Hp, Hc.
    assert (big (c_borrowLUSD p) <= big (debt adjusted)) as Hb.
    { rewrite Hp. cbn [c_borrowLUSD].
      pose proof (unapplied_le rate (big (debt adjusted) - big LUSD_LIQUIDATION_RESERVE)).
      rewrite big_dec by lia. lia. }
    rewrite openTroveE by (try done; try lia; rewrite Hdep, Hc; blia).
    destruct (openable _ _ _ _); split; intros Hacc; try done.
    + eexists. split; [done|]. unfold leadsTo; cbn [o_coll o_debt].
      rewrite (feeDueE _ _ _ _ _ Hpresents) in Hd. lia.
    + contradict Hacc. by apply Hiff.
    + by apply Hiff in Hacc.
  - pose proof (closable_acceptable _ Hw Ha) as Hiff.
    destruct (closure_inv _ _ _ _ _ Hw Ha) as (_ & -> & _).
    rewrite closeTroveE by done. destruct (closable _ _); split; intros Hacc; try done.
    + by eexists.
    + contradict Hacc. by apply Hiff.
    + by apply Hiff in Hacc.
  - pose proof (adjustable_acceptable _ _ Hw Ha Haff) as Hiff.
    destruct (adjustment_arguments _ _ Hw) as (Hpos & Hwb & Hab & Hdb & Hone & Hsome).
    destruct (adjustment_amounts _ _ _ _ _ _ Hw Ha) as [Hc Hd]. destruct (debtAmountE _ _ Hw) as [Hnet _].
    fold (debtAmount p) (isBorrowing p).
    rewrite adjustTroveE by (try done; auto). destruct (adjustable _ _ _ _ _ _); split; intros Hacc; try done.
    + eexists. split; [done|]. unfold leadsTo, newColl; cbn [o_coll o_debt]. pose proof Hpresents as [].
      rewrite (feeDueE _ _ _ _ _ Hpresents) in Hd. lia.
    + contradict Hacc. by apply Hiff.
    + by apply Hiff in Hacc.
Qed.
End changes.

(** C7. For contracts that lock the reserve the SDK assumes, and a frontend that shows the present
    state: every opening, adjustment or closing of a Trove that the form offers is accepted by
    the contract and leaves the Trove with exactly the collateral and debt that were validated;
    and whatever the contract accepts is offered, if the user has the collateral and a new
    Trove borrows the minimum without its fee. *)
Theorem offers_refine_contracts sel old adjusted new (rate : Decimal) s maxFee change :
  presents sel old rate s -> runs s -> acceptsFee s maxFee ->
  big (collateral adjusted) < 2 ^ 126 -> big (debt adjusted) < 2 ^ 126 ->
  Trove.whatChanged old adjusted rate = Ok (Some change) ->
  Trove.apply old (Some change) rate = Ok new ->
  let offered := exists d, validateTroveChange old adjusted rate sel = Ok (Some change, Some d) in
  let contract := execute (big LUSD_LIQUIDATION_RESERVE) maxFee change s in
  (offered -> exists o, contract = Ok o /\ leadsTo o new) /\
  (forall o, contract = Ok o -> affordable sel change -> borrowsMinimum change -> offered).
Proof.
  intros Hp Hs Hm Hc Hd Hw Ha. destruct (validation_verdict _ _ _ sel _ _ Hw Ha) as (v & Hv & ->).
  pose proof (execute_accepts sel old adjusted new rate s maxFee Hp Hs Hm (conj Hc Hd) change Hw Ha) as He.
  cbv zeta. split.
  - intros [d Hoff]. destruct v; [by inv_ok|]. pose proof (proj1 Hv eq_refl) as Hacc.
    apply He; [..|by apply Hv]; destruct change; cbn in *; tauto.
  - intros o Ho Haff Hmin. destruct (He Haff Hmin) as [_ Hno].
    destruct v as [v|]; [|by eexists]. rewrite Hno in Ho; [done|]. by intros Hacc%Hv.
Qed.
End agreement.

(** ** Instances *)

(** A Trove of 2 BTC and 300 LUSD in a system of 10 BTC and 1,000 LUSD, at a price of 200 and a
    borrowing rate of 0.5%. *)
Definition sampleOld : Trove := mkTrove (dec 2000000000000000000) (dec 300000000000000000000).
Definition sampleEdited : Trove := mkTrove (dec 2500000000000000000) (dec 350000000000000000000).
Definition presentRate : Decimal := dec 5000000000000000.
Definition presentState (coll debt : Z) : BorrowerState :=
  mkBorrower 200000000000000000000 10000000000000000000 1000000000000000000000 3 3
    (negb ((coll =? 0) && (debt =? 0))) coll debt 5000000000000000 0.

(** A deposit of 0.5 BTC with a loan of 49.75... LUSD. *)
Definition sampleDeposit : TroveChange Decimal :=
  Adjustment (mkAdjustment (Some (DepositCollateral (dec 500000000000000000)))
    (Some (BorrowLUSD (dec 49751243781094527364)))) None.

Lemma offers_refine_contracts_witness :
  exists o, execute (big LUSD_LIQUIDATION_RESERVE) 10000000000000000 sampleDeposit
    (presentState 2000000000000000000 300000000000000000000) = Ok o /\ leadsTo o sampleEdited.
Proof.
  apply (offers_refine_contracts sampleSelected sampleOld sampleEdited sampleEdited presentRate
    (presentState 2000000000000000000 300000000000000000000) 10000000000000000 sampleDeposit).
  - constructor; vm_compute; try reflexivity. intros _. discriminate.
  - constructor; vm_compute; try (split; [discriminate | first [reflexivity | discriminate]]); reflexivity.
  - vm_compute. repeat split; discriminate.
  - reflexivity.
  - reflexivity.
  - vm_compute. reflexivity.
  - vm_compute. reflexivity.
  - eexists. vm_compute. reflexivity.
Defined.

(** The deployed contracts lock 0.5 LUSD where the SDK assumes 0.1: a Trove of 105 LUSD at the
    minimum ratio is offered by the form, and refused. *)
Lemma deployed_contracts_differ :
  let trove := mkTrove (dec 577500000000000000) (dec 105000000000000000000) in
  exists change d,
    validateTroveChange _emptyTrove trove presentRate sampleSelected = Ok (Some change, Some d) /\
    (exists o, execute (big LUSD_LIQUIDATION_RESERVE) 10000000000000000 change (presentState 0 0) = Ok o) /\
    execute LiquityBase.LUSD_GAS_COMPENSATION 10000000000000000 change (presentState 0 0) = Err Revert.
Proof.
  eexists (Creation (mkCreation (dec 577500000000000000) (dec 104378109452736318408))), _.
  split; [vm_compute; reflexivity|]. split; [eexists; vm_compute; reflexivity|]. vm_compute. reflexivity.
Qed.
