(* ===== verification/Offers.v ===== *)
(** * What the frontend offers and refuses

    What the verdict of [validateTroveChange] ([Validation.validateTroveChange]) means for the
    user and the system: the Trove and the totals that an offered change leads to, and the truth
    of the reason with which another one is refused.  Both are said of the Troves before and
    after, not of the parameters of the change that the validation tests. *)

From S2P Require Import Prelude JsString BigNumber Decimal DecimalArith Constants Trove TroveTheory LiquityMath BorrowerOperations Validation BorrowingAgreement.
From Stdlib Require Import Ascii String.

Local Open Scope string_scope.
Local Open Scope Z_scope.

Section offers.
Context `{BNL : BigNumberLaws}.

Definition inRecovery (sel : TroveSelectedState) : Prop :=
  ratio (sel_total sel) (sel_price sel) < big CRITICAL_COLLATERAL_RATIO.

(** The total collateral ratio after a Trove has been replaced by another. *)
Definition ratioAfter (sel : TroveSelectedState) (old new : Trove) : Z :=
  ratio (totalAfter (sel_total sel) old new) (sel_price sel).

(** A reason for not making [old] into [adjusted], which would become [new], holds. *)
Definition truthful (sel : TroveSelectedState) (rate : Decimal) (old adjusted new : Trove)
    (d : TroveDescription) : Prop :=
  let price := sel_price sel in
  match d with
  | TotalDebtAtLeast m => m = LUSD_MINIMUM_DEBT /\ big (debt new) < big m
  | MustBorrowAtLeast m =>
      m = LUSD_MINIMUM_NET_DEBT /\ old = _emptyTrove /\
      unapplied rate (big (debt adjusted) - big LUSD_LIQUIDATION_RESERVE) < big m
  | OpeningBelowCriticalInRecoveryMode =>
      inRecovery sel /\ old = _emptyTrove /\ ratio new price < big CRITICAL_COLLATERAL_RATIO
  | CollateralRatioAtLeastMinimum =>
      ~ inRecovery sel /\ ratio new price < big MINIMUM_COLLATERAL_RATIO
  | OpeningWouldTriggerRecoveryMode | AdjustmentWouldTriggerRecoveryMode
  | ClosingWouldTriggerRecoveryMode =>
      ~ inRecovery sel /\ ratioAfter sel old new < big CRITICAL_COLLATERAL_RATIO
  | DepositExceedsBalanceBy x =>
      0 < big x /\ big x = big (collateral adjusted) - big (collateral old) - big (sel_accountBalance sel)
  | WithdrawalDuringRecoveryMode =>
      inRecovery sel /\ big (collateral new) < big (collateral old)
  | BorrowingBelowCriticalInRecoveryMode =>
      inRecovery sel /\ big (debt old) < big (debt new) /\ ratio new price < big CRITICAL_COLLATERAL_RATIO
  | DecreasingRatioInRecoveryMode =>
      inRecovery sel /\ big (debt old) < big (debt new) /\ ratio new price < ratio old price
  | RepaymentExceedsBalanceBy x =>
      0 < big x /\ big x = big (debt old) - big (debt adjusted) - big (sel_lusdBalance sel)
  | ClosingLastTrove => new = _emptyTrove /\ sel_numberOfTroves sel = 1
  | ClosingDuringRecoveryMode => new = _emptyTrove /\ inRecovery sel
  | NeedsMoreToClose x =>
      new = _emptyTrove /\
      0 < big x /\ big x = big (debt old) - big LUSD_LIQUIDATION_RESERVE - big (sel_lusdBalance sel)
  | ChangeDescription _ => False
  end.

(** What making [old] into [new] does to the user and the system. *)
Record protects (sel : TroveSelectedState) (old new : Trove) : Prop := {
  affords_collateral :
    big (collateral new) - big (collateral old) <= big (sel_accountBalance sel);
  affords_repayment :
    big (debt old) - big (debt new) <=
    big (sel_lusdBalance sel) + (if Trove.isEmpty new then big LUSD_LIQUIDATION_RESERVE else 0);
  keeps_minimum_debt :
    new <> _emptyTrove -> old = _emptyTrove \/ big (debt new) < big (debt old) ->
    big LUSD_MINIMUM_DEBT <= big (debt new);
  keeps_last_trove : new = _emptyTrove -> sel_numberOfTroves sel <> 1 /\ ~ inRecovery sel;
  keeps_normal_mode : ~ inRecovery sel ->
    big MINIMUM_COLLATERAL_RATIO <= ratio new (sel_price sel) /\
    big CRITICAL_COLLATERAL_RATIO <= ratioAfter sel old new;
  improves_recovery : inRecovery sel ->
    big (collateral old) <= big (collateral new) /\
    (big (debt old) < big (debt new) -> big CRITICAL_COLLATERAL_RATIO <= ratio new (sel_price sel)) /\
    ratio (sel_total sel) (sel_price sel) - 1 <= ratioAfter sel old new
}.

(** ** The total ratio in recovery mode *)

(** A Trove with the collateral value [u] and the debt [d], part of totals with [U] and [D],
    comes to have [u'] and [d'].  Where the totals' ratio is below a bound [k] and the Trove,
    if its debt grows, ends above [k] and no worse than before, the totals' ratio falls by less
    than one unit of rounding. *)
Lemma total_ratio_kept U D u d u' d' k :
  0 <= U -> 0 < D -> 0 <= u <= U -> 0 <= d <= D -> u <= u' -> 0 <= d' -> 0 < D - d + d' ->
  U / D < k -> k * (k + 1) < 2 ^ 256 ->
  (d < d' -> k <= u' / d' /\
     ((u = 0 /\ d = 0) \/ (d = 0 /\ 2 ^ 256 - 1 <= u' / d') \/ (0 < d /\ u / d <= u' / d'))) ->
  U / D - 1 <= (U - u + u') / (D - d + d').
Proof.
  intros HU HD Hu Hd Huu Hd' HD' Hk Hkk Hgrow. apply le_div_iff; [done|].
  pose proof (proj1 (le_div_iff U D (U / D) HD) (Z.le_refl _)) as Hlo.
  pose proof (proj1 (div_le_iff U D (U / D) HD) (Z.le_refl _)) as Hup.
  assert (0 <= U / D) as Hr by (apply Z.div_pos; lia). set (r := U / D) in *.
  destruct (Z.le_gt_cases d' d) as [Hle|Hgt]; [nia|].
  destruct (Hgrow Hgt) as (Hnew & Hcases). apply le_div_iff in Hnew; [|lia].
  destruct Hcases as [[-> ->]|[[-> Hbig]|[Hpos Hratio]]].
  - nia.
  - apply le_div_iff in Hbig; [|lia].
    assert (U < k * D) by nia. destruct (Z.le_gt_cases (r * d') D); [nia|].
    assert (k * D <= k * (r * d')) by nia. assert (k * (r * d') <= k * k * d') by nia. nia.
  - pose proof (proj1 (div_le_iff u d (u / d) Hpos) (Z.le_refl _)) as Ho.
    apply le_div_iff in Hratio; [|lia]. set (q := u / d) in *.
    destruct (Z.le_gt_cases r q).
    + assert (r * (d' - d) <= q * (d' - d)) by nia. nia.
    + assert (u < r * d) by nia. assert ((r + 1) * d' <= u') by nia. nia.
Qed.

Lemma recovery_ratio_kept (sel : TroveSelectedState) (old new : Trove) :
  big (collateral old) <= big (collateral (sel_total sel)) ->
  big (debt old) <= big (debt (sel_total sel)) ->
  inRecovery sel -> big (collateral old) <= big (collateral new) ->
  (big (debt old) < big (debt new) ->
     big CRITICAL_COLLATERAL_RATIO <= ratio new (sel_price sel) /\
     (old = _emptyTrove \/ ratio old (sel_price sel) <= ratio new (sel_price sel))) ->
  ratio (sel_total sel) (sel_price sel) - 1 <= ratioAfter sel old new.
Proof.
  unfold inRecovery, ratioAfter, totalAfter. intros Hc Hd Hrec Hcc Hgrow.
  pose proof (big_nonneg (collateral old)). pose proof (big_nonneg (debt old)).
  pose proof (big_nonneg (collateral new)). pose proof (big_nonneg (debt new)).
  pose proof (big_nonneg (collateral (sel_total sel))). pose proof (big_nonneg (debt (sel_total sel))).
  pose proof (big_nonneg (sel_price sel)).
  unfold ratio in *. cbn [collateral debt]. rewrite !big_dec, !Z.max_r by lia.
  destruct (Z.eqb_spec (big (debt (sel_total sel))) 0); [done|].
  destruct (Z.eqb_spec (big (debt (sel_total sel)) - big (debt old) + big (debt new)) 0).
  { change (big CRITICAL_COLLATERAL_RATIO) with 1500000000000000000 in Hrec. lia. }
  rewrite Z.mul_add_distr_r, Z.mul_sub_distr_r.
  apply (total_ratio_kept _ _ _ _ _ _ (big CRITICAL_COLLATERAL_RATIO)); try done; try nia.
  intros Hlt. destruct (Hgrow Hlt) as [Hnew Hold].
  destruct (Z.eqb_spec (big (debt new)) 0); [lia|]. split; [done|].
  destruct Hold as [->|Hold]; [by left|]. destruct (Z.eqb_spec (big (debt old)) 0); [by auto|].
  right. right. split; [lia|done].
Qed.
(** ** Verdicts, one kind of change at a time *)

Section verdicts.
Context (sel : TroveSelectedState) (rate : Decimal) (old adjusted new : Trove).
Context (Hnew : roughly rate adjusted new).
Context (Hcoll : big (collateral old) <= big (collateral (sel_total sel))).
Context (Hdebt : big (debt old) <= big (debt (sel_total sel))).

(** The context in which the change is validated: [validationContextE]. *)
Definition contextOf : TroveValidationContext :=
  mkContext sel old new
    (ratio (sel_total sel) (sel_price sel) <? big CRITICAL_COLLATERAL_RATIO)
    (ratio (totalAfter (sel_total sel) old new) (sel_price sel) <? big CRITICAL_COLLATERAL_RATIO).

(** A verdict is a true reason or none, and then the change protects user and system. *)
Definition sound (r : result (option TroveDescription)) : Prop :=
  exists o, r = Ok o /\
    match o with Some d => truthful sel rate old adjusted new d | None => protects sel old new end.

(** What an adjustment computed by [whatChanged] says of the two Troves. *)
Lemma adjustment_moves p z :
  Trove.whatChanged old adjusted rate = Ok (Some (Adjustment p z)) ->
  match depositCollateral p with
  | Some d => big d = big (collateral adjusted) - big (collateral old) /\ 0 < big d
  | None => big (collateral adjusted) <= big (collateral old)
  end /\
  match withdrawCollateral p with
  | Some _ => big (collateral adjusted) < big (collateral old)
  | None => big (collateral old) <= big (collateral adjusted)
  end /\
  match borrowLUSD p with
  | Some _ => big (debt old) < big (debt adjusted)
  | None => big (debt adjusted) <= big (debt old)
  end /\
  match repayLUSD p with
  | Some r => big r = big (debt old) - big (debt adjusted) /\ 0 < big r
  | None => big (debt old) <= big (debt adjusted)
  end.
Proof.
  intros (_ & _ & Hd & Hc & _ & _)%adjustment_inv.
  destruct p as [c d]; cbn [a_debt a_collateral] in *.
  unfold depositCollateral, withdrawCollateral, borrowLUSD, repayLUSD; cbn [a_debt a_collateral].
  assert (forall x, 0 <= x -> big (dec x) = x) as Hbd by (intros; by apply big_dec).
  destruct d as [d|]; [destruct Hd as [Hdn Hd]; rewrite debtChangeE in Hd; injection Hd as <-;
    destruct (Z.ltb_spec (big (debt old)) (big (debt adjusted)))|];
  (destruct c as [c|]; [destruct Hc as [Hcn Hc]; rewrite collateralChangeE in Hc; injection Hc as <-;
    destruct (Z.ltb_spec (big (collateral old)) (big (collateral adjusted)))|]);
  rewrite ?Hbd by lia; lia.
Qed.

Lemma applied_ge x : 0 <= x -> x <= applied rate x.
Proof.
  intros Hx. rewrite applied_fee. pose proof (big_nonneg rate).
  assert (0 <= big rate * x / Decimal.DIGITS); [|lia]. apply Z.div_pos; [nia|done].
Qed.

Lemma minimum_debts :
  0 < big LUSD_LIQUIDATION_RESERVE /\
  big LUSD_MINIMUM_DEBT = big LUSD_MINIMUM_NET_DEBT + big LUSD_LIQUIDATION_RESERVE /\
  0 < big LUSD_MINIMUM_NET_DEBT.
Proof. done. Qed.

(** Splits the tests of a validation, one at a time, and answers each verdict with [sound]'s
    witness. *)
Ltac verdicts :=
  repeat match goal with
  | |- context [if Z.ltb ?a ?b then _ else _] => destruct (Z.ltb_spec a b); cbn [bind negb]
  | |- context [if negb (Z.leb ?a ?b) then _ else _] => destruct (Z.leb_spec a b); cbn [bind negb]
  | |- context [Decimal.sub ?a ?b] => rewrite subE by lia; cbn [bind]
  end; eexists; (split; [reflexivity|]); cbn [truthful]; unfold inRecovery, ratioAfter.

Lemma creation_sound p :
  Trove.whatChanged old adjusted rate = Ok (Some (Creation p)) ->
  Trove.apply old (Some (Creation p)) rate = Ok new ->
  sound (validateTroveCreation p contextOf).
Proof.
  intros Hw Ha. destruct (creation_inv _ _ _ _ _ Hw Ha) as (Ho & Hres & -> & Hc & Hd).
  cbn [c_borrowLUSD] in Hd.
  pose proof (unapplied_nonneg rate (big (debt adjusted) - big LUSD_LIQUIDATION_RESERVE) ltac:(lia)) as Hu.
  pose proof (applied_ge _ Hu) as Hap. rewrite big_dec in Hd by done.
  destruct minimum_debts as (? & ? & ?). pose proof (big_nonneg (sel_lusdBalance sel)).
  assert (big (collateral old) = 0 /\ big (debt old) = 0) as [Hoc Hod] by by subst old.
  assert (new <> _emptyTrove) as Hne.
  { intros Hn. assert (big (debt new) = 0) by by rewrite Hn. lia. }
  pose proof (fun H1 H2 H3 => recovery_ratio_kept sel old new Hcoll Hdebt H1 H2 (fun _ => conj H3 (or_introl Ho))) as Hkept.
  unfold inRecovery, ratioAfter in Hkept. rewrite Hc in Hkept. pose proof (big_nonneg (collateral adjusted)).
  unfold sound, validateTroveCreation, contextOf;
    cbn [selected resultingTrove recoveryMode wouldTriggerRecoveryMode c_borrowLUSD c_depositCollateral].
  rewrite ltDE, gtDE, openableE, belowMinimumE, big_dec by done. cbn [bind].
  verdicts; try (split_and!; first [done | lia]); try (rewrite big_dec by lia; lia).
  all: split; unfold inRecovery, ratioAfter; rewrite ?Hc; try done; intros; try lia; try (case_match; lia).
Qed.

Lemma closure_sound p :
  Trove.whatChanged old adjusted rate = Ok (Some (Closure p)) ->
  Trove.apply old (Some (Closure p)) rate = Ok new ->
  sound (validateTroveClosure p contextOf).
Proof.
  intros Hw Ha. destruct (closure_inv _ _ _ _ _ Hw Ha) as (Ho & Hn & Hres & Hrep).
  destruct minimum_debts as (? & ? & ?). pose proof (big_nonneg (sel_lusdBalance sel)).
  pose proof (big_nonneg (sel_accountBalance sel)). pose proof (big_nonneg (collateral old)).
  assert (big (collateral new) = 0 /\ big (debt new) = 0 /\ Trove.isEmpty new = true) as (Hnc & Hnd & He).
  { subst new. split_and!; [done..|]. by apply isEmpty_true. }
  assert (forall r, amount (Some r) = big r) as Hr by done. assert (amount None = 0) as Hnone by done.
  assert (ratio new (sel_price sel) = 2 ^ 256 - 1) as Hmax.
  { unfold ratio. by rewrite Hnd. }
  unfold sound, validateTroveClosure, contextOf; cbn [selected resultingTrove recoveryMode wouldTriggerRecoveryMode].
  destruct (Z.eqb_spec (sel_numberOfTroves sel) 1); [eexists; split; [done|]; by split|].
  destruct (x_repayLUSD p) as [r|]; rewrite ?Hr, ?Hnone, ?gtDE in *; verdicts;
    try (split_and!; first [done | lia | rewrite big_dec by lia; lia]).
  all: split; unfold inRecovery, ratioAfter; rewrite ?He, ?Hmax; try done; intros; try lia; done.
Qed.
(** The Trove after an adjustment: not empty, with the collateral aimed at, and with no more debt
    than before unless some is borrowed. *)
Lemma adjustment_result p z :
  Trove.whatChanged old adjusted rate = Ok (Some (Adjustment p z)) ->
  Trove.apply old (Some (Adjustment p z)) rate = Ok new ->
  new <> _emptyTrove /\ old <> _emptyTrove /\ big (collateral new) = big (collateral adjusted) /\
  big (debt adjusted) <= big (debt new) /\
  (borrowLUSD p = None -> big (debt new) = big (debt adjusted)).
Proof.
  intros Hw Ha. destruct (adjustment_amounts _ _ _ _ _ _ Hw Ha) as [_ Hd].
  destruct (adjustment_moves p z Hw) as (_ & _ & Hb & Hr).
  destruct (adjustment_inv _ _ _ _ _ Hw) as (Ho & He & _). destruct Hnew as (Hc & Hdn & _).
  rewrite isEmptyE in He. rewrite Hc. split_and!; try done; [..|lia|].
  - intros Hn. rewrite Hn in Hc, Hdn. rewrite <- Hc in He. change (big (debt _emptyTrove)) with 0 in Hdn.
    change (big (collateral _emptyTrove)) with 0 in He. pose proof (big_nonneg (debt adjusted)).
    destruct (Z.eqb_spec (big (debt adjusted)) 0); [done|lia].
  - intros ->. by rewrite (proj2 (isEmpty_true _) eq_refl) in Ho.
  - intros E. rewrite E in *. assert (applied rate (amount None) = 0) as Hz by by unfold applied.
    rewrite Hz in Hd. destruct (repayLUSD p) as [r|].
    + change (amount (Some r)) with (big r) in Hd. lia.
    + change (amount None) with 0 in Hd. lia.
Qed.

Lemma adjustment_sound p z :
  Trove.whatChanged old adjusted rate = Ok (Some (Adjustment p z)) ->
  Trove.apply old (Some (Adjustment p z)) rate = Ok new ->
  sound (validateTroveAdjustment p contextOf).
Proof.
  intros Hw Ha. destruct (adjustment_result p z Hw Ha) as (Hne & Hno & Hc & Hd & Hexact).
  destruct (adjustment_moves p z Hw) as (Hdep & Hwit & Hbor & Hrep).
  destruct minimum_debts as (? & ? & ?). pose proof (big_nonneg (sel_lusdBalance sel)).
  pose proof (big_nonneg (sel_accountBalance sel)).
  assert (Trove.isEmpty new = false) as He.
  { destruct (Trove.isEmpty new) eqn:E; [|done]. by apply isEmpty_true in E. }
  pose proof (fun H1 H2 H3 => recovery_ratio_kept sel old new Hcoll Hdebt H1 H2
    (fun H => conj (proj1 (H3 H)) (or_intror (proj2 (H3 H))))) as Hkept.
  unfold inRecovery, ratioAfter in Hkept. rewrite Hc in Hkept.
  unfold sound, validateTroveAdjustment, contextOf;
    cbn [selected originalTrove resultingTrove recoveryMode wouldTriggerRecoveryMode].
  rewrite belowMinimumE, belowCriticalE, !collateralRatioE. cbn [bind].
  rewrite ltDE, !big_dec by apply ratio_nonneg.
  destruct (withdrawCollateral p) as [w|], (borrowLUSD p) as [b|], (repayLUSD p) as [r|], (depositCollateral p) as [c|];
    try specialize (Hexact eq_refl); try lia; rewrite ?ltDE, ?gtDE; verdicts;
    try (split_and!; first [done | lia | rewrite big_dec by lia; lia]).
  all: split; unfold inRecovery, ratioAfter; rewrite ?He, ?Hc; intros; try lia; try done.
  all: match goal with
       | H : old = _emptyTrove \/ _ |- _ => destruct H; [done | lia]
       | |- _ => split_and!; try lia; apply Hkept; lia
       end.
Qed.

Lemma verdict_sound change :
  Trove.whatChanged old adjusted rate = Ok (Some change) ->
  Trove.apply old (Some change) rate = Ok new ->
  (forall t e, change = InvalidCreation t e -> t = adjusted /\ big (debt adjusted) < big LUSD_LIQUIDATION_RESERVE) ->
  exists o,
    validateTroveChange old adjusted rate sel
    = Ok (match o with
          | None => (Some change, Some (ChangeDescription (describeChange change)))
          | Some _ => (None, o)
          end) /\
    match o with Some d => truthful sel rate old adjusted new d | None => protects sel old new end.
Proof.
  intros Hw Ha Hinv. unfold validateTroveChange. rewrite Hw. cbn [bind].
  rewrite (validationContextE _ _ _ _ new) by done. cbn [bind]. fold contextOf.
  destruct change as [t e|p|p|p z].
  - destruct (Hinv t e eq_refl) as [-> Hd]. exists (Some (TotalDebtAtLeast LUSD_MINIMUM_DEBT)).
    split; [done|]. split; [done|]. destruct minimum_debts as (? & ? & ?).
    unfold Trove.apply in Ha. destruct (Trove.isEmpty old); inv_ok. lia.
  - destruct (creation_sound p Hw Ha) as (o & -> & Ho). exists o. by destruct o.
  - destruct (closure_sound p Hw Ha) as (o & -> & Ho). exists o. by destruct o.
  - destruct (adjustment_sound p z Hw Ha) as (o & -> & Ho). exists o. by destruct o.
Qed.
End verdicts.

(** C6. For a Trove that is part of the totals and a borrowing rate below 100%.  What the form
    offers leads to the edited Trove, up to one unit of rounding in the debt, and protects the
    user and the system: the user can pay for it; unless it is closed, a Trove that is opened or
    owes less than before owes the minimum debt; the last Trove is not closed; in normal mode
    the Trove ends at 110% or more and the totals at 150% or more; in recovery mode no collateral
    leaves, debt only grows in a Trove that ends at 150% or more, and the total ratio does not
    fall by more than one unit of rounding.  What is not offered is refused with a reason that is
    true, with the exact amount that is missing where one is named, or is no change.  The
    validation throws only when a Trove that owes less than the liquidation reserve is emptied. *)
Theorem offers_protect_system sel old adjusted (rate : Decimal) :
  big rate < Decimal.DIGITS ->
  big (collateral old) <= big (collateral (sel_total sel)) ->
  big (debt old) <= big (debt (sel_total sel)) ->
  match validateTroveChange old adjusted rate sel with
  | Ok (None, None) => old = adjusted
  | Ok (offered, Some description) =>
      exists change new,
        Trove.whatChanged old adjusted rate = Ok (Some change) /\
        Trove.apply old (Some change) rate = Ok new /\ roughly rate adjusted new /\
        match offered with
        | Some c => c = change /\ description = ChangeDescription (describeChange c) /\ protects sel old new
        | None => truthful sel rate old adjusted new description
        end
  | Ok (Some _, None) => False
  | Err _ =>
      adjusted = _emptyTrove /\ old <> _emptyTrove /\ big (debt old) < big LUSD_LIQUIDATION_RESERVE
  end.
Proof.
  intros Hrate Hcoll Hdebt.
  destruct (Trove.isEmpty adjusted && negb (Trove.isEmpty old) && (big (debt old) <? big LUSD_LIQUIDATION_RESERVE))
    eqn:Hthrow.
  { apply andb_true_iff in Hthrow as [[He Ho%negb_true_iff]%andb_true_iff Hd%Z.ltb_lt].
    apply isEmpty_true in He as ->. unfold validateTroveChange.
    destruct (emptying_throws old rate Ho Hd) as (text & _ & ->). cbn [bind]. split_and!; try done.
    intros ->. by rewrite (proj2 (isEmpty_true _) eq_refl) in Ho. }
  assert (Trove.isEmpty adjusted = true -> Trove.isEmpty old = false ->
          big LUSD_LIQUIDATION_RESERVE <= big (debt old)) as Hclose.
  { intros He Ho. rewrite He, Ho in Hthrow. by apply Z.ltb_ge in Hthrow. }
  destruct (trove_change_cases old adjusted rate Hclose Hrate) as (change & Hw & Hcase).
  destruct (whatChanged_leads_to old adjusted rate Hrate Hclose) as (change' & new & Hw' & Ha & Hn).
  rewrite Hw in Hw'. injection Hw' as <-. destruct change as [change|].
  - destruct (verdict_sound sel rate old adjusted new Hn Hcoll Hdebt change Hw Ha) as (o & -> & Ho).
    { intros t e ->. naive_solver. }
    destruct o; exists change, new; naive_solver.
  - unfold validateTroveChange. rewrite Hw. cbn [bind]. done.
Qed.
End offers.

(** ** Instances *)

(** A Trove of 2 BTC and 300 LUSD is edited to 2.5 BTC and 350 LUSD, which is offered; and to
    2 BTC and 2,000 LUSD, which is refused for its ratio. *)
Definition sampleGreedy : Trove := mkTrove (dec 2000000000000000000) (dec 2000000000000000000000).

Lemma offers_protect_system_witness :
  protects sampleSelected sampleOld sampleEdited /\
  exists new, truthful sampleSelected presentRate sampleOld sampleGreedy new CollateralRatioAtLeastMinimum.
Proof.
  assert (big presentRate < Decimal.DIGITS) as Hr by (vm_compute; reflexivity).
  assert (big (collateral sampleOld) <= big (collateral (sel_total sampleSelected))) as Hc by (vm_compute; discriminate).
  assert (big (debt sampleOld) <= big (debt (sel_total sampleSelected))) as Hd by (vm_compute; discriminate).
  split.
  - pose proof (offers_protect_system sampleSelected sampleOld sampleEdited presentRate Hr Hc Hd) as H.
    assert (validateTroveChange sampleOld sampleEdited presentRate sampleSelected
            = Ok (Some sampleDeposit, Some (ChangeDescription (describeChange sampleDeposit)))) as E
      by (vm_compute; reflexivity).
    rewrite E in H. destruct H as (change & new & _ & Ha & _ & <- & _ & Hp).
    assert (Trove.apply sampleOld (Some sampleDeposit) presentRate = Ok sampleEdited) as E'
      by (vm_compute; reflexivity).
    rewrite E' in Ha. injection Ha as <-. exact Hp.
  - pose proof (offers_protect_system sampleSelected sampleOld sampleGreedy presentRate Hr Hc Hd) as H.
    assert (validateTroveChange sampleOld sampleGreedy presentRate sampleSelected
            = Ok (None, Some CollateralRatioAtLeastMinimum)) as E by (vm_compute; reflexivity).
    rewrite E in H. destruct H as (change & new & _ & _ & _ & Ht). by exists new.
Defined.
