(* ===== verification/GasHistogram.v ===== *)
(** * Gas used by the fuzzer's transactions

    [packages/fuzzer/src/GasHistogram.ts]: transactions that are expected to succeed, with a
    retry when they run out of gas, or to fail; and the histogram of the gas the successful ones
    used. *)

From S2P Require Import Prelude JsString BigNumber.
From Stdlib Require Import Ascii String.
From stdpp Require Import list.

Local Open Scope string_scope.

Local Open Scope list_scope.
Local Open Scope Z_scope.

Definition intervalWidth : Z := 10000.
Definition numberOfBins : nat := 800.

(** A mined receipt: whether the transaction succeeded, and the gas it used. *)
Record MinedReceipt := mkMined { succeeded : bool; gasUsed : Z }.

(** One sending: its gas limit and its receipt, or what sending it or waiting for it throws. *)
Definition Attempt : Type := result (Z * MinedReceipt).

(** The loop of [retryUpTo]; [remaining] is [times - retries]. *)
Fixpoint retryFrom (sendTx : nat -> Attempt) (remaining retries : nat) : result (nat * MinedReceipt) :=
  let* '(gasLimit, receipt) := sendTx retries in
  if succeeded receipt || (gasUsed receipt <? gasLimit) then Ok (retries, receipt)
  else
    match remaining with
    | O => Ok (retries, receipt)
    | S remaining => retryFrom sendTx remaining (S retries)
    end.

Definition retryUpTo (times : nat) (sendTx : nat -> Attempt) : result (nat * MinedReceipt) :=
  retryFrom sendTx times 0.

Record GasHistogram := mkHistogram {
  expectedFailures : Z;
  outOfGasFailures : Z;
  gasUsedBins : list Z
}.

Definition newHistogram : GasHistogram := mkHistogram 0 0 (replicate numberOfBins 0).

Section histogram.
Context `{BN : BigNumber}.

Definition addToGasUsedHisto (h : GasHistogram) (gasUsed : Z) : result GasHistogram :=
  let* n := bn_toNumber gasUsed in
  let binIndex := Z.to_nat (n / intervalWidth) in
  guard (binIndex <? List.length (gasUsedBins h))%nat else AssertionError in
  Ok (mkHistogram (expectedFailures h) (outOfGasFailures h) (alter Z.succ binIndex (gasUsedBins h))).

(** What is counted before a failure stays counted. *)
Definition expectSuccess (h : GasHistogram) (sendTx : nat -> Attempt) : GasHistogram * result unit :=
  match retryUpTo 1 sendTx with
  | Err e => (h, Err e)
  | Ok (retries, receipt) =>
      let h := mkHistogram (expectedFailures h) (outOfGasFailures h + Z.of_nat retries) (gasUsedBins h) in
      if succeeded receipt then
        match addToGasUsedHisto h (gasUsed receipt) with
        | Ok h => (h, Ok tt)
        | Err e => (h, Err e)
        end
      else (h, Err (JsError "Transaction failed"))
  end.

Definition expectFailure {A} (h : GasHistogram) (waitForSuccess : result A) : GasHistogram * result unit :=
  match waitForSuccess with
  | Err _ => (mkHistogram (expectedFailures h + 1) (outOfGasFailures h) (gasUsedBins h), Ok tt)
  | Ok _ => (h, Err (JsError "Unexpected success"))
  end.
End histogram.

(** [findIndex(x => x > 0)] *)
Fixpoint findIndexFrom (i : Z) (l : list Z) : Z :=
  match l with
  | [] => -1
  | x :: l => if 0 <? x then i else findIndexFrom (i + 1) l
  end.
Definition findIndex (l : list Z) : Z := findIndexFrom 0 l.

(** [slice(start, end)]; negative positions count from the end. *)
Definition slice {A} (l : list A) (start stop : Z) : list A :=
  let n := Z.of_nat (List.length l) in
  let position i := if i <? 0 then Z.max 0 (n + i) else Z.min i n in
  take (Z.to_nat (position stop - position start)) (drop (Z.to_nat (position start)) l).

Definition getResults (h : GasHistogram) : list (Z * Z) :=
  let firstNonZeroIndex := findIndex (gasUsedBins h) in
  let firstNonZeroIndexFromEnd := findIndex (reverse (gasUsedBins h)) in
  imap (fun i frequency => (intervalWidth * (firstNonZeroIndex + Z.of_nat i), frequency))
    (slice (gasUsedBins h) firstNonZeroIndex
       (Z.of_nat (List.length (gasUsedBins h)) - firstNonZeroIndexFromEnd)).

(** ** What the histogram shows *)

Section counting.
Context `{BNL : BigNumberLaws}.

(** The uses of a histogram. *)
Inductive Use :=
| Succeed (sendTx : nat -> Attempt)
| Fail_ (waitForSuccess : result unit).

Definition use (h : GasHistogram) (u : Use) : GasHistogram :=
  match u with
  | Succeed sendTx => (expectSuccess h sendTx).1
  | Fail_ w => (expectFailure h w).1
  end.

(** The gas of the transaction that a use counts. *)
Definition counted (u : Use) : option Z :=
  match u with
  | Succeed sendTx =>
      match retryUpTo 1 sendTx with
      | Ok (_, receipt) =>
          if succeeded receipt && (gasUsed receipt <? 8000000) then Some (gasUsed receipt) else None
      | Err _ => None
      end
  | Fail_ _ => None
  end.

(** How many of the amounts are in an interval. *)
Definition inBin (i : nat) (g : Z) : bool := (Z.to_nat (g / intervalWidth) =? i)%nat.
Definition frequency (gs : list Z) (i : nat) : Z := Z.of_nat (List.length (List.filter (inBin i) gs)).

(** Gas is never negative. *)
Definition sensible (u : Use) : Prop :=
  match u with
  | Succeed sendTx => forall i l r, sendTx i = Ok (l, r) -> 0 <= gasUsed r
  | Fail_ _ => True
  end.

Lemma retryFrom_sensible sendTx remaining retries n r :
  sensible (Succeed sendTx) -> retryFrom sendTx remaining retries = Ok (n, r) -> 0 <= gasUsed r.
Proof.
  intros Hs. revert retries. induction remaining as [|remaining IH]; intros retries; cbn [retryFrom];
    destruct (sendTx retries) as [[l r']|] eqn:He; cbn [bind]; try done;
    destruct (succeeded r' || _); intros H; simplify_eq; eauto.
Qed.

Lemma retryFrom_retries sendTx remaining retries n r :
  retryFrom sendTx remaining retries = Ok (n, r) -> (retries <= n <= retries + remaining)%nat.
Proof.
  revert retries. induction remaining as [|remaining IH]; intros retries; cbn [retryFrom];
    destruct (sendTx retries) as [[l r']|]; cbn [bind]; try done;
    destruct (succeeded r' || _); intros H; simplify_eq; try lia. apply IH in H. lia.
Qed.

Lemma use_bins h u :
  sensible u -> List.length (gasUsedBins h) = numberOfBins ->
  gasUsedBins (use h u) =
  match counted u with
  | Some g => alter Z.succ (Z.to_nat (g / intervalWidth)) (gasUsedBins h)
  | None => gasUsedBins h
  end.
Proof.
  intros Hs Hl. destruct u as [sendTx|w]; cbn [use counted]; [|unfold expectFailure; by destruct w].
  unfold expectSuccess. destruct (retryUpTo 1 sendTx) as [[n r]|] eqn:Hr; [|done].
  pose proof (retryFrom_sensible _ _ _ _ _ Hs Hr) as Hpos.
  destruct (succeeded r); cbn [andb]; [|done].
  unfold addToGasUsedHisto. rewrite bn_toNumberE. cbn [gasUsedBins]. rewrite Hl.
  destruct (Z.ltb_spec (gasUsed r) 8000000).
  - rewrite Z.abs_eq by done. destruct (Z.ltb_spec (gasUsed r) (2 ^ 53)); [|lia]. cbn [bind].
    destruct (Nat.ltb_spec (Z.to_nat (gasUsed r / intervalWidth)) numberOfBins) as [|Hb]; [done|].
    exfalso. unfold intervalWidth, numberOfBins in *. assert (gasUsed r / 10000 < 800); [|lia].
    apply Z.div_lt_upper_bound; lia.
  - destruct (_ <? 2 ^ 53); cbn [bind]; [|done].
    destruct (Nat.ltb_spec (Z.to_nat (gasUsed r / intervalWidth)) numberOfBins) as [Hb|]; [|done].
    exfalso. unfold intervalWidth, numberOfBins in *. assert (800 <= gasUsed r / 10000); [|lia].
    apply Z.div_le_lower_bound; lia.
Qed.

(** The bins are the frequencies of what was counted. *)
Definition tallies (us : list Use) (h : GasHistogram) : Prop :=
  List.length (gasUsedBins h) = numberOfBins /\
  forall i, (i < numberOfBins)%nat -> gasUsedBins h !! i = Some (frequency (omap counted us) i).

Lemma counted_bin u g : sensible u -> counted u = Some g -> (Z.to_nat (g / intervalWidth) < numberOfBins)%nat.
Proof.
  destruct u as [sendTx|]; [|done]. intros Hs. cbn [counted].
  destruct (retryUpTo 1 sendTx) as [[n r]|] eqn:Hr; [|done].
  pose proof (retryFrom_sensible _ _ _ _ _ Hs Hr) as Hpos.
  destruct (succeeded r); cbn [andb]; [|done].
  destruct (Z.ltb_spec (gasUsed r) 8000000); [|done]. intros [= <-].
  unfold intervalWidth, numberOfBins. assert (gasUsed r / 10000 < 800); [|lia].
  apply Z.div_lt_upper_bound; lia.
Qed.

Lemma frequency_snoc gs g i : frequency (gs ++ [g]) i = frequency gs i + (if inBin i g then 1 else 0).
Proof.
  unfold frequency. rewrite List.filter_app, length_app. cbn [List.filter].
  destruct (inBin i g); cbn [List.length]; lia.
Qed.

Lemma uses_tally us : Forall sensible us -> tallies us (foldl use newHistogram us).
Proof.
  induction us as [|u us IH] using rev_ind; intros Hs.
  - split; [done|]. intros i Hi. cbn [foldl newHistogram gasUsedBins omap list_omap].
    by rewrite lookup_replicate_2.
  - apply Forall_app in Hs as [Hs [Hu _]%Forall_cons]. destruct (IH Hs) as [Hl Hbins].
    rewrite foldl_app. cbn [foldl]. set (h := foldl use newHistogram us) in *.
    unfold tallies. rewrite use_bins by done. rewrite omap_app. cbn [omap list_omap].
    destruct (counted u) as [g|] eqn:Hg; [|rewrite app_nil_r; done].
    split; [by rewrite length_alter|]. intros i Hi. rewrite frequency_snoc. unfold inBin.
    destruct (Nat.eqb_spec (Z.to_nat (g / intervalWidth)) i) as [->|Hne].
    + rewrite list_lookup_alter, Hbins by done.
      by rewrite decide_True.
    + rewrite list_lookup_alter_ne, Hbins by done. by rewrite Z.add_0_r.
Qed.

(** ** The printed intervals *)

Lemma findIndexFrom_spec i l :
  (findIndexFrom i l = -1 /\ Forall (fun x => x <= 0) l) \/
  exists l1 x l2, l = l1 ++ x :: l2 /\ Forall (fun x => x <= 0) l1 /\ 0 < x /\
    findIndexFrom i l = i + Z.of_nat (List.length l1).
Proof.
  revert i. induction l as [|x l IH]; intros i; cbn [findIndexFrom]; [by left|].
  destruct (Z.ltb_spec 0 x).
  - right. exists [], x, l. split_and!; try done. cbn. lia.
  - destruct (IH (i + 1)) as [[-> Hl]|(l1 & y & l2 & -> & Hl1 & Hy & ->)].
    + left. split; [done|]. by constructor.
    + right. exists (x :: l1), y, l2. split_and!; try done; [by constructor|]. cbn [List.length]. lia.
Qed.

(** Two ways to split a list, the first before the second. *)
Lemma app_split {A} (a b c d : list A) :
  a ++ b = c ++ d -> (List.length a <= List.length c)%nat -> exists m, c = a ++ m /\ b = m ++ d.
Proof.
  revert c. induction a as [|x a IH]; intros c; cbn.
  - intros -> _. by exists c.
  - destruct c as [|y c]; cbn; [lia|]. intros [= <- H] Hl.
    destruct (IH c H) as (m & -> & ->); [lia|]. by exists m.
Qed.

(** What [slice] keeps of a list with a positive entry: from the first to the last one. *)
Lemma slice_positive (l : list Z) :
  Exists (fun x => 0 < x) l ->
  exists l1 mid l2, l = l1 ++ mid ++ l2 /\ Forall (fun x => x <= 0) l1 /\ Forall (fun x => x <= 0) l2 /\
    findIndex l = Z.of_nat (List.length l1) /\
    slice l (findIndex l) (Z.of_nat (List.length l) - findIndex (reverse l)) = mid /\
    (exists x mid', mid = x :: mid' /\ 0 < x) /\ (exists x mid', mid = mid' ++ [x] /\ 0 < x).
Proof.
  intros Hex. unfold findIndex.
  destruct (findIndexFrom_spec 0 l) as [[_ Hno]|(l1 & x & r1 & Hl & Hl1 & Hx & ->)].
  { exfalso. rewrite Forall_forall in Hno. apply Exists_exists in Hex as (y & Hy & ?). apply Hno in Hy. lia. }
  destruct (findIndexFrom_spec 0 (reverse l)) as [[_ Hno]|(l2' & y & r2 & Hr & Hl2 & Hy & ->)].
  { exfalso. rewrite Forall_forall in Hno. apply Exists_exists in Hex as (z & Hz & ?).
    assert (z ∈ reverse l) as Hz' by by apply elem_of_reverse. apply Hno in Hz'. lia. }
  assert (l = reverse r2 ++ [y] ++ reverse l2') as Hl'.
  { rewrite <- (reverse_involutive l), Hr, reverse_app, reverse_cons, <- app_assoc. done. }
  set (l2 := reverse l2') in *.
  assert (Forall (fun x => x <= 0) l2) as Hl2'.
  { by apply Forall_reverse. }
  assert (List.length l2' = List.length l2) as -> by (unfold l2; by rewrite length_reverse).
  clearbody l2. clear Hr Hl2.
  (* the first positive entry is not behind the last one *)
  assert (List.length l1 <= List.length (reverse r2))%nat as Hle.
  { destruct (Nat.le_gt_cases (List.length l1) (List.length (reverse r2))) as [|Hlt]; [done|exfalso].
    assert (l1 !! List.length (reverse r2) = Some y) as Hin.
    { assert (l !! List.length (reverse r2) = Some y) as H1 by (rewrite Hl'; by apply list_lookup_middle).
      by rewrite Hl, lookup_app_l in H1 by lia. }
    apply list_elem_of_lookup_2 in Hin. rewrite Forall_forall in Hl1. apply Hl1 in Hin. lia. }
  destruct (app_split l1 (x :: r1) (reverse r2 ++ [y]) l2) as (m & Hm & Hrest);
    [by rewrite <- Hl, Hl', <- app_assoc | rewrite length_app; cbn; lia|].
  assert (m <> []) as Hne.
  { intros ->. apply (f_equal (@List.length Z)) in Hm. rewrite !length_app in Hm. cbn in Hm. lia. }
  exists l1, m, l2. split_and!; try done.
  - by rewrite Hl, Hrest.
  - rewrite Hl, Hrest. unfold slice. rewrite !length_app.
    destruct (Z.ltb_spec (0 + Z.of_nat (List.length l1)) 0); [lia|].
    match goal with |- context [if ?a <? 0 then _ else _] => destruct (Z.ltb_spec a 0); [lia|] end.
    rewrite !Z.min_l by lia.
    replace (Z.to_nat (0 + _)) with (List.length l1) by lia. rewrite drop_app_length.
    replace (Z.to_nat _) with (List.length m) by lia. by rewrite take_app_length.
  - destruct m as [|x' m]; [done|]. injection Hrest as <- _. by exists x, m.
  - destruct m as [|z m _] using rev_ind; [done|]. rewrite app_assoc in Hm.
    apply app_inj_tail in Hm as [_ <-]. by exists y, m.
Qed.

Lemma frequency_pos gs i : 0 < frequency gs i <-> exists g, g ∈ gs /\ Z.to_nat (g / intervalWidth) = i.
Proof.
  unfold frequency. split.
  - destruct (List.filter (inBin i) gs) as [|g gs'] eqn:Hf; cbn [List.length]; [lia|]. intros _.
    assert (List.In g (List.filter (inBin i) gs)) as [Hin Hb]%List.filter_In by (rewrite Hf; by left).
    exists g. split; [by apply list_elem_of_In|]. by apply Nat.eqb_eq.
  - intros (g & Hin & Hb). apply list_elem_of_In in Hin.
    assert (List.In g (List.filter (inBin i) gs)) as Hf by (apply List.filter_In; split; [done|by apply Nat.eqb_eq]).
    destruct (List.filter (inBin i) gs); cbn [List.length]; [done|lia].
Qed.

Lemma frequency_nonneg gs i : 0 <= frequency gs i.
Proof. unfold frequency. lia. Qed.

Lemma bin_le g g' : g <= g' -> (Z.to_nat (g / intervalWidth) <= Z.to_nat (g' / intervalWidth))%nat.
Proof. intros H. pose proof (Z.div_le_mono g g' intervalWidth eq_refl H). lia. Qed.

(** The first used bin, the last one, and what lies between. *)
Lemma printed_bins us h lo hi :
  tallies us h -> Forall sensible us ->
  lo ∈ omap counted us -> hi ∈ omap counted us -> (forall g, g ∈ omap counted us -> lo <= g <= hi) ->
  let first := Z.to_nat (lo / intervalWidth) in
  let last := Z.to_nat (hi / intervalWidth) in
  findIndex (gasUsedBins h) = Z.of_nat first /\
  slice (gasUsedBins h) (findIndex (gasUsedBins h))
    (Z.of_nat (List.length (gasUsedBins h)) - findIndex (reverse (gasUsedBins h))) =
  map (frequency (omap counted us)) (seq first (S last - first)).
Proof.
  intros [Hlen Hbins] Hs Hlo Hhi Hall first last. set (gs := omap counted us) in *.
  assert (forall g, g ∈ gs -> (Z.to_nat (g / intervalWidth) < numberOfBins)%nat) as Hbin.
  { intros g (u & Hu & Hg)%list_elem_of_omap. rewrite Forall_forall in Hs. eauto using counted_bin. }
  assert (forall i, (i < numberOfBins)%nat -> 0 < frequency gs i -> (first <= i <= last)%nat) as Hrange.
  { intros i _ (g & Hg & <-)%frequency_pos. unfold first, last. split; apply bin_le, Hall; done. }
  assert (0 < frequency gs first) as Hfirst by (apply frequency_pos; eauto).
  assert (0 < frequency gs last) as Hlast by (apply frequency_pos; eauto).
  assert (first <= last)%nat as Hfl by (unfold first, last; apply bin_le, (Hall hi Hhi)).
  destruct (slice_positive (gasUsedBins h)) as (l1 & mid & l2 & Hl & H1 & H2 & Hi & Hm & (x & m & Hx & Hxp) & (y & m' & Hy & Hyp)).
  { apply Exists_exists. exists (frequency gs first). split; [|done].
    eapply list_elem_of_lookup_2, Hbins, Hbin, Hlo. }
  rewrite Hm, Hi. rewrite Hl in Hbins, Hlen. rewrite !length_app in Hlen. rewrite Forall_forall in H1, H2.
  assert (0 < List.length mid)%nat as Hmid by (rewrite Hx; cbn; lia).
  assert (List.length l1 = first) as Hl1.
  { destruct (Nat.lt_trichotomy (List.length l1) first) as [Hlt|[?|Hgt]]; [exfalso|done|exfalso].
    - assert ((l1 ++ mid ++ l2) !! List.length l1 = Some x) as H by by (rewrite Hx; apply list_lookup_middle).
      rewrite Hbins in H by lia. injection H as H.
      specialize (Hrange (List.length l1)). lia.
    - specialize (Hbins first (Hbin lo Hlo)). rewrite lookup_app_l in Hbins by lia.
      apply list_elem_of_lookup_2, H1 in Hbins. lia. }
  assert (List.length l1 + List.length mid = S last)%nat as Hl2.
  { destruct (Nat.lt_trichotomy (List.length l1 + List.length mid) (S last)) as [Hlt|[?|Hgt]]; [exfalso|done|exfalso].
    - specialize (Hbins last (Hbin hi Hhi)). rewrite app_assoc, lookup_app_r in Hbins by (rewrite length_app; lia).
      apply list_elem_of_lookup_2, H2 in Hbins. lia.
    - assert ((l1 ++ mid ++ l2) !! (List.length l1 + List.length mid - 1)%nat = Some y) as H.
      { rewrite Hy, length_app in Hgt |- *. rewrite lookup_app_r by (cbn in *; lia). rewrite <- app_assoc.
        apply list_lookup_middle. cbn [List.length]. lia. }
      rewrite Hbins in H by lia. injection H as H.
      specialize (Hrange (List.length l1 + List.length mid - 1)%nat). lia. }
  split; [by rewrite Hl1|]. apply list_eq. intros i.
  destruct (Nat.lt_ge_cases i (List.length mid)).
  - specialize (Hbins (List.length l1 + i)%nat). rewrite lookup_app_r in Hbins by lia.
    rewrite lookup_app_l in Hbins by lia. replace (List.length l1 + i - List.length l1)%nat with i in Hbins by lia.
    rewrite Hbins by lia. rewrite list_lookup_fmap, lookup_seq_lt by lia. cbn. by rewrite Hl1.
  - rewrite lookup_ge_None_2 by lia. symmetry. apply lookup_ge_None_2. rewrite length_map, length_seq. lia.
Qed.

(** Whatever was sent: when no successful transaction was counted, the results are one entry
    for a negative amount of gas, [[-10000, 0]]; otherwise they are the intervals from the one of the
    cheapest to the one of the most expensive transaction, none left out, each with the exact
    number of transactions in it. *)
Theorem results_count_successes us :
  Forall sensible us ->
  let h := foldl use newHistogram us in
  let gs := omap counted us in
  (gs = [] -> getResults h = [(-10000, 0)]) /\
  (forall lo hi, lo ∈ gs -> hi ∈ gs -> (forall g, g ∈ gs -> lo <= g <= hi) ->
     let first := Z.to_nat (lo / intervalWidth) in
     let last := Z.to_nat (hi / intervalWidth) in
     getResults h =
     map (fun i => (intervalWidth * Z.of_nat i, frequency gs i)) (seq first (S last - first))).
Proof.
  intros Hs h gs. pose proof (uses_tally us Hs) as Ht. fold h in Ht. split.
  - intros Hgs. destruct Ht as [Hlen Hbins]. fold gs in Hbins. rewrite Hgs in Hbins.
    assert (gasUsedBins h = replicate numberOfBins 0) as Hb.
    { apply list_eq. intros i. destruct (Nat.lt_ge_cases i numberOfBins).
      - rewrite Hbins by done. by rewrite lookup_replicate_2.
      - rewrite !lookup_ge_None_2; [done|by rewrite length_replicate|by rewrite Hlen]. }
    unfold getResults. rewrite Hb. by vm_compute.
  - intros lo hi Hlo Hhi Hall first last.
    destruct (printed_bins us h lo hi Ht Hs Hlo Hhi Hall) as [Hi Hm]. fold first last gs in Hi, Hm.
    unfold getResults. rewrite Hm, Hi. clear. apply list_eq. intros i.
    rewrite list_lookup_imap, !list_lookup_fmap.
    destruct (seq first (S last - first) !! i) as [j|] eqn:Hj; [|done]. cbn.
    apply lookup_seq in Hj as [-> _]. f_equal. f_equal. lia.
Qed.
End counting.

(** Two successful transactions of different cost, and one that fails. *)
Definition exampleUses : list Use :=
  let sent g := Succeed (fun _ => Ok (3000000, mkMined true g)) in
  [sent 25000; Fail_ (Err (JsError "reverted")); sent 41000].

Lemma results_count_successes_witness :
  getResults (foldl (use (BN := ZBN)) newHistogram exampleUses) = [(20000, 1); (30000, 0); (40000, 1)].
Proof.
  destruct (results_count_successes (BNL := ZBN_laws) exampleUses) as [_ H].
  - repeat constructor; intros ? ? ? [= _ <-]; done.
  - apply (H 25000 41000); [by left|by right; left|].
    intros g Hg. change (g ∈ [25000; 41000]) in Hg. repeat (apply elem_of_cons in Hg as [->|Hg]; [lia|]). by apply not_elem_of_nil in Hg.
Defined.
