(* ===== verification/FuzzerChecks.v ===== *)
(** * The checks of the fuzzer

    [packages/fuzzer/src/utils.ts] and [commands/checks.ts]: whether the list of Troves is sorted
    by collateral ratio, whether the pools hold what the Troves add up to, and whether the subgraph
    agrees with the chain.  What the two backends answer is a record; the colouring of a line
    ([colors]) is the mark of the line. *)

From S2P Require Import Prelude JsString BigNumber Decimal DecimalArith DecimalText Constants.
From S2P Require Import Trove TroveTheory.
From Stdlib Require Import Ascii String.
From stdpp Require Import list.

Local Open Scope string_scope.
Local Open Scope list_scope.
Local Open Scope Z_scope.

(** What a backend answers. *)
Record Readable := mkReadable {
  getNumberOfTroves : result Z;
  getPrice : result Decimal;
  getTotal : result Trove;
  getTotalRedistributed : result Trove;
  getLUSDInStabilityPool : result Decimal;
  getListOfTrovesBeforeRedistribution : result (list TroveWithPendingRedistribution)
}.

(** A line of a dump, and whether it is marked. *)
Record Line := mkLine { marked : bool; text : string }.

(** An operation that prints before it returns or throws. *)
Definition Printed (A : Type) : Type := list Line * result A.

Section checks.
Context `{BN : BigNumber}.

Definition tinyDifference : Decimal := dec 1000000000.

(** ** Order *)

Fixpoint sortedFrom (currentTrove : UserTrove) (listOfTroves : list TroveWithPendingRedistribution)
    (totalRedistributed : Trove) (price : Decimalish) : result bool :=
  match listOfTroves with
  | [] => Ok true
  | next :: rest =>
      let* nextTrove := TroveWithPendingRedistribution.applyRedistribution next totalRedistributed in
      let* nextRatio := Trove.collateralRatio (ut_trove nextTrove) price in
      let* currentRatio := Trove.collateralRatio (ut_trove currentTrove) price in
      let* bound := Decimal.add currentRatio tinyDifference in
      if Decimal.gtD nextRatio bound then Ok false
      else sortedFrom nextTrove rest totalRedistributed price
  end.

Definition sortedByICR (listOfTroves : list TroveWithPendingRedistribution) (totalRedistributed : Trove)
    (price : Decimalish) : result bool :=
  match listOfTroves with
  | [] | [_] => Ok true
  | first :: rest =>
      let* currentTrove := TroveWithPendingRedistribution.applyRedistribution first totalRedistributed in
      sortedFrom currentTrove rest totalRedistributed price
  end.

(** [substr(-n)] *)
Definition lastChars (n : nat) (s : string) : string :=
  substring (String.length s - n) (String.length s) s.

Definition shortenAddress (address : string) : string :=
  take_str 6 address +:+ "..." +:+ lastChars 4 address.

Definition percentText (ratio : Decimal) : result string :=
  let* p := Percent.new ratio in Percent.toString p 2.

Definition troveToString (troveWithPendingRewards : TroveWithPendingRedistribution)
    (totalRedistributed : Trove) (price : Decimalish) : result string :=
  let own := ut_trove (p_userTrove troveWithPendingRewards) in
  let* trove := TroveWithPendingRedistribution.applyRedistribution troveWithPendingRewards totalRedistributed in
  let* rewards := Trove.subtract (ut_trove trove) own in
  let* ratio := Trove.collateralRatio (ut_trove trove) price in
  let* ownRatio := Trove.collateralRatio own price in
  let* icr := percentText ratio in
  let* icrWithout := percentText ownRatio in
  let* coll := Decimal.toString (collateral (ut_trove trove)) (Some 2) in
  let* debt_ := Decimal.toString (debt (ut_trove trove)) (Some 2) in
  let* collReward := Decimal.toString (collateral rewards) (Some 2) in
  let* debtReward := Decimal.toString (debt rewards) (Some 2) in
  Ok ("[" +:+ shortenAddress (ownerAddress (p_userTrove troveWithPendingRewards)) +:+ "]: " +:+
      "ICR = " +:+ icr +:+ ", " +:+ "ICR w/o reward = " +:+ icrWithout +:+ ", " +:+
      "coll = " +:+ coll +:+ ", " +:+ "debt = " +:+ debt_ +:+ ", " +:+
      "coll reward = " +:+ collReward +:+ ", " +:+ "debt reward = " +:+ debtReward).

(** The lines after the first; what was printed before a failure stays. *)
Fixpoint dumpFrom (currentTrove : TroveWithPendingRedistribution)
    (listOfTroves : list TroveWithPendingRedistribution) (totalRedistributed : Trove) (price : Decimalish) :
    Printed unit :=
  match listOfTroves with
  | [] => ([], Ok tt)
  | nextTrove :: rest =>
      match
        (let* next := TroveWithPendingRedistribution.applyRedistribution nextTrove totalRedistributed in
         let* nextRatio := Trove.collateralRatio (ut_trove next) price in
         let* bound := Decimal.sub nextRatio tinyDifference in
         let* current := TroveWithPendingRedistribution.applyRedistribution currentTrove totalRedistributed in
         let* currentRatio := Trove.collateralRatio (ut_trove current) price in
         let* t := troveToString nextTrove totalRedistributed price in
         let mark := Decimal.gtD bound currentRatio in
         Ok (mkLine mark ((if mark then "!! " else "   ") +:+ t)))
      with
      | Err e => ([], Err e)
      | Ok line =>
          let '(lines, r) := dumpFrom nextTrove rest totalRedistributed price in (line :: lines, r)
      end
  end.

Definition dumpTroves (listOfTroves : list TroveWithPendingRedistribution) (totalRedistributed : Trove)
    (price : Decimalish) : Printed unit :=
  match listOfTroves with
  | [] => ([], Ok tt)
  | currentTrove :: rest =>
      match troveToString currentTrove totalRedistributed price with
      | Err e => ([], Err e)
      | Ok t =>
          let '(lines, r) := dumpFrom currentTrove rest totalRedistributed price in
          (mkLine false ("   " +:+ t) :: lines, r)
      end
  end.

(** Prints, then goes on. *)
Definition andThen {A B} (p : Printed A) (k : A -> Printed B) : Printed B :=
  let '(lines, r) := p in
  match r with
  | Err e => (lines, Err e)
  | Ok a => let '(lines', r) := k a in (lines ++ lines', r)
  end.
Definition say (s : string) : Printed unit := ([mkLine false s], Ok tt).
Definition fail {A} (s : string) : Printed A := ([], Err (JsError s)).
Definition lift {A} (r : result A) : Printed A := ([], r).

Definition checkTroveOrdering (listOfTroves : list TroveWithPendingRedistribution) (totalRedistributed : Trove)
    (price : Decimal) (previousListOfTroves : option (list TroveWithPendingRedistribution)) : Printed unit :=
  andThen (lift (sortedByICR listOfTroves totalRedistributed price)) (fun sorted =>
  if sorted then ([], Ok tt)
  else
    andThen
      match previousListOfTroves with
      | Some previous =>
          andThen (say "") (fun _ => andThen (say "// List of Troves before:") (fun _ =>
          andThen (dumpTroves previous totalRedistributed price) (fun _ =>
          andThen (say "") (fun _ => say "// List of Troves after:"))))
      | None => ([], Ok tt)
      end (fun _ =>
    andThen (dumpTroves listOfTroves totalRedistributed price) (fun _ => fail "ordering is broken"))).

(** ** Lists of Troves *)

Definition listDifference (listA listB : list string) : list string :=
  List.filter (fun x => negb (bool_decide (x ∈ listB))) listA.

Definition owner (t : TroveWithPendingRedistribution) : string := ownerAddress (p_userTrove t).

(** [new Map(...)]: of two entries with a key the later one stays. *)
Definition troveMap (l : list TroveWithPendingRedistribution) : gmap string TroveWithPendingRedistribution :=
  foldl (fun m t => <[owner t := t]> m) ∅ l.

Definition sameTrove (mapB : gmap string TroveWithPendingRedistribution) (troveA : TroveWithPendingRedistribution) :
    result unit :=
  match mapB !! owner troveA with
  | None => Err (JsError (owner troveA +:+ " has no trove in listB"))
  | Some troveB =>
      guard TroveWithPendingRedistribution.equals troveA troveB
        else JsError (owner troveA +:+ " has different troves in listA & listB") in Ok tt
  end.

Definition listOfTrovesShouldBeEqual (listA listB : list TroveWithPendingRedistribution) : result unit :=
  guard (List.length listA =? List.length listB)%nat else JsError "length of trove lists is different" in
  let* _ := traverse (sameTrove (troveMap listB)) listA in Ok tt.

(** ** Pools *)

(** [diff.absoluteValue?.lt(tinyDifference)] *)
Definition isTiny (d1 d2 : Decimal) : result bool :=
  let* diff := Difference.between (Some (FromDecimal d1)) (Some (FromDecimal d2)) in
  Ok match Difference.absoluteValue diff with Some a => Decimal.ltD a tinyDifference | None => false end.

Definition addTotals (totals : Trove * Trove) (troveActive : TroveWithPendingRedistribution)
    (totalRedistributed : Trove) : result (Trove * Trove) :=
  let '(activeTotal, defaultTotal) := totals in
  let own := ut_trove (p_userTrove troveActive) in
  let* troveTotal := TroveWithPendingRedistribution.applyRedistribution troveActive totalRedistributed in
  let* troveDefault := Trove.subtract (ut_trove troveTotal) own in
  let* activeTotal := Trove.add activeTotal own in
  let* defaultTotal := Trove.add defaultTotal troveDefault in
  Ok (activeTotal, defaultTotal).

Definition poolTotals (listOfTroves : list TroveWithPendingRedistribution) (totalRedistributed : Trove) :
    result (Trove * Trove) :=
  foldl (fun totals t => let* totals := totals in addTotals totals t totalRedistributed)
    (Ok (_emptyTrove, _emptyTrove)) listOfTroves.

Definition checkPoolBalances (activePool defaultPool : Trove)
    (listOfTroves : list TroveWithPendingRedistribution) (totalRedistributed : Trove) : Printed unit :=
  andThen (lift
    (let* '(activeTotal, defaultTotal) := poolTotals listOfTroves totalRedistributed in
     let* diff1 := isTiny (collateral activePool) (collateral activeTotal) in
     let* diff2 := isTiny (debt activePool) (debt activeTotal) in
     let* diff3 := isTiny (collateral defaultPool) (collateral defaultTotal) in
     let* diff4 := isTiny (debt defaultPool) (debt defaultTotal) in
     Ok (activeTotal, defaultTotal, diff1 && diff2 && diff3 && diff4)))
    (fun '(activeTotal, defaultTotal, agree) =>
     if agree then ([], Ok tt)
     else
       andThen (lift
         (let* a := Trove.toString activePool in let* b := Trove.toString activeTotal in
          let* c := Trove.toString defaultPool in let* d := Trove.toString defaultTotal in
          Ok [""; "  ActivePool:    " +:+ a; "  Total active:  " +:+ b; "";
              "  DefaultPool:   " +:+ c; "  Total default: " +:+ d; ""]))
         (fun lines => (map (mkLine false) lines, Err (JsError "discrepancy between Troves & Pools")))).

(** ** The subgraph *)

Definition trovesRoughlyEqual (troveA troveB : Trove) : result bool :=
  let* c := isTiny (collateral troveA) (collateral troveB) in
  if c then isTiny (debt troveA) (debt troveB) else Ok false.

(** [rest.every(b => this.equals(a, b))] *)
Fixpoint everyEqual {T} (equals : T -> T -> result bool) (a : T) (rest : list T) : result bool :=
  match rest with
  | [] => Ok true
  | b :: rest => let* e := equals a b in if e then everyEqual equals a rest else Ok false
  end.

(** [EqualityCheck] *)
Definition allEqual {T} (name : string) (get : Readable -> result T) (equals : T -> T -> result bool)
    (liquities : list Readable) : result unit :=
  let* values := traverse get liquities in
  match values with
  | [] => Ok tt
  | a :: rest =>
      let* e := everyEqual equals a rest in
      guard e else JsError ("Mismatch in " +:+ name) in Ok tt
  end.

Definition checks (liquities : list Readable) : result unit :=
  let* _ := allEqual "numberOfTroves" getNumberOfTroves (fun a b => Ok (a =? b)) liquities in
  let* _ := allEqual "price" getPrice (fun a b => Ok (Decimal.eqD a b)) liquities in
  let* _ := allEqual "total" getTotal trovesRoughlyEqual liquities in
  let* _ := allEqual "totalRedistributed" getTotalRedistributed (fun a b => Ok (Trove.equals a b)) liquities in
  allEqual "tokensInStabilityPool" getLUSDInStabilityPool (fun a b => Ok (Decimal.eqD a b)) liquities.

Definition checkSubgraph (subgraph l1Liquity : Readable) : Printed unit :=
  andThen (lift
    (let* _ := checks [subgraph; l1Liquity] in
     let* l1ListOfTroves := getListOfTrovesBeforeRedistribution l1Liquity in
     let* subgraphListOfTroves := getListOfTrovesBeforeRedistribution subgraph in
     let* _ := listOfTrovesShouldBeEqual l1ListOfTroves subgraphListOfTroves in
     let* totalRedistributed := getTotalRedistributed subgraph in
     let* price := getPrice subgraph in
     let* sorted := sortedByICR subgraphListOfTroves totalRedistributed price in
     Ok (subgraphListOfTroves, totalRedistributed, price, sorted)))
    (fun '(subgraphListOfTroves, totalRedistributed, price, sorted) =>
     if sorted : bool then ([], Ok tt)
     else
       andThen (say "") (fun _ => andThen (say "// List of Troves returned by subgraph:") (fun _ =>
       andThen (dumpTroves subgraphListOfTroves totalRedistributed price) (fun _ =>
       fail "subgraph sorting broken")))).

(** ** Commands *)

Definition checkSorting (deployerLiquity : Readable) : Printed unit :=
  andThen (lift (getListOfTrovesBeforeRedistribution deployerLiquity)) (fun listOfTroves =>
  andThen (lift (getTotalRedistributed deployerLiquity)) (fun totalRedistributed =>
  andThen (lift (getPrice deployerLiquity)) (fun price =>
  andThen (checkTroveOrdering listOfTroves totalRedistributed price None) (fun _ =>
  say "All Troves are sorted.")))).

Definition checkSubgraphCmd (subgraph deployerLiquity : Readable) : Printed unit :=
  andThen (checkSubgraph subgraph deployerLiquity) (fun _ => say "Subgraph looks fine.").

Definition dumpTrovesCmd (deployerLiquity : Readable) : Printed unit :=
  andThen (lift (getListOfTrovesBeforeRedistribution deployerLiquity)) (fun listOfTroves =>
  andThen (lift (getTotalRedistributed deployerLiquity)) (fun totalRedistributed =>
  andThen (lift (getPrice deployerLiquity)) (fun price =>
  dumpTroves listOfTroves totalRedistributed price))).
End checks.

(** ** What a passed check means *)

Section meaning.
Context `{BNL : BigNumberLaws}.
Implicit Types t : TroveWithPendingRedistribution.

Definition own t : Trove := ut_trove (p_userTrove t).

(** A Trove's share of the redistributions. *)
Definition pendingCollateral (total : Trove) t : Z :=
  share (collateral total) (collateral (snapshotOfTotalRedistributed t)) (stake t).
Definition pendingDebt (total : Trove) t : Z :=
  share (debt total) (debt (snapshotOfTotalRedistributed t)) (stake t).

Definition applied (total : Trove) t : Trove :=
  mkTrove (dec (big (collateral (own t)) + pendingCollateral total t))
          (dec (big (debt (own t)) + pendingDebt total t)).

Lemma appliedE t total :
  TroveWithPendingRedistribution.applyRedistribution t total
  = Ok (mkUserTrove (applied total t) (owner t) (status (p_userTrove t))).
Proof. apply applyRedistributionE. Qed.

(** The ratio with the redistributions. *)
Definition icr (total : Trove) (price : Decimal) t : Z := ratio (applied total t) price.

Lemma icr_nonneg total price t : 0 <= icr total price t.
Proof. apply ratio_nonneg. Qed.

(** Each number is at most a hair above the one before. *)
Fixpoint nearlyDescending (l : list Z) : bool :=
  match l with
  | a :: (b :: _) as l' => (b <=? a + big tinyDifference) && nearlyDescending l'
  | _ => true
  end.

Lemma sortedFromE u l total (price : Decimal) :
  sortedFrom u l total price
  = Ok (nearlyDescending (ratio (ut_trove u) price :: map (icr total price) l)).
Proof.
  revert u. induction l as [|t l IH]; intros u; cbn [sortedFrom]; [done|].
  rewrite appliedE. cbn [bind ut_trove]. rewrite !collateralRatioE. cbn [bind]. rewrite addE. cbn [bind].
  rewrite gtDE. pose proof (ratio_nonneg (ut_trove u) price). pose proof (icr_nonneg total price t).
  pose proof (big_nonneg tinyDifference).
  rewrite !(big_dec (ratio _ _)), (big_dec (_ + _)); rewrite ?(big_dec (ratio _ _)); try (done || lia);
    try apply ratio_nonneg.
  cbn [map nearlyDescending]. fold (icr total price t).
  destruct (Z.ltb_spec (ratio (ut_trove u) price + big tinyDifference) (icr total price t)).
  - destruct (Z.leb_spec (icr total price t) (ratio (ut_trove u) price + big tinyDifference)); [lia|done].
  - destruct (Z.leb_spec (icr total price t) (ratio (ut_trove u) price + big tinyDifference)); [|lia].
    by rewrite IH.
Qed.

Lemma sortedByICRE l total (price : Decimal) :
  sortedByICR l total price = Ok (nearlyDescending (map (icr total price) l)).
Proof.
  destruct l as [|t [|t' l]]; [done..|]. unfold sortedByICR. rewrite appliedE. cbn [bind]. by rewrite sortedFromE.
Qed.

(** A dump that gets to its end has marked a line exactly when the list is not sorted. *)
Lemma dumpFrom_marks t l total (price : Decimal) lines :
  dumpFrom t l total price = (lines, Ok tt) ->
  existsb marked lines = negb (nearlyDescending (map (icr total price) (t :: l))).
Proof.
  revert t lines. induction l as [|t' l IH]; intros t lines; cbn [dumpFrom]; [by intros [= <-]|].
  rewrite !appliedE. cbn [bind ut_trove]. rewrite !collateralRatioE. cbn [bind].
  fold (icr total price t) (icr total price t').
  destruct (Decimal.sub _ _) as [bound|] eqn:Hsub; cbn [bind]; [|done].
  destruct (troveToString t' total price) as [s|]; cbn [bind]; [|done].
  destruct (dumpFrom t' l total price) as [rest r] eqn:Hrest. intros [= <- ->].
  apply IH in Hrest. cbn [existsb marked map nearlyDescending] in *. rewrite Hrest, negb_andb. f_equal.
  assert (big tinyDifference <= icr total price t' /\ big bound = icr total price t' - big tinyDifference) as [Hle Hb].
  { destruct (Z.le_gt_cases (big tinyDifference) (icr total price t')).
    - rewrite subE in Hsub by (rewrite big_dec by apply icr_nonneg; done). injection Hsub as <-.
      split; [done|]. rewrite !big_dec; rewrite ?big_dec; try apply icr_nonneg; lia.
    - exfalso. unfold Decimal.sub, Decimal.new in Hsub. cbn [Decimal.from bind] in Hsub.
      autorewrite with bn in Hsub. rewrite big_dec in Hsub by apply icr_nonneg.
      destruct (Z.ltb_spec (icr total price t' - big tinyDifference) 0); [done|lia]. }
  rewrite gtDE, (big_dec (icr _ _ _)), Hb by apply icr_nonneg.
  destruct (Z.ltb_spec (icr total price t) (icr total price t' - big tinyDifference)),
    (Z.leb_spec (icr total price t') (icr total price t + big tinyDifference)); done || lia.
Qed.

Lemma dump_marks l total (price : Decimal) lines :
  dumpTroves l total price = (lines, Ok tt) ->
  existsb marked lines = negb (nearlyDescending (map (icr total price) l)).
Proof.
  destruct l as [|t l]; cbn [dumpTroves]; [by intros [= <-]|].
  destruct (troveToString t total price) as [s|]; [|done].
  destruct (dumpFrom t l total price) as [rest r] eqn:Hrest. intros [= <- ->].
  by apply dumpFrom_marks in Hrest.
Qed.

(** *** Amounts *)

(** An amount below the one that stands for infinity. *)
Definition finite (d : Decimal) : Prop := big d < 2 ^ 256 - 1.

Lemma isTinyE d1 d2 :
  finite d1 -> finite d2 -> isTiny d1 d2 = Ok (Z.abs (big d1 - big d2) <? big tinyDifference).
Proof.
  intros H1 H2. unfold isTiny, Difference.between. cbn [Decimal.from bind].
  assert (forall d, finite d -> Decimal.infinite d = None) as Hinf.
  { intros d Hd. unfold Decimal.infinite. rewrite eqDE.
    destruct (Z.eqb_spec (big d) (big Decimal.INFINITY)) as [He|]; [|done].
    unfold finite in Hd. rewrite He in Hd. by vm_compute in Hd. }
  rewrite !Hinf by done. rewrite !gtDE.
  destruct (Z.ltb_spec (big d2) (big d1)); [|destruct (Z.ltb_spec (big d1) (big d2))]; cbn [bind].
  - rewrite subE by lia. cbn [bind Difference.absoluteValue fmap option_fmap option_map absValue].
    rewrite ltDE, big_dec by lia. by rewrite Z.abs_eq by lia.
  - rewrite subE by lia. cbn [bind Difference.absoluteValue fmap option_fmap option_map absValue].
    rewrite ltDE, big_dec by lia. do 2 f_equal. lia.
  - cbn [Difference.absoluteValue fmap option_fmap option_map absValue]. rewrite ltDE. do 2 f_equal.
    change (big Decimal.ZERO) with 0. lia.
Qed.

Definition sum (f : TroveWithPendingRedistribution -> Z) (l : list TroveWithPendingRedistribution) : Z :=
  foldr (fun t z => f t + z) 0 l.

Definition troveOf (c d : Z) : Trove := mkTrove (dec c) (dec d).

Lemma add_trove_dec c d c' d' :
  0 <= c -> 0 <= d -> 0 <= c' -> 0 <= d' ->
  Trove.add (troveOf c d) (troveOf c' d') = Ok (troveOf (c + c') (d + d')).
Proof. intros. rewrite add_troveE. cbn [collateral debt troveOf]. by rewrite !big_dec by done. Qed.

Lemma pending_nonneg total t : 0 <= pendingCollateral total t /\ 0 <= pendingDebt total t.
Proof. split; apply share_nonneg. Qed.

Lemma addTotalsE c d c' d' t total :
  0 <= c -> 0 <= d -> 0 <= c' -> 0 <= d' ->
  addTotals (troveOf c d, troveOf c' d') t total
  = Ok (troveOf (c + big (collateral (own t))) (d + big (debt (own t))),
        troveOf (c' + pendingCollateral total t) (d' + pendingDebt total t)).
Proof.
  intros. unfold addTotals. rewrite appliedE. cbn [bind ut_trove]. fold (own t).
  pose proof (pending_nonneg total t) as [? ?].
  assert (Trove.subtract (applied total t) (own t)
          = Ok (troveOf (pendingCollateral total t) (pendingDebt total t))) as ->.
  { rewrite subtract_troveE. unfold applied, troveOf. cbn [collateral debt].
    rewrite !big_dec by blia. do 3 f_equal; lia. }
  cbn [bind]. rewrite add_trove_dec by done.
  replace (Trove.add (troveOf c d) (own t))
    with (Ok (troveOf (c + big (collateral (own t))) (d + big (debt (own t))))); [done|].
  rewrite add_troveE. cbn [collateral debt troveOf]. by rewrite !big_dec by done.
Qed.

Lemma poolTotals_from l c d c' d' total :
  0 <= c -> 0 <= d -> 0 <= c' -> 0 <= d' ->
  foldl (fun totals t => let* totals := totals in addTotals totals t total)
    (Ok (troveOf c d, troveOf c' d')) l
  = Ok (troveOf (c + sum (fun t => big (collateral (own t))) l) (d + sum (fun t => big (debt (own t))) l),
        troveOf (c' + sum (pendingCollateral total) l) (d' + sum (pendingDebt total) l)).
Proof.
  unfold sum. revert c d c' d'. induction l as [|t l IH]; intros c d c' d' Hc Hd Hc' Hd'; cbn [foldl foldr].
  { by rewrite !Z.add_0_r. }
  cbn [bind]. rewrite addTotalsE by done. pose proof (pending_nonneg total t) as [? ?].
  rewrite IH by blia. by rewrite !Z.add_assoc.
Qed.

(** What the pools should hold. *)
Definition ownTotal (l : list TroveWithPendingRedistribution) : Trove :=
  troveOf (sum (fun t => big (collateral (own t))) l) (sum (fun t => big (debt (own t))) l).
Definition pendingTotal (total : Trove) (l : list TroveWithPendingRedistribution) : Trove :=
  troveOf (sum (pendingCollateral total) l) (sum (pendingDebt total) l).

Lemma poolTotalsE l total : poolTotals l total = Ok (ownTotal l, pendingTotal total l).
Proof. unfold poolTotals. change _emptyTrove with (troveOf 0 0). by rewrite poolTotals_from. Qed.

Definition finiteTrove (a : Trove) : Prop := finite (collateral a) /\ finite (debt a).

(** Both amounts differ by less than the tolerance. *)
Definition close (a b : Trove) : Prop :=
  Z.abs (big (collateral a) - big (collateral b)) < big tinyDifference /\
  Z.abs (big (debt a) - big (debt b)) < big tinyDifference.

Lemma roughlyE a b :
  finiteTrove a -> finiteTrove b ->
  exists e, trovesRoughlyEqual a b = Ok e /\ (e = true <-> close a b).
Proof.
  intros [? ?] [? ?]. unfold trovesRoughlyEqual, close. rewrite !isTinyE by done. cbn [bind].
  destruct (Z.ltb_spec (Z.abs (big (collateral a) - big (collateral b))) (big tinyDifference));
    eexists; (split; [done|]); rewrite ?Z.ltb_lt; intuition (lia || done).
Qed.

Lemma checkPoolBalancesE activePool defaultPool l total :
  finiteTrove activePool -> finiteTrove defaultPool -> finiteTrove (ownTotal l) -> finiteTrove (pendingTotal total l) ->
  (checkPoolBalances activePool defaultPool l total).2 = Ok tt <->
  close activePool (ownTotal l) /\ close defaultPool (pendingTotal total l).
Proof.
  intros [? ?] [? ?] [? ?] [? ?]. unfold checkPoolBalances, lift. rewrite poolTotalsE. cbn [bind].
  rewrite !isTinyE by done. cbn [bind andThen]. unfold close.
  rewrite <- !Z.ltb_lt. destruct (_ <? _), (_ <? _), (_ <? _), (_ <? _); cbn [andb];
    try (split; [|intuition done]; cbn; destruct (bind _ _); done); by cbn.
Qed.

(** *** Lists *)

Lemma pending_equals a b : TroveWithPendingRedistribution.equals a b = true <-> a = b.
Proof.
  unfold TroveWithPendingRedistribution.equals, UserTrove.equals.
  rewrite !andb_true_iff, !equals_true, eqD_true, String.eqb_eq, bool_decide_eq_true.
  split; [|by intros ->]. destruct a as [[] ? ?], b as [[] ? ?]; cbn. naive_solver.
Qed.

Lemma troveMap_snoc l t : troveMap (l ++ [t]) = <[owner t := t]> (troveMap l).
Proof. unfold troveMap. by rewrite foldl_app. Qed.

Lemma troveMap_in l k t : troveMap l !! k = Some t -> t ∈ l /\ owner t = k.
Proof.
  induction l as [|t' l IH] using rev_ind; [done|]. rewrite troveMap_snoc.
  destruct (decide (owner t' = k)) as [<-|Hne].
  - rewrite lookup_insert_eq. intros [= <-]. set_solver.
  - rewrite lookup_insert_ne by done. intros [? ?]%IH. set_solver.
Qed.

Lemma troveMap_found l t : NoDup (map owner l) -> t ∈ l -> troveMap l !! owner t = Some t.
Proof.
  induction l as [|t' l IH] using rev_ind; intros Hd Ht; [by apply not_elem_of_nil in Ht|].
  rewrite map_app in Hd. apply NoDup_app in Hd as (Hd & Hnew & _). rewrite troveMap_snoc.
  apply elem_of_app in Ht as [Ht| ->%list_elem_of_singleton]; [|by rewrite lookup_insert_eq].
  rewrite lookup_insert_ne; [by apply IH|]. intros Heq.
  assert (owner t ∈ map owner l) as Hin by (apply list_elem_of_fmap; eauto).
  apply (Hnew _ Hin). cbn [map]. rewrite Heq. set_solver.
Qed.

Lemma sameTroveE m t : sameTrove m t = Ok tt <-> m !! owner t = Some t.
Proof.
  unfold sameTrove. destruct (m !! owner t) as [t'|]; [|done].
  destruct (TroveWithPendingRedistribution.equals t t') eqn:He.
  - apply pending_equals in He as ->. done.
  - split; [done|]. intros [= ->]. by rewrite (proj2 (pending_equals t t) eq_refl) in He.
Qed.

Lemma traverse_all {A} (f : A -> result unit) l :
  (exists us, traverse f l = Ok us) <-> Forall (fun a => f a = Ok tt) l.
Proof.
  induction l as [|a l IH]; cbn [traverse]; [split; [constructor|by exists []]|]. rewrite Forall_cons, <- IH.
  destruct (f a) as [[]|]; cbn [bind]; [|naive_solver].
  destruct (traverse f l); cbn [bind]; naive_solver.
Qed.

(** The same Troves, in any order: the chain has one Trove per owner. *)
Lemma listsE listA listB :
  NoDup (map owner listA) -> listOfTrovesShouldBeEqual listA listB = Ok tt <-> listA ≡ₚ listB.
Proof.
  intros Hd. unfold listOfTrovesShouldBeEqual. split.
  - destruct (Nat.eqb_spec (List.length listA) (List.length listB)) as [Hl|]; [|done].
    destruct (traverse _ _) as [us|] eqn:Ht; [|done]. intros _.
    assert (Forall (fun t => sameTrove (troveMap listB) t = Ok tt) listA) as Hall by (apply traverse_all; eauto).
    apply NoDup_Permutation_bis.
    + apply NoDup_ListNoDup. by apply NoDup_fmap_1 in Hd.
    + lia.
    + intros t Ht'%list_elem_of_In. rewrite Forall_forall in Hall. apply list_elem_of_In.
      by apply Hall, sameTroveE, troveMap_in in Ht' as [? _].
  - intros Hp. rewrite (Permutation_length Hp), Nat.eqb_refl.
    destruct (proj2 (traverse_all (sameTrove (troveMap listB)) listA)) as [us ->]; [|done].
    apply Forall_forall. intros t Ht. apply sameTroveE, troveMap_found; [|by rewrite <- Hp].
    assert (map owner listA ≡ₚ map owner listB) as <- by by apply (fmap_Permutation owner). done.
Qed.

(** ** The theorems *)

Record Answers := mkAnswers {
  a_number : Z; a_price : Decimal; a_total : Trove; a_redistributed : Trove; a_lusd : Decimal;
  a_troves : list TroveWithPendingRedistribution
}.
Definition answer (a : Answers) : Readable :=
  mkReadable (Ok (a_number a)) (Ok (a_price a)) (Ok (a_total a)) (Ok (a_redistributed a)) (Ok (a_lusd a))
    (Ok (a_troves a)).

(** What the subgraph and the chain must answer. *)
Definition agree (s c : Answers) : Prop :=
  a_number s = a_number c /\ a_price s = a_price c /\ close (a_total s) (a_total c) /\
  a_redistributed s = a_redistributed c /\ a_lusd s = a_lusd c /\ a_troves s ≡ₚ a_troves c /\
  nearlyDescending (map (icr (a_redistributed s) (a_price s)) (a_troves s)) = true.

Lemma allEqual_two {T} name (get : Readable -> result T) equals r1 r2 a b e :
  get r1 = Ok a -> get r2 = Ok b -> equals a b = Ok e ->
  allEqual name get equals [r1; r2] = if e then Ok tt else Err (JsError ("Mismatch in " +:+ name)).
Proof.
  intros H1 H2 He. unfold allEqual. cbn [traverse]. rewrite H1, H2. cbn [bind everyEqual]. rewrite He.
  cbn [bind]. by destruct e.
Qed.

Lemma checksE s c :
  finiteTrove (a_total s) -> finiteTrove (a_total c) ->
  checks [answer s; answer c] = Ok tt <->
  a_number s = a_number c /\ a_price s = a_price c /\ close (a_total s) (a_total c) /\
  a_redistributed s = a_redistributed c /\ a_lusd s = a_lusd c.
Proof.
  intros Hs Hc. destruct (roughlyE _ _ Hs Hc) as (e & He & Hclose). unfold checks.
  rewrite (allEqual_two _ getNumberOfTroves _ (answer s) (answer c) _ _ _ eq_refl eq_refl eq_refl).
  rewrite (allEqual_two _ getPrice _ (answer s) (answer c) _ _ _ eq_refl eq_refl eq_refl).
  rewrite (allEqual_two _ getTotal _ (answer s) (answer c) _ _ _ eq_refl eq_refl He).
  rewrite (allEqual_two _ getTotalRedistributed _ (answer s) (answer c) _ _ _ eq_refl eq_refl eq_refl).
  rewrite (allEqual_two _ getLUSDInStabilityPool _ (answer s) (answer c) _ _ _ eq_refl eq_refl eq_refl).
  rewrite <- Hclose, <- !eqD_true, <- equals_true, <- Z.eqb_eq.
  destruct (_ =? _), (Decimal.eqD (a_price s) _), e, (Trove.equals _ _), (Decimal.eqD (a_lusd s) _);
    cbn [bind]; intuition done.
Qed.

(** C39. The comparison of the subgraph with the chain passes exactly when the numbers of Troves, the
    prices, the redistributed amounts and the LUSD in the Stability Pool are equal, the totals
    differ by less than the tolerance, both know the same Troves, and no Trove in the subgraph's
    order has a collateral ratio more than the tolerance above the one before it. *)
Theorem subgraph_check s c :
  finiteTrove (a_total s) -> finiteTrove (a_total c) -> NoDup (map owner (a_troves c)) ->
  (checkSubgraph (answer s) (answer c)).2 = Ok tt <-> agree s c.
Proof.
  intros Hs Hc Hd. pose proof (checksE s c Hs Hc) as Hchecks. pose proof (listsE _ (a_troves s) Hd) as Hlists.
  unfold checkSubgraph, lift. destruct (checks _) as [[]|e].
  2:{ split; [done|]. intros (?&?&?&?&?&_). assert (Err e = Ok tt); [|done]. by apply Hchecks. }
  cbn [bind answer getListOfTrovesBeforeRedistribution getTotalRedistributed getPrice].
  destruct (listOfTrovesShouldBeEqual _ _) as [[]|e].
  2:{ split; [done|]. intros (_&_&_&_&_&?&_). assert (Err e = Ok tt); [|done]. by apply Hlists. }
  cbn [bind]. rewrite sortedByICRE. cbn [bind andThen].
  destruct (proj1 Hchecks eq_refl) as (?&?&?&?&?). pose proof (proj1 Hlists eq_refl).
  unfold agree. destruct (nearlyDescending _).
  - split; [|done]. intros _. by split_and!.
  - split; [|intuition done]. unfold andThen, say, fail.
    destruct (dumpTroves _ _ _) as [lines []]; done.
Qed.

(** After every operation of a run: the check of the order passes exactly when no Trove
    has a ratio more than the tolerance above the one before it, and a dump that gets to its end
    marks a line exactly when that check fails; the check of the pools passes exactly
    when both pools hold, up to the tolerance, what the Troves and their shares of the
    redistributions add up to. *)
Theorem round_checks activePool defaultPool l total (price : Decimal) previous :
  finiteTrove activePool -> finiteTrove defaultPool -> finiteTrove (ownTotal l) -> finiteTrove (pendingTotal total l) ->
  ((checkTroveOrdering l total price previous).2 = Ok tt <->
   nearlyDescending (map (icr total price) l) = true) /\
  (forall lines, dumpTroves l total price = (lines, Ok tt) ->
   existsb marked lines = negb (nearlyDescending (map (icr total price) l))) /\
  ((checkPoolBalances activePool defaultPool l total).2 = Ok tt <->
   close activePool (ownTotal l) /\ close defaultPool (pendingTotal total l)).
Proof.
  intros H1 H2 H3 H4. split; [|split; [intros; by apply dump_marks|by apply checkPoolBalancesE]].
  unfold checkTroveOrdering, lift. rewrite sortedByICRE. cbn [andThen].
  destruct (nearlyDescending _); [done|]. split; [|done]. unfold andThen, fail, say.
  destruct previous as [previous|]; [destruct (dumpTroves previous _ _) as [? []]; [|done]|];
    destruct (dumpTroves l _ _) as [? []]; done.
Qed.
End meaning.

(** The tolerance is what its initialiser evaluates to. *)
Lemma tinyDifference_init `{BNL : BigNumberLaws} : Decimal.from (FromString "0.000000001") = Ok tinyDifference.
Proof. read (Literal "0" (Some "000000001") None). Qed.

(** Two Troves; the redistributions since the second was touched have gone to it. *)
Definition exampleTroves : list TroveWithPendingRedistribution :=
  let ether n := dec (n * 1000000000000000000) in
  [mkPending (mkUserTrove (mkTrove (ether 3) (ether 200)) "0xaaaaaaaaaa" open) (ether 3) (mkTrove (ether 1) (ether 100));
   mkPending (mkUserTrove (mkTrove (ether 2) (ether 200)) "0xbbbbbbbbbb" open) (ether 2) _emptyTrove].

Definition exampleAnswers (l : list TroveWithPendingRedistribution) : Answers :=
  let ether n := dec (n * 1000000000000000000) in
  mkAnswers 2 (ether 200) (mkTrove (ether 7) (ether 600)) (mkTrove (ether 1) (ether 100)) (ether 50) l.

Lemma subgraph_check_witness :
  (checkSubgraph (BN := ZBN) (answer (exampleAnswers exampleTroves))
     (answer (exampleAnswers (reverse exampleTroves)))).2 = Ok tt /\
  agree (exampleAnswers exampleTroves) (exampleAnswers (reverse exampleTroves)).
Proof.
  assert (agree (exampleAnswers exampleTroves) (exampleAnswers (reverse exampleTroves))) as Ha.
  { split_and!; try done; try by (vm_compute; done). apply Permutation_swap. }
  split; [|exact Ha]. apply (subgraph_check (BNL := ZBN_laws)); [by vm_compute..| |exact Ha].
  apply (bool_decide_unpack _). by vm_compute.
Defined.

Lemma round_checks_witness :
  (checkTroveOrdering (BN := ZBN) exampleTroves (a_redistributed (exampleAnswers [])) (a_price (exampleAnswers [])) None).2
  = Ok tt.
Proof.
  destruct (round_checks (BNL := ZBN_laws) (ownTotal exampleTroves)
    (pendingTotal (a_redistributed (exampleAnswers [])) exampleTroves) exampleTroves
    (a_redistributed (exampleAnswers [])) (a_price (exampleAnswers [])) None) as (H & _); [by vm_compute..|].
  apply H. by vm_compute.
Defined.
