(* ===== verification/Fixture.v ===== *)
(** * The fuzzer

    [packages/fuzzer/src/fixture.ts], [commands/chaos.ts], [commands/warzone.ts] and the random
    choices of [utils.ts]: the fuzzer opens, adjusts, closes and redeems at random, predicts which
    transactions fail, and keeps a fund of LUSD to hand out.

    The chain is a parameter ([Chain]): reads of its state, and a transaction submitted by an
    account, which answers with its gas limit and receipt in a new state.  [Math.random] is a
    stream of draws; [Math.exp] and [Math.log] are parameters.  Addresses stand for the connected
    clients, [gasPrice: 0] and what is written to the console are left out. *)

From S2P Require Import Prelude JsString BigNumber Decimal DecimalArith DecimalText Constants.
From S2P Require Import LiquityMath Trove TroveTheory Fees StabilityDeposit LQTYStake JsNumber BorrowerOperations GasHistogram FuzzerChecks.
From Stdlib Require Import Ascii String.
From stdpp Require Import list.

Local Open Scope string_scope.
Local Open Scope list_scope.
Local Open Scope Z_scope.

(** ** Random choices *)

Class FuzzerMath := { math_exp : number -> number; math_ln : number -> number }.

(** [Math.floor] *)
Definition floor (x : number) : number :=
  match x with
  | SpecFloat.S754_finite s m e =>
      if 0 <=? e then x
      else
        match (if s then Zneg m else Zpos m) / 2 ^ (- e) with
        | 0 => SpecFloat.S754_zero s
        | r => Number.ofZ r
        end
  | x => x
  end.

(** A literal, and a computed number given to [Decimal]. *)
Definition lit (s : string) : number := Number.parseFloat s.
Definition ofNumber (x : number) : Decimalish := FromNumber (Number.toString x).

Definition truncateLastDigits (n : number) : number :=
  let z := Number.ofZ in
  if Number.lt (z 100000) n then Number.mul (z 1000) (floor (Number.div n (z 1000)))
  else if Number.lt (z 10000) n then Number.mul (z 100) (floor (Number.div n (z 100)))
  else if Number.lt (z 1000) n then Number.mul (z 10) (floor (Number.div n (z 10)))
  else n.

Section random.
Context `{BN : BigNumber} `{FM : FuzzerMath}.

(** [r] is what [Math.random()] gives. *)
Definition benford (max r : number) : number := floor (math_exp (Number.mul (math_ln max) r)).

(** Three draws: the size, which side is chosen first, and the other side. *)
Definition createRandomTrove (price : Decimal) (r1 r2 r3 : number) : result Trove :=
  let randomValue := truncateLastDigits (benford (Number.ofZ 1000) r1) in
  if Number.lt r2 (lit "0.5") then
    let* collateral := Decimal.from (ofNumber randomValue) in
    let* worth := Decimal.mul price collateral in
    let* digits := Decimal.toString worth (Some 0) in
    let maxDebt := Number.parseFloat digits in
    let* debt := Decimal.add LUSD_LIQUIDATION_RESERVE
                   (ofNumber (truncateLastDigits (Number.sub maxDebt (benford maxDebt r3)))) in
    Ok (mkTrove collateral debt)
  else
    let* debt := Decimal.add LUSD_LIQUIDATION_RESERVE (ofNumber (Number.mul (Number.ofZ 100) randomValue)) in
    let* c := Decimal.div debt price in
    let* c := Decimal.mul c (ofNumber (Number.add (Number.ofZ 100) (benford (Number.ofZ 200) r3))) in
    let* c := Decimal.div c (FromNumber "100") in
    let* digits := Decimal.toString c (Some 4) in
    let* collateral := Decimal.from (FromString digits) in
    Ok (mkTrove collateral debt).

(** The parameters of an adjustment; an amount that is not among them is absent. *)
Record Params := mkParams {
  p_depositCollateral : option Decimal; p_withdrawCollateral : option Decimal;
  p_borrowLUSD : option Decimal; p_repayLUSD : option Decimal
}.

Definition entries (p : Params) : list (string * option Decimalish) :=
  [("depositCollateral", FromDecimal <$> p_depositCollateral p);
   ("withdrawCollateral", FromDecimal <$> p_withdrawCollateral p);
   ("borrowLUSD", FromDecimal <$> p_borrowLUSD p); ("repayLUSD", FromDecimal <$> p_repayLUSD p)].

Definition randomCollateralChange (trove : Trove) (r1 r2 : number) : result Params :=
  if Number.lt r1 (lit "0.5") then
    let* w := Decimal.mul (collateral trove) (ofNumber (Number.mul (lit "1.1") r2)) in
    Ok (mkParams None (Some w) None None)
  else
    let* d := Decimal.mul (collateral trove) (ofNumber (Number.mul (lit "0.5") r2)) in
    Ok (mkParams (Some d) None None None).

Definition randomDebtChange (trove : Trove) (r1 r2 : number) : result Params :=
  if Number.lt r1 (lit "0.5") then
    let* r := Decimal.mul (debt trove) (ofNumber (Number.mul (lit "1.1") r2)) in
    Ok (mkParams None None None (Some r))
  else
    let* b := Decimal.mul (debt trove) (ofNumber (Number.mul (lit "0.5") r2)) in
    Ok (mkParams None None (Some b) None).

(** [{ ...a, ...b }] of a change of the collateral and one of the debt. *)
Definition both (a b : Params) : Params :=
  mkParams (p_depositCollateral a) (p_withdrawCollateral a) (p_borrowLUSD b) (p_repayLUSD b).

(** ** Predictions *)

Definition cannotOpen (total : Trove) (price : Decimal) (newTrove : Trove) : result bool :=
  if Decimal.ltD (debt newTrove) LUSD_MINIMUM_DEBT then Ok true
  else
    let* recovery := Trove.collateralRatioIsBelowCritical total price in
    if recovery then rmap negb (Trove.isOpenableInRecoveryMode newTrove price)
    else
      let* below := Trove.collateralRatioIsBelowMinimum newTrove price in
      if below then Ok true
      else
        let* newTotal := Trove.add total newTrove in Trove.collateralRatioIsBelowCritical newTotal price.

(** [d?.nonZero] as a condition. *)
Definition nonZeroAmount (d : option Decimal) : bool :=
  match d with Some d => negb (Decimal.isZero d) | None => false end.

Definition cannotAdjust (total : Trove) (borrowingRate : result Decimal) (price : Decimal) (trove : Trove)
    (params : Params) : result bool :=
  let tooMuch :=
    match p_withdrawCollateral params with Some w => Decimal.gteD w (collateral trove) | None => false end in
  if tooMuch then Ok true
  else
    let* repaysTooMuch :=
      match p_repayLUSD params with
      | Some r => let* most := Decimal.sub (debt trove) LUSD_MINIMUM_DEBT in Ok (Decimal.gtD r most)
      | None => Ok false
      end in
    if repaysTooMuch : bool then Ok true
    else
      let* rate := borrowingRate in
      let* adjusted := Trove.adjust trove (entries params) rate in
      if nonZeroAmount (p_withdrawCollateral params) || nonZeroAmount (p_borrowLUSD params) then
        let* below := Trove.collateralRatioIsBelowMinimum adjusted price in
        if below then Ok true
        else
          let* recovery := Trove.collateralRatioIsBelowCritical total price in
          if recovery then
            let* new := Trove._nominalCollateralRatio adjusted in
            let* old := Trove._nominalCollateralRatio trove in
            Ok (Decimal.ltD new old)
          else
            let* t := Trove.add total adjusted in
            let* newTotal := Trove.subtract t trove in
            Trove.collateralRatioIsBelowCritical newTotal price
      else Ok false.

(** ** The funder's Trove *)

(** Transactions; an opening may say for how long the fee may decay. *)
Inductive Tx :=
| OpenTrove (params : TroveCreationParams Decimal) (borrowingFeeDecayToleranceMinutes : option Z)
| AdjustTrove (params : TroveAdjustmentParams Decimal)
| AdjustTroveEntries (params : Params)
| CloseTrove
| RedeemLUSD (amount : Decimal)
| DepositLUSD (amount : Decimal) (frontend : option string)
| WithdrawLUSD (amount : Decimal)
| StakeLQTY (amount : Decimal)
| UnstakeLQTY (amount : Decimal)
| SendLUSD (toAddress : string) (amount : Decimal)
| SendLQTY (toAddress : string) (amount : Decimal)
| SendEther (toAddress : string) (amount : Decimal)
| LiquidateUpTo (maximumNumberOfTrovesToLiquidate : Z)
| SetPrice (price : Decimal)
| RegisterFrontend (kickbackRate : Decimal).

(** The ratio the funder aims at. *)
Definition targetRatio (trove total : Trove) (price : Decimal) : result Decimalish :=
  let* recovery := Trove.collateralRatioIsBelowCritical total price in
  if Trove.isEmpty trove || negb recovery then Ok (FromNumber "1.51")
  else
    let* r := Trove.collateralRatio trove price in
    let* r := Decimal.add r (FromNumber "0.00001") in
    rmap FromDecimal (Decimal.max r (FromNumber "1.11")).

(** The Trove the funder wants: the debt for twice what is missing, and the collateral for it. *)
Definition targetTrove (trove total : Trove) (price missing : Decimal) : result Trove :=
  let* targetCollateralRatio := targetRatio trove total price in
  let* newTrove :=
    if Trove.isEmpty trove then
      Trove.create [("depositCollateral", Some (FromNumber "1")); ("borrowLUSD", Some (FromNumber "0"))]
        MINIMUM_BORROWING_RATE
    else Ok trove in
  let* twice := Decimal.mul missing (FromNumber "2") in
  let* newTrove := Trove.adjust newTrove [("borrowLUSD", Some (FromDecimal twice))] MINIMUM_BORROWING_RATE in
  let* newTrove :=
    if Decimal.ltD (debt newTrove) LUSD_MINIMUM_DEBT then Trove.setDebt newTrove LUSD_MINIMUM_DEBT
    else Ok newTrove in
  let* c := Decimal.mulDiv (debt newTrove) targetCollateralRatio price in
  Trove.setCollateral newTrove c.

(** The transaction that gets the funder the LUSD. *)
Definition fundingTx (trove total : Trove) (rate price missing : Decimal) : result Tx :=
  let* newTrove := targetTrove trove total price missing in
  if Trove.isEmpty trove then rmap (fun params => OpenTrove params None) (Trove.recreate newTrove rate)
  else
    let* t := Trove.add total newTrove in
    let* newTotal := Trove.subtract t trove in
    let* recovery := Trove.collateralRatioIsBelowCritical total price in
    let* newRecovery := Trove.collateralRatioIsBelowCritical newTotal price in
    let* newTrove :=
      if negb recovery && newRecovery then
        let* c := Decimal.mulDiv (debt newTotal) (FromNumber "1.51") price in
        let* newTotal := Trove.setCollateral newTotal c in
        let* t := Trove.add trove newTotal in Trove.subtract t total
      else Ok newTrove in
    rmap AdjustTrove (Trove.adjustTo trove newTrove rate).
End random.

(** ** The chain and the fixture *)

(** What is read of the chain, and what a submitted transaction does. *)
Record Chain (σ : Type) := mkChain {
  readable : σ -> Readable;
  subgraph : σ -> Readable;
  getTroves : σ -> result (list UserTrove);
  getLastTrove : σ -> result (option UserTrove);
  getFees : σ -> result Fees;
  getTrove : σ -> string -> result Trove;
  getLUSDBalance : σ -> string -> result Decimal;
  getLQTYBalance : σ -> string -> result Decimal;
  getStabilityDeposit : σ -> string -> result StabilityDeposit;
  getLQTYStake : σ -> string -> result LQTYStake;
  _getActivePool : σ -> result Trove;
  _getDefaultPool : σ -> result Trove;
  submit : σ -> string -> Tx -> Attempt * σ
}.
Arguments readable {σ}. Arguments subgraph {σ}. Arguments getTroves {σ}. Arguments getLastTrove {σ}.
Arguments getFees {σ}. Arguments getTrove {σ}. Arguments getLUSDBalance {σ}. Arguments getLQTYBalance {σ}.
Arguments getStabilityDeposit {σ}. Arguments getLQTYStake {σ}. Arguments _getActivePool {σ}.
Arguments _getDefaultPool {σ}. Arguments submit {σ}.

Inductive TxName :=
| openTrove | adjustTrove | closeTrove | redeemLUSD | depositLUSDInStabilityPool
| withdrawLUSDFromStabilityPool | stakeLQTY | unstakeLQTY.

#[export] Instance TxName_eq_dec : EqDecision TxName.
Proof. solve_decision. Defined.

Definition txNames : list (TxName * string) :=
  [(openTrove, "openTrove"); (adjustTrove, "adjustTrove"); (closeTrove, "closeTrove"); (redeemLUSD, "redeemLUSD");
   (depositLUSDInStabilityPool, "depositLUSDInStabilityPool");
   (withdrawLUSDFromStabilityPool, "withdrawLUSDFromStabilityPool"); (stakeLQTY, "stakeLQTY");
   (unstakeLQTY, "unstakeLQTY")].

(** The chain, the fields of the fixture that change, and how many numbers have been drawn. *)
Record State (σ : Type) := mkState {
  chain : σ; price : Decimal; totalNumberOfLiquidations : Z;
  gasHistograms : TxName -> GasHistogram; drawn : nat
}.
Arguments mkState {σ}. Arguments chain {σ}. Arguments price {σ}. Arguments totalNumberOfLiquidations {σ}.
Arguments gasHistograms {σ}. Arguments drawn {σ}.

Section fixture.
Context `{BN : BigNumber} `{FM : FuzzerMath} {σ : Type}.
Variable C : Chain σ.
Variable rand : nat -> number.
(** The fields that stay. *)
Variables deployer funderAddress frontendAddress : string.

Definition M (A : Type) : Type := State σ -> result A * State σ.
Definition ret {A} (a : A) : M A := fun s => (Ok a, s).
Definition throw {A} (e : error) : M A := fun s => (Err e, s).
Definition lift_ {A} (r : result A) : M A := fun s => (r, s).
Definition bindM {A B} (m : M A) (k : A -> M B) : M B :=
  fun s => let '(r, s) := m s in match r with Ok a => k a s | Err e => (Err e, s) end.
#[local] Notation "'do' x ':=' m 'in' k" := (bindM m (fun x => k))
  (at level 10, x name, m at level 200, k at level 200).
#[local] Notation "m ';;' k" := (bindM m (fun _ => k)) (at level 100, k at level 200, right associativity).

Definition random : M number := fun s =>
  (Ok (rand (drawn s)), mkState (chain s) (price s) (totalNumberOfLiquidations s) (gasHistograms s) (S (drawn s))).
Definition read {A} (f : σ -> result A) : M A := fun s => (f (chain s), s).
Definition getThisPrice : M Decimal := fun s => (Ok (price s), s).
Definition setThisPrice (p : Decimal) : M unit := fun s =>
  (Ok tt, mkState (chain s) p (totalNumberOfLiquidations s) (gasHistograms s) (drawn s)).
Definition countLiquidations (n : Z) : M unit := fun s =>
  (Ok tt, mkState (chain s) (price s) (totalNumberOfLiquidations s + n) (gasHistograms s) (drawn s)).
Definition setChain (s : State σ) (c : σ) : State σ :=
  mkState c (price s) (totalNumberOfLiquidations s) (gasHistograms s) (drawn s).
Definition setHistogram (s : State σ) (name : TxName) (h : GasHistogram) : State σ :=
  mkState (chain s) (price s) (totalNumberOfLiquidations s)
    (fun n => if decide (n = name) then h else gasHistograms s n) (drawn s).

(** Sends a transaction and waits for its success. *)
Definition transact (who : string) (tx : Tx) : M unit := fun s =>
  let '(attempt, c) := submit C (chain s) who tx in
  (let* '(_, receipt) := attempt in
   guard succeeded receipt else JsError "Transaction failed" in Ok tt, setChain s c).

(** [gasHistograms[name].expectSuccess(() => liquity.send...)]: a transaction that runs out of gas
    is sent once more. *)
Definition expectSuccess (name : TxName) (who : string) (tx : Tx) : M unit := fun s =>
  let '(attempt, c) := submit C (chain s) who tx in
  let '(attempt', c') := submit C c who tx in
  let outOfGas :=
    match attempt with
    | Ok (gasLimit, receipt) => negb (succeeded receipt || (gasUsed receipt <? gasLimit))
    | Err _ => false
    end in
  let '(h, r) := GasHistogram.expectSuccess (gasHistograms s name)
                   (fun retries => match retries with O => attempt | _ => attempt' end) in
  (r, setHistogram (setChain s (if outOfGas then c' else c)) name h).

Definition expectFailure (name : TxName) (who : string) (tx : Tx) : M unit := fun s =>
  let '(outcome, s) := transact who tx s in
  let '(h, r) := GasHistogram.expectFailure (gasHistograms s name) outcome in
  (r, setHistogram s name h).

Definition getTotal : M Trove := read (fun c => FuzzerChecks.getTotal (readable C c)).
Definition borrowingRate : M Decimal :=
  do fees := read (getFees C) in lift_ (Fees.borrowingRate fees None).

(** [setup], up to the construction of the fixture. *)
Definition setup (frontend : string) : M unit :=
  do price := read (fun c => FuzzerChecks.getPrice (readable C c)) in
  do ten := lift_ (Decimal.from (FromNumber "10")) in
  do rate := lift_ (Decimal.div ten (FromNumber "11")) in
  transact frontend (RegisterFrontend rate) ;; setThisPrice price.

(** The body of the [if] of [sendLUSDFromFunder]. *)
Definition ensureFunds (amount : Decimal) : M unit :=
  do lusdBalance := read (fun c => getLUSDBalance C c funderAddress) in
  if Decimal.ltD lusdBalance amount then
    do trove := read (fun c => getTrove C c funderAddress) in
    do total := getTotal in
    do fees := read (getFees C) in
    do price := getThisPrice in
    do tx := lift_ (let* rate := Fees.borrowingRate fees None in
                    let* missing := Decimal.sub amount lusdBalance in
                    fundingTx trove total rate price missing) in
    transact funderAddress tx
  else ret tt.

Definition sendLUSDFromFunder (toAddress : string) (amount : Decimalish) : M unit :=
  do amount := lift_ (Decimal.from amount) in
  ensureFunds amount ;; transact funderAddress (SendLUSD toAddress amount).

Definition setRandomPrice : M Decimal :=
  do price := getThisPrice in
  do r := random in
  do p := lift_ (Decimal.add price (ofNumber (Number.add (Number.mul (Number.ofZ 200) r) (Number.ofZ 100)))) in
  do p := lift_ (Decimal.div p (FromNumber "2")) in
  setThisPrice p ;; transact deployer (SetPrice p) ;; ret p.

Definition liquidateRandomNumberOfTroves (price : Decimal) : M unit :=
  do _ := read (fun c => getLUSDInStabilityPool (readable C c)) in
  do trovesBefore := read (getTroves C) in
  match last trovesBefore with
  | None => ret tt
  | Some lastTrove =>
      do below := lift_ (Trove.collateralRatioIsBelowMinimum (ut_trove lastTrove) price) in
      if negb below then ret tt
      else
        do r := random in
        (* below [2 ^ 53], where a number is an integer *)
        let maximum := Number.add (floor (Number.mul (Number.ofZ 50) r)) (Number.ofZ 1) in
        transact deployer (LiquidateUpTo (numeral_val 10 (Number.toString maximum))) ;;
        do trovesAfter := read (fun c => getListOfTrovesBeforeRedistribution (readable C c)) in
        let liquidatedTroves := listDifference (map ownerAddress trovesBefore) (map owner trovesAfter) in
        countLiquidations (Z.of_nat (List.length liquidatedTroves)) ;;
        do _ := read (fun c => getLUSDInStabilityPool (readable C c)) in ret tt
  end.

Definition openRandomTrove (userAddress : string) : M unit :=
  do total := getTotal in
  do fees := read (getFees C) in
  do price := getThisPrice in
  do r1 := random in do r2 := random in do r3 := random in
  do newTrove := lift_ (createRandomTrove price r1 r2 r3) in
  transact funderAddress (SendEther userAddress (collateral newTrove)) ;;
  do params := lift_ (let* rate := Fees.borrowingRate fees None in Trove.recreate newTrove rate) in
  do fails := lift_ (cannotOpen total price newTrove) in
  if fails : bool then expectFailure openTrove userAddress (OpenTrove params None)
  else expectSuccess openTrove userAddress (OpenTrove params None).

Definition randomlyAdjustTrove (userAddress : string) (trove : Trove) : M unit :=
  do total := getTotal in
  do fees := read (getFees C) in
  do x := random in
  do params :=
    (if Number.lt x (lit "0.333") then
       do r1 := random in do r2 := random in lift_ (randomCollateralChange trove r1 r2)
     else if Number.lt x (lit "0.666") then
       do r1 := random in do r2 := random in lift_ (randomDebtChange trove r1 r2)
     else
       do r1 := random in do r2 := random in
       do a := lift_ (randomCollateralChange trove r1 r2) in
       do r3 := random in do r4 := random in
       do b := lift_ (randomDebtChange trove r3 r4) in ret (both a b)) in
  match p_depositCollateral params with
  | Some d => transact funderAddress (SendEther userAddress d)
  | None => ret tt
  end ;;
  match p_repayLUSD params with
  | Some r => sendLUSDFromFunder userAddress r
  | None => ret tt
  end ;;
  do price := getThisPrice in
  do fails := lift_ (cannotAdjust total (Fees.borrowingRate fees None) price trove params) in
  if fails : bool then expectFailure adjustTrove userAddress (AdjustTroveEntries params)
  else expectSuccess adjustTrove userAddress (AdjustTroveEntries params).

Definition closeTrove_ (userAddress : string) (trove : Trove) : M unit :=
  do total := getTotal in
  do price := getThisPrice in
  do recovery := lift_ (Trove.collateralRatioIsBelowCritical total price) in
  if recovery : bool then ret tt
  else
    do netDebt := lift_ (Trove.netDebt trove) in
    sendLUSDFromFunder userAddress netDebt ;;
    expectSuccess closeTrove userAddress CloseTrove.

(** [error.message.includes(needle)] *)
Definition messageIncludes (needle : string) (e : error) : bool :=
  match e with
  | JsError message => match index 0 needle message with Some _ => true | None => false end
  | _ => false
  end.

Definition redeemRandomAmount (userAddress : string) : M unit :=
  do total := getTotal in
  do price := getThisPrice in
  do below := lift_ (Trove.collateralRatioIsBelowMinimum total price) in
  if below : bool then ret tt
  else
    do r := random in
    let amount := ofNumber (benford (Number.ofZ 10000) r) in
    sendLUSDFromFunder userAddress amount ;;
    do amount := lift_ (Decimal.from amount) in
    (fun s =>
       let '(outcome, s) := expectSuccess redeemLUSD userAddress (RedeemLUSD amount) s in
       match outcome with
       | Err e => if messageIncludes "amount too low to redeem" e then (Ok tt, s) else (Err e, s)
       | Ok _ => (Ok tt, s)
       end).

Definition depositRandomAmountInStabilityPool (userAddress : string) : M unit :=
  do r := random in
  let amount := ofNumber (benford (Number.ofZ 20000) r) in
  sendLUSDFromFunder userAddress amount ;;
  do amount := lift_ (Decimal.from amount) in
  expectSuccess depositLUSDInStabilityPool userAddress (DepositLUSD amount (Some frontendAddress)).

(** [d.mul(1.1 * Math.random()).add(10 * Math.random())] *)
Definition aroundAmount (d : Decimal) (r1 r2 : number) : result Decimal :=
  let* m := Decimal.mul d (ofNumber (Number.mul (lit "1.1") r1)) in
  Decimal.add m (ofNumber (Number.mul (Number.ofZ 10) r2)).

Definition withdrawRandomAmountFromStabilityPool (userAddress : string) (deposit : StabilityDeposit) : M unit :=
  do lastTrove := read (getLastTrove C) in
  do r1 := random in do r2 := random in
  do amount := lift_ (aroundAmount (currentLUSD deposit) r1 r2) in
  do price := getThisPrice in
  do fails := lift_
    (if Decimal.isZero amount then Ok false
     else match lastTrove with
          | Some t => Trove.collateralRatioIsBelowMinimum (ut_trove t) price
          | None => Err Trap
          end) in
  if fails : bool then expectFailure withdrawLUSDFromStabilityPool userAddress (WithdrawLUSD amount)
  else expectSuccess withdrawLUSDFromStabilityPool userAddress (WithdrawLUSD amount).

Definition stakeRandomAmount (userAddress : string) : M unit :=
  do lqtyBalance := read (fun c => getLQTYBalance C c funderAddress) in
  do r := random in
  do amount := lift_ (Decimal.mul lqtyBalance (ofNumber (Number.div r (Number.ofZ 2)))) in
  transact funderAddress (SendLQTY userAddress amount) ;;
  do none := lift_ (Decimal.eq amount (FromNumber "0")) in
  if none : bool then expectFailure stakeLQTY userAddress (StakeLQTY amount)
  else expectSuccess stakeLQTY userAddress (StakeLQTY amount).

Definition unstakeRandomAmount (userAddress : string) (stake : LQTYStake) : M unit :=
  do r1 := random in do r2 := random in
  do amount := lift_ (aroundAmount (stakedLQTY stake) r1 r2) in
  expectSuccess unstakeLQTY userAddress (UnstakeLQTY amount).

Definition sweepLUSD (userAddress : string) : M unit :=
  do lusdBalance := read (fun c => getLUSDBalance C c userAddress) in
  if Decimal.isZero lusdBalance then ret tt else transact userAddress (SendLUSD funderAddress lusdBalance).

Definition sweepLQTY (userAddress : string) : M unit :=
  do lqtyBalance := read (fun c => getLQTYBalance C c userAddress) in
  if Decimal.isZero lqtyBalance then ret tt else transact userAddress (SendLQTY funderAddress lqtyBalance).

(** A number of the statistics. *)
Definition showZ (z : Z) : string := (if z <? 0 then "-" else "") +:+ numeral_show 10 (Z.abs z).
Definition newline : string := String (ascii_of_nat 10) "".

Definition summary (name : string) (h : GasHistogram) : string :=
  name +:+ ",outOfGas," +:+ showZ (outOfGasFailures h) +:+ newline +:+
  name +:+ ",failure," +:+ showZ (expectedFailures h) +:+ newline +:+
  foldr String.append ""
    (map (fun '(intervalMin, frequency) =>
       name +:+ ",success," +:+ showZ frequency +:+ "," +:+ showZ intervalMin +:+ newline) (getResults h)).

Definition summarizeGasStats (s : State σ) : string :=
  foldr String.append "" (map (fun '(name, text) => summary text (gasHistograms s name)) txNames).

(** ** Commands *)

(** One turn of a user. *)
Definition userTurn (user : string) : M unit :=
  do x := random in
  if Number.lt x (lit "0.5") then
    do trove := read (fun c => getTrove C c user) in
    if Trove.isEmpty trove then openRandomTrove user
    else if Number.lt x (lit "0.4") then randomlyAdjustTrove user trove
    else closeTrove_ user trove
  else if Number.lt x (lit "0.7") then
    do deposit := read (fun c => getStabilityDeposit C c user) in
    if Decimal.isZero (initialLUSD deposit) || Number.lt x (lit "0.6") then
      depositRandomAmountInStabilityPool user
    else withdrawRandomAmountFromStabilityPool user deposit
  else if Number.lt x (lit "0.9") then
    do stake := read (fun c => getLQTYStake C c user) in
    if Decimal.isZero (stakedLQTY stake) || Number.lt x (lit "0.8") then stakeRandomAmount user
    else unstakeRandomAmount user stake
  else redeemRandomAmount user.

(** The checks after every turn; gives the list for the next ones. *)
Definition turnChecks (price : Decimal) (previous : option (list TroveWithPendingRedistribution)) :
    M (list TroveWithPendingRedistribution) :=
  do listOfTroves := read (fun c => getListOfTrovesBeforeRedistribution (readable C c)) in
  do totalRedistributed := read (fun c => FuzzerChecks.getTotalRedistributed (readable C c)) in
  lift_ (checkTroveOrdering listOfTroves totalRedistributed price previous).2 ;;
  do activePool := read (_getActivePool C) in
  do defaultPool := read (_getDefaultPool C) in
  lift_ (checkPoolBalances activePool defaultPool listOfTroves totalRedistributed).2 ;;
  ret listOfTroves.

Fixpoint turns (price : Decimal) (users : list string) (previous : option (list TroveWithPendingRedistribution)) :
    M (option (list TroveWithPendingRedistribution)) :=
  match users with
  | [] => ret previous
  | user :: users =>
      userTurn user ;; sweepLQTY user ;;
      do listOfTroves := turnChecks price previous in
      turns price users (Some listOfTroves)
  end.

Fixpoint rounds (n : nat) (users : list string) (shouldCheckSubgraph : bool)
    (previous : option (list TroveWithPendingRedistribution)) : M unit :=
  match n with
  | O => ret tt
  | S n =>
      do price := setRandomPrice in
      liquidateRandomNumberOfTroves price ;;
      do previous := turns price users previous in
      (if shouldCheckSubgraph then
         fun s => ((checkSubgraph (subgraph C (chain s)) (readable C (chain s))).2, s)
       else ret tt) ;;
      rounds n users shouldCheckSubgraph previous
  end.

(** The text appended to [chaos.csv]. *)
Definition chaos (numberOfRounds : nat) (users : list string) (shouldCheckSubgraph : bool) : M string :=
  setup frontendAddress ;; rounds numberOfRounds users shouldCheckSubgraph None ;;
  fun s => (Ok (summarizeGasStats s), s).

(** [warzone]: Troves with random debt and ratio, every fourth in the Stability Pool. *)
Definition warzoneStep (i : nat) (userAddress : string) (price : Decimal) : M unit :=
  do r := random in
  do debt := lift_ (Decimal.add LUSD_MINIMUM_DEBT (ofNumber (Number.mul (Number.ofZ 99999) r))) in
  do r := random in
  do collateral := lift_ (Decimal.mulDiv debt
      (ofNumber (Number.add (lit "1.11") (Number.mul (Number.ofZ 3) r))) price) in
  transact funderAddress (SendEther userAddress collateral) ;;
  do rate := borrowingRate in
  do params := lift_ (Trove.recreate (mkTrove collateral debt) rate) in
  transact userAddress (OpenTrove params (Some 0)) ;;
  if (i mod 4 =? 0)%nat then
    do lusdBalance := read (fun c => getLUSDBalance C c userAddress) in
    transact userAddress (DepositLUSD lusdBalance None)
  else ret tt.

Fixpoint warzoneLoop (i : nat) (users : list string) (price : Decimal) : M unit :=
  match users with
  | [] => ret tt
  | user :: users => warzoneStep i user price ;; warzoneLoop (S i) users price
  end.

Definition warzone (users : list string) : M unit :=
  do price := read (fun c => FuzzerChecks.getPrice (readable C c)) in warzoneLoop 1 users price.

(** [order]: the [while] loop; what is left of the fuel bounds the rounds ([orderLoop_ends]). *)
Fixpoint orderLoop (fuel : nat) : M unit :=
  match fuel with
  | O => throw OutOfFuel
  | S fuel =>
      do numberOfTroves := read (fun c => getNumberOfTroves (readable C c)) in
      if 1 <? numberOfTroves then
        let numberOfTrovesToLiquidate := if 10 <? numberOfTroves then 10 else numberOfTroves - 1 in
        transact funderAddress (LiquidateUpTo numberOfTrovesToLiquidate) ;; orderLoop fuel
      else ret tt
  end.

(** The funder's Trove to the head of the list; [getFirst] lists one Trove by descending ratio. *)
Definition hoist (getFirst : σ -> result (option UserTrove)) (initialPrice : Decimal) : M unit :=
  do first := read getFirst in
  match first with
  | None => throw Trap
  | Some firstTrove =>
      if String.eqb (ownerAddress firstTrove) funderAddress then ret tt
      else
        do funderTrove := read (fun c => getTrove C c funderAddress) in
        do targetCollateralRatio := lift_
          (let* r := Trove.collateralRatio (ut_trove firstTrove) initialPrice in
           let* r := Decimal.add r (FromNumber "0.00001") in Decimal.max r (FromNumber "1.51")) in
        if Trove.isEmpty funderTrove then
          do coll := lift_ (Decimal.mulDiv LUSD_MINIMUM_DEBT targetCollateralRatio initialPrice) in
          do rate := borrowingRate in
          do params := lift_ (Trove.recreate (mkTrove coll LUSD_MINIMUM_DEBT) rate) in
          transact funderAddress (OpenTrove params None)
        else
          do coll := lift_ (Decimal.mulDiv (debt funderTrove) targetCollateralRatio initialPrice) in
          do target := lift_ (Trove.setCollateral funderTrove coll) in
          do params := lift_ (Trove.adjustTo funderTrove target MINIMUM_BORROWING_RATE) in
          transact funderAddress (AdjustTrove params)
  end.

(** Gives the discrepancies of collateral and debt. *)
Definition order (getFirst : σ -> result (option UserTrove)) (fuel : nat) : M (option DifferenceRepresentation * option DifferenceRepresentation) :=
  do initialPrice := read (fun c => FuzzerChecks.getPrice (readable C c)) in
  hoist getFirst initialPrice ;;
  do first := read getFirst in
  match first with
  | None => throw Trap
  | Some firstTrove =>
      if String.eqb (ownerAddress firstTrove) funderAddress then
        do low := lift_ (Decimal.from (FromNumber "0.001")) in
        transact deployer (SetPrice low) ;;
        orderLoop fuel ;;
        transact deployer (SetPrice initialPrice) ;;
        do left_ := read (fun c => getNumberOfTroves (readable C c)) in
        if left_ =? 1 then
          do funderTrove := read (fun c => getTrove C c funderAddress) in
          do total := getTotal in
          lift_ (let* c := Difference.between (Some (FromDecimal (collateral total)))
                             (Some (FromDecimal (collateral funderTrove))) in
                 let* d := Difference.between (Some (FromDecimal (debt total)))
                             (Some (FromDecimal (debt funderTrove))) in Ok (c, d))
        else throw (JsError "didn't manage to liquidate every Trove")
      else throw (JsError "didn't manage to hoist Funder's Trove to head of SortedTroves")
  end.
End fixture.

(** ** The funder always borrows enough *)

Section funding.
Context `{BNL : BigNumberLaws}.

Lemma targetRatio_total trove total (price : Decimal) :
  exists d : Decimalish, targetRatio trove total price = Ok d /\ exists x : Decimal, Decimal.from d = Ok x.
Proof.
  unfold targetRatio. rewrite belowCriticalE. cbn [bind]. destruct (Trove.isEmpty trove || _).
  - eexists; split; [done|]. eexists. read (Literal "1" (Some "51") None).
  - rewrite collateralRatioE. cbn [bind]. unfold Decimal.add.
    replace (Decimal.from (FromNumber "0.00001")) with (Ok (dec 10000000000000))
      by (symmetry; read (Literal "0" (Some "00001") None)).
    cbn [bind]. autorewrite with bn. rewrite newE by blia. cbn [bind]. unfold Decimal.max.
    replace (Decimal.from (FromNumber "1.11")) with (Ok (dec 1110000000000000000))
      by (symmetry; read (Literal "1" (Some "11") None)).
    cbn [Decimal.from bind rmap]. eexists; split; [done|]. by eexists.
Qed.

Lemma mulDiv_total (x : Decimal) (y : Decimalish) (d z : Decimal) :
  Decimal.from y = Ok d -> exists r, Decimal.mulDiv x y z = Ok r.
Proof.
  intros Hy. destruct (Z.eq_dec (big z) 0) as [Hz|Hz].
  - unfold Decimal.mulDiv. rewrite Hy. cbn [bind Decimal.from]. rewrite isZeroE, Hz. cbn. eauto.
  - exists (dec (big x * big d / big z)). rewrite <- mulDivE by blia. unfold Decimal.mulDiv. by rewrite Hy.
Qed.

(** One LUSD borrowed on top. *)
Lemma adjust_borrow t (b rate : Decimal) :
  0 < big b ->
  Trove.adjust t [("borrowLUSD", Some (FromDecimal b))] rate
  = Ok (mkTrove (collateral t) (dec (big (debt t) + TroveTheory.applied rate (big b)))).
Proof.
  intros Hb. unfold Trove.adjust.
  replace (_normalizeTroveAdjustment [("borrowLUSD", Some (FromDecimal b))])
    with (Ok (mkAdjustment (T := Decimal) None (Some (BorrowLUSD b)))).
  - cbn [bind]. rewrite apply_adjustmentE. cbn [a_collateral a_debt collateral_after debt_after].
    by rewrite dec_big.
  - unfold _normalizeTroveAdjustment. change (definedEntries _) with [("borrowLUSD", FromDecimal b)].
    change (checkAllowedTroveAdjustmentKeys _) with (Ok tt). unfold decimalize.
    cbn [bind traverse fst snd Decimal.from]. rewrite filter_nonZero_cons. by destruct (Z.eqb_spec (big b) 0); [lia|].
Qed.

Lemma double m : 0 <= m -> 2 * m <= TroveTheory.applied MINIMUM_BORROWING_RATE (2 * m).
Proof.
  intros Hm. unfold TroveTheory.applied, feeFactor. change (big MINIMUM_BORROWING_RATE) with 5000000000000000.
  apply Z.div_le_lower_bound; [done|]. unfold Decimal.DIGITS. lia.
Qed.

(** Twice what is missing, less the highest fee, is enough. *)
Lemma unapplied_half (rate : Decimal) m x :
  big rate <= big MAXIMUM_BORROWING_RATE -> 0 <= m -> 2 * m <= x -> m <= unapplied rate x.
Proof.
  intros Hr Hm Hx. unfold unapplied, feeFactor. change (big MAXIMUM_BORROWING_RATE) with 50000000000000000 in Hr.
  pose proof (big_nonneg rate). apply Z.div_le_lower_bound; unfold Decimal.DIGITS; nia.
Qed.

Lemma create_dust :
  Trove.create [("depositCollateral", Some (FromNumber "1")); ("borrowLUSD", Some (FromNumber "0"))]
    MINIMUM_BORROWING_RATE
  = Ok (mkTrove Decimal.ONE LUSD_LIQUIDATION_RESERVE).
Proof.
  unfold Trove.create, _normalizeTroveCreation.
  change (definedEntries _) with [("depositCollateral", FromNumber "1"); ("borrowLUSD", FromNumber "0")].
  change (checkAllowedTroveCreationKeys _) with (Ok tt). cbn [bind traverse]. unfold decimalize. cbn [snd fst].
  rewrite one_literal. cbn [bind].
  replace (Decimal.from (FromNumber "0")) with (Ok Decimal.ZERO) by (symmetry; read (Literal "0" None None)).
  cbn [bind]. change (troveCreationParamsFromEntries _) with (Ok (mkCreation Decimal.ONE Decimal.ZERO)).
  cbn [bind]. unfold Trove.apply. replace (Trove.isEmpty _emptyTrove) with true by by rewrite isEmptyE.
  cbn [c_borrowLUSD c_depositCollateral]. rewrite applyFeeE. cbn [bind]. rewrite addE. by cbn.
Qed.

(** What the funder aims at: a debt with at least twice what is missing on top. *)
Lemma targetTrove_debt trove total price missing :
  0 < big missing ->
  exists t, targetTrove trove total price missing = Ok t /\
    big (debt t) >= big LUSD_MINIMUM_DEBT /\
    big (debt t) >= (if Trove.isEmpty trove then big LUSD_LIQUIDATION_RESERVE else big (debt trove)) + 2 * big missing.
Proof.
  intros Hm. unfold targetTrove. destruct (targetRatio_total trove total price) as (d & -> & x & Hx). cbn [bind].
  set (start := if Trove.isEmpty trove then mkTrove Decimal.ONE LUSD_LIQUIDATION_RESERVE else trove).
  replace (if Trove.isEmpty trove then _ else Ok trove) with (Ok start)
    by (unfold start; destruct (Trove.isEmpty trove); [by rewrite create_dust|done]).
  cbn [bind].
  assert (Decimal.mul missing (FromNumber "2") = Ok (dec (2 * big missing))) as ->.
  { transitivity (Decimal.mul missing (dec (2 * Decimal.DIGITS))).
    - unfold Decimal.mul. replace (Decimal.from (FromNumber "2")) with (Ok (dec (2 * Decimal.DIGITS))); [done|].
      symmetry. read (Literal "2" None None).
    - rewrite mulE, big_dec by done. rewrite Z.mul_assoc, Z.div_mul by done. do 2 f_equal. lia. }
  cbn [bind]. rewrite adjust_borrow; rewrite big_dec by lia; [|lia]. cbn [bind].
  pose proof (double (big missing) ltac:(lia)) as Hd. pose proof (big_nonneg (debt start)).
  set (owed := dec (big (debt start) + TroveTheory.applied MINIMUM_BORROWING_RATE (2 * big missing))).
  assert (big owed >= big (debt start) + 2 * big missing) as Howed by (unfold owed; rewrite big_dec; lia).
  assert (big (debt start) = if Trove.isEmpty trove then big LUSD_LIQUIDATION_RESERVE else big (debt trove)) as <-
    by (unfold start; by destruct (Trove.isEmpty trove)).
  cbn [debt]. rewrite ltDE. destruct (Z.ltb_spec (big owed) (big LUSD_MINIMUM_DEBT)) as [Hlt|Hge];
    unfold Trove.setDebt; cbn [Decimal.from bind debt collateral].
  - destruct (mulDiv_total LUSD_MINIMUM_DEBT d x price Hx) as [c ->]. cbn [bind].
    unfold Trove.setCollateral; cbn [Decimal.from bind debt]. eexists; split; [done|]. cbn [debt]. lia.
  - destruct (mulDiv_total owed d x price Hx) as [c ->]. cbn [bind].
    unfold Trove.setCollateral; cbn [Decimal.from bind debt]. eexists; split; [done|]. cbn [debt]. lia.
Qed.

(** The LUSD a transaction of the funder brings. *)
Definition borrowed (tx : Tx) : option Decimal :=
  match tx with
  | OpenTrove p _ => Some (c_borrowLUSD p)
  | AdjustTrove p => match a_debt p with Some (BorrowLUSD b) => Some b | _ => None end
  | _ => None
  end.

Lemma recreate_borrows t (rate : Decimal) :
  0 < big (debt t) -> big LUSD_LIQUIDATION_RESERVE <= big (debt t) ->
  Trove.recreate t rate
  = Ok (mkCreation (collateral t) (dec (unapplied rate (big (debt t) - big LUSD_LIQUIDATION_RESERVE)))).
Proof.
  intros Hpos Hd. unfold Trove.recreate, Trove.whatChanged. rewrite !eqDE.
  change (big (debt _emptyTrove)) with 0. destruct (Z.eqb_spec 0 (big (debt t))) as [He|He]; [lia|].
  rewrite andb_false_r, (proj2 (isEmpty_true _) eq_refl), ltDE.
  destruct (Z.ltb_spec (big (debt t)) (big LUSD_LIQUIDATION_RESERVE)); [lia|].
  rewrite netDebtE by done. cbn [bind]. rewrite unapplyFeeE. cbn [bind]. unfold unapplied. by rewrite big_dec by lia.
Qed.

Lemma adjustTo_borrows a b (rate : Decimal) :
  Trove.isEmpty a = false -> big (debt a) < big (debt b) ->
  exists p, Trove.adjustTo a b rate = Ok p /\
    a_debt p = Some (BorrowLUSD (dec (unapplied rate (big (debt b) - big (debt a))))).
Proof.
  intros Ha Hd. pose proof (big_nonneg (debt a)).
  assert (Trove.isEmpty b = false) as Hb.
  { rewrite isEmptyE. destruct (Z.eqb_spec (big (debt b)) 0); [lia|]. apply andb_false_r. }
  unfold Trove.adjustTo, Trove.whatChanged. rewrite Ha, Hb, !eqDE.
  destruct (Z.eqb_spec (big (debt a)) (big (debt b))); [lia|]. rewrite andb_false_r.
  rewrite debtChangeE. destruct (Z.ltb_spec (big (debt a)) (big (debt b))); [|lia]. cbn [bind].
  destruct (_ =? _); cbn [bind]; [by eexists|]. rewrite collateralChangeE. cbn [bind]. by eexists.
Qed.

Lemma fundingTx_borrows trove total (rate price missing : Decimal) :
  0 < big missing -> big rate <= big MAXIMUM_BORROWING_RATE ->
  (Trove.isEmpty trove = false -> big (debt trove) <= big (debt total)) ->
  exists tx b, fundingTx trove total rate price missing = Ok tx /\ borrowed tx = Some b /\
    big missing <= big b.
Proof.
  intros Hm Hr Htotal. unfold fundingTx.
  destruct (targetTrove_debt trove total price missing Hm) as (t & -> & Hmin & Hd). cbn [bind].
  change (big LUSD_MINIMUM_DEBT) with 5100000000000000000 in Hmin.
  destruct (Trove.isEmpty trove) eqn:He.
  - rewrite recreate_borrows; [|lia|unfold LUSD_LIQUIDATION_RESERVE in *; rewrite big_dec in *; lia].
    cbn [rmap bind]. eexists _, _. split; [done|]. split; [done|].
    pose proof (unapplied_half rate (big missing) (big (debt t) - big LUSD_LIQUIDATION_RESERVE) Hr).
    cbn [c_borrowLUSD]. rewrite big_dec; lia.
  - specialize (Htotal eq_refl). pose proof (big_nonneg (debt trove)).
    assert (forall t', big (debt t') = big (debt t) ->
      exists tx b, rmap AdjustTrove (Trove.adjustTo trove t' rate) = Ok tx /\ borrowed tx = Some b /\
        big missing <= big b) as Hadjust.
    { intros t' Ht'. destruct (adjustTo_borrows trove t' rate He) as (p & -> & Hp); [lia|].
      exists (AdjustTrove p). eexists. split; [done|]. cbn [borrowed]. rewrite Hp. split; [done|].
      pose proof (unapplied_half rate (big missing) (big (debt t') - big (debt trove)) Hr).
      rewrite big_dec; lia. }
    rewrite add_troveE. cbn [bind]. rewrite subtract_troveE. cbn [bind]. rewrite !belowCriticalE. cbn [bind].
    destruct (negb _ && _); [|by apply Hadjust]. cbn [debt collateral].
    assert (Decimal.from (FromNumber "1.51") = Ok (dec 1510000000000000000)) as H151
      by read (Literal "1" (Some "51") None).
    match goal with |- context [Decimal.mulDiv ?a (FromNumber "1.51") _] =>
      destruct (mulDiv_total a _ _ price H151) as [c ->] end.
    cbn [bind]. unfold Trove.setCollateral; cbn [Decimal.from bind debt]. rewrite add_troveE. cbn [bind].
    rewrite subtract_troveE. cbn [bind]. apply Hadjust. cbn [debt].
    rewrite !big_dec; rewrite ?big_dec; try blia.
Qed.
End funding.

(** ** Theorem *)

Section covers.
Context `{BNL : BigNumberLaws} {σ : Type}.
Variable C : Chain σ.

(** What the contracts do for the borrower: a transaction that succeeds brings the LUSD. *)
Class Lends : Prop := lends c who tx b gasLimit receipt c' :
  borrowed tx = Some b -> submit C c who tx = (Ok (gasLimit, receipt), c') -> succeeded receipt = true ->
  exists before after, getLUSDBalance C c who = Ok before /\ getLUSDBalance C c' who = Ok after /\
    big after = big before + big b.

(** C40. Whatever amount the fuzzer has to hand out: if the funder has it, nothing is sent; otherwise
    the computed transaction is submitted, and when it succeeds the funder has at least the
    amount.  (The system counts the funder's debt, and time since the last fee is 32-bit minutes.) *)
Theorem funder_covers funder amount (s : State σ) balance trove total fees `{!Lends} :
  getLUSDBalance C (chain s) funder = Ok balance -> getTrove C (chain s) funder = Ok trove ->
  FuzzerChecks.getTotal (readable C (chain s)) = Ok total -> getFees C (chain s) = Ok fees ->
  fees_ok fees -> minutesSince fees (_timeOfLatestBlock fees) <= 4294967295 ->
  big (debt trove) <= big (debt total) ->
  if big balance <? big amount then
    exists tx, ensureFunds C funder amount s = transact C funder tx s /\
      forall s', transact C funder tx s = (Ok tt, s') ->
        exists after, getLUSDBalance C (chain s') funder = Ok after /\ big amount <= big after
  else ensureFunds C funder amount s = (Ok tt, s).
Proof.
  intros Hb Ht Htotal Hf Hok Hmin Hdebt. unfold ensureFunds, bindM, read, getTotal, getThisPrice, lift_, read.
  rewrite Hb. cbn [bind]. rewrite ltDE. destruct (Z.ltb_spec (big balance) (big amount)) as [Hlt|]; [|done].
  rewrite Ht, Htotal, Hf.
  destruct (baseRate_bounds fees None Hok Hmin) as (base & Hbase & _).
  destruct (borrowingRate_bounds fees None base Hbase) as (rate & -> & Hrate).
  assert (big rate <= big MAXIMUM_BORROWING_RATE) as Hmax.
  { destruct (_recoveryMode fees); [subst rate; done|lia]. }
  cbn [bind]. rewrite subE by lia. cbn [bind].
  destruct (fundingTx_borrows trove total rate (price s) (dec (big amount - big balance)))
    as (tx & b & -> & Htx & Hle); [rewrite big_dec; lia|done|done|].
  exists tx. split; [done|]. intros s'. unfold transact.
  destruct (submit C (chain s) funder tx) as [attempt c] eqn:Hsub.
  destruct attempt as [[gl receipt]|]; cbn [bind]; [|done].
  destruct (succeeded receipt) eqn:Hs; [|done]. intros [= <-].
  destruct (lends _ _ _ _ _ _ _ Htx Hsub Hs) as (before & after & Hbefore & Hafter & Hsum).
  exists after. split; [done|]. rewrite Hb in Hbefore. injection Hbefore as <-. rewrite big_dec in Hle; lia.
Qed.
End covers.

(** *** The loop of [order] ends *)

Section order_ends.
Context {σ : Type}.
Variable C : Chain σ.
Variable funder : string.

(** The number of Troves is known, a liquidation that succeeds closes at least one, and the
    chain has no fuel of ours to run out of. *)
Class Liquidates : Prop := {
  counted_troves c : exists n, getNumberOfTroves (readable C c) = Ok n;
  liquidation_closes (k : Z) (s s' : State σ) n n' :
    0 < k -> transact C funder (LiquidateUpTo k) s = (Ok tt, s') ->
    getNumberOfTroves (readable C (chain s)) = Ok n -> getNumberOfTroves (readable C (chain s')) = Ok n' -> n' < n;
  chain_fuel tx s : (transact C funder tx s).1 <> Err OutOfFuel
}.

(** As many rounds as there are Troves are enough: the loop ends with at most one Trove left, or
    with the failure of a transaction. *)
Theorem orderLoop_ends `{!Liquidates} n (s : State σ) fuel :
  getNumberOfTroves (readable C (chain s)) = Ok n -> n < Z.of_nat fuel -> (0 < fuel)%nat ->
  let '(r, s') := orderLoop C funder fuel s in
  r <> Err OutOfFuel /\
  (r = Ok tt -> exists n', getNumberOfTroves (readable C (chain s')) = Ok n' /\ n' <= 1).
Proof.
  revert n s. induction fuel as [|fuel IH]; intros n s Hn Hlt Hpos; [lia|].
  cbn [orderLoop]. unfold bindM, read. rewrite Hn. destruct (Z.ltb_spec 1 n) as [Hmany|].
  2:{ cbn [ret]. unfold ret. split; [done|]. intros _. eauto. }
  set (k := if 10 <? n then 10 else n - 1).
  assert (0 < k) as Hk by (unfold k; destruct (10 <? n); lia).
  pose proof (chain_fuel (LiquidateUpTo k) s) as Hfuel.
  destruct (transact C funder (LiquidateUpTo k) s) as [[[]|e] s1] eqn:Htx; cbn [fst] in Hfuel; [|by split].
  destruct (counted_troves (chain s1)) as [n1 Hn1].
  pose proof (liquidation_closes _ _ _ _ _ Hk Htx Hn Hn1). apply (IH n1); [done|lia|lia].
Qed.
End order_ends.

(** A chain that knows the balance of the funder and nothing else. *)
Definition exampleFees : Fees := onChainFees (dec 30000000000000000) 0 3600.

Definition exampleChain : Chain Decimal :=
  let empty := mkTrove (dec 0) (dec 0) in
  let total := mkTrove (dec 10000000000000000000) (dec 1000000000000000000000) in
  let reads := mkReadable (Ok 0) (Ok Decimal.ONE) (Ok total) (Ok empty) (Ok Decimal.ZERO) (Ok []) in
  mkChain Decimal (fun _ => reads) (fun _ => reads) (fun _ => Ok []) (fun _ => Ok None)
    (fun _ => Ok exampleFees) (fun _ _ => Ok empty) (fun balance _ => Ok balance) (fun _ _ => Ok Decimal.ZERO)
    (fun _ _ => Err Trap) (fun _ _ => Err Trap) (fun _ => Ok empty) (fun _ => Ok empty)
    (fun balance _ tx =>
       (Ok (3000000, mkMined true 200000),
        match borrowed tx with Some b => dec (big balance + big b) | None => balance end)).

#[export] Instance exampleChain_lends : Lends exampleChain.
Proof.
  intros c who tx b gl r c' Hb. cbn. rewrite Hb. intros [= <- <- <-] _.
  eexists _, _. split; [done|]. split; [done|]. by rewrite big_dec by blia.
Qed.

(** The funder has 5 LUSD, needs 100 and has no Trove yet. *)
Definition exampleState : State Decimal :=
  mkState (dec 5000000000000000000) (dec 200000000000000000000) 0 (fun _ => newHistogram) 0.

Lemma funder_covers_witness :
  exists tx, ensureFunds (BN := ZBN) exampleChain "funder" (dec 100000000000000000000) exampleState
             = transact exampleChain "funder" tx exampleState /\
    forall s', transact exampleChain "funder" tx exampleState = (Ok tt, s') ->
      exists after, getLUSDBalance exampleChain (chain s') "funder" = Ok after /\
        100000000000000000000 <= big after.
Proof.
  exact (funder_covers (BNL := ZBN_laws) exampleChain "funder" (dec 100000000000000000000) exampleState
    (dec 5000000000000000000) (mkTrove (dec 0) (dec 0))
    (mkTrove (dec 10000000000000000000) (dec 1000000000000000000000)) exampleFees
    eq_refl eq_refl eq_refl eq_refl eq_refl ltac:(by vm_compute) ltac:(by vm_compute)).
Defined.

(** In recovery mode [cannotAdjust] only asks that the ratio does not fall and stays above the
    minimum, but the contracts allow no withdrawal at all: repaying 500 LUSD with a withdrawal
    of 1 ether is predicted to succeed, and reverts; without the withdrawal it would not. *)
Lemma recovery_withdrawal_mispredicted :
  let ether n := n * 1000000000000000000 in
  let trove := mkTrove (dec (ether 10)) (dec (ether 1000)) in
  let total := mkTrove (dec (ether 100)) (dec (ether 11000)) in
  cannotAdjust (BN := ZBN) total (Ok Decimal.ZERO) (dec (ether 150)) trove
    (mkParams None (Some (dec (ether 1))) None (Some (dec (ether 500)))) = Ok false /\
  BorrowerOperations._adjustTrove LiquityBase.LUSD_GAS_COMPENSATION
    (mkBorrower (ether 150) (ether 100) (ether 11000) 11 11 true (ether 10) (ether 1000) 0 (ether 500))
    (ether 1) (ether 500) false 0 0 = Err Revert /\
  exists o, BorrowerOperations._adjustTrove LiquityBase.LUSD_GAS_COMPENSATION
    (mkBorrower (ether 150) (ether 100) (ether 11000) 11 11 true (ether 10) (ether 1000) 0 (ether 500))
    0 (ether 500) false 0 0 = Ok o.
Proof. split; [by vm_compute|]. split; [by vm_compute|]. eexists. by vm_compute. Qed.

(** A chain that counts its Troves: a liquidation closes one of them. *)
Definition countingChain : Chain Z :=
  let reads n := mkReadable (Ok n) (Err Trap) (Err Trap) (Err Trap) (Err Trap) (Err Trap) in
  mkChain Z reads reads (fun _ => Err Trap) (fun _ => Err Trap) (fun _ => Err Trap) (fun _ _ => Err Trap)
    (fun _ _ => Err Trap) (fun _ _ => Err Trap) (fun _ _ => Err Trap) (fun _ _ => Err Trap)
    (fun _ => Err Trap) (fun _ => Err Trap) (fun n _ _ => (Ok (3000000, mkMined true 200000), n - 1)).

#[export] Instance countingChain_liquidates funder : Liquidates countingChain funder.
Proof.
  split.
  - intros c. by eexists.
  - intros k s s' n n' _ [= <-]. cbn. intros [= <-] [= <-]. lia.
  - intros tx s. done.
Qed.

Lemma orderLoop_ends_witness :
  let '(r, s') := orderLoop countingChain "funder" 13
      (mkState 12 (dec 200000000000000000000) 0 (fun _ => newHistogram) 0) in
  r <> Err OutOfFuel /\
  (r = Ok tt -> exists n', getNumberOfTroves (readable countingChain (chain s')) = Ok n' /\ n' <= 1).
Proof.
  exact (orderLoop_ends countingChain "funder" 12
    (mkState 12 (dec 200000000000000000000) 0 (fun _ => newHistogram) 0) 13 eq_refl eq_refl ltac:(lia)).
Defined.
