(* ===== verification/Liqbot.v ===== *)
(** * The liquidation bot

    [packages/examples/src/liqbot.js]: when the price drops the bot looks for Troves under the
    minimum collateral ratio, estimates what liquidating the largest of them costs and earns,
    and sends the transaction if it pays.  The connection and the population of the transaction
    are what [World] answers; [chalk]'s colours are a parameter, and the time that starts every line
    of the log is left out. *)

From S2P Require Import Prelude JsString BigNumber Decimal DecimalArith DecimalText Constants LiquityMath.
From S2P Require Import Trove TroveTheory Liquidation.
From Stdlib Require Import Ascii String.
From stdpp Require Import list sorting.

Local Open Scope string_scope.
Local Open Scope list_scope.
Local Open Scope Z_scope.

(** ** The bot *)

Record Chalk := mkChalk {
  red : string -> string; blue : string -> string; green : string -> string;
  yellow : string -> string; bold : string -> string
}.

(** The details of a liquidation the bot shows. *)
Record Details := mkDetails {
  collateralGasCompensation : Decimal; lusdGasCompensation : Decimal; liquidatedAddresses : list string
}.

Inductive Receipt :=
| Failed (transactionHash : string)
| Succeeded (gasUsed : Z) (details : Details).

(** What the world answers.  The price in the store can change at every wait: when the Troves
    have been fetched, when the transaction has been populated, when it has been mined. *)
Record World := mkWorld {
  getGasPrice : result Z;
  getTroves : result (list UserTrove);
  populate_liquidate : list string -> string -> result Z;
  send_ : result unit;
  waitForReceipt : result Receipt;
  price_fetched : Decimal;
  price_populated : Decimal;
  price_mined : Decimal
}.

(** What the bot does: log a message, send a transaction, show an error. *)
Inductive Action :=
| Log (message : string)
| Send (addresses : list string)
| ConsoleError (err : error).

#[export] Instance Action_eq_dec : EqDecision Action.
Proof. solve_decision. Defined.

Section liqbot.
Context `{BN : BigNumber}.
Variable chalk : Chalk.

Definition info (message : string) : Action := Log (blue chalk "ℹ" +:+ " " +:+ message).
Definition warn (message : string) : Action := Log (yellow chalk "‼" +:+ " " +:+ message).
Definition error_ (message : string) : Action := Log (red chalk "✖" +:+ " " +:+ message).
Definition success (message : string) : Action := Log (green chalk "✔" +:+ " " +:+ message).

(** The subscription of [main]: a price drop. *)
Definition priceDrops (newPrice oldPrice : Decimal) : bool := Decimal.ltD newPrice oldPrice.

Definition underCollateralized (price : Decimal) (trove : UserTrove) : result bool :=
  Trove.collateralRatioIsBelowMinimum (ut_trove trove) price.

Definition byDescendingCollateral (a b : UserTrove) : Z :=
  let a := collateral (ut_trove a) in
  let b := collateral (ut_trove b) in
  if Decimal.gtD b a then 1 else if Decimal.ltD b a then -1 else 0.

(** [filter] with a test that can throw. *)
Fixpoint filterR {A} (f : A -> result bool) (l : list A) : result (list A) :=
  match l with
  | [] => Ok []
  | a :: l => let* b := f a in let* l := filterR f l in Ok (if b then a :: l else l)
  end.

(** [sort], which is stable. *)
Fixpoint insertTrove (t : UserTrove) (l : list UserTrove) : list UserTrove :=
  match l with
  | [] => [t]
  | t' :: l' => if 0 <? byDescendingCollateral t t' then t' :: insertTrove t l' else t :: l
  end.
Definition sortTroves (l : list UserTrove) : list UserTrove := fold_right insertTrove [] l.

Definition select (price : Decimal) (riskiestTroves : list UserTrove) : result (list UserTrove) :=
  let* under := filterR (underCollateralized price) riskiestTroves in
  Ok (take 40 (sortTroves under)).

(** [troves.reduce((a, b) => a.add(b))] *)
Definition sumTroves (troves : list UserTrove) : result Trove :=
  match troves with
  | [] => Err (JsError "Reduce of empty array with no initial value")
  | t :: ts => foldl (fun a b => let* a := a in Trove.add a (ut_trove b)) (Ok (ut_trove t)) ts
  end.

(** A [number] that is a non-negative integer. *)
Definition integer (n : Z) : Decimalish := FromNumber (numeral_show 10 n).

Definition expectedCostOf (gasPrice price : Decimal) (gasLimit : Z) : result Decimal :=
  let* gasLimit := bn_toNumber gasLimit in
  let* eth := Decimal.mul gasPrice (integer gasLimit) in Decimal.mul eth price.

Definition expectedCompensationOf (price : Decimal) (troves : list UserTrove) : result Decimal :=
  let* total := sumTroves troves in
  let* eth := Decimal.mul (collateral total) (FromNumber "0.005") in
  let* usd := Decimal.mul eth price in
  let* reserves := Decimal.mul LUSD_LIQUIDATION_RESERVE (integer (Z.of_nat (List.length troves))) in
  Decimal.add usd reserves.

Definition skipMessage (expectedCost expectedCompensation : Decimal) : result string :=
  let* c := Decimal.toString expectedCost (Some 2) in
  let* e := Decimal.toString expectedCompensation (Some 2) in
  Ok ("Skipping liquidation due to high TX cost " +:+ "($" +:+ c +:+ " > $" +:+ e +:+ ").").

Definition successMessage (gasPrice price : Decimal) (gasUsed : Z) (d : Details) : result string :=
  let* gasUsed := bn_toNumber gasUsed in
  let* eth := Decimal.mul gasPrice (integer gasUsed) in
  let* gasCost := Decimal.mul eth price in
  let* coll := Decimal.mul (collateralGasCompensation d) price in
  let* totalCompensation := Decimal.add coll (lusdGasCompensation d) in
  let* ethText := Decimal.toString (collateralGasCompensation d) (Some 4) in
  let* lusdText := Decimal.toString (lusdGasCompensation d) (Some 2) in
  let* outcome :=
    if Decimal.gteD totalCompensation gasCost then
      let* profit := Decimal.sub totalCompensation gasCost in
      let* t := Decimal.toString profit (Some 2) in Ok (green chalk ("$" +:+ t) +:+ " profit")
    else
      let* loss := Decimal.sub gasCost totalCompensation in
      let* t := Decimal.toString loss (Some 2) in Ok (red chalk ("$" +:+ t) +:+ " loss") in
  Ok ("Received " +:+ bold chalk (ethText +:+ " ETH") +:+ " + " +:+ bold chalk (lusdText +:+ " LUSD") +:+
      " compensation (" +:+ outcome +:+ ") for liquidating " +:+
      numeral_show 10 (Z.of_nat (List.length (liquidatedAddresses d))) +:+ " Trove(s).").

(** The body of the [try]: what is done until it returns or throws. *)
Definition liquidate (w : World) (gasPrice : Decimal) (troves : list UserTrove) : list Action * result unit :=
  let addresses := map ownerAddress troves in
  match
    (let* gasLimit := populate_liquidate w addresses (Decimal.hex gasPrice) in
     let* expectedCost := expectedCostOf gasPrice (price_populated w) gasLimit in
     let* expectedCompensation := expectedCompensationOf (price_populated w) troves in
     if Decimal.gtD expectedCost expectedCompensation then
       rmap Some (skipMessage expectedCost expectedCompensation)
     else Ok None)
  with
  | Err e => ([], Err e)
  | Ok (Some message) => ([warn message], Ok tt)
  | Ok None =>
      let attempting := info ("Attempting to liquidate " +:+
                              numeral_show 10 (Z.of_nat (List.length troves)) +:+ " Trove(s)...") in
      match send_ w with
      | Err e => ([attempting; Send addresses], Err e)
      | Ok _ =>
          match waitForReceipt w with
          | Err e => ([attempting; Send addresses], Err e)
          | Ok (Failed hash) => ([attempting; Send addresses; error_ ("TX " +:+ hash +:+ " failed.")], Ok tt)
          | Ok (Succeeded gasUsed details) =>
              match successMessage gasPrice (price_mined w) gasUsed details with
              | Err e => ([attempting; Send addresses], Err e)
              | Ok message => ([attempting; Send addresses; success message], Ok tt)
              end
          end
      end
  end.

Definition tryToLiquidate (w : World) : result (list Action) :=
  let* gasPrice := getGasPrice w in
  let* gasPrice := Decimal.fromBigNumberString (bn_toHexString gasPrice) in
  let* riskiestTroves := getTroves w in
  let* troves := select (price_fetched w) riskiestTroves in
  match troves with
  | [] => Ok []
  | _ =>
      let '(actions, r) := liquidate w gasPrice troves in
      match r with
      | Ok _ => Ok actions
      | Err e => Ok (actions ++ [error_ "Unexpected error:"; ConsoleError e])
      end
  end.
End liqbot.

(** ** What the bot promises *)

Section promises.
Context `{BNL : BigNumberLaws}.
Implicit Types t : UserTrove.

Definition coll t : Z := big (collateral (ut_trove t)).

Lemma from_integer n : 0 <= n -> Decimal.from (integer n) = Ok (dec (n * Decimal.DIGITS)).
Proof.
  intros Hn. unfold integer. cbn [Decimal.from].
  rewrite (read_constant (Literal (numeral_show 10 n) None None)).
  - unfold literal_value, mantissa_value; cbn [l_int l_frac l_exp]. rewrite numeral_show_val by lia.
    by rewrite Z.add_0_r.
  - unfold literal_ok; cbn [l_int l_frac l_exp default]. by rewrite numeral_show_ok by lia.
  - unfold has_coefficient, print_mantissa; cbn [l_int l_frac]. rewrite append_nil_r.
    by rewrite (proj2 (String.eqb_neq _ _) (numeral_show_nonempty 10 n)).
  - unfold print_literal, print_mantissa; cbn [l_int l_frac l_exp]. by rewrite !append_nil_r.
Qed.

Lemma mul_from (x : Decimal) (y : Decimalish) (d : Decimal) :
  Decimal.from y = Ok d -> Decimal.mul x y = Ok (dec (big x * big d / Decimal.DIGITS)).
Proof. intros Hy. rewrite <- mulE. unfold Decimal.mul. by rewrite Hy. Qed.

Lemma mul_integer (d : Decimal) n : 0 <= n -> Decimal.mul d (integer n) = Ok (dec (big d * n)).
Proof.
  intros Hn. rewrite (mul_from _ _ _ (from_integer n Hn)), big_dec by (unfold Decimal.DIGITS; lia).
  by rewrite Z.mul_assoc, Z.div_mul.
Qed.

(** *** Choosing *)

Definition risky (price : Decimal) t : bool := ratio (ut_trove t) price <? big MINIMUM_COLLATERAL_RATIO.

Lemma filterE price l : filterR (underCollateralized price) l = Ok (List.filter (risky price) l).
Proof.
  induction l as [|t l IH]; cbn [filterR List.filter]; [done|]. unfold underCollateralized at 1.
  rewrite belowMinimumE. cbn [bind]. rewrite IH. cbn [bind]. fold (risky price t). by destruct (risky price t).
Qed.

Lemma descending t t' : (0 <? byDescendingCollateral t t') = (coll t <? coll t').
Proof.
  unfold byDescendingCollateral. rewrite gtDE, ltDE. fold (coll t) (coll t').
  destruct (Z.ltb_spec (coll t) (coll t')); [done|]. by destruct (Z.ltb_spec (coll t') (coll t)).
Qed.

Definition larger t t' : Prop := coll t' <= coll t.

Lemma insertTrove_perm t l : insertTrove t l ≡ₚ t :: l.
Proof.
  induction l as [|t' l IH]; cbn [insertTrove]; [done|]. destruct (0 <? _); [|done].
  rewrite IH. apply Permutation_swap.
Qed.

Lemma sortTroves_perm l : sortTroves l ≡ₚ l.
Proof. induction l as [|t l IH]; cbn; [done|]. by rewrite insertTrove_perm, IH. Qed.

Lemma insertTrove_sorted t l : StronglySorted larger l -> StronglySorted larger (insertTrove t l).
Proof.
  induction 1 as [|t' l Hs IH Hl]; cbn [insertTrove]; [by repeat constructor|].
  rewrite descending. destruct (Z.ltb_spec (coll t) (coll t')) as [Hlt|Hle].
  - constructor; [done|]. rewrite insertTrove_perm. constructor; [unfold larger; lia|done].
  - constructor; [by constructor|]. constructor; [done|]. eapply Forall_impl; [exact Hl|].
    unfold larger. intros. cbn in *. lia.
Qed.

Lemma sortTroves_sorted l : StronglySorted larger (sortTroves l).
Proof. induction l; cbn; [constructor|by apply insertTrove_sorted]. Qed.

(** The chosen Troves among those under the minimum ratio. *)
Definition choice (price : Decimal) (riskiest chosen rest : list UserTrove) : Prop :=
  chosen ++ rest ≡ₚ List.filter (risky price) riskiest /\
  (List.length chosen <= 40)%nat /\ (List.length chosen = 40%nat \/ rest = []) /\
  forall t t', t ∈ chosen -> t' ∈ rest -> coll t' <= coll t.

Lemma select_choice price riskiest chosen :
  select price riskiest = Ok chosen -> exists rest, choice price riskiest chosen rest.
Proof.
  unfold select. rewrite filterE. cbn [bind]. intros [= <-].
  set (l := List.filter _ _). exists (drop 40 (sortTroves l)).
  pose proof (sortTroves_sorted l) as Hs. rewrite <- (take_drop 40 (sortTroves l)) in Hs.
  split_and!.
  - by rewrite take_drop, sortTroves_perm.
  - rewrite length_take. lia.
  - rewrite length_take. destruct (Nat.le_ge_cases 40 (List.length (sortTroves l))); [left; lia|right].
    by apply drop_ge.
  - intros t t' Ht Ht'. by apply (StronglySorted_app_1_elem_of _ _ _ _ _ Hs).
Qed.

(** *** Cost and compensation *)

Definition sum (f : UserTrove -> Z) (l : list UserTrove) : Z := foldr (fun t z => f t + z) 0 l.

Lemma sum_nonneg f l : (forall t, 0 <= f t) -> 0 <= sum f l.
Proof. intros H. unfold sum. induction l as [|t l IH]; cbn [foldr]; [lia|]. specialize (H t). lia. Qed.

Lemma sumTrovesE t ts : exists d, sumTroves (t :: ts) = Ok (mkTrove (dec (sum coll (t :: ts))) d).
Proof.
  cbn [sumTroves]. unfold sum; cbn [foldr]; fold (sum coll ts).
  replace (dec (coll t + sum coll ts)) with (dec (big (collateral (ut_trove t)) + sum coll ts)) by done.
  generalize (ut_trove t) as a. clear t. induction ts as [|t ts IH]; intros a; cbn [foldl].
  - exists (debt a). cbn [sum foldr]. rewrite Z.add_0_r, dec_big. by destruct a.
  - cbn [bind]. rewrite add_troveE. destruct (IH (mkTrove (dec (big (collateral a) + coll t)) (dec (big (debt a) + big (debt (ut_trove t)))))) as [d Hd].
    exists d. unfold coll at 1 in Hd. cbn [collateral] in Hd. rewrite big_dec in Hd by (unfold coll; blia).
    unfold sum in *; cbn [foldr]. rewrite Z.add_assoc. exact Hd.
Qed.

(** What the contracts pay for liquidating the Troves, in dollars at the price: a 200th of each
    collateral, rounded down, and the reserve of each. *)
Definition contractsPay (price : Decimal) (l : list UserTrove) : Z :=
  sum (fun t => Liquidation._getCollGasCompensation (coll t)) l * big price / Decimal.DIGITS +
  Z.of_nat (List.length l) * LiquityBase.LUSD_GAS_COMPENSATION.

Lemma sum_200th l :
  sum coll l / 200 <= sum (fun t => Liquidation._getCollGasCompensation (coll t)) l + Z.of_nat (List.length l).
Proof.
  induction l as [|t l IH]; [done|]. cbn [sum foldr List.length].
  fold (sum coll l). fold (sum (fun t => Liquidation._getCollGasCompensation (coll t)) l).
  unfold Liquidation._getCollGasCompensation at 1, Liquidation.PERCENT_DIVISOR.
  set (T := sum (fun t => _) l) in *. generalize dependent T. intros T IH.
  pose proof (Z.div_mod (coll t + sum coll l) 200 ltac:(done)).
  pose proof (Z.div_mod (coll t) 200 ltac:(done)). pose proof (Z.div_mod (sum coll l) 200 ltac:(done)).
  pose proof (Z.mod_pos_bound (coll t + sum coll l) 200 ltac:(done)).
  pose proof (Z.mod_pos_bound (coll t) 200 ltac:(done)). pose proof (Z.mod_pos_bound (sum coll l) 200 ltac:(done)).
  lia.
Qed.

Lemma compensationE price l c :
  l <> [] -> expectedCompensationOf price l = Ok c ->
  big c = sum coll l / 200 * big price / Decimal.DIGITS +
          Z.of_nat (List.length l) * big LUSD_LIQUIDATION_RESERVE.
Proof.
  destruct l as [|t ts]; [done|]. intros _. unfold expectedCompensationOf.
  destruct (sumTrovesE t ts) as [d ->]. cbn [bind collateral].
  assert (0 <= sum coll (t :: ts)) by (apply sum_nonneg; intros; unfold coll; blia).
  generalize dependent (sum coll (t :: ts)). intros total Htotal.
  set (n := Z.of_nat (List.length (t :: ts))). assert (0 <= n) by (unfold n; lia). clearbody n.
  rewrite (mul_from _ _ (dec 5000000000000000)) by read (Literal "0" (Some "005") None).
  cbn [bind]. rewrite !big_dec by done. rewrite mulE. cbn [bind]. rewrite mul_integer by done. cbn [bind].
  rewrite addE. intros [= <-].
  replace (total * 5000000000000000 / Decimal.DIGITS) with (total / 200)
    by (change Decimal.DIGITS with (200 * 5000000000000000); by rewrite Z.div_mul_cancel_r).
  assert (0 <= total / 200) by (apply Z.div_pos; lia).
  assert (0 <= total / 200 * big price / Decimal.DIGITS) by (apply Z.div_pos; [bnia|done]).
  rewrite (big_dec (total / 200)), (big_dec (_ / Decimal.DIGITS)) by done.
  rewrite !big_dec; bnia.
Qed.

(** The estimate never exceeds what the contracts pay: they keep half an LUSD for every Trove, the
    bot counts a tenth, and that covers its rounding. *)
Lemma estimate_paid price l c :
  l <> [] -> big price <= 400000000000000000000000000000000000 ->
  expectedCompensationOf price l = Ok c -> big c <= contractsPay price l.
Proof.
  intros Hl Hp Hc. rewrite (compensationE price l c Hl Hc). unfold contractsPay.
  pose proof (sum_200th l) as Hs. set (T := sum (fun t => _) l) in *. set (n := Z.of_nat (List.length l)) in *.
  assert (0 <= n) by (unfold n; lia). pose proof (big_nonneg price).
  change (big LUSD_LIQUIDATION_RESERVE) with 100000000000000000.
  change LiquityBase.LUSD_GAS_COMPENSATION with 500000000000000000.
  assert (sum coll l / 200 * big price / Decimal.DIGITS <= T * big price / Decimal.DIGITS + n * 400000000000000000); [|lia].
  rewrite <- Z.div_add by done. apply Z.div_le_mono; [done|]. unfold Decimal.DIGITS. nia.
Qed.

(** The cost of a transaction that uses all its gas. *)
Lemma costE gasPrice price gasLimit c :
  0 <= gasLimit -> expectedCostOf gasPrice price gasLimit = Ok c ->
  big c = big gasPrice * gasLimit * big price / Decimal.DIGITS.
Proof.
  intros Hg. unfold expectedCostOf. rewrite bn_toNumberE. destruct (_ <? _); [|done]. cbn [bind].
  rewrite mul_integer by done. cbn [bind]. rewrite mulE. intros [= <-].
  rewrite !big_dec; [done|bnia|]. rewrite big_dec by bnia. apply Z.div_pos; [bnia|done].
Qed.

(** A transaction is only sent after it has been found to pay. *)
Lemma liquidate_sends chalk w gasPrice troves addresses :
  Send addresses ∈ (liquidate chalk w gasPrice troves).1 ->
  addresses = map ownerAddress troves /\
  exists gasLimit cost compensation,
    populate_liquidate w addresses (Decimal.hex gasPrice) = Ok gasLimit /\
    expectedCostOf gasPrice (price_populated w) gasLimit = Ok cost /\
    expectedCompensationOf (price_populated w) troves = Ok compensation /\
    big cost <= big compensation.
Proof.
  unfold liquidate. destruct (populate_liquidate _ _ _) as [gasLimit|] eqn:Hgas; cbn [bind]; [|set_solver].
  destruct (expectedCostOf _ _ _) as [cost|] eqn:Hcost; cbn [bind]; [|set_solver].
  destruct (expectedCompensationOf _ _) as [comp|] eqn:Hcomp; cbn [bind]; [|set_solver].
  rewrite gtDE. destruct (Z.ltb_spec (big comp) (big cost)).
  { destruct (skipMessage _ _); cbn; set_solver. }
  intros Hsend. assert (addresses = map ownerAddress troves) as ->; [|split; [done|]; by exists gasLimit, cost, comp].
  destruct (send_ w); [destruct (waitForReceipt w) as [[hash|g d]|]; [|destruct (successMessage _ _ _ _)|]|];
    cbn in Hsend; unfold info, error_, success in Hsend; set_solver.
Qed.

(** C21. Whenever the bot sends a transaction, it liquidates between one and forty of the
    fetched Troves under the minimum ratio, none with less collateral than one it
    leaves, leaving some only when it takes forty; and what the transaction costs when it uses all
    its gas is at most what the contracts pay for those Troves. *)
Theorem bot_sends_what_pays chalk w actions addresses :
  (forall g, getGasPrice w = Ok g -> 0 <= g) ->
  (forall a p g, populate_liquidate w a p = Ok g -> 0 <= g) ->
  big (price_populated w) <= 400000000000000000000000000000000000 ->
  tryToLiquidate chalk w = Ok actions -> Send addresses ∈ actions ->
  exists gasPrice gasLimit riskiest chosen rest,
    getGasPrice w = Ok gasPrice /\ getTroves w = Ok riskiest /\
    populate_liquidate w addresses (bn_toHexString gasPrice) = Ok gasLimit /\
    addresses = map ownerAddress chosen /\ chosen <> [] /\
    choice (price_fetched w) riskiest chosen rest /\
    gasPrice * gasLimit * big (price_populated w) / Decimal.DIGITS <= contractsPay (price_populated w) chosen.
Proof.
  intros Hgas Hlimit Hprice. unfold tryToLiquidate.
  destruct (getGasPrice w) as [g|]; [|done]. specialize (Hgas g eq_refl). cbn [bind].
  unfold Decimal.fromBigNumberString. rewrite bn_from_toHexString by done. cbn [bind]. rewrite newE by done.
  cbn [bind]. destruct (getTroves w) as [riskiest|]; [|done]. cbn [bind].
  destruct (select _ _) as [chosen|] eqn:Hsel; [|done]. cbn [bind].
  destruct (select_choice _ _ _ Hsel) as [rest Hchoice].
  destruct (decide (chosen = [])) as [->|Hne]; [intros [= <-]; set_solver|].
  intros Hact Hsend.
  assert (Send addresses ∈ (liquidate chalk w (dec g) chosen).1) as Hs.
  { destruct chosen; [done|]. destruct (liquidate chalk w (dec g) _) as [acts [|]]; injection Hact as <-; [done|].
    cbn. unfold error_ in Hsend. set_solver. }
  apply liquidate_sends in Hs as (Ha & limit & cost & comp & Hpop & Hcost & Hcomp & Hle).
  exists g, limit, riskiest, chosen, rest. split_and!; try done.
  - rewrite <- Hpop. unfold Decimal.hex. by rewrite big_dec.
  - specialize (Hlimit _ _ _ Hpop). pose proof (costE _ _ _ _ Hlimit Hcost) as Hc. rewrite big_dec in Hc by done.
    rewrite <- Hc. etrans; [exact Hle|]. by apply estimate_paid.
Qed.
End promises.

(** One Trove at 100% and one at 200%; the transaction is mined. *)
Definition exampleWorld : World :=
  let ether n := dec (n * 1000000000000000000) in
  mkWorld (Ok 1000000000)
    (Ok [mkUserTrove (mkTrove (ether 1) (ether 200)) "0x1" open;
         mkUserTrove (mkTrove (ether 2) (ether 200)) "0x2" open])
    (fun _ _ => Ok 300000) (Ok tt)
    (Ok (Succeeded 250000 (mkDetails (dec 5000000000000000) (dec 500000000000000000) ["0x1"])))
    (ether 200) (ether 200) (ether 200).

Definition plain : Chalk := let id s := s in mkChalk id id id id id.

Lemma bot_sends_what_pays_witness :
  tryToLiquidate (BN := ZBN) plain exampleWorld
  = Ok [Log "ℹ Attempting to liquidate 1 Trove(s)..."; Send ["0x1"];
        Log "✔ Received 0.0050 ETH + 0.50 LUSD compensation ($1.45 profit) for liquidating 1 Trove(s)."] /\
  exists gasPrice gasLimit chosen, chosen <> [] /\ ["0x1"] = map ownerAddress chosen /\
    gasPrice * gasLimit * big (price_populated exampleWorld) / Decimal.DIGITS
    <= contractsPay (price_populated exampleWorld) chosen.
Proof.
  assert (tryToLiquidate (BN := ZBN) plain exampleWorld
    = Ok [Log "ℹ Attempting to liquidate 1 Trove(s)..."; Send ["0x1"];
        Log "✔ Received 0.0050 ETH + 0.50 LUSD compensation ($1.45 profit) for liquidating 1 Trove(s)."]) as Hrun
    by by vm_compute.
  split; [exact Hrun|].
  destruct (bot_sends_what_pays (BNL := ZBN_laws) plain exampleWorld _ ["0x1"]
    ltac:(by intros ? [= <-]) ltac:(by intros ? ? ? [= <-]) ltac:(vm_compute; discriminate) Hrun
    ltac:(right; left)) as (g & l & _ & chosen & _ & _ & _ & _ & Ha & Hne & _ & Hle).
  exists g, l, chosen. split_and!; done.
Defined.
